(* ===== verification/_CoqProject ===== *)
-Q . S2P
Prelude.v
Bytes.v
Sha2.v
Gcm.v
Encoding.v
Strconv.v
Json.v
Codec.v
GoTime.v
Kdf.v
Curve.v
Identity.v
SafetyNumber.v
Vault.v
X3dh.v
Ratchet.v
Conversation.v
OutOfOrder.v
Desync.v
Session.v
WellTyped.v
Filetransfer.v
Messaging.v
Mailbox.v
Url.v
Contact.v
Settings.v
Emoji.v
Storage.v
Transport.v
Conn.v
Signaling.v
Account.v
Proc.v
Node.v
NodeLink.v
NodeFile.v
NodeHop.v
LinkProc.v
NodeOffline.v
Paths.v
Demo.v
Live.v
Prog.v
Libsignal.v
Webrtc.v
Dht.v
Runtime.v
Events.v
Roles.v
Stream.v
Host.v
Moves.v
Ledger.v
Crew.v
System.v
Delivery.v
Parcels.v
Bindings.v
Startup.v
Engines.v
