(* ===== verification/Prelude.v ===== *)
(** * Stunner core: a verification development

    Stunner is a peer-to-peer messenger.  Its core is the Go code under
    [src/core]: cryptography, messages and files, contacts and storage,
    signaling and transport, nodes and links between them, the engine that runs
    them in the background, and the bindings the app calls.  This library
    models that code and proves what makes it correct - and, where it is not,
    the theorem that says so.

    ** How the parts work together

    An account ([account]) owns an identity ([identity]) sealed in the vault
    ([vault]), prekeys ([crypto/x3dh.go]) and a contact book ([contact]).  A
    node ([node]) is an account with a session store ([crypto/session.go]): two
    nodes that share a connection ([transport], negotiated over [signaling])
    run the X3DH handshake, which gives each a Double Ratchet session
    ([crypto/ratchet.go]), and from then on exchange frames that hold sealed
    envelopes ([messaging]) - texts, receipts, and files in chunks
    ([filetransfer]).  A message for somebody who is away waits in a mailbox
    ([mailbox]).  The engine ([runtime]) keeps the links by fingerprint, sends
    and receives in goroutines, stores ([storage]) what the app asks it to, and
    tells the app what happened through a queue of events that the bindings
    ([ffi], [mobile]) poll.

    ** Files, in order, and the code they model

    Foundations.
    - [Prelude]: bytes, slices, results, the state-and-error monad [M] and its
      invariants ([keeps]), the tape that stands for [crypto/rand], loops with
      fuel, machine integers, automation.
    - [Bytes], [Encoding], [Strconv], [Json], [Codec], [GoTime], [Url], [Paths]:
      what the code uses of Go's standard library - big-endian integers, hex,
      base64 and base32, number formatting, [encoding/json] in two layers (text
      and trees, trees and Go values), RFC 3339 times, [net/url],
      [path/filepath].
    - [Sha2], [Gcm]: SHA-256, SHA-512, HMAC and AES-256-GCM, executable; the
      constants are computed from their definition.
    - [Curve]: X25519 and Ed25519 as the class [Curves] with the laws
      [CurveLaws]; [ToyCurves] implements them for the instances.
    - [Proc]: a goroutine on one connection as a process that sends, receives
      and closes; two of them on a reliable connection ([duo]).
    - [Prog]: programs whose operations are answered by an environment, pools of
      them that run in any interleaving, what a thread owes ([owes], [tidy]) and
      what it can do alone ([alone]).

    Cryptography and data.
    - [Kdf] ([crypto/kdf.go]), [Identity] ([identity]), [SafetyNumber]
      ([safetynumber]), [Vault] ([vault]), [X3dh] ([crypto/x3dh.go]).
    - [Ratchet] ([crypto/ratchet.go], [wire.go]) with three files of theorems:
      [Conversation] (two ratchets are two FIFO channels), [OutOfOrder] (any
      order of delivery within the window, skipped keys), [Desync] (what forgeries and replays do).
    - [Session] ([crypto/session.go]) and [WellTyped] (what every session of a
      store looks like).
    - [Libsignal] ([crypto/libsignal]): the alternative session store over a
      library that is a class, [LibSignal].
    - [Filetransfer] ([filetransfer], [crypto/crypto.go]), [Messaging]
      ([messaging]), [Mailbox] ([mailbox]), [Contact] ([contact]), [Settings]
      ([settings]), [Emoji] ([emoji]), [Storage] ([storage]), [Account]
      ([account], [core], results of [netcheck]).

    Network.
    - [Transport] ([transport/inproc.go], the adapter of [pion.go]) and [Conn],
      the interface [transport.Conn] as a class that both of them implement;
      [Webrtc] ([Dial] and [Accept], and the probe of [netcheck]), [Signaling]
      ([signaling/memory.go], queues and frames of [libp2p.go]), [Dht] (the host
      of [libp2p.go]).

    Nodes and engine.
    - [Node] ([node]) with [NodeLink], [NodeFile], [NodeHop], [NodeOffline]:
      envelopes, files, conversations and offline messages between two nodes.
    - [Demo] and [Live] ([cmd/stunnerd]): all of it in one program, over the
      pipe ([run]) and over a connection the transport made ([runLive]).
    - [LinkProc]: the calls of a link, one after the other, as processes on a
      connection.
    - [Runtime] ([runtime]), [Events] (the JSON of its events), [Startup]
      ([Start], the key file, settings and state), [Engines] (the engine's
      programs on a node's link, by a handler of their operations).
    - [Roles], [Stream], [Host], [Moves], [Ledger], [Crew], [System],
      [Delivery], [Parcels]: all of it at once.  [Roles] says what each program
      of the engine may do, as an automaton every program follows; [Stream] what
      a link carries (a text, a receipt, an offer and its chunks, one file after
      the other), as an automaton over frames; [Host] is a machine - one engine,
      its goroutines, the node's link and [sendMu]; [Moves] is where a call of
      the link stands in that stream; [Ledger] is the account of one machine,
      what was asked, sealed, read, written and shown, and the chunks a file
      still owes; [Crew] is what holds of one machine in every interleaving;
      [System] is two machines on a connection; [Delivery] and [Parcels] are what
      the two applications can count on, for texts and for files.

    Interfaces of the code are classes with their laws where a client is proved
    against them: [Conn] ([transport.Conn]; the pipe and two data-channel
    adapters keep it), [Mailbox] ([mailbox.Mailbox]; the in-memory relay),
    [Store] ([storage.Store]; the file store), [Curves] and [LibSignal] (the
    libraries).
    - [Bindings] ([ffi], [mobile], and the Dart code that reads their replies).

    A method of a receiver is a function in [M] over the receiver's record; the
    state is returned with an error too, because Go keeps the writes made
    before it.  Shared pointers are addresses in a heap ([Session]), a [select]
    with several ready cases is a relation ([Transport]), a goroutine that waits
    is a process or a program.  Names are the code's; [set_f] writes the field
    [f].

    ** What the theorems show

    A theorem numbered C1, C2, ... in its comment is one of the main properties.
    - From application to application ([texts_end_to_end],
      [delivered_means_shown], [sent_means_shown], [files_end_to_end]): two
      nodes link over any connection that keeps the contract of [Conn], their
      engines run in any interleaving, and the texts an application is shown are
      texts the other one sent, unchanged, in order and once; a file that is
      announced is one the other application asked to send, its octets those
      that were read, at the path that is announced; a DELIVERED tick names a
      message or file the peer's application was shown; and once the connection
      is drained, every text and every file that was reported sent has been
      shown - a file, if it has at most 2^46 octets and the disk took it.
    - Delivery: ratchets ([conversation_fifo], [chain_any_order]), sessions
      ([handshake_conversation]), links ([links_deliver_envelopes]), files
      ([file_transfer], [Split_Reassemble], [Reassemble_sound]), mailboxes
      ([offline_delivery]), from one application to the other and back
      ([message_confirmed]), and the whole pipeline ([demo_succeeds],
      [live_succeeds]).
    - Identity: [connect_establishes], [connect_rejects_impostor],
      [tofu_pins_key], [contact_uri_roundtrip], [safety_number_agrees]; and where
      it is not guaranteed: [Accept_trusts_claimed_key],
      [new_session_trusts_any_key], [shown_fingerprint_forgeable].
    - State: [store_well_typed], [skip_bounded], [registry_routing];
      and what damages it: [forged_header_commits], [responder_first_is_public].
    - The engine under every interleaving: [no_link_leaks],
      [unregistered_link_closes], [deliver_verdict], [inbound_effects],
      [events_delivered_once], [saved_file_stays_inside], [engines_accounted];
      [runs_in_pool] carries them to an engine over a node's link.
    - Resources of the network: [dial_settles], [new_dht_settles]
      (with the one path that leaves the DHT unclosed).
    - Persistence and formats: [store_durable], [account_persists],
      [restart_resumes], [app_state_survives], [vault_seal_open],
      [poll_reply_read], [hkdf_rfc5869].

    ** Hypotheses, bounds and fuel

    Third-party code is a parameter.  The curves obey [CurveLaws]: lengths,
    agreement of Diffie-Hellman, verification of signatures; nothing is assumed
    about secrecy.  Theorems about a DH step assume that the new key is not the
    old one, as a random generator makes it; theorems that need randomness say
    how many octets, and a read past the end of the tape is the error of
    [crypto/rand].  The WebRTC library, libp2p, the operating system and, in the
    engine, the links answer anything the types allow.  In [System] the link is
    the node's, and only the rest of an engine's surroundings is free; a session
    there is one link: no other is made to the same peer while it lasts,
    [Connect] returns a link to the peer it was asked for and a file that is
    read fits a Go slice ([env_ok]), texts are valid UTF-8 and carry an id
    ([valid_req]), and each machine has randomness and counters left for the
    frames it will write ([ready]).

    Loops: [while] takes its number of turns from the state - [until - nr] for
    [skip], ten for [itoa], the length of the input for the parsers and the
    block loops - and for each a lemma shows that the loop has ended by then
    ([while_exit], [skip_bounded], [hkdf_rfc5869]), or the result is shown to be
    what the specification says.  [uint32] counters wrap ([w32]); where a theorem
    excludes that, it bounds the counter by [counter_limit].

    [libp2p.New] calls its [Routing] option at most once ([new_dht]).  The panic
    of an impossible [make] is an error of the call it ends ([ReceiveFileBody]).

    The mutexes make critical sections atomic: [sendMu] a whole send ([Host] takes it when
    a method of the link that writes begins, and gives it up at its end), [mu] of the
    engine each access to its tables, [rtMu] the parts of the bindings.

    ** Not modelled

    - Secrecy and strength of the cryptography.
    - [cmd/stunnerd]: flags, printing, and the data channel of [runLive], which is
      a reliable connection here.
    - [StunnerFree], which only frees memory; Go's garbage collector, stack and
      memory limits, but for the panic of an impossible [make].
    - Go's nil maps: a stored document whose map is [null] is read with an empty
      map here ([dec_map]); in Go the next write to it panics.  The store itself
      never writes one.
    - Timing: a timeout is an answer the environment may give at any time.
    - The interfaces that have no implementation ([messaging.Service],
      [mobile.EventHandler]) and the WebRTC and libp2p internals.
    - The Flutter app, but for the functions that read the bindings' replies. *)

From Stdlib Require Export ZArith Strings.Byte Strings.String Lia.
From stdpp Require Export base gmap sets strings countable.
From stdpp Require Export list.
Export list_basics.list list_misc.list list_monad.list list_relations.list.

(** ** Bytes and Go strings

    A Go [[]byte] and a Go [string] are both a sequence of octets. *)

Abbreviation byte := Byte.byte.
Abbreviation bytes := (list Byte.byte).

#[global] Instance byte_eq_dec : EqDecision byte := Byte.byte_eq_dec.
#[global] Instance byte_countable : Countable byte :=
  inj_countable Byte.to_N Byte.of_N Byte.of_to_N.

(** The bytes of a source literal. *)
Definition bs (s : string) : bytes := String.list_byte_of_string s.

(** A Go slice that the source compares with [nil]. *)
Abbreviation slice := (option (list Byte.byte)).

(** What [len], [append] and the callees see of a possibly nil slice. *)
Definition sl (s : slice) : bytes := match s with Some b => b | None => [] end.

(** ** Errors

    A Go error is known to its callers by its message; a sentinel such as
    [contact.ErrKeyChanged] is the message it was made with. *)

Abbreviation error := (list Byte.byte).

Inductive result (A : Type) : Type :=
  | Ok (a : A)
  | Err (e : error).
Arguments Ok {A} a.
Arguments Err {A} e.

Definition bindR {A B} (m : result A) (k : A → result B) : result B :=
  match m with Ok a => k a | Err e => Err e end.

Definition is_ok {A} (m : result A) : bool :=
  match m with Ok _ => true | Err _ => false end.

Definition of_option {A} (e : error) (o : option A) : result A :=
  match o with Some a => Ok a | None => Err e end.

(** ** Stateful code

    A method that mutates its receiver and may fail: the state is returned on
    the error path too, because Go keeps the writes made before a
    [return err]. *)

Definition M (S A : Type) : Type := S → result A * S.

Definition retM {S A} (a : A) : M S A := λ s, (Ok a, s).
Definition failM {S A} (e : error) : M S A := λ s, (Err e, s).
Definition bindM {S A B} (m : M S A) (k : A → M S B) : M S B :=
  λ s, match m s with (Ok a, s') => k a s' | (Err e, s') => (Err e, s') end.
Definition getM {S} : M S S := λ s, (Ok s, s).
Definition modifyM {S} (f : S → S) : M S unit := λ s, (Ok tt, f s).
Definition liftM {S A} (r : result A) : M S A := λ s, (r, s).

(** A method on one component of a product state. *)
Definition on_fst {S T A} (m : M S A) : M (S * T) A :=
  λ '(s, t), let '(r, s') := m s in (r, (s', t)).
Definition on_snd {S T A} (m : M T A) : M (S * T) A :=
  λ '(s, t), let '(r, t') := m t in (r, (s, t')).

Declare Scope go_scope.
Delimit Scope go_scope with go.
Notation "'let?' x ':=' m 'in' k" := (bindR m (λ x, k))
  (at level 10, x binder, m at level 100, k at level 200) : go_scope.
Notation "'let*' x ':=' m 'in' k" := (bindM m (λ x, k))
  (at level 10, x binder, m at level 100, k at level 200) : go_scope.
Open Scope go_scope.

(** *** Invariants of stateful code

    [m] keeps [I], also when it fails, and what it returns satisfies [Q]. *)
Definition keeps {S A} (I : S → Prop) (m : M S A) (Q : A → Prop) : Prop :=
  ∀ s, I s → I (m s).2 ∧ ∀ a, (m s).1 = Ok a → Q a.

Section keeps.
Context {S T A B : Type} (I : S → Prop).

Lemma keeps_ret (a : A) (Q : A → Prop) : Q a → keeps I (retM a) Q.
Proof. intros HQ s Hs. split; [done|]. by intros ? [= <-]. Qed.

Lemma keeps_fail (e : error) (Q : A → Prop) : keeps I (failM e) Q.
Proof. by intros s Hs. Qed.

Lemma keeps_lift (r : result A) (Q : A → Prop) : (∀ a, r = Ok a → Q a) → keeps I (liftM r) Q.
Proof. intros HQ s Hs. by split. Qed.

Lemma keeps_get : keeps I getM I.
Proof. intros s Hs. split; [done|]. by intros ? [= <-]. Qed.

Lemma keeps_modify (f : S → S) (Q : unit → Prop) : (∀ s, I s → I (f s)) → Q tt → keeps I (modifyM f) Q.
Proof. intros Hf HQ s Hs. split; [by apply Hf|]. by intros [] _. Qed.

Lemma keeps_bind (m : M S A) (k : A → M S B) (Q : A → Prop) (R : B → Prop) :
  keeps I m Q → (∀ a, Q a → keeps I (k a) R) → keeps I (bindM m k) R.
Proof.
  intros Hm Hk s Hs. destruct (Hm s Hs) as [H1 H2]. unfold bindM.
  destruct (m s) as [[a|e] s']; [apply Hk; [by apply H2|done]|done].
Qed.

Lemma keeps_weaken (m : M S A) (Q R : A → Prop) : keeps I m Q → (∀ a, Q a → R a) → keeps I m R.
Proof. intros Hm HQ s Hs. destruct (Hm s Hs) as [? ?]. eauto. Qed.

Lemma keeps_fst (m : M S A) (Q : A → Prop) : keeps I m Q → keeps (λ s : S * T, I s.1) (on_fst m) Q.
Proof. intros Hm [s t] Hs. destruct (Hm s Hs). unfold on_fst. by destruct (m s). Qed.

Lemma keeps_snd (m : M T A) (Q : A → Prop) :
  (∀ t a t', m t = (Ok a, t') → Q a) → keeps (λ s : S * T, I s.1) (on_snd m) Q.
Proof. intros Hm [s t] Hs. unfold on_snd. destruct (m t) as [r t'] eqn:E. split; [done|]. cbn. intros a ->. eauto. Qed.
End keeps.

(** ** Randomness

    [crypto/rand.Reader] is a tape of octets that a read consumes. *)

Abbreviation tape := (list Byte.byte).

Definition rand_read (n : nat) : M tape bytes := λ t,
  if decide (n ≤ length t) then (Ok (take n t), drop n t)
  else (Err (bs "unexpected EOF"), []).

Lemma rand_read_enough n t : n ≤ length t → rand_read n t = (Ok (take n t), drop n t).
Proof. intros. unfold rand_read. by rewrite decide_True. Qed.

Lemma rand_read_Ok n t b t' :
  rand_read n t = (Ok b, t') → n ≤ length t ∧ b = take n t ∧ t' = drop n t.
Proof. unfold rand_read. case_decide; [|done]. by intros [= <- <-]. Qed.

(** A read of [n] octets whose error is dropped: the rest of the buffer stays zero. *)
Definition rand_fill (n : nat) : M tape bytes := λ t,
  (Ok (take n t ++ replicate (n - length t) "000"%byte), drop n t).

(** ** Loops

    [while fuel c body] runs a Go [for c { body }]; the lemmas below show
    when the fuel is enough. *)

Fixpoint while {S} (fuel : nat) (c : S → bool) (body : S → S) (s : S) : S :=
  match fuel with
  | O => s
  | Datatypes.S f => if c s then while f c body (body s) else s
  end.

Section while.
Context {S : Type} (c : S → bool) (body : S → S).

(** Any measure the body decreases bounds the number of iterations. *)
Lemma while_exit (m : S → nat) (fuel : nat) (s : S) :
  (∀ s, c s = true → m (body s) < m s) → m s ≤ fuel →
  c (while fuel c body s) = false.
Proof.
  intros Hdec. revert s. induction fuel as [|f IH]; intros s Hle; simpl.
  - destruct (c s) eqn:E; [|done]. specialize (Hdec s E). lia.
  - destruct (c s) eqn:E; [|done]. apply IH. specialize (Hdec s E). lia.
Qed.

Lemma while_inv (I : S → Prop) (fuel : nat) (s : S) :
  (∀ s, I s → c s = true → I (body s)) → I s → I (while fuel c body s).
Proof.
  intros Hstep. revert s. induction fuel as [|f IH]; intros s HI; simpl; [done|].
  destruct (c s) eqn:E; [|done]. by apply IH, Hstep.
Qed.

Lemma while_done (fuel : nat) (s : S) : c s = false → while fuel c body s = s.
Proof. intros E. destruct fuel; simpl; [done|by rewrite E]. Qed.

Lemma while_step (fuel : nat) (s : S) :
  c s = true → while (Datatypes.S fuel) c body s = while fuel c body (body s).
Proof. intros E. simpl. by rewrite E. Qed.
End while.

(** ** Machine integers *)

Definition w32 (z : Z) : Z := (z mod 2 ^ 32)%Z.
Definition w64 (z : Z) : Z := (z mod 2 ^ 64)%Z.

Lemma w32_small z : (0 ≤ z < 2 ^ 32)%Z → w32 z = z.
Proof. apply Z.mod_small. Qed.

Lemma w32_range z : (0 ≤ w32 z < 2 ^ 32)%Z.
Proof. by apply Z.mod_pos_bound. Qed.

Lemma lt_32_64 z : (0 ≤ z < 2 ^ 32)%Z → (0 ≤ z < 2 ^ 64)%Z.
Proof.
  change (2 ^ 32)%Z with 4294967296%Z. change (2 ^ 64)%Z with 18446744073709551616%Z. lia.
Qed.

(** ** Lemmas on results *)

Lemma bindR_Ok {A B} (m : result A) (k : A → result B) b :
  bindR m k = Ok b ↔ ∃ a, m = Ok a ∧ k a = Ok b.
Proof.
  destruct m as [a|e]; simpl;
    (split; [intros; eauto; done|by intros (? & [= ->] & ?)]).
Qed.

Lemma Ok_inj {A} (x y : A) : Ok x = Ok y → x = y.
Proof. by intros [= ->]. Qed.

Lemma is_ok_true {A} (m : result A) : is_ok m = true ↔ ∃ a, m = Ok a.
Proof. destruct m; simpl; (split; [intros; eauto; done|by intros [? [=]]]). Qed.

(** ** Lists *)

(** Induction in steps of at most [n] elements, for block encodings. *)
Lemma list_len_ind {A} (P : list A → Prop) :
  (∀ l, (∀ l', length l' < length l → P l') → P l) → ∀ l, P l.
Proof.
  intros H l. remember (length l) as n eqn:E. revert l E.
  induction (lt_wf n) as [n _ IH]. intros l ->. apply H.
  intros l' Hl. by apply (IH (length l')).
Qed.

Lemma sublist_flat_map {A B} (f : A → list B) l l' : l `sublist_of` l' → flat_map f l `sublist_of` flat_map f l'.
Proof.
  induction 1 as [|x l l' _ IH|x l l' _ IH]; cbn; [done| |by apply sublist_inserts_l]. by apply sublist_app.
Qed.

Lemma Forall2_sublist_r {A B} (R : A → B → Prop) l k k' :
  Forall2 R l k → k' `sublist_of` k → ∃ l', l' `sublist_of` l ∧ Forall2 R l' k'.
Proof.
  intros Hf. revert k'. induction Hf as [|x y l k Hxy _ IH]; intros k' Hs.
  - apply sublist_nil_r in Hs as ->. by exists [].
  - apply sublist_cons_r in Hs as [Hs|(k2 & -> & Hs)]; destruct (IH _ Hs) as (l' & H1 & H2).
    + exists l'. split; [by apply sublist_cons|done].
    + exists (x :: l'). split; [by apply sublist_skip|by constructor].
Qed.

(** ** Automation *)

Create HintDb stunner.
Create Rewrite HintDb stunner.
#[export] Hint Resolve w32_range : stunner.

(** Invert a chain of [let?] that returned [Ok]. *)
Ltac inv_ok :=
  repeat match goal with
  | H : bindR _ _ = Ok _ |- _ => apply bindR_Ok in H as (? & ? & H)
  | H : Ok _ = Ok _ |- _ => apply Ok_inj in H
  | H : Err _ = Ok _ |- _ => discriminate H
  end; simplify_eq.

(** Run the plumbing of a stateful definition. *)
Ltac run_M :=
  unfold bindM, retM, failM, liftM, getM, modifyM, on_fst, on_snd in *;
  cbv beta iota in *.

(** Linear arithmetic with division and modulus by constants. *)
Ltac zlia := Z.div_mod_to_equations; lia.

(** Case analysis on every branch of the goal, closing the absurd ones. *)
Ltac cases :=
  repeat (case_match || case_decide); simplify_eq/=; try done.
