(* ===== verification/Bytes.v ===== *)
(** * Bytes and fixed-width integers

    The value of an octet, [bytes.Compare], [encoding/binary]'s big-endian
    puts and [encoding/hex]. *)

From S2P Require Import Prelude.
Open Scope Z_scope.

(** ** Octets as integers *)

Definition Zb (b : byte) : Z := Z.of_N (Byte.to_N b).

(** Go's [byte(z)]: the low eight bits. *)
Definition bZ (z : Z) : byte :=
  match Byte.of_N (Z.to_N (z mod 256)) with Some b => b | None => "000"%byte end.

Lemma Zb_range b : 0 ≤ Zb b < 256.
Proof. unfold Zb. pose proof (Byte.to_N_bounded b). lia. Qed.

Lemma bZ_Zb b : bZ (Zb b) = b.
Proof.
  unfold bZ. rewrite Z.mod_small by apply Zb_range. unfold Zb.
  by rewrite N2Z.id, Byte.of_to_N.
Qed.

Lemma Zb_bZ z : Zb (bZ z) = z mod 256.
Proof.
  unfold bZ. pose proof (Z.mod_pos_bound z 256 eq_refl) as Hr.
  destruct (Byte.of_N _) as [b|] eqn:E.
  - apply Byte.to_of_N in E. unfold Zb. rewrite E. lia.
  - apply Byte.of_N_None_iff in E. lia.
Qed.

Lemma Zb_inj b1 b2 : Zb b1 = Zb b2 → b1 = b2.
Proof. intros H. by rewrite <-(bZ_Zb b1), <-(bZ_Zb b2), H. Qed.

Lemma bZ_mod z : bZ (z mod 256) = bZ z.
Proof. apply Zb_inj. rewrite !Zb_bZ. by rewrite Z.mod_mod. Qed.

Lemma Zb_bZ_small z : 0 ≤ z < 256 → Zb (bZ z) = z.
Proof. intros. rewrite Zb_bZ. by apply Z.mod_small. Qed.

#[export] Hint Resolve Zb_range : stunner.

(** ** Exclusive or *)

Definition byte_xor (a b : byte) : byte := bZ (Z.lxor (Zb a) (Zb b)).

Lemma lxor_range_pow2 (n a b : Z) :
  0 ≤ n → 0 ≤ a < 2 ^ n → 0 ≤ b < 2 ^ n → 0 ≤ Z.lxor a b < 2 ^ n.
Proof.
  intros Hn Ha Hb.
  rewrite <-(Z.mod_small a (2 ^ n)), <-(Z.mod_small b (2 ^ n)) by done.
  rewrite <-!Z.land_ones by done.
  assert (Z.lxor (Z.land a (Z.ones n)) (Z.land b (Z.ones n))
          = Z.land (Z.lxor a b) (Z.ones n)) as ->.
  { apply Z.bits_inj'. intros i Hi. rewrite !Z.lxor_spec, !Z.land_spec, Z.lxor_spec.
    by destruct (Z.testbit a i), (Z.testbit b i), (Z.testbit (Z.ones n) i). }
  rewrite Z.land_ones by done. apply Z.mod_pos_bound. lia.
Qed.

Lemma Zb_byte_xor a b : Zb (byte_xor a b) = Z.lxor (Zb a) (Zb b).
Proof.
  unfold byte_xor. apply Zb_bZ_small.
  apply (lxor_range_pow2 8); [lia|apply Zb_range..].
Qed.

Lemma byte_xor_involutive k b : byte_xor k (byte_xor k b) = b.
Proof.
  apply Zb_inj. rewrite !Zb_byte_xor, <-Z.lxor_assoc.
  by rewrite Z.lxor_nilpotent, Z.lxor_0_l.
Qed.

Lemma byte_xor_eq_0 a b : Zb (byte_xor a b) = 0 ↔ a = b.
Proof.
  rewrite Zb_byte_xor, Z.lxor_eq_0_iff. split; [apply Zb_inj|by intros ->].
Qed.

Definition xor_bytes (a b : bytes) : bytes := zip_with byte_xor a b.

Lemma xor_bytes_involutive k m :
  (length m ≤ length k)%nat → xor_bytes k (xor_bytes k m) = m.
Proof.
  unfold xor_bytes. revert k. induction m as [|b m IH]; intros [|x k] H; simpl in *;
    try done; [lia|]. rewrite byte_xor_involutive, IH by lia. done.
Qed.

Lemma length_xor_bytes a b :
  (length b ≤ length a)%nat → length (xor_bytes a b) = length b.
Proof. intros. unfold xor_bytes. rewrite length_zip_with. lia. Qed.

(** ** [bytes.Compare] *)

Fixpoint bytes_compare (a b : bytes) : comparison :=
  match a, b with
  | [], [] => Eq
  | [], _ :: _ => Lt
  | _ :: _, [] => Gt
  | x :: a, y :: b =>
    match Zb x ?= Zb y with Eq => bytes_compare a b | c => c end
  end.

(** Go's [a <= b] on strings and [bytes.Compare(a, b) <= 0]. *)
Definition bytes_leb (a b : bytes) : bool :=
  match bytes_compare a b with Gt => false | _ => true end.

Definition bytes_ltb (a b : bytes) : bool :=
  match bytes_compare a b with Lt => true | _ => false end.

Lemma bytes_compare_eq a b : bytes_compare a b = Eq ↔ a = b.
Proof.
  revert b. induction a as [|x a IH]; intros [|y b]; simpl; try (split; congruence).
  destruct (Zb x ?= Zb y) eqn:E.
  - apply Z.compare_eq, Zb_inj in E as ->. rewrite IH. split; congruence.
  - split; [done|]. intros [= -> ->]. by rewrite Z.compare_refl in E.
  - split; [done|]. intros [= -> ->]. by rewrite Z.compare_refl in E.
Qed.

Lemma bytes_compare_antisym a b : bytes_compare b a = CompOpp (bytes_compare a b).
Proof.
  revert b. induction a as [|x a IH]; intros [|y b]; simpl; try done.
  rewrite (Z.compare_antisym (Zb x) (Zb y)).
  destruct (Zb x ?= Zb y); simpl; done.
Qed.

Lemma bytes_compare_lt_trans a b c :
  bytes_compare a b = Lt → bytes_compare b c = Lt → bytes_compare a c = Lt.
Proof.
  revert b c. induction a as [|x a IH]; intros [|y b] [|z c]; simpl; try done.
  destruct (Z.compare_spec (Zb x) (Zb y)), (Z.compare_spec (Zb y) (Zb z)); try done;
    destruct (Z.compare_spec (Zb x) (Zb z)); try done; try lia.
  intros. by eapply IH.
Qed.

(** The two orders of a pair agree on which comes first unless they are equal. *)
Lemma bytes_leb_total a b : bytes_leb a b = false → bytes_leb b a = true.
Proof.
  unfold bytes_leb. rewrite (bytes_compare_antisym a b).
  by destruct (bytes_compare a b).
Qed.

Lemma bytes_leb_antisym a b : bytes_leb a b = true → bytes_leb b a = true → a = b.
Proof.
  unfold bytes_leb. rewrite (bytes_compare_antisym a b).
  destruct (bytes_compare a b) eqn:E; try done. by apply bytes_compare_eq in E.
Qed.

(** ** Big-endian integers *)

(** [binary.BigEndian.PutUintN] with [n] octets. *)
Fixpoint be_bytes (n : nat) (z : Z) : bytes :=
  match n with
  | O => []
  | S n => bZ (z / 2 ^ (8 * Z.of_nat n)) :: be_bytes n z
  end.

(** [binary.BigEndian.UintN]. *)
Definition of_be (l : bytes) : Z := fold_left (λ acc b, acc * 256 + Zb b) l 0.

Lemma length_be_bytes n z : length (be_bytes n z) = n.
Proof. induction n; simpl; congruence. Qed.

Lemma of_be_acc l acc :
  fold_left (λ acc b, acc * 256 + Zb b) l acc
  = acc * 2 ^ (8 * Z.of_nat (length l)) + of_be l.
Proof.
  unfold of_be. revert acc. induction l as [|b l IH]; intros acc; simpl fold_left.
  - simpl length. lia.
  - rewrite IH, (IH (0 * 256 + _)). simpl length.
    replace (8 * Z.of_nat (S (length l))) with (8 + 8 * Z.of_nat (length l)) by lia.
    rewrite Z.pow_add_r by lia. change (2 ^ 8) with 256. ring.
Qed.

Lemma of_be_cons b l : of_be (b :: l) = Zb b * 2 ^ (8 * Z.of_nat (length l)) + of_be l.
Proof. unfold of_be at 1. simpl. rewrite of_be_acc. done. Qed.

Lemma of_be_range l : 0 ≤ of_be l < 2 ^ (8 * Z.of_nat (length l)).
Proof.
  induction l as [|b l IH]; [done|]. rewrite of_be_cons. simpl length.
  pose proof (Zb_range b).
  replace (8 * Z.of_nat (S (length l))) with (8 + 8 * Z.of_nat (length l)) by lia.
  rewrite Z.pow_add_r by lia. change (2 ^ 8) with 256. nia.
Qed.

Lemma of_be_be_bytes n z : of_be (be_bytes n z) = z mod 2 ^ (8 * Z.of_nat n).
Proof.
  induction n as [|n IH]; [by rewrite Z.mod_1_r|].
  simpl be_bytes. rewrite of_be_cons, IH, length_be_bytes, Zb_bZ.
  replace (8 * Z.of_nat (S n)) with (8 * Z.of_nat n + 8) by lia.
  rewrite Z.pow_add_r by lia. change (2 ^ 8) with 256.
  rewrite Z.rem_mul_r by lia. lia.
Qed.

Lemma of_be_be_bytes_small n z :
  0 ≤ z < 2 ^ (8 * Z.of_nat n) → of_be (be_bytes n z) = z.
Proof. intros. rewrite of_be_be_bytes. by apply Z.mod_small. Qed.

Lemma be_bytes_add_high n k z : be_bytes n (k * 2 ^ (8 * Z.of_nat n) + z) = be_bytes n z.
Proof.
  revert k. induction n as [|n IH]; intros k; [done|]. simpl be_bytes.
  replace (8 * Z.of_nat (S n)) with (8 + 8 * Z.of_nat n) by lia.
  rewrite Z.pow_add_r by lia. change (2 ^ 8) with 256.
  rewrite Z.mul_assoc. f_equal; [|by rewrite IH].
  rewrite Z.div_add_l by lia. rewrite <-bZ_mod, <-(bZ_mod (z / _)).
  f_equal. by rewrite Z.add_comm, Z.mod_add.
Qed.

Lemma be_bytes_of_be l : be_bytes (length l) (of_be l) = l.
Proof.
  induction l as [|b l IH]; [done|]. simpl length. simpl be_bytes.
  rewrite of_be_cons, be_bytes_add_high, IH. f_equal.
  pose proof (of_be_range l). rewrite Z.div_add_l by lia.
  rewrite (Z.div_small (of_be l)) by done. rewrite Z.add_0_r. apply bZ_Zb.
Qed.

Lemma be_bytes_inj n z1 z2 :
  0 ≤ z1 < 2 ^ (8 * Z.of_nat n) → 0 ≤ z2 < 2 ^ (8 * Z.of_nat n) →
  be_bytes n z1 = be_bytes n z2 → z1 = z2.
Proof.
  intros H1 H2 E. rewrite <-(of_be_be_bytes_small n z1), <-(of_be_be_bytes_small n z2) by done.
  by rewrite E.
Qed.

(** ** [encoding/hex] *)

Definition hex_digit (v : Z) : byte :=
  if v <? 10 then bZ (48 + v) else bZ (87 + v).

Definition hex_encode (l : bytes) : bytes :=
  flat_map (λ b, [hex_digit (Zb b / 16); hex_digit (Zb b mod 16)]) l.

Lemma Zb_hex_digit v :
  0 ≤ v < 16 → Zb (hex_digit v) = if v <? 10 then 48 + v else 87 + v.
Proof. intros. unfold hex_digit. destruct (v <? 10); apply Zb_bZ_small; lia. Qed.

Lemma hex_digit_inj v w :
  0 ≤ v < 16 → 0 ≤ w < 16 → hex_digit v = hex_digit w → v = w.
Proof.
  intros Hv Hw E%(f_equal Zb). rewrite !Zb_hex_digit in E by lia.
  destruct (Z.ltb_spec v 10), (Z.ltb_spec w 10); lia.
Qed.

Lemma length_hex_encode l : length (hex_encode l) = (2 * length l)%nat.
Proof. induction l; simpl; lia. Qed.

Lemma hex_encode_inj a b : hex_encode a = hex_encode b → a = b.
Proof.
  revert b. induction a as [|x a IH]; intros [|y b]; simpl; try done.
  intros [= E1 E2 E3]. f_equal; [|by apply IH].
  pose proof (Zb_range x). pose proof (Zb_range y).
  apply Zb_inj.
  apply hex_digit_inj in E1, E2; zlia.
Qed.

(** Hex digits are never the [:] the skipped-key index uses as separator. *)
Lemma hex_encode_no_colon l : ":"%byte ∉ hex_encode l.
Proof.
  induction l as [|b l IH]; simpl; [by apply not_elem_of_nil|].
  pose proof (Zb_range b).
  rewrite !not_elem_of_cons. split_and!; [..|done];
    intros E%(f_equal Zb); rewrite Zb_hex_digit in E by zlia;
    change (Zb ":") with 58 in E;
    match type of E with _ = (if ?c then _ else _) => destruct c eqn:?; lia end.
Qed.
