(* ===== verification/Sha2.v ===== *)
(** * SHA-2 and HMAC

    An executable model of what the core uses of [crypto/sha256],
    [crypto/sha512] and [crypto/hmac] (FIPS 180-4, RFC 2104), generic in the
    word width and checked against published test vectors. *)

From S2P Require Import Prelude Bytes.
Open Scope Z_scope.

(** ** The compression function *)

Record sha_params := ShaParams {
  sp_w : Z;               (** word width in bits *)
  sp_wb : nat;            (** word width in octets *)
  sp_block : nat;         (** block size in octets *)
  sp_S0 : Z * Z * Z;      (** rotations of big sigma 0 *)
  sp_S1 : Z * Z * Z;      (** rotations of big sigma 1 *)
  sp_s0 : Z * Z * Z;      (** two rotations and a shift of small sigma 0 *)
  sp_s1 : Z * Z * Z;
  sp_K : list Z;
}.

(** The eight working words. *)
Record words := Words { wa : Z; wb : Z; wc : Z; wd : Z; we : Z; wf : Z; wg : Z; wh : Z }.

Section sha.
Context (P : sha_params).
Let mask : Z := Z.ones (sp_w P).

Definition trunc (x : Z) : Z := Z.land x mask.
Definition rotr (n x : Z) : Z :=
  Z.lor (Z.shiftr x n) (trunc (Z.shiftl x (sp_w P - n))).
Definition big_sigma (r : Z * Z * Z) (x : Z) : Z :=
  let '(a, b, c) := r in Z.lxor (rotr a x) (Z.lxor (rotr b x) (rotr c x)).
Definition small_sigma (r : Z * Z * Z) (x : Z) : Z :=
  let '(a, b, c) := r in Z.lxor (rotr a x) (Z.lxor (rotr b x) (Z.shiftr x c)).
Definition ch (x y z : Z) : Z := Z.lxor z (Z.land x (Z.lxor y z)).
Definition maj (x y z : Z) : Z := Z.lor (Z.land x y) (Z.land z (Z.lor x y)).

(** One round with the schedule as a sliding window of sixteen words. *)
Definition round (st : words * list Z) (k : Z) : words * list Z :=
  let '(s, win) := st in
  let wt := nth 0 win 0 in
  let t1 := wh s + big_sigma (sp_S1 P) (we s) + ch (we s) (wf s) (wg s) + k + wt in
  let t2 := big_sigma (sp_S0 P) (wa s) + maj (wa s) (wb s) (wc s) in
  let next := trunc (small_sigma (sp_s1 P) (nth 14 win 0) + nth 9 win 0
                     + small_sigma (sp_s0 P) (nth 1 win 0) + wt) in
  (Words (trunc (t1 + t2)) (wa s) (wb s) (wc s) (trunc (wd s + t1)) (we s) (wf s) (wg s),
   tail win ++ [next]).

Definition add_words (x y : words) : words :=
  Words (trunc (wa x + wa y)) (trunc (wb x + wb y)) (trunc (wc x + wc y))
        (trunc (wd x + wd y)) (trunc (we x + we y)) (trunc (wf x + wf y))
        (trunc (wg x + wg y)) (trunc (wh x + wh y)).

Fixpoint be_words (n : nat) (l : bytes) : list Z :=
  match n with
  | O => []
  | S n => of_be (take (sp_wb P) l) :: be_words n (drop (sp_wb P) l)
  end.

Definition compress (s : words) (blk : bytes) : words :=
  add_words s (fst (fold_left round (sp_K P) (s, be_words 16 blk))).

(** The message, a one bit, zeros, and the bit length on two words. *)
Definition sha_pad (m : bytes) : bytes :=
  let blk := Z.of_nat (sp_block P) in
  let used := Z.of_nat (length m) + 1 + 2 * Z.of_nat (sp_wb P) in
  m ++ "128"%byte :: replicate (Z.to_nat ((- used) mod blk)) "000"%byte
    ++ be_bytes (2 * sp_wb P) (8 * Z.of_nat (length m)).

Fixpoint sha_blocks (fuel : nat) (s : words) (m : bytes) : words :=
  match fuel, m with
  | S fuel, _ :: _ => sha_blocks fuel (compress s (take (sp_block P) m)) (drop (sp_block P) m)
  | _, _ => s
  end.

Definition sha_digest (iv : words) (m : bytes) : bytes :=
  let p := sha_pad m in
  let s := sha_blocks (length p) iv p in
  let w := be_bytes (sp_wb P) in
  w (wa s) ++ w (wb s) ++ w (wc s) ++ w (wd s) ++ w (we s) ++ w (wf s) ++ w (wg s) ++ w (wh s).

Lemma length_sha_digest iv m : length (sha_digest iv m) = (8 * sp_wb P)%nat.
Proof. unfold sha_digest. rewrite !length_app, !length_be_bytes. lia. Qed.
End sha.

(** ** The constants

    The first bits of the fractional parts of the square and cube roots of the
    first primes (FIPS 180-4, 4.2 and 5.3), which is how they are computed. *)

Definition is_prime (n : Z) : bool :=
  forallb (λ d, negb (n mod Z.of_nat d =? 0)) (seq 2 (Z.to_nat (Z.sqrt n) - 1)).

Definition primes (k : nat) : list Z :=
  take k (filter is_prime (map Z.of_nat (seq 2 410))).

(** The integer cube root, bit by bit from the highest. *)
Fixpoint cbrt_from (bits : nat) (n acc : Z) : Z :=
  match bits with
  | O => acc
  | S b =>
    let t := acc + 2 ^ Z.of_nat b in
    cbrt_from b n (if t * t * t <=? n then t else acc)
  end.

(** The first [w] bits after the binary point. *)
Definition cbrt_bits (w p : Z) : Z := cbrt_from (Z.to_nat w + 4) (p * 2 ^ (3 * w)) 0 mod 2 ^ w.
Definition sqrt_bits (w p : Z) : Z := Z.sqrt (p * 2 ^ (2 * w)) mod 2 ^ w.

Definition round_constants (w : Z) (rounds : nat) : list Z := map (cbrt_bits w) (primes rounds).

Definition initial_words (w : Z) : words :=
  match map (sqrt_bits w) (primes 8) with
  | [a; b; c; d; e; f; g; h] => Words a b c d e f g h
  | _ => Words 0 0 0 0 0 0 0 0
  end.

(** ** SHA-256 *)

Definition sha256_K : list Z := Eval vm_compute in round_constants 32 64.

Definition sha256_params : sha_params := ShaParams 32 4 64
  (2, 13, 22) (6, 11, 25) (7, 18, 3) (17, 19, 10)
  sha256_K.

Definition sha256_iv : words := Eval vm_compute in initial_words 32.

Definition sha256 (m : bytes) : bytes := sha_digest sha256_params sha256_iv m.

(** ** SHA-512 *)

Definition sha512_K : list Z := Eval vm_compute in round_constants 64 80.

Definition sha512_params : sha_params := ShaParams 64 8 128
  (28, 34, 39) (14, 18, 41) (1, 8, 7) (19, 61, 6)
  sha512_K.

Definition sha512_iv : words := Eval vm_compute in initial_words 64.

Definition sha512 (m : bytes) : bytes := sha_digest sha512_params sha512_iv m.

Lemma length_sha256 m : length (sha256 m) = 32%nat.
Proof. apply length_sha_digest. Qed.

Lemma length_sha512 m : length (sha512 m) = 64%nat.
Proof. apply length_sha_digest. Qed.

(** ** HMAC-SHA256 *)

Definition hmac_pad (key : bytes) : bytes :=
  let k := if decide (64 < length key)%nat then sha256 key else key in
  k ++ replicate (64 - length k) "000"%byte.

Definition hmac (key m : bytes) : bytes :=
  let k := hmac_pad key in
  let ipad := map (byte_xor "054"%byte) k in
  let opad := map (byte_xor "092"%byte) k in
  sha256 (opad ++ sha256 (ipad ++ m)).

Lemma length_hmac k m : length (hmac k m) = 32%nat.
Proof. apply length_sha256. Qed.

#[export] Hint Rewrite length_sha256 length_sha512 length_hmac : stunner.

(** From here on the digests are used through their lengths alone. *)
#[global] Opaque sha256 sha512 hmac.

(** ** Test vectors *)

Example sha256_abc :
  hex_encode (sha256 (bs "abc"))
  = bs "ba7816bf8f01cfea414140de5dae2223b00361a396177a9cb410ff61f20015ad".
Proof. vm_compute. reflexivity. Qed.

Example sha256_two_blocks :
  hex_encode (sha256 (bs "abcdbcdecdefdefgefghfghighijhijkijkljklmklmnlmnomnopnopq"))
  = bs "248d6a61d20638b8e5c026930c3e6039a33ce45964ff2167f6ecedd419db06c1".
Proof. vm_compute. reflexivity. Qed.

Example sha512_abc :
  take 32 (hex_encode (sha512 (bs "abc"))) = bs "ddaf35a193617abacc417349ae204131".
Proof. vm_compute. reflexivity. Qed.

(** RFC 4231, test case 2. *)
Example hmac_jefe :
  hex_encode (hmac (bs "Jefe") (bs "what do ya want for nothing?"))
  = bs "5bdcc146bf60754e6a042426089575c75a003f089d2739839dec58b964ec3843".
Proof. vm_compute. reflexivity. Qed.
