(* ===== verification/Gcm.v ===== *)
(** * AES-256-GCM

    An executable model of what the core uses of [crypto/aes] and
    [crypto/cipher]: the AES-256 forward cipher (FIPS 197) and Galois/counter
    mode with twelve-octet nonces (NIST SP 800-38D), checked against the
    published test cases.  [gcm_open_seal] is the fact about it everything
    else rests on: opening what was sealed returns the plaintext. *)

From S2P Require Import Prelude Bytes.
Open Scope Z_scope.

(** ** AES-256 *)

Definition sbox : list Z := [
   99; 124; 119; 123; 242; 107; 111; 197; 48; 1; 103; 43; 254; 215; 171; 118;
   202; 130; 201; 125; 250; 89; 71; 240; 173; 212; 162; 175; 156; 164; 114; 192;
   183; 253; 147; 38; 54; 63; 247; 204; 52; 165; 229; 241; 113; 216; 49; 21;
   4; 199; 35; 195; 24; 150; 5; 154; 7; 18; 128; 226; 235; 39; 178; 117;
   9; 131; 44; 26; 27; 110; 90; 160; 82; 59; 214; 179; 41; 227; 47; 132;
   83; 209; 0; 237; 32; 252; 177; 91; 106; 203; 190; 57; 74; 76; 88; 207;
   208; 239; 170; 251; 67; 77; 51; 133; 69; 249; 2; 127; 80; 60; 159; 168;
   81; 163; 64; 143; 146; 157; 56; 245; 188; 182; 218; 33; 16; 255; 243; 210;
   205; 12; 19; 236; 95; 151; 68; 23; 196; 167; 126; 61; 100; 93; 25; 115;
   96; 129; 79; 220; 34; 42; 144; 136; 70; 238; 184; 20; 222; 94; 11; 219;
   224; 50; 58; 10; 73; 6; 36; 92; 194; 211; 172; 98; 145; 149; 228; 121;
   231; 200; 55; 109; 141; 213; 78; 169; 108; 86; 244; 234; 101; 122; 174; 8;
   186; 120; 37; 46; 28; 166; 180; 198; 232; 221; 116; 31; 75; 189; 139; 138;
   112; 62; 181; 102; 72; 3; 246; 14; 97; 53; 87; 185; 134; 193; 29; 158;
   225; 248; 152; 17; 105; 217; 142; 148; 155; 30; 135; 233; 206; 85; 40; 223;
   140; 161; 137; 13; 191; 230; 66; 104; 65; 153; 45; 15; 176; 84; 187; 22].

Definition sub (x : Z) : Z := nth (Z.to_nat x) sbox 0.

Definition xtime (x : Z) : Z :=
  let y := 2 * x in if y <? 256 then y else Z.lxor y 283.

Definition sub_word (w : list Z) : list Z := map sub w.
Definition rot_word (w : list Z) : list Z := tail w ++ take 1 w.
Definition xor_z (a b : list Z) : list Z := zip_with Z.lxor a b.

(** The key schedule: [acc] holds the words so far, newest first. *)
Fixpoint expand (n : nat) (i : Z) (rcon : Z) (acc : list (list Z)) : list (list Z) :=
  match n with
  | O => acc
  | S n =>
    let prev := nth 0 acc [] in
    let old := nth 7 acc [] in
    let t := if i mod 8 =? 0 then
               let r := sub_word (rot_word prev) in
               match r with x :: r => Z.lxor x rcon :: r | [] => [] end
             else if i mod 8 =? 4 then sub_word prev else prev in
    expand n (i + 1) (if i mod 8 =? 0 then xtime rcon else rcon) (xor_z old t :: acc)
  end.

Fixpoint chunks {A} (fuel n : nat) (l : list A) : list (list A) :=
  match fuel, l with
  | S fuel, _ :: _ => take n l :: chunks fuel n (drop n l)
  | _, _ => []
  end.

Definition key_schedule (key : bytes) : list (list Z) :=
  let w := rev (chunks 8 4 (map Zb key)) in
  map (@concat Z) (chunks 15 4 (rev (expand 52 8 1 w))).

Definition shift_rows (s : list Z) : list Z :=
  map (λ i, nth i s 0) [0; 5; 10; 15; 4; 9; 14; 3; 8; 13; 2; 7; 12; 1; 6; 11]%nat.

Definition mix_column (c : list Z) : list Z :=
  match c with
  | [a; b; c; d] =>
    let t := Z.lxor (Z.lxor a b) (Z.lxor c d) in
    [Z.lxor a (Z.lxor t (xtime (Z.lxor a b)));
     Z.lxor b (Z.lxor t (xtime (Z.lxor b c)));
     Z.lxor c (Z.lxor t (xtime (Z.lxor c d)));
     Z.lxor d (Z.lxor t (xtime (Z.lxor d a)))]
  | _ => c
  end.

Definition mix_columns (s : list Z) : list Z := concat (map mix_column (chunks 4 4 s)).

Fixpoint aes_rounds (rks : list (list Z)) (s : list Z) : list Z :=
  match rks with
  | [] => s
  | [rk] => xor_z rk (shift_rows (map sub s))
  | rk :: rks => aes_rounds rks (xor_z rk (mix_columns (shift_rows (map sub s))))
  end.

Definition aes_encrypt (ks : list (list Z)) (blk : bytes) : bytes :=
  match ks with
  | rk :: rks => map bZ (aes_rounds rks (xor_z rk (map Zb blk)))
  | [] => blk
  end.

(** ** GHASH *)

Definition gf_poly : Z := Z.shiftl 225 120.

(** Multiplication in GF(2^128), bit 0 being the most significant. *)
Fixpoint gf_mul_loop (n : nat) (x v z : Z) : Z :=
  match n with
  | O => z
  | S n =>
    let z' := if Z.testbit x (Z.of_nat n) then Z.lxor z v else z in
    let v' := if Z.testbit v 0 then Z.lxor (Z.shiftr v 1) gf_poly else Z.shiftr v 1 in
    gf_mul_loop n x v' z'
  end.

Definition gf_mul (x y : Z) : Z := gf_mul_loop 128 x y 0.

Definition pad16 (l : bytes) : bytes :=
  l ++ replicate (Z.to_nat ((- Z.of_nat (length l)) mod 16)) "000"%byte.

Definition ghash (h : Z) (ad ct : bytes) : bytes :=
  let lens := be_bytes 8 (8 * Z.of_nat (length ad)) ++ be_bytes 8 (8 * Z.of_nat (length ct)) in
  let l := pad16 ad ++ pad16 ct ++ lens in
  be_bytes 16 (fold_left (λ y b, gf_mul (Z.lxor y (of_be b)) h) (chunks (length l) 16 l) 0).

(** ** Counter mode and the AEAD *)

(** [n] blocks of key stream, the block counter starting at [i]. *)
Fixpoint key_stream (ks : list (list Z)) (nonce : bytes) (n : nat) (i : Z) : bytes :=
  match n with
  | O => []
  | S n => take 16 (aes_encrypt ks (nonce ++ be_bytes 4 i) ++ replicate 16 "000"%byte)
           ++ key_stream ks nonce n (i + 1)
  end.

Definition ctr (ks : list (list Z)) (nonce msg : bytes) : bytes :=
  xor_bytes (key_stream ks nonce (S (length msg / 16)) 2) msg.

Definition gcm_tag (ks : list (list Z)) (nonce ct ad : bytes) : bytes :=
  let h := of_be (aes_encrypt ks (replicate 16 "000"%byte)) in
  xor_bytes (key_stream ks nonce 1 1) (ghash h ad ct).

Definition gcm_nonce_size : nat := 12.
Definition gcm_tag_size : nat := 16.

(** [AEAD.Seal(nil, nonce, plaintext, ad)]: ciphertext || tag. *)
Definition gcm_seal (key nonce pt ad : bytes) : bytes :=
  let ks := key_schedule key in
  let ct := ctr ks nonce pt in ct ++ gcm_tag ks nonce ct ad.

Definition err_open : error := bs "cipher: message authentication failed".

(** [AEAD.Open(nil, nonce, ciphertext, ad)]. *)
Definition gcm_open (key nonce sealed ad : bytes) : result bytes :=
  let ks := key_schedule key in
  let n := (length sealed - gcm_tag_size)%nat in
  if decide (length sealed < gcm_tag_size)%nat then Err err_open
  else if decide (drop n sealed = gcm_tag ks nonce (take n sealed) ad)
       then Ok (ctr ks nonce (take n sealed)) else Err err_open.

(** ** Opening what was sealed *)

Lemma length_key_stream ks nonce n i : length (key_stream ks nonce n i) = (16 * n)%nat.
Proof.
  revert i. induction n as [|n IH]; intros i; [done|]. cbn [key_stream].
  rewrite length_app, IH, length_take, length_app, length_replicate. lia.
Qed.

Lemma stream_enough ks nonce (msg : bytes) i :
  (length msg ≤ length (key_stream ks nonce (S (length msg / 16)) i))%nat.
Proof.
  rewrite length_key_stream. pose proof (Nat.div_mod_eq (length msg) 16).
  pose proof (Nat.mod_upper_bound (length msg) 16). lia.
Qed.

Lemma length_ctr ks nonce msg : length (ctr ks nonce msg) = length msg.
Proof. apply length_xor_bytes, stream_enough. Qed.

Lemma ctr_involutive ks nonce msg : ctr ks nonce (ctr ks nonce msg) = msg.
Proof.
  unfold ctr at 1. rewrite length_ctr. unfold ctr.
  apply xor_bytes_involutive, stream_enough.
Qed.

Lemma length_gcm_tag ks nonce ct ad : length (gcm_tag ks nonce ct ad) = gcm_tag_size.
Proof.
  unfold gcm_tag. rewrite length_xor_bytes; unfold ghash; rewrite length_be_bytes; [done|].
  by rewrite length_key_stream.
Qed.

Lemma length_gcm_seal key nonce pt ad :
  length (gcm_seal key nonce pt ad) = (length pt + gcm_tag_size)%nat.
Proof. unfold gcm_seal. by rewrite length_app, length_ctr, length_gcm_tag. Qed.

Lemma gcm_open_seal key nonce pt ad :
  gcm_open key nonce (gcm_seal key nonce pt ad) ad = Ok pt.
Proof.
  unfold gcm_open. rewrite length_gcm_seal. rewrite decide_False by lia.
  unfold gcm_seal. replace (length pt + gcm_tag_size - gcm_tag_size)%nat
    with (length (ctr (key_schedule key) nonce pt)) by (rewrite length_ctr; lia).
  rewrite drop_app_length, take_app_length, decide_True by done.
  by rewrite ctr_involutive.
Qed.

(** Anything that opens is what sealing its plaintext gives. *)
Lemma gcm_open_inv key nonce sealed ad pt :
  gcm_open key nonce sealed ad = Ok pt → sealed = gcm_seal key nonce pt ad.
Proof.
  unfold gcm_open, gcm_seal. set (n := (length sealed - gcm_tag_size)%nat).
  case_decide; [done|]. case_decide as Htag; [|done]. intros <-%Ok_inj.
  rewrite ctr_involutive, <-Htag. by rewrite take_drop.
Qed.

#[export] Hint Rewrite length_ctr length_gcm_tag length_gcm_seal gcm_open_seal : stunner.
#[global] Opaque gcm_seal gcm_open.

(** ** Test vectors: the GCM specification's AES-256 cases 13, 14 and 16 *)

Definition zeros (n : nat) : bytes := replicate n "000"%byte.

Example gcm_case_13 :
  hex_encode (gcm_seal (zeros 32) (zeros 12) [] []) = bs "530f8afbc74536b9a963b4f1c4cb738b".
Proof. vm_compute. reflexivity. Qed.

Example gcm_case_14 :
  hex_encode (gcm_seal (zeros 32) (zeros 12) (zeros 16) [])
  = bs "cea7403d4d606b6e074ec5d3baf39d18d0d1c8a799996bf0265b98b5d48ab919".
Proof. vm_compute. reflexivity. Qed.

Definition unhex (s : bytes) : bytes :=
  let v b := let z := Zb b in if z <? 58 then z - 48 else z - 87 in
  map (λ c, match c with [a; b] => bZ (16 * v a + v b) | _ => "000"%byte end)
      (chunks (length s) 2 s).

Example gcm_case_16 :
  let key := unhex (bs "feffe9928665731c6d6a8f9467308308feffe9928665731c6d6a8f9467308308") in
  let iv := unhex (bs "cafebabefacedbaddecaf888") in
  let pt := unhex (bs "d9313225f88406e5a55909c5aff5269a86a7a9531534f7da2e4c303d8a318a721c3c0c95956809532fcf0e2449a6b525b16aedf5aa0de657ba637b39") in
  let ad := unhex (bs "feedfacedeadbeeffeedfacedeadbeefabaddad2") in
  drop 60 (gcm_seal key iv pt ad) = unhex (bs "76fc6ece0f4e1768cddf8853bb2d551b").
Proof. vm_compute. reflexivity. Qed.
