(* ===== verification/Encoding.v ===== *)
(** * Base64 and base32

    An executable model of what the core uses of [encoding/base64]
    ([StdEncoding] for JSON byte slices, [RawURLEncoding] for contact URIs)
    and [encoding/base32] (unpadded, for fingerprints), with the round trips. *)

From S2P Require Import Prelude Bytes.
Open Scope Z_scope.

(** [forall v] in a small range, decided by evaluation. *)
Lemma forall_range (n : nat) (p : Z → bool) :
  forallb p (map Z.of_nat (seq 0 n)) = true → ∀ v, 0 ≤ v < Z.of_nat n → p v = true.
Proof.
  intros H v Hv. rewrite forallb_forall in H. apply H, in_map_iff.
  exists (Z.to_nat v). split; [lia|]. apply in_seq. lia.
Qed.

(** ** Base64 *)

Definition b64_char (url : bool) (v : Z) : byte :=
  if v <? 26 then bZ (65 + v) else if v <? 52 then bZ (71 + v)
  else if v <? 62 then bZ (v - 4)
  else if v =? 62 then (if url then "-" else "+")%byte
  else (if url then "_" else "/")%byte.

Definition b64_val (url : bool) (b : byte) : option Z :=
  let z := Zb b in
  if (65 <=? z) && (z <=? 90) then Some (z - 65)
  else if (97 <=? z) && (z <=? 122) then Some (z - 71)
  else if (48 <=? z) && (z <=? 57) then Some (z + 4)
  else if z =? Zb (if url then "-" else "+")%byte then Some 62
  else if z =? Zb (if url then "_" else "/")%byte then Some 63
  else None.

Fixpoint b64_encode (url pad : bool) (l : bytes) : bytes :=
  let ch := b64_char url in
  match l with
  | [] => []
  | [a] =>
    [ch (Zb a / 4); ch (Zb a mod 4 * 16)] ++ if pad then ["="; "="]%byte else []
  | [a; b] =>
    [ch (Zb a / 4); ch (Zb a mod 4 * 16 + Zb b / 16); ch (Zb b mod 16 * 4)]
    ++ if pad then ["="]%byte else []
  | a :: b :: c :: l =>
    ch (Zb a / 4) :: ch (Zb a mod 4 * 16 + Zb b / 16)
    :: ch (Zb b mod 16 * 4 + Zb c / 64) :: ch (Zb c mod 64) :: b64_encode url pad l
  end.

Definition b64_b0 (v0 v1 : Z) : byte := bZ (v0 * 4 + v1 / 16).
Definition b64_b1 (v1 v2 : Z) : byte := bZ (v1 mod 16 * 16 + v2 / 4).
Definition b64_b2 (v2 v3 : Z) : byte := bZ (v2 mod 4 * 64 + v3).

(** Decoding after the line breaks are gone.  The spare bits of the last
    quantum are ignored, as Go's non-strict encodings do. *)
Fixpoint b64_decode_raw (url pad : bool) (l : bytes) : option bytes :=
  let val := b64_val url in
  match l with
  | [] => Some []
  | [_] => None
  | [c0; c1] =>
    if pad then None
    else match val c0, val c1 with
         | Some v0, Some v1 => Some [b64_b0 v0 v1] | _, _ => None end
  | [c0; c1; c2] =>
    if pad then None
    else match val c0, val c1, val c2 with
         | Some v0, Some v1, Some v2 => Some [b64_b0 v0 v1; b64_b1 v1 v2]
         | _, _, _ => None end
  | c0 :: c1 :: c2 :: c3 :: l =>
    match val c0, val c1 with
    | Some v0, Some v1 =>
      match val c2, val c3 with
      | Some v2, Some v3 =>
        match b64_decode_raw url pad l with
        | Some r => Some (b64_b0 v0 v1 :: b64_b1 v1 v2 :: b64_b2 v2 v3 :: r)
        | None => None
        end
      | Some v2, None =>
        if pad && Byte.eqb c3 "=" && bool_decide (l = [])
        then Some [b64_b0 v0 v1; b64_b1 v1 v2] else None
      | None, _ =>
        if pad && Byte.eqb c2 "=" && Byte.eqb c3 "=" && bool_decide (l = [])
        then Some [b64_b0 v0 v1] else None
      end
    | _, _ => None
    end
  end.

Definition is_newline (b : byte) : bool := Byte.eqb b "010" || Byte.eqb b "013".

Definition b64_decode (url pad : bool) (l : bytes) : option bytes :=
  b64_decode_raw url pad (List.filter (λ b, negb (is_newline b)) l).

Lemma b64_val_char url v : 0 ≤ v < 64 → b64_val url (b64_char url v) = Some v.
Proof.
  intros Hv. apply (proj1 (bool_decide_eq_true _)).
  revert v Hv. apply (forall_range 64). by destruct url; vm_compute.
Qed.

Lemma b64_char_plain url v :
  0 ≤ v < 64 → is_newline (b64_char url v) = false.
Proof.
  intros Hv. apply negb_true_iff. revert v Hv.
  apply (forall_range 64). destruct url; vm_compute; reflexivity.
Qed.

Lemma b64_decode_raw_encode url pad l :
  b64_decode_raw url pad (b64_encode url pad l) = Some l.
Proof.
  induction l as [l IH] using list_len_ind.
  destruct l as [|a [|b [|c l]]]; [done|..]; pose proof (Zb_range a);
    try pose proof (Zb_range b); try pose proof (Zb_range c).
  - destruct pad, url; simpl; rewrite !b64_val_char by zlia; cbn;
      unfold b64_b0; repeat f_equal; apply Zb_inj; rewrite Zb_bZ_small; zlia.
  - destruct pad, url; simpl; rewrite !b64_val_char by zlia; cbn;
      unfold b64_b0, b64_b1; repeat f_equal; apply Zb_inj; rewrite Zb_bZ_small; zlia.
  - simpl. rewrite !b64_val_char by zlia. rewrite IH by (simpl; lia).
    unfold b64_b0, b64_b1, b64_b2.
    repeat f_equal; apply Zb_inj; rewrite Zb_bZ_small; zlia.
Qed.

Lemma b64_encode_plain url pad l :
  Forall (λ b, is_newline b = false) (b64_encode url pad l).
Proof.
  induction l as [l IH] using list_len_ind.
  destruct l as [|a [|b [|c l]]]; [constructor|..]; pose proof (Zb_range a);
    try pose proof (Zb_range b); try pose proof (Zb_range c);
    [destruct pad; simpl; repeat constructor; apply b64_char_plain; zlia..|].
  simpl. repeat (constructor; [apply b64_char_plain; zlia|]). apply IH. simpl; lia.
Qed.

Lemma b64_decode_encode url pad l : b64_decode url pad (b64_encode url pad l) = Some l.
Proof.
  unfold b64_decode.
  replace (List.filter _ _) with (b64_encode url pad l); [apply b64_decode_raw_encode|].
  pose proof (b64_encode_plain url pad l) as H.
  induction H as [|b r Hb H IH]; [done|]. simpl. rewrite Hb. simpl. by f_equal.
Qed.

#[export] Hint Rewrite b64_decode_encode : stunner.

Example b64_foobar : b64_encode false true (bs "foob") = bs "Zm9vYg==".
Proof. reflexivity. Qed.
Example b64_spare_bits : b64_decode false true (bs "Zh==") = Some (bs "f").
Proof. reflexivity. Qed.
Example b64_bad_tail : b64_decode false true (bs "Zg==Zg==") = None.
Proof. reflexivity. Qed.

(** ** Base32 *)

Definition b32_char (v : Z) : byte := if v <? 26 then bZ (65 + v) else bZ (24 + v).

Definition b32_block (a b c d e : byte) : bytes :=
  let '(a, b, c, d, e) := (Zb a, Zb b, Zb c, Zb d, Zb e) in
  map b32_char [a / 8; a mod 8 * 4 + b / 64; b / 2 mod 32; b mod 2 * 16 + c / 16;
                c mod 16 * 2 + d / 128; d / 4 mod 32; d mod 4 * 8 + e / 32; e mod 32].

(** [base32.StdEncoding.WithPadding(NoPadding)]. *)
Fixpoint b32_encode (l : bytes) : bytes :=
  let z : byte := "000"%byte in
  match l with
  | [] => []
  | [a] => take 2 (b32_block a z z z z)
  | [a; b] => take 4 (b32_block a b z z z)
  | [a; b; c] => take 5 (b32_block a b c z z)
  | [a; b; c; d] => take 7 (b32_block a b c d z)
  | a :: b :: c :: d :: e :: l => b32_block a b c d e ++ b32_encode l
  end.

Lemma b32_char_inj v w :
  0 ≤ v < 32 → 0 ≤ w < 32 → b32_char v = b32_char w → v = w.
Proof.
  intros Hv Hw E%(f_equal Zb). unfold b32_char in E.
  destruct (Z.ltb_spec v 26), (Z.ltb_spec w 26);
    rewrite !Zb_bZ_small in E by lia; lia.
Qed.

Ltac clear_eqs := repeat match goal with H : _ = _ |- _ => clear H end.

(** Strip equal leading characters and conclude on the octets. *)
Ltac b32_inj :=
  repeat match goal with
  | H : _ :: _ = _ :: _ |- _ => injection H; clear H; intros
  | H : b32_char _ = b32_char _ |- _ => 
    apply b32_char_inj in H; [|clear_eqs; zlia..]
  end; repeat f_equal; apply Zb_inj; zlia.

Ltac pose_ranges :=
  repeat match goal with b : byte |- _ =>
    lazymatch goal with
    | _ : 0 ≤ Zb b < 256 |- _ => fail
    | _ => pose proof (Zb_range b)
    end end.

Lemma b32_block_inj a b c d e a' b' c' d' e' :
  b32_block a b c d e = b32_block a' b' c' d' e' →
  a = a' ∧ b = b' ∧ c = c' ∧ d = d' ∧ e = e'.
Proof. unfold b32_block. cbn [map]. intros H. pose_ranges. split_and!; b32_inj. Qed.

Lemma b32_encode_inj l l' :
  length l = length l' → b32_encode l = b32_encode l' → l = l'.
Proof.
  revert l'. induction l as [l IH] using list_len_ind. intros l' Hlen H.
  destruct l as [|a [|b [|c [|d [|e l]]]]], l' as [|a' [|b' [|c' [|d' [|e' l']]]]];
    simpl in Hlen; try lia; [done|..].
  1-4: unfold b32_encode, b32_block in H; cbn [map take] in H;
    change (Zb "000") with 0 in H; pose_ranges; b32_inj.
  cbn [b32_encode] in H. apply app_inj_1 in H as [H1 H2]; [|done].
  apply b32_block_inj in H1 as (-> & -> & -> & -> & ->).
  do 5 f_equal. apply IH; simpl; [lia| |done]. lia.
Qed.

Lemma length_b32_encode_32 l : length l = 32%nat → length (b32_encode l) = 52%nat.
Proof.
  intros H. do 32 (destruct l as [|? l]; [discriminate H|]).
  destruct l; [|discriminate H]. reflexivity.
Qed.

Definition is_b32 (b : byte) : bool :=
  let z := Zb b in ((65 <=? z) && (z <=? 90)) || ((50 <=? z) && (z <=? 55)).

Lemma b32_char_alphabet v : 0 ≤ v < 32 → is_b32 (b32_char v) = true.
Proof. revert v. apply (forall_range 32). vm_compute. reflexivity. Qed.

Lemma b32_encode_alphabet l : Forall (λ b, is_b32 b = true) (b32_encode l).
Proof.
  induction l as [l IH] using list_len_ind.
  destruct l as [|a [|b [|c [|d [|e l]]]]]; [constructor|..]; pose_ranges;
    [unfold b32_encode, b32_block; cbn [map take]; change (Zb "000") with 0;
     repeat constructor; apply b32_char_alphabet; zlia..|].
  cbn [b32_encode]. apply Forall_app; split; [|apply IH; simpl; lia].
  unfold b32_block; cbn [map]. repeat constructor; apply b32_char_alphabet; zlia.
Qed.

Example b32_foobar : b32_encode (bs "foobar") = bs "MZXW6YTBOI".
Proof. reflexivity. Qed.
