(* ===== verification/Strconv.v ===== *)
(** * Decimal numbers

    An executable model of what the core uses of [strconv] and of [fmt]'s
    integer verbs. *)

From S2P Require Import Prelude Bytes.
Open Scope Z_scope.

Definition in_range (lo hi : Z) (b : byte) : bool := (lo <=? Zb b) && (Zb b <=? hi).

Definition is_digit (b : byte) : bool := in_range 48 57 b.

(** Facts about comparisons of an octet that [lia] can use. *)
Ltac byte_tests :=
  unfold in_range in *;
  repeat rewrite ?andb_true_iff, ?orb_true_iff, ?andb_false_iff, ?orb_false_iff,
    ?Z.eqb_eq, ?Z.eqb_neq, ?Z.leb_le, ?Z.leb_gt, ?Z.ltb_lt, ?Z.ltb_ge in *.

(** ** Decimal numbers *)

(** [strconv.FormatUint(z, 10)]; twenty digits are enough for 64 bits. *)
Fixpoint fmt_digits (n : nat) (z : Z) (acc : bytes) : bytes :=
  match n with
  | O => acc
  | S n =>
    let acc := bZ (48 + z mod 10) :: acc in
    if z <? 10 then acc else fmt_digits n (z / 10) acc
  end.

Definition fmt_uint (z : Z) : bytes := fmt_digits 20 z [].
Definition fmt_int (z : Z) : bytes :=
  if z <? 0 then "-"%byte :: fmt_uint (- z) else fmt_uint z.

Definition digits_val (l : bytes) : Z := fold_left (λ acc b, acc * 10 + (Zb b - 48)) l 0.

(** [strconv.ParseUint(lit, 10, bits)]. *)
Definition parse_uint (bits : Z) (lit : bytes) : option Z :=
  match lit with
  | [] => None
  | _ => if forallb is_digit lit && (digits_val lit <? 2 ^ bits)
         then Some (digits_val lit) else None
  end.

(** [strconv.ParseInt(lit, 10, bits)]. *)
Definition parse_int (bits : Z) (lit : bytes) : option Z :=
  let '(neg, ds) := match lit with
    | b :: t => if Zb b =? 45 then (true, t) else if Zb b =? 43 then (false, t) else (false, lit)
    | [] => (false, []) end in
  match ds with
  | [] => None
  | _ => let v := digits_val ds in
    if forallb is_digit ds && (v <? 2 ^ (bits - 1) + if neg : bool then 1 else 0)
    then Some (if neg then - v else v) else None
  end.

Lemma is_digit_bZ v : 0 ≤ v < 10 → is_digit (bZ (48 + v)) = true.
Proof. intros. byte_tests. unfold is_digit, in_range. rewrite Zb_bZ_small by lia.
  rewrite andb_true_iff, !Z.leb_le. lia. Qed.

Lemma digits_val_acc l acc :
  fold_left (λ acc b, acc * 10 + (Zb b - 48)) l acc
  = acc * 10 ^ Z.of_nat (length l) + digits_val l.
Proof.
  unfold digits_val. revert acc. induction l as [|b l IH]; intros acc; simpl fold_left.
  - simpl length. lia.
  - rewrite IH, (IH (0 * 10 + _)). simpl length.
    rewrite Nat2Z.inj_succ, Z.pow_succ_r by lia. ring.
Qed.

Lemma fmt_digits_spec n z acc :
  0 ≤ z < 10 ^ Z.of_nat n → (0 < n)%nat →
  ∃ ds, fmt_digits n z acc = ds ++ acc ∧ ds ≠ [] ∧ forallb is_digit ds = true
        ∧ digits_val ds = z ∧ (∀ b t, ds = b :: t → z ≠ 0 → Zb b ≠ 48)
        ∧ (z = 0 → ds = ["0"%byte]).
Proof.
  revert z acc. induction n as [|n IH]; intros z acc Hz Hn; [lia|]. simpl fmt_digits.
  assert (0 ≤ z mod 10 < 10) as Hm by (apply Z.mod_pos_bound; lia).
  destruct (Z.ltb_spec z 10) as [Hs|Hs].
  - exists [bZ (48 + z mod 10)]. rewrite Z.mod_small by lia.
    split_and!; [done|done| | | |].
    + simpl. rewrite is_digit_bZ by lia. done.
    + unfold digits_val. simpl. rewrite Zb_bZ_small by lia. lia.
    + intros b t [= <- <-] ?. rewrite Zb_bZ_small by lia. lia.
    + by intros ->.
  - rewrite Nat2Z.inj_succ, Z.pow_succ_r in Hz by lia.
    destruct n as [|n]; [simpl in Hz; lia|].
    destruct (IH (z / 10) (bZ (48 + z mod 10) :: acc)) as (ds & -> & Hne & Hd & Hv & Hh & _);
      [zlia|lia|].
    exists (ds ++ [bZ (48 + z mod 10)]). rewrite <-app_assoc. split_and!; [done| | | | |].
    + by destruct ds.
    + rewrite forallb_app, Hd. simpl. rewrite is_digit_bZ by lia. done.
    + unfold digits_val. rewrite fold_left_app. fold (digits_val ds). simpl.
      rewrite Hv, Zb_bZ_small by lia. zlia.
    + intros b t E Hz0. destruct ds as [|d ds]; [done|]. injection E as -> _.
      eapply Hh; [done|zlia].
    + intros ->. lia.
Qed.

Lemma fmt_uint_spec z :
  0 ≤ z < 2 ^ 64 →
  fmt_uint z ≠ [] ∧ forallb is_digit (fmt_uint z) = true ∧ digits_val (fmt_uint z) = z
  ∧ (∀ b t, fmt_uint z = b :: t → z ≠ 0 → Zb b ≠ 48) ∧ (z = 0 → fmt_uint z = ["0"%byte]).
Proof.
  intros Hz. destruct (fmt_digits_spec 20 z []) as (ds & E & H); [|lia|].
  { change (10 ^ Z.of_nat 20) with 100000000000000000000.
    change (2 ^ 64) with 18446744073709551616 in Hz. lia. }
  unfold fmt_uint. by rewrite E, app_nil_r.
Qed.

Lemma parse_fmt_uint bits z :
  0 ≤ z < 2 ^ bits → bits ≤ 64 → parse_uint bits (fmt_uint z) = Some z.
Proof.
  intros Hz Hb. destruct (fmt_uint_spec z) as (Hne & Hd & Hv & _).
  { split; [lia|]. eapply Z.lt_le_trans; [apply Hz|]. apply Z.pow_le_mono_r; lia. }
  unfold parse_uint. destruct (fmt_uint z) eqn:E; [done|]. rewrite <-E in *.
  rewrite Hd, Hv. simpl. by rewrite (proj2 (Z.ltb_lt _ _)) by lia.
Qed.

Lemma parse_fmt_int bits z :
  0 ≤ z < 2 ^ (bits - 1) → bits ≤ 64 → parse_int bits (fmt_int z) = Some z.
Proof.
  intros Hz Hb. unfold fmt_int. rewrite (proj2 (Z.ltb_ge _ _)) by lia.
  destruct (fmt_uint_spec z) as (Hne & Hd & Hv & _).
  { split; [lia|]. eapply Z.lt_le_trans; [apply Hz|]. apply Z.pow_le_mono_r; lia. }
  unfold parse_int. destruct (fmt_uint z) as [|b t] eqn:E; [done|].
  pose proof Hd as Hb0. cbn [forallb] in Hb0. apply andb_true_iff in Hb0 as [Hb0 _].
  unfold is_digit, in_range in Hb0. rewrite andb_true_iff, !Z.leb_le in Hb0.
  rewrite !(proj2 (Z.eqb_neq _ _)) by lia. rewrite Hd, Hv. cbn [andb].
  by rewrite (proj2 (Z.ltb_lt _ _)) by lia.
Qed.

Lemma fmt_uint_inj z1 z2 :
  0 ≤ z1 < 2 ^ 64 → 0 ≤ z2 < 2 ^ 64 → fmt_uint z1 = fmt_uint z2 → z1 = z2.
Proof.
  intros H1 H2 E. destruct (fmt_uint_spec z1 H1) as (_ & _ & <- & _).
  destruct (fmt_uint_spec z2 H2) as (_ & _ & <- & _). by rewrite E.
Qed.

(** Fewer digits than the bound on the value. *)
Lemma length_fmt_digits n z acc k :
  0 ≤ z < 10 ^ Z.of_nat k → (0 < k)%nat →
  (length (fmt_digits n z acc) ≤ k + length acc)%nat.
Proof.
  revert z acc k. induction n as [|n IH]; intros z acc k Hz Hk; simpl; [lia|].
  destruct (Z.ltb_spec z 10); [simpl; lia|].
  destruct k as [|[|k]]; [lia|simpl in Hz; lia|].
  rewrite !Nat2Z.inj_succ, !Z.pow_succ_r in Hz by lia.
  specialize (IH (z / 10) (bZ (48 + z mod 10) :: acc) (S k)). cbn [length] in IH.
  rewrite Nat2Z.inj_succ, Z.pow_succ_r in IH by lia.
  assert (0 ≤ z / 10 < 10 * 10 ^ Z.of_nat k) by zlia. lia.
Qed.

(** [fmt.Sprintf("%0<w>d", z)]. *)
Definition fmt_pad (w : nat) (z : Z) : bytes :=
  replicate (w - length (fmt_uint z)) "0"%byte ++ fmt_uint z.

Lemma length_fmt_pad w z :
  0 ≤ z < 10 ^ Z.of_nat w → (0 < w)%nat → length (fmt_pad w z) = w.
Proof.
  intros Hz Hw. unfold fmt_pad. rewrite length_app, length_replicate.
  pose proof (length_fmt_digits 20 z [] w Hz Hw) as Hl. cbn [length] in Hl.
  unfold fmt_uint. lia.
Qed.

Lemma fmt_pad_digits w z : 0 ≤ z < 2 ^ 64 → forallb is_digit (fmt_pad w z) = true.
Proof.
  intros Hz. unfold fmt_pad. rewrite forallb_app.
  destruct (fmt_uint_spec z Hz) as (_ & -> & _). rewrite andb_true_r.
  by induction (w - length (fmt_uint z))%nat.
Qed.
