(* ===== verification/Json.v ===== *)
(** * JSON text

    An executable model of the part of [encoding/json] the wire formats rest
    on: the document tree, [Marshal]'s text (with its HTML-safe escapes and its
    treatment of ill-formed UTF-8) and [Unmarshal]'s parser.  The limit of ten
    thousand nested values is not modelled. *)

From S2P Require Import Prelude Bytes Strconv.
Open Scope Z_scope.

(** ** UTF-8 *)

Definition rune_ok2 (b0 b1 : byte) : bool := in_range 194 223 b0 && in_range 128 191 b1.

Definition rune_ok3 (b0 b1 b2 : byte) : bool :=
  in_range 128 191 b2
  && ((Zb b0 =? 224) && in_range 160 191 b1
      || in_range 225 236 b0 && in_range 128 191 b1
      || (Zb b0 =? 237) && in_range 128 159 b1
      || in_range 238 239 b0 && in_range 128 191 b1).

Definition rune_ok4 (b0 b1 b2 b3 : byte) : bool :=
  in_range 128 191 b2 && in_range 128 191 b3
  && ((Zb b0 =? 240) && in_range 144 191 b1
      || in_range 241 243 b0 && in_range 128 191 b1
      || (Zb b0 =? 244) && in_range 128 143 b1).

(** The runes a Go [range] sees: a well-formed encoding, or one bad octet. *)
Inductive rchunk := Rune (enc : bytes) | Bad.

Fixpoint runes (s : bytes) : list rchunk :=
  match s with
  | [] => []
  | b0 :: t0 =>
    if Zb b0 <? 128 then Rune [b0] :: runes t0 else
    match t0 with
    | [] => [Bad]
    | b1 :: t1 =>
      if rune_ok2 b0 b1 then Rune [b0; b1] :: runes t1 else
      match t1 with
      | [] => Bad :: runes t0
      | b2 :: t2 =>
        if rune_ok3 b0 b1 b2 then Rune [b0; b1; b2] :: runes t2 else
        match t2 with
        | [] => Bad :: runes t0
        | b3 :: t3 =>
          if rune_ok4 b0 b1 b2 b3 then Rune [b0; b1; b2; b3] :: runes t3
          else Bad :: runes t0
        end
      end
    end
  end.

(** U+FFFD, the replacement character. *)
Definition replacement : bytes := ["239"; "191"; "189"]%byte.

Definition chunk_bytes (c : rchunk) : bytes :=
  match c with Rune e => e | Bad => replacement end.

(** What a string becomes when every ill-formed octet is replaced. *)
Definition to_valid_utf8 (s : bytes) : bytes := flat_map chunk_bytes (runes s).

Definition valid_utf8 (s : bytes) : bool :=
  forallb (λ c, match c with Rune _ => true | Bad => false end) (runes s).

(** ** Document trees *)

Inductive json :=
  | JNull
  | JBool (b : bool)
  | JNum (lit : bytes)
  | JStr (s : bytes)
  | JArr (l : list json)
  | JObj (l : list (bytes * json)).

Section json_ind.
Context (P : json → Prop) (Hnull : P JNull) (Hbool : ∀ b, P (JBool b))
  (Hnum : ∀ lit, P (JNum lit)) (Hstr : ∀ s, P (JStr s))
  (Harr : ∀ l, Forall P l → P (JArr l))
  (Hobj : ∀ l, Forall (λ kv, P kv.2) l → P (JObj l)).
Fixpoint json_nested_ind (v : json) : P v :=
  match v with
  | JNull => Hnull | JBool b => Hbool b | JNum n => Hnum n | JStr s => Hstr s
  | JArr l => Harr l ((fix go l : Forall P l := match l with
      | [] => Forall_nil_2 P
      | x :: l => Forall_cons_2 P x l (json_nested_ind x) (go l) end) l)
  | JObj l => Hobj l ((fix go l : Forall (λ kv, P kv.2) l := match l with
      | [] => Forall_nil_2 _
      | x :: l => Forall_cons_2 _ x l (json_nested_ind x.2) (go l) end) l)
  end.
End json_ind.

(** ** Printing *)

Definition escape_ascii (b : byte) : bytes :=
  let z := Zb b in
  if z =? 34 then bs "\" ++ ["034"%byte]
  else if z =? 92 then bs "\\"
  else if z =? 8 then bs "\b" else if z =? 12 then bs "\f"
  else if z =? 10 then bs "\n" else if z =? 13 then bs "\r"
  else if z =? 9 then bs "\t"
  else if (z <? 32) || (z =? 60) || (z =? 62) || (z =? 38)
       then bs "\u00" ++ hex_encode [b]
  else [b].

Definition escape_chunk (c : rchunk) : bytes :=
  match c with
  | Bad => bs "\ufffd"
  | Rune [b] => escape_ascii b
  | Rune e =>
    if decide (e = ["226"; "128"; "168"]%byte) then bs "\u2028"
    else if decide (e = ["226"; "128"; "169"]%byte) then bs "\u2029"
    else e
  end.

Definition dquote : byte := "034"%byte.

Definition print_str (s : bytes) : bytes :=
  dquote :: flat_map escape_chunk (runes s) ++ [dquote].

Fixpoint join (sep : byte) (l : list bytes) : bytes :=
  match l with
  | [] => []
  | [x] => x
  | x :: l => x ++ sep :: join sep l
  end.

Fixpoint print (v : json) : bytes :=
  match v with
  | JNull => bs "null"
  | JBool true => bs "true"
  | JBool false => bs "false"
  | JNum lit => lit
  | JStr s => print_str s
  | JArr l => "["%byte :: join "," (map print l) ++ ["]"%byte]
  | JObj l => "{"%byte :: join "," (map (λ kv, print_str kv.1 ++ ":"%byte :: print kv.2) l)
              ++ ["}"%byte]
  end.

(** ** Parsing *)

Definition is_ws (b : byte) : bool :=
  let z := Zb b in (z =? 32) || (z =? 9) || (z =? 10) || (z =? 13).

Fixpoint skip_ws (s : bytes) : bytes :=
  match s with
  | b :: t => if is_ws b then skip_ws t else s
  | [] => []
  end.

Definition hex_val (b : byte) : option Z :=
  let z := Zb b in
  if (48 <=? z) && (z <=? 57) then Some (z - 48)
  else if (97 <=? z) && (z <=? 102) then Some (z - 87)
  else if (65 <=? z) && (z <=? 70) then Some (z - 55)
  else None.

Definition hex4 (a b c d : byte) : option Z :=
  match hex_val a, hex_val b, hex_val c, hex_val d with
  | Some a, Some b, Some c, Some d => Some (((a * 16 + b) * 16 + c) * 16 + d)
  | _, _, _, _ => None
  end.

Definition is_surrogate (r : Z) : bool := (55296 <=? r) && (r <? 57344).

(** [utf16.DecodeRune], when it is not the replacement character. *)
Definition utf16_pair (r1 r2 : Z) : option Z :=
  if (55296 <=? r1) && (r1 <? 56320) && (56320 <=? r2) && (r2 <? 57344)
  then Some ((r1 - 55296) * 1024 + (r2 - 56320) + 65536) else None.

Definition encode_rune (r : Z) : bytes :=
  if r <? 128 then [bZ r]
  else if r <? 2048 then [bZ (192 + r / 64); bZ (128 + r mod 64)]
  else if r <? 65536 then [bZ (224 + r / 4096); bZ (128 + r / 64 mod 64); bZ (128 + r mod 64)]
  else [bZ (240 + r / 262144); bZ (128 + r / 4096 mod 64); bZ (128 + r / 64 mod 64);
        bZ (128 + r mod 64)].

Definition escape_char (e : byte) : option byte :=
  let z := Zb e in
  if (z =? 34) || (z =? 92) || (z =? 47) then Some e
  else if z =? 98 then Some "008"%byte else if z =? 102 then Some "012"%byte
  else if z =? 110 then Some "010"%byte else if z =? 114 then Some "013"%byte
  else if z =? 116 then Some "009"%byte else None.

Definition push (l : bytes) (r : option (bytes * bytes)) : option (bytes * bytes) :=
  match r with Some (d, rest) => Some (l ++ d, rest) | None => None end.

(** The text after an opening quote: the decoded string and what follows. *)
Fixpoint parse_str (s : bytes) : option (bytes * bytes) :=
  match s with
  | [] => None
  | b0 :: t0 =>
    if Zb b0 =? 34 then Some ([], t0)
    else if Zb b0 =? 92 then
      match t0 with
      | [] => None
      | e :: t1 =>
        if Zb e =? 117 then
          match t1 with
          | h1 :: h2 :: h3 :: h4 :: t2 =>
            match hex4 h1 h2 h3 h4 with
            | None => None
            | Some r =>
              if is_surrogate r then
                match t2 with
                | c1 :: c2 :: g1 :: g2 :: g3 :: g4 :: t3 =>
                  match (if (Zb c1 =? 92) && (Zb c2 =? 117) then hex4 g1 g2 g3 g4 else None) with
                  | Some r2 =>
                    match utf16_pair r r2 with
                    | Some rr => push (encode_rune rr) (parse_str t3)
                    | None => push replacement (parse_str t2)
                    end
                  | None => push replacement (parse_str t2)
                  end
                | _ => push replacement (parse_str t2)
                end
              else push (encode_rune r) (parse_str t2)
            end
          | _ => None
          end
        else match escape_char e with
             | Some c => push [c] (parse_str t1)
             | None => None
             end
      end
    else if Zb b0 <? 32 then None
    else if Zb b0 <? 128 then push [b0] (parse_str t0)
    else
      match t0 with
      | [] => None
      | b1 :: t1 =>
        if rune_ok2 b0 b1 then push [b0; b1] (parse_str t1) else
        match t1 with
        | [] => push replacement (parse_str t0)
        | b2 :: t2 =>
          if rune_ok3 b0 b1 b2 then push [b0; b1; b2] (parse_str t2) else
          match t2 with
          | [] => push replacement (parse_str t0)
          | b3 :: t3 =>
            if rune_ok4 b0 b1 b2 b3 then push [b0; b1; b2; b3] (parse_str t3)
            else push replacement (parse_str t0)
          end
        end
      end
  end.

Fixpoint span_digits (s : bytes) : bytes * bytes :=
  match s with
  | b :: t => if is_digit b then let '(d, r) := span_digits t in (b :: d, r) else ([], s)
  | [] => ([], [])
  end.

(** An optional fraction or exponent whose digits may not be empty. *)
Definition parse_frac (s : bytes) : option (bytes * bytes) :=
  match s with
  | b :: t => if Zb b =? 46 then
                match span_digits t with ([], _) => None | (d, r) => Some (b :: d, r) end
              else Some ([], s)
  | [] => Some ([], [])
  end.

Definition parse_exp (s : bytes) : option (bytes * bytes) :=
  match s with
  | b :: t =>
    if (Zb b =? 101) || (Zb b =? 69) then
      let '(sg, t) := match t with
        | c :: t' => if (Zb c =? 43) || (Zb c =? 45) then ([c], t') else ([], t)
        | [] => ([], t) end in
      match span_digits t with ([], _) => None | (d, r) => Some (b :: sg ++ d, r) end
    else Some ([], s)
  | [] => Some ([], [])
  end.

Definition parse_int_part (s : bytes) : option (bytes * bytes) :=
  match s with
  | b :: t => if Zb b =? 48 then Some ([b], t)
              else match span_digits s with ([], _) => None | dr => Some dr end
  | [] => None
  end.

Definition parse_num (s : bytes) : option (bytes * bytes) :=
  let '(sg, s) := match s with
    | b :: t => if Zb b =? 45 then ([b], t) else ([], s)
    | [] => ([], s) end in
  match parse_int_part s with
  | Some (i, s) =>
    match parse_frac s with
    | Some (f, s) =>
      match parse_exp s with
      | Some (e, s) => Some (sg ++ i ++ f ++ e, s)
      | None => None end
    | None => None end
  | None => None
  end.

Definition expect (lit s : bytes) : option bytes :=
  if decide (take (length lit) s = lit) then Some (drop (length lit) s) else None.

Section parse.
Context (pv : bytes → option (json * bytes)).

Fixpoint parse_elems (n : nat) (s : bytes) : option (list json * bytes) :=
  match n with
  | O => None
  | S n =>
    match pv s with
    | Some (v, s) =>
      match skip_ws s with
      | b :: t =>
        if Zb b =? 44 then
          match parse_elems n t with Some (l, r) => Some (v :: l, r) | None => None end
        else if Zb b =? 93 then Some ([v], t) else None
      | [] => None
      end
    | None => None
    end
  end.

Fixpoint parse_members (n : nat) (s : bytes) : option (list (bytes * json) * bytes) :=
  match n with
  | O => None
  | S n =>
    match skip_ws s with
    | q :: t =>
      if Zb q =? 34 then
        match parse_str t with
        | Some (k, s) =>
          match skip_ws s with
          | c :: t =>
            if Zb c =? 58 then
              match pv t with
              | Some (v, s) =>
                match skip_ws s with
                | b :: t =>
                  if Zb b =? 44 then
                    match parse_members n t with
                    | Some (l, r) => Some ((k, v) :: l, r) | None => None end
                  else if Zb b =? 125 then Some ([(k, v)], t) else None
                | [] => None
                end
              | None => None
              end
            else None
          | [] => None
          end
        | None => None
        end
      else None
    | [] => None
    end
  end.
End parse.

Fixpoint parse_value (fuel : nat) (s : bytes) : option (json * bytes) :=
  match fuel with
  | O => None
  | S f =>
    match skip_ws s with
    | [] => None
    | b :: t =>
      if Zb b =? 34 then
        match parse_str t with Some (d, r) => Some (JStr d, r) | None => None end
      else if Zb b =? 91 then
        match skip_ws t with
        | c :: t' => if Zb c =? 93 then Some (JArr [], t')
                     else match parse_elems (parse_value f) f t with
                          | Some (l, r) => Some (JArr l, r) | None => None end
        | [] => None
        end
      else if Zb b =? 123 then
        match skip_ws t with
        | c :: t' => if Zb c =? 125 then Some (JObj [], t')
                     else match parse_members (parse_value f) f t with
                          | Some (l, r) => Some (JObj l, r) | None => None end
        | [] => None
        end
      else if Zb b =? 110 then
        match expect (bs "null") (b :: t) with Some r => Some (JNull, r) | None => None end
      else if Zb b =? 116 then
        match expect (bs "true") (b :: t) with Some r => Some (JBool true, r) | None => None end
      else if Zb b =? 102 then
        match expect (bs "false") (b :: t) with Some r => Some (JBool false, r) | None => None end
      else match parse_num (b :: t) with Some (n, r) => Some (JNum n, r) | None => None end
    end
  end.

(** [json.Valid] and the tree of a whole document: no value is longer than
    its text, so the length is enough fuel. *)
Definition parse (s : bytes) : option json :=
  match parse_value (S (length s)) s with
  | Some (v, r) => match skip_ws r with [] => Some v | _ => None end
  | None => None
  end.

(** Test documents are written with single quotes. *)
Definition jq (s : string) : bytes :=
  map (λ b, if Byte.eqb b "'" then dquote else b) (bs s).

Example parse_doc :
  parse (jq " {'a' : [1, -2.5e+3 ,true,[ ],{}], 'b\u0041\ud83d\ude00\n':null} ")
  = Some (JObj [(bs "a", JArr [JNum (bs "1"); JNum (bs "-2.5e+3"); JBool true; JArr []; JObj []]);
                (bs "bA😀" ++ ["010"%byte], JNull)]).
Proof. vm_compute. reflexivity. Qed.
Example parse_leading_zero : parse (bs "[01]") = None.
Proof. reflexivity. Qed.
Example print_html : print (JStr (bs "<a&\>")) = jq "'\u003ca\u0026\\\u003e'".
Proof. reflexivity. Qed.

(** ** Parsing what was printed *)

Ltac rune_tests := unfold rune_ok2, rune_ok3, rune_ok4 in *; byte_tests.

Lemma parse_str_ascii b k :
  Zb b < 128 → parse_str (escape_ascii b ++ k) = push [b] (parse_str k).
Proof. intros H. destruct b; try reflexivity; exfalso; revert H; apply Zle_not_lt; discriminate. Qed.

Lemma parse_str_high b0 t :
  128 ≤ Zb b0 →
  parse_str (b0 :: t) =
    match t with
    | [] => None
    | b1 :: t1 =>
      if rune_ok2 b0 b1 then push [b0; b1] (parse_str t1) else
      match t1 with
      | [] => push replacement (parse_str t)
      | b2 :: t2 =>
        if rune_ok3 b0 b1 b2 then push [b0; b1; b2] (parse_str t2) else
        match t2 with
        | [] => push replacement (parse_str t)
        | b3 :: t3 =>
          if rune_ok4 b0 b1 b2 b3 then push [b0; b1; b2; b3] (parse_str t3)
          else push replacement (parse_str t)
        end
      end
    end.
Proof.
  intros H. cbn [parse_str].
  rewrite (proj2 (Z.eqb_neq _ _)) by lia. rewrite (proj2 (Z.eqb_neq _ _)) by lia.
  rewrite (proj2 (Z.ltb_ge _ _)) by lia. rewrite (proj2 (Z.ltb_ge _ _)) by lia. done.
Qed.

Lemma parse_str_rune2 b0 b1 k :
  rune_ok2 b0 b1 = true →
  parse_str (escape_chunk (Rune [b0; b1]) ++ k) = push [b0; b1] (parse_str k).
Proof.
  intros H. simpl escape_chunk. rewrite !decide_False by done. simpl app.
  rewrite parse_str_high by (rune_tests; lia). by rewrite H.
Qed.

Lemma parse_str_rune3 b0 b1 b2 k :
  rune_ok2 b0 b1 = false → rune_ok3 b0 b1 b2 = true →
  parse_str (escape_chunk (Rune [b0; b1; b2]) ++ k) = push [b0; b1; b2] (parse_str k).
Proof.
  intros H2 H3. simpl escape_chunk.
  case_decide as E1; [injection E1 as -> -> ->; reflexivity|].
  case_decide as E2; [injection E2 as -> -> ->; reflexivity|].
  simpl app. rewrite parse_str_high by (rune_tests; lia). by rewrite H2, H3.
Qed.

Lemma parse_str_rune4 b0 b1 b2 b3 k :
  rune_ok2 b0 b1 = false → rune_ok3 b0 b1 b2 = false → rune_ok4 b0 b1 b2 b3 = true →
  parse_str (escape_chunk (Rune [b0; b1; b2; b3]) ++ k) = push [b0; b1; b2; b3] (parse_str k).
Proof.
  intros H2 H3 H4. simpl escape_chunk. rewrite !decide_False by done. simpl app.
  rewrite parse_str_high by (rune_tests; lia). by rewrite H2, H3, H4.
Qed.

Lemma parse_str_bad k : parse_str (escape_chunk Bad ++ k) = push replacement (parse_str k).
Proof. reflexivity. Qed.

Lemma parse_str_escape s rest :
  parse_str (flat_map escape_chunk (runes s) ++ dquote :: rest)
  = Some (to_valid_utf8 s, rest).
Proof.
  unfold to_valid_utf8. induction s as [s IH] using list_len_ind.
  assert (∀ c l t, runes s = c :: runes l → (length l < length s)%nat →
    (∀ k, parse_str (escape_chunk c ++ k) = push (chunk_bytes c) (parse_str k)) →
    parse_str (flat_map escape_chunk (runes s) ++ dquote :: t)
    = push (chunk_bytes c) (parse_str (flat_map escape_chunk (runes l) ++ dquote :: t))) as Hgo.
  { intros c l t -> _ Hc. simpl. by rewrite <-app_assoc, Hc. }
  assert (∀ c l, runes s = c :: runes l → (length l < length s)%nat →
    (∀ k, parse_str (escape_chunk c ++ k) = push (chunk_bytes c) (parse_str k)) →
    parse_str (flat_map escape_chunk (runes s) ++ dquote :: rest)
    = Some (flat_map chunk_bytes (runes s), rest)) as Hstep.
  { intros c l E Hl Hc. rewrite (Hgo c l) by done. rewrite IH by done. by rewrite E. }
  clear Hgo IH. destruct s as [|b0 t0]; [done|]. simpl in Hstep. simpl runes.
  destruct (Z.ltb_spec (Zb b0) 128).
  { eapply Hstep; [done|lia|]. intros k. by apply parse_str_ascii. }
  destruct t0 as [|b1 t1].
  { apply (Hstep Bad []); [done|simpl; lia|apply parse_str_bad]. }
  destruct (rune_ok2 b0 b1) eqn:E2.
  { eapply Hstep; [done|simpl; lia|]. intros k. by apply parse_str_rune2. }
  destruct t1 as [|b2 t2].
  { eapply Hstep; [done|simpl; lia|apply parse_str_bad]. }
  destruct (rune_ok3 b0 b1 b2) eqn:E3.
  { eapply Hstep; [done|simpl; lia|]. intros k. by apply parse_str_rune3. }
  destruct t2 as [|b3 t3].
  { eapply Hstep; [done|simpl; lia|apply parse_str_bad]. }
  destruct (rune_ok4 b0 b1 b2 b3) eqn:E4.
  { eapply Hstep; [done|simpl; lia|]. intros k. by apply parse_str_rune4. }
  eapply Hstep; [done|simpl; lia|apply parse_str_bad].
Qed.

Lemma to_valid_utf8_valid s : valid_utf8 s = true → to_valid_utf8 s = s.
Proof.
  unfold valid_utf8, to_valid_utf8. induction s as [s IH] using list_len_ind.
  assert (∀ e l, s = e ++ l → (length l < length s)%nat → runes s = Rune e :: runes l →
    forallb (λ c, match c with Rune _ => true | Bad => false end) (runes s) = true →
    flat_map chunk_bytes (runes s) = s) as Hstep.
  { intros e l -> Hl -> Hv. simpl in *. by rewrite IH. }
  clear IH. destruct s as [|b0 t0]; [done|]. simpl in Hstep. simpl runes.
  destruct (Zb b0 <? 128); [apply (Hstep [b0] t0); simpl; auto with lia|].
  destruct t0 as [|b1 t1]; [done|].
  destruct (rune_ok2 b0 b1); [apply (Hstep [b0; b1] t1); simpl; auto with lia|].
  destruct t1 as [|b2 t2]; [done|].
  destruct (rune_ok3 b0 b1 b2); [apply (Hstep [b0; b1; b2] t2); simpl; auto with lia|].
  destruct t2 as [|b3 t3]; [done|].
  destruct (rune_ok4 b0 b1 b2 b3); [apply (Hstep [b0; b1; b2; b3] t3); simpl; auto with lia|].
  done.
Qed.

(** ** Well-formed documents *)

(** Integer literals: the only numbers [Marshal] prints for the core's types. *)
Definition wf_num (lit : bytes) : Prop :=
  lit ≠ [] ∧ forallb is_digit lit = true ∧ (∀ b t, lit = b :: t → Zb b = 48 → t = []).

Fixpoint wf_json (v : json) : Prop :=
  match v with
  | JNull | JBool _ => True
  | JNum lit => wf_num lit
  | JStr s => valid_utf8 s = true
  | JArr l => fold_right and True (map wf_json l)
  | JObj l => fold_right and True (map (λ kv, valid_utf8 kv.1 = true ∧ wf_json kv.2) l)
  end.

(** Documents that [Marshal] prints: their strings need not be UTF-8. *)
Fixpoint printable_json (v : json) : Prop :=
  match v with
  | JNull | JBool _ | JStr _ => True
  | JNum lit => wf_num lit
  | JArr l => fold_right and True (map printable_json l)
  | JObj l => fold_right and True (map (λ kv, printable_json kv.2) l)
  end.

(** What such a document becomes: every ill-formed octet is replaced. *)
Fixpoint clean (v : json) : json :=
  match v with
  | JStr s => JStr (to_valid_utf8 s)
  | JArr l => JArr (map clean l)
  | JObj l => JObj (map (λ kv, (to_valid_utf8 kv.1, clean kv.2)) l)
  | _ => v
  end.

Lemma wf_fmt_uint z : 0 ≤ z < 2 ^ 64 → wf_num (fmt_uint z).
Proof.
  intros Hz. destruct (fmt_uint_spec z Hz) as (Hne & Hd & Hv & Hh & H0).
  split_and!; [done..|]. intros b t E Hb. destruct (decide (z = 0)) as [->|Hz0].
  - specialize (H0 eq_refl). rewrite H0 in E. by injection E.
  - by destruct (Hh b t E Hz0).
Qed.

(** What may follow a number. *)
Definition num_end (rest : bytes) : Prop :=
  match rest with
  | [] => True
  | b :: _ => is_digit b = false ∧ Zb b ≠ 46 ∧ Zb b ≠ 101 ∧ Zb b ≠ 69
  end.

Lemma span_digits_app ds rest :
  forallb is_digit ds = true → num_end rest → span_digits (ds ++ rest) = (ds, rest).
Proof.
  intros Hd Hr. induction ds as [|b ds IH]; simpl in *.
  - destruct rest as [|b rest]; [done|]. simpl in *. by destruct Hr as (-> & _).
  - apply andb_true_iff in Hd as [-> Hd]. by rewrite IH.
Qed.

Lemma parse_frac_none rest : num_end rest → parse_frac rest = Some ([], rest).
Proof.
  destruct rest as [|b rest]; [done|]. intros (_ & H & _). simpl.
  by rewrite (proj2 (Z.eqb_neq _ _)).
Qed.

Lemma parse_exp_none rest : num_end rest → parse_exp rest = Some ([], rest).
Proof.
  destruct rest as [|b rest]; [done|]. intros (_ & _ & H1 & H2). simpl.
  by rewrite !(proj2 (Z.eqb_neq _ _)).
Qed.

Lemma parse_num_digits lit rest :
  wf_num lit → num_end rest → parse_num (lit ++ rest) = Some (lit, rest).
Proof.
  intros (Hne & Hd & Hz) Hr. destruct lit as [|b t]; [done|].
  unfold parse_num. cbn -[Z.eqb parse_int_part parse_frac parse_exp].
  assert (48 ≤ Zb b ≤ 57) as Hb.
  { simpl in Hd. apply andb_true_iff in Hd as [Hd _]. unfold is_digit, in_range in Hd.
    rewrite andb_true_iff, !Z.leb_le in Hd. lia. }
  rewrite (proj2 (Z.eqb_neq (Zb b) 45)) by lia.
  unfold parse_int_part. destruct (Z.eqb_spec (Zb b) 48) as [E|E].
  - rewrite (Hz b t eq_refl E). simpl app.
    by rewrite parse_frac_none, parse_exp_none.
  - change (b :: t ++ rest) with ((b :: t) ++ rest).
    rewrite span_digits_app by done. simpl.
    rewrite parse_frac_none, parse_exp_none by done. by rewrite !app_nil_r.
Qed.

(** The first character of a printed value decides how it is parsed. *)
Lemma print_head v :
  printable_json v → ∃ b t, print v = b :: t ∧ is_ws b = false ∧ Zb b ≠ 93.
Proof.
  destruct v as [|[]|lit|s|l|l]; intros Hwf; try (do 2 eexists; split; [reflexivity|done]).
  destruct Hwf as (Hne & Hd & _). destruct lit as [|b t]; [done|]. exists b, t.
  simpl in Hd. apply andb_true_iff in Hd as [Hd _].
  unfold is_digit, in_range in Hd. rewrite andb_true_iff, !Z.leb_le in Hd.
  split_and!; [done| |lia]. unfold is_ws. by rewrite !(proj2 (Z.eqb_neq _ _)) by lia.
Qed.

Lemma skip_ws_head b t : is_ws b = false → skip_ws (b :: t) = b :: t.
Proof. simpl. by intros ->. Qed.

Lemma join_cons sep x l : l ≠ [] → join sep (x :: l) = x ++ sep :: join sep l.
Proof. by destruct l. Qed.

Lemma length_join_elem sep l x : x ∈ l → (length x ≤ length (join sep l))%nat.
Proof.
  induction l as [|y l IH]; [by intros ?%elem_of_nil|].
  intros Hx. destruct l as [|z l].
  - apply list_elem_of_singleton in Hx as ->. done.
  - rewrite join_cons, length_app by done. cbn [length].
    apply elem_of_cons in Hx as [->|Hx]; [lia|]. specialize (IH Hx). lia.
Qed.

Lemma length_join sep l : Forall (λ x, x ≠ []) l → (length l ≤ length (join sep l))%nat.
Proof.
  induction 1 as [|x l Hx Hl IH]; [simpl; lia|]. destruct l as [|y l].
  - destruct x; [done|simpl; lia].
  - rewrite join_cons, length_app by done. cbn [length] in *. lia.
Qed.

Section print_lists.
Context (pv : bytes → option (json * bytes)).

Definition parses (v : json) : Prop :=
  ∀ rest, num_end rest → pv (print v ++ rest) = Some (clean v, rest).

Lemma parse_elems_print l n rest :
  l ≠ [] → Forall parses l → (length l ≤ n)%nat →
  parse_elems pv n (join "," (map print l) ++ "]"%byte :: rest) = Some (map clean l, rest).
Proof.
  intros Hne H. revert n Hne. induction H as [|v l Hv Hl IH]; intros n Hne Hn; [done|].
  destruct n as [|n]; simpl in Hn; [lia|]. destruct l as [|w l].
  - simpl. by rewrite Hv.
  - rewrite map_cons, join_cons, <-app_assoc by done. cbn [parse_elems].
    rewrite <-app_comm_cons, Hv by done. cbn [skip_ws].
    change (is_ws ",") with false. change (Zb "," =? 44) with true. cbv iota.
    by rewrite IH by (done || lia).
Qed.

Definition member (kv : bytes * json) : bytes := print_str kv.1 ++ ":"%byte :: print kv.2.

Lemma parse_members_print l n rest :
  l ≠ [] → Forall (λ kv, parses kv.2) l → (length l ≤ n)%nat →
  parse_members pv n (join "," (map member l) ++ "}"%byte :: rest)
  = Some (map (λ kv, (to_valid_utf8 kv.1, clean kv.2)) l, rest).
Proof.
  assert (∀ n k v rest, parses v → num_end rest →
    parse_members pv (S n) (member (k, v) ++ rest)
    = match skip_ws rest with
      | b :: t =>
        if Zb b =? 44 then
          match parse_members pv n t with
          | Some (l, r) => Some ((to_valid_utf8 k, clean v) :: l, r) | None => None end
        else if Zb b =? 125 then Some ([(to_valid_utf8 k, clean v)], t) else None
      | [] => None
      end) as Hone.
  { intros m k v r Hv Hr. unfold member, print_str. simpl fst. simpl snd.
    rewrite <-!app_comm_cons, <-!app_assoc, <-!app_comm_cons, app_nil_l. cbn [parse_members].
    cbn [skip_ws]. change (is_ws dquote) with false. cbv iota.
    change (Zb dquote =? 34) with true. cbv iota.
    rewrite parse_str_escape.
    cbn [skip_ws]. change (is_ws ":") with false. cbv iota.
    change (Zb ":" =? 58) with true. cbv iota. by rewrite Hv. }
  intros Hne H. revert n Hne.
  induction H as [|[k v] l Hv Hl IH]; intros n Hne Hn; [done|].
  destruct n as [|n]; simpl in Hn; [lia|]. destruct l as [|w l].
  - simpl join. by rewrite Hone.
  - rewrite map_cons, join_cons, <-app_assoc by done.
    rewrite <-app_comm_cons, Hone by done. cbn [skip_ws].
    change (is_ws ",") with false. change (Zb "," =? 44) with true. cbv iota.
    by rewrite IH by (done || lia).
Qed.
End print_lists.

Lemma wf_json_arr l : wf_json (JArr l) ↔ Forall wf_json l.
Proof. simpl. induction l as [|x l IH]; simpl; [by split|]. by rewrite Forall_cons_iff, IH. Qed.

Lemma wf_json_obj l :
  wf_json (JObj l) ↔ Forall (λ kv, valid_utf8 kv.1 = true ∧ wf_json kv.2) l.
Proof. simpl. induction l as [|x l IH]; simpl; [by split|]. by rewrite Forall_cons_iff, IH. Qed.

Lemma printable_arr l : printable_json (JArr l) ↔ Forall printable_json l.
Proof. simpl. induction l as [|x l IH]; simpl; [by split|]. by rewrite Forall_cons_iff, IH. Qed.

Lemma printable_obj l : printable_json (JObj l) ↔ Forall (λ kv, printable_json kv.2) l.
Proof. simpl. induction l as [|x l IH]; simpl; [by split|]. by rewrite Forall_cons_iff, IH. Qed.

(** A document whose strings are UTF-8 stays as it is. *)
Lemma wf_printable v : wf_json v → printable_json v.
Proof.
  induction v as [|b|lit|s|l IH|l IH] using json_nested_ind; try done.
  - rewrite wf_json_arr, printable_arr. rewrite !Forall_forall in *. eauto.
  - rewrite wf_json_obj, printable_obj. rewrite !Forall_forall in *. intros Hw x Hx. by apply IH, Hw.
Qed.

Lemma clean_wf v : wf_json v → clean v = v.
Proof.
  induction v as [|b|lit|s|l IH|l IH] using json_nested_ind; intros Hw; cbn [clean]; try done.
  - by rewrite to_valid_utf8_valid.
  - apply wf_json_arr in Hw. f_equal. induction IH as [|x l Hx _ IHl]; cbn [map]; [done|].
    apply Forall_cons in Hw as [? ?]. f_equal; auto.
  - apply wf_json_obj in Hw. f_equal. induction IH as [|[k x] l Hx _ IHl]; cbn [map]; [done|].
    apply Forall_cons in Hw as [[? ?] ?]. cbn [fst snd] in *. rewrite to_valid_utf8_valid, Hx by done. f_equal; auto.
Qed.

Lemma print_arr l : print (JArr l) = "["%byte :: join "," (map print l) ++ ["]"%byte].
Proof. reflexivity. Qed.

Lemma print_obj l : print (JObj l) = "{"%byte :: join "," (map member l) ++ ["}"%byte].
Proof. reflexivity. Qed.

Lemma member_ne kv : member kv ≠ [].
Proof. done. Qed.

Theorem parse_value_print v :
  printable_json v → ∀ fuel rest, (length (print v) < fuel)%nat → num_end rest →
  parse_value fuel (print v ++ rest) = Some (clean v, rest).
Proof.
  induction v as [|[]|lit|s|l IH|l IH] using json_nested_ind; intros Hwf [|f] rest Hf Hr;
    try lia; try reflexivity.
  - destruct (print_head (JNum lit) Hwf) as (b & t & E & Hws & _). simpl in E.
    cbn [parse_value print]. rewrite E. simpl app. rewrite skip_ws_head by done.
    destruct Hwf as (Hne & Hd & Hz). pose proof Hd as Hd'. rewrite E in Hd'.
    simpl in Hd'. apply andb_true_iff in Hd' as [Hd' _].
    unfold is_digit, in_range in Hd'. rewrite andb_true_iff, !Z.leb_le in Hd'.
    rewrite !(proj2 (Z.eqb_neq _ _)) by lia.
    rewrite app_comm_cons, <-E. by rewrite parse_num_digits by done.
  - cbn [parse_value print]. unfold print_str. simpl app. cbn [skip_ws].
    change (is_ws dquote) with false. change (Zb dquote =? 34) with true. cbv iota.
    rewrite <-app_assoc. simpl app. by rewrite parse_str_escape.
  - apply printable_arr in Hwf. rewrite print_arr in *. cbn [length] in Hf.
    rewrite length_app in Hf. cbn [length] in Hf.
    rewrite <-app_comm_cons, <-app_assoc. simpl app.
    cbn -[skip_ws parse_elems Z.eqb].
    rewrite skip_ws_head by done. change (Zb "[" =? 34) with false.
    change (Zb "[" =? 91) with true. cbv iota.
    destruct l as [|v l]; [reflexivity|].
    assert (∃ b t, join "," (map print (v :: l)) = b :: t ∧ is_ws b = false ∧ Zb b ≠ 93)
      as (b & t & E & Hb & Hb').
    { inversion_clear Hwf. destruct (print_head v) as (b & t & E & Hh); [done|].
      simpl map. rewrite E. destruct (map print l); simpl; eauto. }
    rewrite E. rewrite <-app_comm_cons, skip_ws_head by done.
    rewrite (proj2 (Z.eqb_neq _ _)) by done. rewrite app_comm_cons, <-E.
    rewrite parse_elems_print; [done|done| |].
    + apply Forall_forall. intros x Hx rest' Hr'. rewrite Forall_forall in IH, Hwf.
      apply IH; [done|by apply Hwf| |done].
      pose proof (length_join_elem "," (map print (v :: l)) (print x)
        (list_elem_of_fmap_2 print _ _ Hx)). lia.
    + etransitivity; [|etransitivity; [apply (length_join "," (map print (v :: l)))|lia]].
      * by rewrite length_map.
      * apply Forall_forall. intros x (y & -> & Hy)%list_elem_of_fmap.
        rewrite Forall_forall in Hwf. destruct (print_head y) as (? & ? & -> & _); auto.
  - apply printable_obj in Hwf. rewrite print_obj in *. cbn [length] in Hf. rewrite length_app in Hf. cbn [length] in Hf.
    rewrite <-app_comm_cons, <-app_assoc. simpl app.
    cbn -[skip_ws parse_members Z.eqb].
    rewrite skip_ws_head by done. change (Zb "{" =? 34) with false.
    change (Zb "{" =? 91) with false. change (Zb "{" =? 123) with true. cbv iota.
    destruct l as [|[k v] l]; [reflexivity|].
    assert (∃ t, join "," (map member ((k, v) :: l)) = dquote :: t) as (t & E).
    { simpl map. unfold member at 1, print_str. simpl. destruct (map member l); simpl; eauto. }
    rewrite E. rewrite <-app_comm_cons, skip_ws_head by done.
    change (Zb dquote =? 125) with false. cbv iota. rewrite app_comm_cons, <-E.
    rewrite parse_members_print; [done|done| |].
    + apply Forall_forall. intros x Hx. rewrite Forall_forall in IH, Hwf.
      intros rest' Hr'. apply (IH x Hx (Hwf x Hx)); [|done].
      pose proof (length_join_elem "," (map member ((k, v) :: l)) (member x)
        (list_elem_of_fmap_2 member _ _ Hx)) as Hle.
      unfold member at 1 in Hle. rewrite length_app in Hle. cbn [length] in Hle. lia.
    + etransitivity; [|etransitivity; [apply (length_join "," (map member ((k, v) :: l)))|lia]].
      * by rewrite length_map.
      * apply Forall_forall. intros x (y & -> & Hy)%list_elem_of_fmap. apply member_ne.
Qed.

(** [json.Unmarshal] reads back what [json.Marshal] printed. *)
Theorem parse_print_clean v : printable_json v → parse (print v) = Some (clean v).
Proof.
  intros Hwf. unfold parse.
  rewrite <-(app_nil_r (print v)) at 2. rewrite parse_value_print by (done || lia). done.
Qed.

Theorem parse_print v : wf_json v → parse (print v) = Some v.
Proof. intros Hv. by rewrite parse_print_clean, clean_wf by auto using wf_printable. Qed.
