(* ===== verification/Codec.v ===== *)
(** * JSON encoding of Go values

    The second layer of [encoding/json]: how the field types of the core's
    structs become document trees ([Marshal]) and how a tree is assigned to a
    Go value ([Unmarshal]: unknown keys skipped, case-insensitive key match,
    [null] as a no-op, the first type error remembered while the other fields
    are still assigned). *)

From S2P Require Import Prelude Bytes Strconv Encoding Json.
Open Scope Z_scope.

(** ** Marshal *)

Definition enc_slice (s : slice) : json :=
  match s with None => JNull | Some b => JStr (b64_encode false true b) end.
Definition enc_uint (z : Z) : json := JNum (fmt_uint z).
Definition enc_int (z : Z) : json := JNum (fmt_int z).
Definition enc_str (s : bytes) : json := JStr s.
(** A slice of strings, [null] when nil. *)
Definition enc_strs (l : option (list bytes)) : json :=
  match l with None => JNull | Some l => JArr (map JStr l) end.

(** A struct: its fields in order, [None] for one left out by [omitempty]. *)
Definition enc_struct (l : list (option (bytes * json))) : json := JObj (omap id l).
Definition field_of (name : string) (v : json) : option (bytes * json) := Some (bs name, v).
Definition omitempty (empty : bool) (name : string) (v : json) : option (bytes * json) :=
  if empty then None else field_of name v.

Definition marshal (v : json) : bytes := print v.

(** ** Unmarshal *)

(** Assign a tree to a Go value: the value afterwards and the error, if any. *)
Definition decoder (A : Type) : Type := json → A → A * option error.

Definition err_type : error := bs "json: cannot unmarshal value into Go value".
Definition err_syntax : error := bs "json: syntax error".
Definition err_base64 : error := bs "illegal base64 data".

Definition first_err (a b : option error) : option error :=
  match a with Some _ => a | None => b end.

Definition dec_str : decoder bytes := λ j a,
  match j with JNull => (a, None) | JStr s => (s, None) | _ => (a, Some err_type) end.

Definition dec_bool : decoder bool := λ j a,
  match j with JNull => (a, None) | JBool b => (b, None) | _ => (a, Some err_type) end.

Definition dec_uint (bits : Z) : decoder Z := λ j a,
  match j with
  | JNull => (a, None)
  | JNum lit => match parse_uint bits lit with
                | Some z => (z, None) | None => (a, Some err_type) end
  | _ => (a, Some err_type)
  end.

Definition dec_int (bits : Z) : decoder Z := λ j a,
  match j with
  | JNull => (a, None)
  | JNum lit => match parse_int bits lit with
                | Some z => (z, None) | None => (a, Some err_type) end
  | _ => (a, Some err_type)
  end.

(** A JSON array is accepted for a [[]byte] too, one number per octet. *)
Fixpoint dec_octets (l : list json) : bytes * option error :=
  match l with
  | [] => ([], None)
  | j :: l => let '(z, e) := dec_uint 8 j 0 in
              let '(r, e') := dec_octets l in (bZ z :: r, first_err e e')
  end.

Definition dec_slice : decoder slice := λ j a,
  match j with
  | JNull => (None, None)
  | JStr s => match b64_decode false true s with
              | Some b => (Some b, None) | None => (a, Some err_base64) end
  | JArr l => let '(b, e) := dec_octets l in (Some b, e)
  | _ => (a, Some err_type)
  end.

(** A slice whose elements start from their zero value. *)
Fixpoint dec_elems {A} (zero : A) (d : decoder A) (l : list json) : list A * option error :=
  match l with
  | [] => ([], None)
  | j :: l => let '(x, e) := d j zero in
              let '(r, e') := dec_elems zero d l in (x :: r, first_err e e')
  end.

Definition dec_list {A} (zero : A) (d : decoder A) : decoder (option (list A)) := λ j a,
  match j with
  | JNull => (None, None)
  | JArr l => let '(r, e) := dec_elems zero d l in (Some r, e)
  | _ => (a, Some err_type)
  end.

(** A pointer field: [null] clears it, anything else allocates. *)
Definition dec_ptr {A} (zero : A) (d : decoder A) : decoder (option A) := λ j a,
  match j with
  | JNull => (None, None)
  | _ => let '(v, e) := d j (default zero a) in (Some v, e)
  end.

(** *** Structs *)

Definition field (T : Type) : Type := bytes * decoder T.

Definition fld {T A} (name : string) (get : T → A) (set : A → T → T) (d : decoder A) : field T :=
  (bs name, λ j s, let '(a, e) := d j (get s) in (set a s, e)).

(** [foldName]: ASCII letters fold to upper case, and the two other runes
    whose simple folding is an ASCII letter fold to it. *)
Definition fold_chunk (c : rchunk) : bytes :=
  match c with
  | Rune [b] => [if in_range 97 122 b then bZ (Zb b - 32) else b]
  | Rune e => if decide (e = ["197"; "191"]%byte) then bs "S"
              else if decide (e = ["226"; "132"; "170"]%byte) then bs "K" else e
  | Bad => replacement
  end.
Definition fold_name (k : bytes) : bytes := flat_map fold_chunk (runes k).

Definition find_field {T} (fs : list (field T)) (k : bytes) : option (decoder T) :=
  match List.find (λ f, bool_decide (f.1 = k)) fs with
  | Some f => Some f.2
  | None => snd <$> List.find (λ f, bool_decide (fold_name f.1 = fold_name k)) fs
  end.

Definition dec_member {T} (fs : list (field T)) (acc : T * option error) (kv : bytes * json)
    : T * option error :=
  let '(s, e) := acc in
  match find_field fs kv.1 with
  | Some d => let '(s', e') := d kv.2 s in (s', first_err e e')
  | None => (s, e)
  end.

Definition dec_struct {T} (fs : list (field T)) : decoder T := λ j s,
  match j with
  | JNull => (s, None)
  | JObj l => fold_left (dec_member fs) l (s, None)
  | _ => (s, Some err_type)
  end.

(** [var x T; err := json.Unmarshal(b, &x)]. *)
Definition unmarshal {A} (d : decoder A) (zero : A) (b : bytes) : A * option error :=
  match parse b with
  | Some j => d j zero
  | None => (zero, Some err_syntax)
  end.

(** The common [if err != nil { return err }]. *)
Definition unmarshal_ok {A} (d : decoder A) (zero : A) (b : bytes) : result A :=
  match unmarshal d zero b with
  | (a, None) => Ok a
  | (_, Some e) => Err e
  end.

(** ** Round trips of the field types *)

Lemma dec_struct_obj {T} (fs : list (field T)) l s :
  dec_struct fs (JObj l) s = fold_left (dec_member fs) l (s, None).
Proof. done. Qed.

Lemma fold_member {T} (fs : list (field T)) k v l s d s' :
  find_field fs k = Some d → d v s = (s', None) →
  fold_left (dec_member fs) ((k, v) :: l) (s, None) = fold_left (dec_member fs) l (s', None).
Proof. intros Hf Hd. cbn [fold_left]. unfold dec_member at 2. simpl. by rewrite Hf, Hd. Qed.

(** Decode the members of a printed struct one by one; [tac] decodes a field. *)
Ltac dec_fields tac :=
  repeat (erewrite fold_member; [|reflexivity|cbn [snd fld]; unfold fld; cbn [snd]; tac; reflexivity];
    match goal with |- context [fold_left _ _ (?s, None)] =>
      let s' := eval cbn in s in change s with s' end);
  try reflexivity.

Lemma dec_enc_slice s a : dec_slice (enc_slice s) a = (s, None).
Proof. destruct s as [b|]; simpl; [|done]. by rewrite b64_decode_encode. Qed.

Lemma dec_enc_uint bits z a :
  0 ≤ z < 2 ^ bits → bits ≤ 64 → dec_uint bits (enc_uint z) a = (z, None).
Proof. intros. simpl. by rewrite parse_fmt_uint. Qed.

Lemma dec_enc_int bits z a :
  0 ≤ z < 2 ^ (bits - 1) → bits ≤ 64 → dec_int bits (enc_int z) a = (z, None).
Proof. intros. simpl. by rewrite parse_fmt_int. Qed.

Lemma wf_enc_int z : 0 ≤ z < 2 ^ 63 → wf_json (enc_int z).
Proof.
  intros Hz. unfold enc_int, fmt_int. rewrite (proj2 (Z.ltb_ge _ _)) by lia. apply wf_fmt_uint.
  change (2 ^ 63) with 9223372036854775808 in Hz. change (2 ^ 64) with 18446744073709551616. lia.
Qed.

(** An array printed element by element decodes element by element. *)
Lemma dec_elems_map {A} (zero : A) (d : decoder A) (enc : A → json) l :
  (∀ x, x ∈ l → d (enc x) zero = (x, None)) → dec_elems zero d (map enc l) = (l, None).
Proof.
  induction l as [|x l IH]; intros H; [done|]. cbn [map dec_elems].
  rewrite (H x) by left. by rewrite IH by (intros y Hy; apply H; by right).
Qed.

Lemma dec_enc_strs l a : dec_list [] dec_str (enc_strs l) a = (l, None).
Proof. destruct l as [l|]; [|done]. cbn. by rewrite (dec_elems_map _ _ JStr) by done. Qed.

Lemma wf_enc_strs l :
  match l with None => True | Some l => Forall (λ s, valid_utf8 s = true) l end → wf_json (enc_strs l).
Proof.
  destruct l as [l|]; [|done]. intros H. apply wf_json_arr. induction H; cbn; by constructor.
Qed.

Lemma wf_enc_uint z : 0 ≤ z < 2 ^ 64 → wf_json (enc_uint z).
Proof. apply wf_fmt_uint. Qed.

Lemma runes_ascii s : Forall (λ b, Zb b < 128) s → runes s = map (λ b, Rune [b]) s.
Proof.
  induction 1 as [|b s Hb Hs IH]; [done|]. cbn [runes map].
  by rewrite (proj2 (Z.ltb_lt _ _) Hb), IH.
Qed.

Lemma valid_utf8_ascii s : Forall (λ b, Zb b < 128) s → valid_utf8 s = true.
Proof.
  intros H. unfold valid_utf8. rewrite runes_ascii by done.
  induction s; simpl; [done|]. inversion H; auto.
Qed.

Lemma hex_digit_ascii v : 0 ≤ v < 16 → Zb (hex_digit v) < 128.
Proof. intros. rewrite Zb_hex_digit by done. destruct (v <? 10); lia. Qed.

Lemma valid_utf8_hex l : valid_utf8 (hex_encode l) = true.
Proof.
  apply valid_utf8_ascii. unfold hex_encode. induction l as [|b l IH]; [constructor|]. cbn [flat_map app].
  pose proof (Zb_range b). repeat (constructor; [apply hex_digit_ascii; zlia|]). done.
Qed.

Lemma b64_char_ascii url v : 0 ≤ v < 64 → Zb (b64_char url v) < 128.
Proof.
  intros Hv. apply Z.ltb_lt. revert v Hv. apply (forall_range 64).
  by destruct url; vm_compute.
Qed.

Lemma b64_encode_ascii url pad l : Forall (λ b, Zb b < 128) (b64_encode url pad l).
Proof.
  induction l as [l IH] using list_len_ind.
  destruct l as [|a [|b [|c l]]]; [constructor|..]; pose_ranges;
    [destruct pad; simpl; repeat constructor; try done; apply b64_char_ascii; zlia..|].
  cbn [b64_encode]. repeat (constructor; [apply b64_char_ascii; zlia|]).
  apply IH. simpl; lia.
Qed.

Lemma wf_enc_slice s : wf_json (enc_slice s).
Proof. destruct s; simpl; [|done]. apply valid_utf8_ascii, b64_encode_ascii. Qed.

(** Decoding the bytes of a well-formed document is decoding the document. *)
Lemma unmarshal_marshal {A} (d : decoder A) zero v :
  wf_json v → unmarshal d zero (marshal v) = d v zero.
Proof. intros Hv. unfold unmarshal, marshal. by rewrite parse_print. Qed.

Lemma unmarshal_ok_marshal {A} (d : decoder A) zero v a :
  wf_json v → d v zero = (a, None) → unmarshal_ok d zero (marshal v) = Ok a.
Proof. intros Hv Hd. unfold unmarshal_ok. by rewrite unmarshal_marshal, Hd. Qed.

(** The same for strings that need not be UTF-8. *)
Lemma unmarshal_ok_clean {A} (d : decoder A) zero v a :
  printable_json v → d (clean v) zero = (a, None) → unmarshal_ok d zero (marshal v) = Ok a.
Proof. intros Hv Hd. unfold unmarshal_ok, unmarshal, marshal. by rewrite parse_print_clean, Hd. Qed.

#[export] Hint Resolve wf_enc_slice wf_enc_uint wf_enc_int wf_enc_strs wf_fmt_uint : stunner.
#[export] Hint Rewrite @dec_enc_slice : stunner.

(** ** Structs *)

Definition wf_member (f : option (bytes * json)) : Prop :=
  match f with None => True | Some kv => valid_utf8 kv.1 = true ∧ wf_json kv.2 end.

Lemma wf_enc_struct l : Forall wf_member l → wf_json (enc_struct l).
Proof.
  intros H. apply wf_json_obj. induction H as [|[kv|] l Hf Hl IH]; cbn; [constructor|by constructor|done].
Qed.

Lemma wf_field_of name v : valid_utf8 (bs name) = true → wf_json v → wf_member (field_of name v).
Proof. by split. Qed.

Lemma wf_omitempty e name v :
  valid_utf8 (bs name) = true → (e = false → wf_json v) → wf_member (omitempty e name v).
Proof. destruct e; [done|]. split; auto. Qed.

(** A struct's document is well formed when its fields' are. *)
Ltac wf_struct :=
  apply wf_enc_struct;
  repeat first [apply List.Forall_nil | apply List.Forall_cons];
  (first [apply wf_field_of | apply wf_omitempty]; [reflexivity|]).

(** A member that may be left out, decoded into a value that has it at zero. *)
Lemma fold_omitted {T} (fs : list (field T)) c name v l s s' d :
  find_field fs (bs name) = Some d → d v s = (s', None) → (c = true → s' = s) →
  fold_left (dec_member fs) (omap id (omitempty c name v :: l)) (s, None)
  = fold_left (dec_member fs) (omap id l) (s', None).
Proof.
  intros Hf Hd Hc. destruct c; [by rewrite Hc|]. cbn [omitempty field_of omap list_omap id].
  unfold id at 1. by apply (fold_member fs (bs name) v _ s d).
Qed.

Lemma fold_field {T} (fs : list (field T)) name v l s s' d :
  find_field fs (bs name) = Some d → d v s = (s', None) →
  fold_left (dec_member fs) (omap id (field_of name v :: l)) (s, None)
  = fold_left (dec_member fs) (omap id l) (s', None).
Proof. intros Hf Hd. cbn [field_of omap list_omap]. unfold id at 1. by apply (fold_member fs (bs name) v _ s d). Qed.

(** Decode a struct the encoder of the same type printed. *)
Ltac dec_obj tac :=
  unfold enc_struct, omitempty, field_of; rewrite dec_struct_obj;
  cbn [omap list_omap id]; unfold id; cbv iota; dec_fields tac.

(** [json.Unmarshal] into a variable whose error the caller may drop. *)
Definition as_result {A} (p : A * option error) : result A :=
  match p with (a, None) => Ok a | (_, Some e) => Err e end.

Lemma unmarshal_as_result {A} (d : decoder A) zero b : as_result (unmarshal d zero b) = unmarshal_ok d zero b.
Proof. unfold unmarshal_ok. by destruct (unmarshal d zero b) as [a [e|]]. Qed.
