(* ===== verification/GoTime.v ===== *)
(** * [time.Time] as the core's JSON carries it

    The core stamps envelopes and contacts with [time.Now().UTC()] and
    serializes the stamp through [Time.MarshalJSON], which is RFC 3339 with
    nanoseconds.  A time is its wall clock and its offset from UTC in minutes;
    the decoder is the one for RFC 3339 proper. *)

From S2P Require Import Prelude Bytes Strconv Json Codec.
Open Scope Z_scope.

Record gotime := GoTime {
  t_year : Z; t_month : Z; t_day : Z;
  t_hour : Z; t_min : Z; t_sec : Z; t_nsec : Z;
  t_off : Z;
}.

(** The zero value, year 1 UTC. *)
Definition zero_time : gotime := GoTime 1 1 1 0 0 0 0 0.

(** ** Format *)

(** [appendInt] to a fixed width. *)
Fixpoint pad (w : nat) (z : Z) : bytes :=
  match w with O => [] | S w => pad w (z / 10) ++ [bZ (48 + z mod 10)] end.

Fixpoint trim0 (l : bytes) : bytes :=
  match l with
  | [] => []
  | b :: l => match trim0 l with
              | [] => if Zb b =? 48 then [] else [b]
              | l' => b :: l'
              end
  end.

Definition fmt_frac (nsec : Z) : bytes :=
  if nsec =? 0 then [] else "."%byte :: trim0 (pad 9 nsec).

Definition fmt_zone (off : Z) : bytes :=
  if off =? 0 then ["Z"%byte] else
  (if off <? 0 then "-"%byte else "+"%byte) :: pad 2 (Z.abs off / 60) ++ ":"%byte :: pad 2 (Z.abs off mod 60).

Definition fmt_time (t : gotime) : bytes :=
  pad 4 (t_year t) ++ "-"%byte :: pad 2 (t_month t) ++ "-"%byte :: pad 2 (t_day t) ++ "T"%byte ::
  pad 2 (t_hour t) ++ ":"%byte :: pad 2 (t_min t) ++ ":"%byte :: pad 2 (t_sec t) ++
  fmt_frac (t_nsec t) ++ fmt_zone (t_off t).

(** [Time.MarshalJSON]. *)
Definition enc_time (t : gotime) : result json :=
  if (t_year t <? 0) || (9999 <? t_year t)
  then Err (bs "Time.MarshalJSON: year outside of range [0,9999]")
  else Ok (JStr (fmt_time t)).

(** ** Parse *)

Definition leap (y : Z) : bool := (y mod 4 =? 0) && (negb (y mod 100 =? 0) || (y mod 400 =? 0)).

Definition days_in (m y : Z) : Z :=
  if m =? 2 then if leap y then 29 else 28
  else if (m =? 4) || (m =? 6) || (m =? 9) || (m =? 11) then 30 else 31.

(** [parseUint] of the RFC 3339 parser: [n] digits in a range. *)
Definition get_num (n : nat) (lo hi : Z) (s : bytes) : option (Z * bytes) :=
  let d := take n s in
  if bool_decide (length d = n) && forallb is_digit d && (lo <=? digits_val d) && (digits_val d <=? hi)
  then Some (digits_val d, drop n s) else None.

Definition get_byte (b : byte) (s : bytes) : option bytes :=
  match s with c :: s => if Byte.eqb b c then Some s else None | [] => None end.

(** The fraction: digits after the ninth are dropped. *)
Definition get_frac (s : bytes) : Z * bytes :=
  match s with
  | b :: t => if Zb b =? 46 then
                match span_digits t with
                | ([], _) => (0, s)
                | (d, r) => (digits_val (take 9 (d ++ replicate 9 "0"%byte)), r)
                end
              else (0, s)
  | [] => (0, [])
  end.

Definition get_zone (s : bytes) : option Z :=
  match s with
  | [b] => if Zb b =? 90 then Some 0 else None
  | b :: s =>
    if (Zb b =? 45) || (Zb b =? 43) then
      '(h, s) ← get_num 2 0 23 s; s ← get_byte ":"%byte s; '(m, s) ← get_num 2 0 59 s;
      match s with
      | [] => Some (if Zb b =? 45 then - (60 * h + m) else 60 * h + m)
      | _ => None
      end
    else None
  | [] => None
  end.

Definition parse_time (s : bytes) : option gotime :=
  '(y, s) ← get_num 4 0 9999 s; s ← get_byte "-"%byte s;
  '(mo, s) ← get_num 2 1 12 s; s ← get_byte "-"%byte s;
  '(d, s) ← get_num 2 1 (days_in mo y) s; s ← get_byte "T"%byte s;
  '(h, s) ← get_num 2 0 23 s; s ← get_byte ":"%byte s;
  '(mi, s) ← get_num 2 0 59 s; s ← get_byte ":"%byte s;
  '(se, s) ← get_num 2 0 59 s;
  let '(ns, s) := get_frac s in
  off ← get_zone s;
  Some (GoTime y mo d h mi se ns off).

(** [Time.UnmarshalJSON]. *)
Definition dec_time : decoder gotime := λ j t,
  match j with
  | JNull => (t, None)
  | JStr s => match parse_time s with
              | Some t => (t, None)
              | None => (t, Some (bs "parsing time: cannot parse"))
              end
  | _ => (t, Some (bs "Time.UnmarshalJSON: input is not a JSON string"))
  end.

(** ** Round trip *)

(** The times a clock can show. *)
Record wf_time (t : gotime) : Prop := {
  wt_year : 0 ≤ t_year t ≤ 9999;
  wt_month : 1 ≤ t_month t ≤ 12;
  wt_day : 1 ≤ t_day t ≤ days_in (t_month t) (t_year t);
  wt_hour : 0 ≤ t_hour t ≤ 23;
  wt_min : 0 ≤ t_min t ≤ 59;
  wt_sec : 0 ≤ t_sec t ≤ 59;
  wt_nsec : 0 ≤ t_nsec t < 10 ^ 9;
  wt_off : Z.abs (t_off t) < 24 * 60;
}.

Lemma length_pad w z : length (pad w z) = w.
Proof. revert z. induction w; intros z; cbn; [done|]. rewrite length_app, IHw. cbn. lia. Qed.

Lemma pad_digits w z : forallb is_digit (pad w z) = true.
Proof.
  revert z. induction w; intros z; cbn; [done|]. rewrite forallb_app, IHw. cbn [forallb andb].
  by rewrite is_digit_bZ by zlia.
Qed.

Lemma digits_val_pad w z : digits_val (pad w z) = z mod 10 ^ Z.of_nat w.
Proof.
  revert z. induction w as [|w IH]; intros z; [cbn; by rewrite Z.mod_1_r|].
  cbn [pad]. unfold digits_val in *. rewrite fold_left_app, IH. cbn [fold_left].
  rewrite Zb_bZ_small by zlia.
  rewrite Nat2Z.inj_succ, Z.pow_succ_r by lia.
  rewrite (Z.rem_mul_r z 10) by lia. lia.
Qed.

Lemma get_num_pad n lo hi z rest :
  0 ≤ lo → lo ≤ z ≤ hi → hi < 10 ^ Z.of_nat n → get_num n lo hi (pad n z ++ rest) = Some (z, rest).
Proof.
  intros Hlo Hz Hhi. unfold get_num.
  rewrite take_app_length', drop_app_length' by (by rewrite length_pad).
  rewrite bool_decide_true by apply length_pad. rewrite pad_digits, digits_val_pad.
  rewrite Z.mod_small by lia. rewrite !(proj2 (Z.leb_le _ _)) by lia. done.
Qed.

Lemma get_byte_cons b s : get_byte b (b :: s) = Some s.
Proof. cbn. by rewrite (Byte.byte_dec_lb eq_refl). Qed.

Lemma trim0_app l : trim0 l ++ replicate (length l - length (trim0 l)) "0"%byte = l.
Proof.
  induction l as [|b l IH]; [done|]. cbn [trim0].
  destruct (trim0 l) as [|x t] eqn:E.
  - cbn [app length] in IH. rewrite Nat.sub_0_r in IH.
    destruct (Z.eqb_spec (Zb b) 48) as [Hb|Hb]; cbn [app length Nat.sub replicate].
    + f_equal; [|done]. apply Zb_inj. by rewrite Hb.
    + by rewrite Nat.sub_0_r, IH.
  - cbn [app length Nat.sub]. f_equal. exact IH.
Qed.

Lemma trim0_digits l : forallb is_digit l = true → forallb is_digit (trim0 l) = true.
Proof.
  induction l as [|b l IH]; [done|]. cbn [forallb trim0]. intros [Hb Hl]%andb_true_iff.
  specialize (IH Hl). destruct (trim0 l) as [|x t].
  - destruct (_ =? 48); [done|]. cbn. by rewrite Hb.
  - cbn [forallb]. by rewrite Hb.
Qed.

Lemma take_trim0 l : length l = 9%nat → take 9 (trim0 l ++ replicate 9 "0"%byte) = l.
Proof.
  intros Hl. pose proof (trim0_app l) as E. rewrite Hl in E.
  assert (length (trim0 l) ≤ 9)%nat.
  { apply (f_equal length) in E. rewrite length_app in E. lia. }
  replace 9%nat with ((9 - length (trim0 l)) + length (trim0 l))%nat at 2 by lia.
  rewrite replicate_add, app_assoc, E. apply take_app_length'. done.
Qed.

Lemma fmt_zone_head off : ∃ b r, fmt_zone off = b :: r ∧ is_digit b = false ∧ Zb b ≠ 46 ∧ Zb b ≠ 101 ∧ Zb b ≠ 69.
Proof.
  unfold fmt_zone. destruct (off =? 0); [by eexists _, _; split|].
  destruct (off <? 0); by eexists _, _; split.
Qed.

Lemma get_frac_fmt nsec off :
  0 ≤ nsec < 10 ^ 9 → get_frac (fmt_frac nsec ++ fmt_zone off) = (nsec, fmt_zone off).
Proof.
  intros Hn. destruct (fmt_zone_head off) as (z & r & -> & Hz). unfold fmt_frac.
  destruct (Z.eqb_spec nsec 0) as [->|Hne].
  - cbn. by rewrite (proj2 (Z.eqb_neq _ _)) by apply Hz.
  - cbn [app get_frac]. change (Zb "." =? 46) with true. cbv iota.
    rewrite span_digits_app by (apply trim0_digits, pad_digits || exact Hz).
    pose proof (take_trim0 (pad 9 nsec) (length_pad 9 nsec)) as Ht.
    assert (digits_val (pad 9 nsec) = nsec) as Hv.
    { rewrite digits_val_pad. apply Z.mod_small. exact Hn. }
    destruct (trim0 (pad 9 nsec)) as [|x t] eqn:E.
    + exfalso. apply Hne. rewrite <-Hv, <-Ht. reflexivity.
    + by rewrite Ht, Hv.
Qed.

Lemma get_zone_fmt off : Z.abs off < 24 * 60 → get_zone (fmt_zone off) = Some off.
Proof.
  intros Ho. unfold fmt_zone. destruct (Z.eqb_spec off 0) as [->|Hne]; [done|].
  assert (0 ≤ Z.abs off / 60 ≤ 23) by zlia. assert (0 ≤ Z.abs off mod 60 ≤ 59) by zlia.
  pose proof (get_num_pad 2 0 59 (Z.abs off mod 60) []) as E2. rewrite app_nil_r in E2.
  assert (∀ b, (Zb b =? 45) || (Zb b =? 43) = true →
    get_zone (b :: pad 2 (Z.abs off / 60) ++ ":"%byte :: pad 2 (Z.abs off mod 60))
    = Some (if Zb b =? 45 then - Z.abs off else Z.abs off)) as Hb.
  { intros b Hb. unfold get_zone.
    destruct (pad 2 (Z.abs off / 60) ++ ":"%byte :: pad 2 (Z.abs off mod 60)) as [|x l] eqn:E.
    { apply (f_equal length) in E. rewrite length_app, length_pad in E. cbn in E. lia. }
    rewrite Hb, <-E, get_num_pad by (cbn; lia). cbn [mbind option_bind].
    rewrite get_byte_cons. cbn [mbind option_bind]. rewrite E2 by (cbn; lia). cbn [mbind option_bind].
    f_equal. destruct (Zb b =? 45); zlia. }
  destruct (Z.ltb_spec off 0).
  - rewrite Hb by done. change (Zb "-" =? 45) with true. cbv iota. f_equal. lia.
  - rewrite Hb by done. change (Zb "+" =? 45) with false. cbv iota. f_equal. lia.
Qed.

Lemma days_in_range m y : 28 ≤ days_in m y ≤ 31.
Proof. unfold days_in. repeat case_match; lia. Qed.

Lemma parse_fmt_time t : wf_time t → parse_time (fmt_time t) = Some t.
Proof.
  intros []. pose proof (days_in_range (t_month t) (t_year t)).
  unfold parse_time, fmt_time.
  repeat (rewrite get_num_pad by (cbn; lia); cbn [mbind option_bind];
          rewrite ?get_byte_cons; cbn [mbind option_bind]).
  rewrite get_frac_fmt by done. rewrite get_zone_fmt by done. cbn. by destruct t.
Qed.

Lemma enc_time_Ok t : wf_time t → enc_time t = Ok (JStr (fmt_time t)).
Proof.
  intros []. unfold enc_time.
  rewrite (proj2 (Z.ltb_ge _ _)) by lia. by rewrite (proj2 (Z.ltb_ge _ _)) by lia.
Qed.

Lemma dec_enc_time t a : wf_time t → dec_time (JStr (fmt_time t)) a = (t, None).
Proof. intros. unfold dec_time. by rewrite parse_fmt_time. Qed.

Lemma digit_ascii b : is_digit b = true → Zb b < 128.
Proof. unfold is_digit, in_range. rewrite andb_true_iff, !Z.leb_le. lia. Qed.

Lemma digits_ascii l : forallb is_digit l = true → Forall (λ b, Zb b < 128) l.
Proof.
  induction l; cbn; [constructor|]. intros [? ?]%andb_true_iff. constructor; auto using digit_ascii.
Qed.

Lemma valid_utf8_fmt_time t : valid_utf8 (fmt_time t) = true.
Proof.
  apply valid_utf8_ascii. unfold fmt_time, fmt_frac, fmt_zone.
  repeat case_match; repeat first [rewrite Forall_app | rewrite Forall_cons_iff]; split_and!;
    try exact (Forall_nil_2 _); try reflexivity;
    apply digits_ascii; auto using pad_digits, trim0_digits.
Qed.

#[export] Hint Resolve valid_utf8_fmt_time : stunner.

Example fmt_time_1 : fmt_time (GoTime 2024 2 29 7 5 9 120000000 0) = bs "2024-02-29T07:05:09.12Z".
Proof. vm_compute. reflexivity. Qed.
