(* ===== verification/Kdf.v ===== *)
(** * Key derivation ([pkg/crypto/kdf.go])

    HKDF as the loop the source runs, refined against RFC 5869's definition. *)

From S2P Require Import Prelude Bytes Sha2.
Open Scope Z_scope.

(** ** The code *)

(** [hmacSHA256]. *)
Definition hmacSHA256 (key data : bytes) : bytes := hmac key data.

(** The variables of the expand loop. *)
Record hkdf_st := HkdfSt { hk_out : bytes; hk_t : bytes; hk_counter : Z }.

Definition hkdf_body (prk info : bytes) (st : hkdf_st) : hkdf_st :=
  let t := hmac prk (hk_t st ++ info ++ [bZ (hk_counter st)]) in
  HkdfSt (hk_out st ++ t) t ((hk_counter st + 1) mod 256).

Definition hkdf_cond (len : nat) (st : hkdf_st) : bool :=
  bool_decide (length (hk_out st) < len)%nat.

(** [hkdf]. Each turn of the loop adds 32 octets, so [len] turns are enough. *)
Definition hkdf (salt ikm info : bytes) (len : nat) : bytes :=
  let salt := if decide (salt = []) then replicate 32 "000"%byte else salt in
  let prk := hmac salt ikm in
  take len (hk_out (while len (hkdf_cond len) (hkdf_body prk info) (HkdfSt [] [] 1))).

(** ** RFC 5869 *)

(** T(0), T(1), T(2), ... *)
Fixpoint rfc_T (prk info : bytes) (n : nat) : bytes :=
  match n with
  | O => []
  | S n => hmac prk (rfc_T prk info n ++ info ++ [bZ (Z.of_nat (S n))])
  end.

(** T = T(1) | T(2) | ... | T(n). *)
Fixpoint rfc_okm (prk info : bytes) (n : nat) : bytes :=
  match n with
  | O => []
  | S n => rfc_okm prk info n ++ rfc_T prk info (S n)
  end.

(** HKDF-Extract then HKDF-Expand; L may be at most 255 * HashLen. *)
Definition rfc5869 (salt ikm info : bytes) (L : nat) : option bytes :=
  let salt := if decide (salt = []) then replicate 32 "000"%byte else salt in
  if decide (L ≤ 255 * 32)%nat
  then Some (take L (rfc_okm (hmac salt ikm) info ((L + 31) / 32)))
  else None.

(** ** Correctness *)

Section expand.
Context (prk info : bytes).

(** The loop state after [n] turns. *)
Definition hkdf_at (n : nat) : hkdf_st :=
  HkdfSt (rfc_okm prk info n) (rfc_T prk info n) (Z.of_nat (S n) mod 256).

Lemma length_rfc_T n : length (rfc_T prk info (S n)) = 32%nat.
Proof. apply length_hmac. Qed.

Lemma length_rfc_okm n : length (rfc_okm prk info n) = (32 * n)%nat.
Proof. induction n; [done|]. cbn [rfc_okm]. rewrite length_app, length_rfc_T. lia. Qed.

Lemma hkdf_body_at n : hkdf_body prk info (hkdf_at n) = hkdf_at (S n).
Proof.
  unfold hkdf_body, hkdf_at. cbn [hk_out hk_t hk_counter rfc_okm]. f_equal.
  - cbn [rfc_T]. by rewrite bZ_mod.
  - cbn [rfc_T]. by rewrite bZ_mod.
  - rewrite Zplus_mod_idemp_l. f_equal. lia.
Qed.

(** The loop stops after exactly the turns that are needed. *)
Lemma hkdf_loop fuel len n :
  (len ≤ fuel + n)%nat → (n ≤ (len + 31) / 32)%nat →
  while fuel (hkdf_cond len) (hkdf_body prk info) (hkdf_at n)
  = hkdf_at ((len + 31) / 32).
Proof.
  revert n. induction fuel as [|fuel IH]; intros n Hf Hn; cbn [while].
  - f_equal. pose proof (Nat.div_mod_eq (len + 31) 32).
    pose proof (Nat.mod_upper_bound (len + 31) 32). lia.
  - unfold hkdf_cond at 1. cbn [hk_out hkdf_at]. rewrite length_rfc_okm.
    pose proof (Nat.div_mod_eq (len + 31) 32).
    pose proof (Nat.mod_upper_bound (len + 31) 32).
    case_bool_decide.
    + rewrite hkdf_body_at. apply IH; lia.
    + f_equal. lia.
Qed.
End expand.

Lemma hkdf_unfold salt ikm info len :
  hkdf salt ikm info len
  = take len (rfc_okm (hmac (if decide (salt = []) then replicate 32 "000"%byte else salt) ikm)
                      info ((len + 31) / 32)).
Proof.
  unfold hkdf. change (HkdfSt [] [] 1) with
    (hkdf_at (hmac (if decide (salt = []) then replicate 32 "000"%byte else salt) ikm) info 0).
  by rewrite hkdf_loop by lia.
Qed.

Lemma length_hkdf salt ikm info len : length (hkdf salt ikm info len) = len.
Proof.
  rewrite hkdf_unfold, length_take, length_rfc_okm.
  pose proof (Nat.div_mod_eq (len + 31) 32).
  pose proof (Nat.mod_upper_bound (len + 31) 32). lia.
Qed.

(** C36: the expand loop of [hkdf] terminates and computes RFC 5869's HKDF with
    SHA-256, for every salt - an empty one is the RFC's default - and every
    length the RFC allows; beyond that the result still has the length asked
    for. *)
Theorem hkdf_rfc5869 salt ikm info len :
  length (hkdf salt ikm info len) = len ∧
  rfc5869 salt ikm info len = (if decide (len ≤ 255 * 32)%nat then Some (hkdf salt ikm info len) else None).
Proof. split; [apply length_hkdf|]. unfold rfc5869. case_decide; [by rewrite hkdf_unfold|done]. Qed.

#[export] Hint Rewrite length_hkdf : stunner.
#[global] Opaque hkdf.

(** RFC 5869, test case 1 (first 32 octets of the 42). *)
Example hkdf_case_1 :
  hex_encode (hkdf (map bZ [0;1;2;3;4;5;6;7;8;9;10;11;12]) (replicate 22 "011"%byte)
                   (map bZ [240;241;242;243;244;245;246;247;248;249]) 42)
  = bs "3cb25f25faacd57a90434f64d0362f2a2d2d0a90cf1a5a4c5db02d56ecc4c5bf34007208d5b887185865".
Proof. vm_compute. reflexivity. Qed.
