(* ===== verification/Curve.v ===== *)
(** * Curve25519 primitives as an interface

    What the core uses of [crypto/ecdh]'s X25519 and of [crypto/ed25519] is an
    interface: the operations on key octets, and the laws their documentation
    gives (two parties agree on a shared secret; a signature made with a key
    verifies under its public key).  The components are proved against the
    interface; [ToyCurves] is an implementation of it by modular
    multiplication and hashing, with which every theorem can be run. *)

From S2P Require Import Prelude Bytes Sha2.
Open Scope Z_scope.

Class Curves := {
  (** [PrivateKey.PublicKey().Bytes()] for the scalar with these octets. *)
  x25519_pub : bytes → bytes;
  (** The shared secret of [PrivateKey.ECDH], an error when it is all zero. *)
  x25519_ecdh : bytes → bytes → result bytes;
  (** The public key of an Ed25519 seed. *)
  ed25519_pub : bytes → bytes;
  (** [ed25519.Sign] with a 64-octet private key. *)
  ed25519_sign : bytes → bytes → bytes;
  (** [ed25519.Verify] with a 32-octet public key. *)
  ed25519_verify : bytes → bytes → bytes → bool;
}.

Class CurveLaws `{Curves} := {
  length_x25519_pub : ∀ k, length (x25519_pub k) = 32%nat;
  (** Two honest parties get the same secret, never the all-zero one. *)
  x25519_agree : ∀ a b, ∃ s,
    x25519_ecdh a (x25519_pub b) = Ok s ∧ x25519_ecdh b (x25519_pub a) = Ok s;
  length_ed25519_pub : ∀ s, length (ed25519_pub s) = 32%nat;
  ed25519_verify_sign : ∀ s m, length s = 32%nat →
    ed25519_verify (ed25519_pub s) m (ed25519_sign (s ++ ed25519_pub s) m) = true;
}.

#[export] Hint Rewrite @length_x25519_pub @length_ed25519_pub using typeclasses eauto : stunner.

(** ** [crypto/ecdh] around the primitive *)

Section ecdh.
Context `{Curves}.

(** [ecdh.X25519().GenerateKey(rand.Reader)]: 32 octets of the tape. *)
Definition ecdh_generate : M tape bytes := rand_read 32.

(** [ecdh.X25519().NewPublicKey]. *)
Definition ecdh_new_public (b : bytes) : result bytes :=
  if decide (length b = 32%nat) then Ok b else Err (bs "crypto/ecdh: invalid public key").

(** [ecdh.X25519().NewPrivateKey]. *)
Definition ecdh_new_private (b : bytes) : result bytes :=
  if decide (length b = 32%nat) then Ok b else Err (bs "crypto/ecdh: invalid private key size").

(** [ed25519.GenerateKey(rand.Reader)]: (public, private). *)
Definition ed25519_generate : M tape (bytes * bytes) :=
  let* seed := rand_read 32 in retM (ed25519_pub seed, seed ++ ed25519_pub seed).

Lemma ecdh_new_public_pub `{!CurveLaws} k : ecdh_new_public (x25519_pub k) = Ok (x25519_pub k).
Proof. unfold ecdh_new_public. by rewrite decide_True by apply length_x25519_pub. Qed.
End ecdh.

(** ** A runnable instance *)

Module ToyCurves.
Definition le_val (b : bytes) : Z := of_be (rev b).
Definition enc (z : Z) : bytes := rev (be_bytes 32 z).

#[export] Instance toy : Curves := {
  x25519_pub k := enc (9 * (2 * le_val k + 1));
  x25519_ecdh a p :=
    let s := ((2 * le_val a + 1) * le_val p) mod 2 ^ 256 in
    if s =? 0 then Err (bs "crypto/ecdh: bad X25519 remote ECDH input: low order point")
    else Ok (enc s);
  ed25519_pub s := sha256 s;
  ed25519_sign k m := sha512 (drop 32 k ++ m);
  ed25519_verify p m s := bool_decide (s = sha512 (p ++ m));
}.

Lemma le_val_enc z : le_val (enc z) = z mod 2 ^ 256.
Proof. unfold le_val, enc. rewrite rev_involutive. apply of_be_be_bytes. Qed.

Lemma length_enc z : length (enc z) = 32%nat.
Proof. unfold enc. by rewrite length_rev, length_be_bytes. Qed.

(** A product of odd numbers is not zero modulo a power of two. *)
Lemma odd_secret a b : ((2 * a + 1) * (9 * (2 * b + 1))) mod 2 ^ 256 ≠ 0.
Proof.
  intros E. apply Z.mod_divide in E as [q E]; [|done].
  change (2 ^ 256) with (2 * 2 ^ 255) in E.
  remember (q * 2 ^ 255) as k eqn:Ek.
  assert (2 * (18 * a * b + 9 * a + 9 * b + 4) + 1 = 2 * k) by (subst k; lia).
  lia.
Qed.

#[export] Instance toy_laws : CurveLaws.
Proof.
  split.
  - intros k. apply length_enc.
  - intros a b. cbn [x25519_ecdh x25519_pub toy]. rewrite !le_val_enc.
    rewrite !Zmult_mod_idemp_r.
    replace ((2 * le_val a + 1) * (9 * (2 * le_val b + 1)))
      with ((2 * le_val b + 1) * (9 * (2 * le_val a + 1))) by ring.
    rewrite (proj2 (Z.eqb_neq _ _)) by apply odd_secret. eauto.
  - intros s. apply length_sha256.
  - intros s m Hs. cbn [ed25519_verify ed25519_sign ed25519_pub toy].
    apply bool_decide_eq_true. by rewrite <-Hs, drop_app_length.
Qed.
End ToyCurves.
