(* ===== verification/Identity.v ===== *)
(** * Identities ([pkg/identity])

    Key material, signatures, display fingerprints, discovery keys and the
    serialized form the vault seals. *)

From S2P Require Import Prelude Bytes Sha2 Encoding Json Codec Curve.
Open Scope Z_scope.

(** ** The code ([identity.go], [marshal.go]) *)

Record Identity := MkIdentity {
  SigningPub : bytes;
  SigningPriv : bytes;
  AgreementPriv : bytes;
}.

Definition PublicKeySize : nat := 32.
Definition PrivateKeySize : nat := 64.

(** One turn of [group]'s loop: [i] is the octet offset of the rune. *)
Fixpoint group_runes (n i : Z) (cs : list rchunk) : bytes :=
  match cs with
  | [] => []
  | c :: cs =>
    let w := match c with Rune e => Z.of_nat (length e) | Bad => 1 end in
    (if (0 <? i) && (i mod n =? 0) then [" "%byte] else [])
    ++ chunk_bytes c ++ group_runes n (i + w) cs
  end.

Definition group (s : bytes) (n : Z) : bytes :=
  if n <=? 0 then s else group_runes n 0 (runes s).

(** [Fingerprint]. *)
Definition Fingerprint (pub : bytes) : bytes := group (b32_encode (sha256 pub)) 5.

Definition DiscoveryKey (pub rendezvousSalt : bytes) : bytes := sha256 (pub ++ rendezvousSalt).

Section identity.
Context `{Curves}.

(** [Generate]. *)
Definition Generate : M tape Identity :=
  let* keys := ed25519_generate in
  let* agreement := ecdh_generate in
  retM (MkIdentity keys.1 keys.2 agreement).

Definition AgreementPub (id : Identity) : bytes := x25519_pub (AgreementPriv id).

(** [Verify]. *)
Definition Verify (pub msg sig : bytes) : bool :=
  if decide (length pub ≠ PublicKeySize) then false else ed25519_verify pub msg sig.

(** [Identity.Sign]. *)
Definition Sign (id : Identity) (msg : bytes) : result bytes :=
  if decide (length (SigningPriv id) ≠ PrivateKeySize)
  then Err (bs "identity: signing key not initialized")
  else Ok (ed25519_sign (SigningPriv id) msg).

Definition marshaledSize : nat := PrivateKeySize + 32.

(** [Identity.Marshal]. *)
Definition Marshal (id : Identity) : bytes := SigningPriv id ++ AgreementPriv id.

(** [Unmarshal]; [PrivateKey.Public()] is the last 32 octets of the key. *)
Definition Unmarshal (b : bytes) : result Identity :=
  if decide (length b ≠ marshaledSize) then Err (bs "identity: invalid marshaled length") else
  let signingPriv := take PrivateKeySize b in
  let? agreement := ecdh_new_private (drop PrivateKeySize b) in
  let signingPub := drop 32 signingPriv in
  Ok (MkIdentity signingPub signingPriv agreement).

(** ** Well-formed identities *)

Record wf_identity (id : Identity) : Prop := {
  wf_seed : ∃ seed, length seed = 32%nat ∧ SigningPub id = ed25519_pub seed
                    ∧ SigningPriv id = seed ++ ed25519_pub seed;
  wf_agreement : length (AgreementPriv id) = 32%nat;
}.

(** Every identity the core generates is well formed. *)
Lemma Generate_wf t id t' : Generate t = (Ok id, t') → wf_identity id.
Proof.
  unfold Generate, ed25519_generate, ecdh_generate, bindM, retM, rand_read.
  repeat case_decide; intros [= <- <-]; try done. split; simpl.
  - eexists. split_and!; [|done..]. rewrite length_take. lia.
  - rewrite length_take. lia.
Qed.

(** Verification accepts what the identity signed. *)
Lemma Verify_Sign `{!CurveLaws} id msg sig :
  wf_identity id → Sign id msg = Ok sig → Verify (SigningPub id) msg sig = true.
Proof.
  intros [(seed & Hl & Hp & Hs) _] E. unfold Sign, Verify in *.
  rewrite Hs, Hp in *. case_decide; [done|]. apply Ok_inj in E as <-.
  rewrite decide_False by (rewrite length_ed25519_pub; by intros []).
  by apply ed25519_verify_sign.
Qed.

Lemma Sign_wf `{!CurveLaws} id msg :
  wf_identity id → Sign id msg = Ok (ed25519_sign (SigningPriv id) msg).
Proof.
  intros [(seed & Hl & Hp & Hs) _]. unfold Sign. rewrite decide_False; [done|].
  rewrite Hs, length_app, Hl, length_ed25519_pub. by intros [].
Qed.

Lemma Unmarshal_Marshal `{!CurveLaws} id :
  wf_identity id → Unmarshal (Marshal id) = Ok id.
Proof.
  intros [(seed & Hl & Hp & Hs) Ha]. unfold Unmarshal, Marshal.
  assert (length (SigningPriv id) = PrivateKeySize) as Hsl
    by (rewrite Hs, length_app, Hl; by rewrite length_ed25519_pub).
  rewrite decide_False by (rewrite length_app, Hsl, Ha; by intros []).
  rewrite take_app_length', drop_app_length' by done.
  unfold ecdh_new_private. rewrite decide_True by done. simpl.
  rewrite Hs at 1. rewrite <-Hl, drop_app_length, <-Hp. by destruct id.
Qed.

Lemma Unmarshal_bad_length b :
  length b ≠ marshaledSize → Unmarshal b = Err (bs "identity: invalid marshaled length").
Proof. intros. unfold Unmarshal. by rewrite decide_True. Qed.
End identity.

(** ** Fingerprints *)

(** Dropping the spaces [group] put in gives the text back. *)
Lemma group_runes_strip n i s :
  Forall (λ b, is_b32 b = true) s →
  List.filter (λ b, negb (Byte.eqb b " ")) (group_runes n i (map (λ b, Rune [b]) s)) = s.
Proof.
  intros Hs. revert i. induction Hs as [|b s Hb Hs IH]; intros i; [done|].
  cbn [map group_runes chunk_bytes]. rewrite !List.filter_app, IH.
  assert (negb (Byte.eqb b " ") = true) as Hsp.
  { destruct (Byte.eqb b " ") eqn:E; [|done]. apply Byte.byte_dec_bl in E as ->. discriminate. }
  destruct (_ && _); simpl; rewrite ?Hsp; done.
Qed.

Lemma is_b32_ascii b : is_b32 b = true → Zb b < 128.
Proof.
  unfold is_b32. rewrite orb_true_iff, !andb_true_iff, !Z.leb_le. lia.
Qed.

Lemma runes_b32 s : Forall (λ b, is_b32 b = true) s → runes s = map (λ b, Rune [b]) s.
Proof.
  induction 1 as [|b s Hb Hs IH]; [done|]. apply is_b32_ascii in Hb. cbn [runes map].
  by rewrite (proj2 (Z.ltb_lt _ _) Hb), IH.
Qed.

Lemma Fingerprint_strip pub :
  List.filter (λ b, negb (Byte.eqb b " ")) (Fingerprint pub) = b32_encode (sha256 pub).
Proof.
  unfold Fingerprint, group. simpl (5 <=? 0). cbv iota.
  rewrite runes_b32 by apply b32_encode_alphabet.
  apply group_runes_strip, b32_encode_alphabet.
Qed.

Lemma length_Fingerprint pub : length (Fingerprint pub) = 62%nat.
Proof.
  unfold Fingerprint, group. simpl (5 <=? 0). cbv iota.
  rewrite runes_b32 by apply b32_encode_alphabet.
  pose proof (length_b32_encode_32 (sha256 pub) (length_sha256 pub)) as Hl.
  revert Hl. generalize (b32_encode (sha256 pub)) as s. intros s Hl.
  do 52 (destruct s as [|? s]; [discriminate Hl|]). destruct s; [|discriminate Hl].
  reflexivity.
Qed.

Lemma Fingerprint_bytes pub b : b ∈ Fingerprint pub → is_b32 b = true ∨ b = " "%byte.
Proof.
  intros Hb. destruct (decide (b = " "%byte)) as [->|Hne]; [by right|left].
  pose proof (b32_encode_alphabet (sha256 pub)) as Ha. rewrite <-Fingerprint_strip, Forall_forall in Ha.
  apply Ha, list_elem_of_In, filter_In. split; [by apply list_elem_of_In|].
  destruct (Byte.eqb b " ") eqn:E; [|done]. by apply Byte.byte_dec_bl in E.
Qed.

Lemma valid_utf8_Fingerprint pub : valid_utf8 (Fingerprint pub) = true.
Proof.
  apply valid_utf8_ascii, Forall_forall. intros b [Hb| ->]%Fingerprint_bytes; [by apply is_b32_ascii|done].
Qed.

(** Two keys share a fingerprint only if SHA-256 collides on them. *)
Lemma Fingerprint_sha256 p q : Fingerprint p = Fingerprint q ↔ sha256 p = sha256 q.
Proof.
  split; [|unfold Fingerprint; by intros ->].
  intros E%(f_equal (List.filter (λ b, negb (Byte.eqb b " ")))).
  rewrite !Fingerprint_strip in E. apply b32_encode_inj in E; [done|].
  by rewrite !length_sha256.
Qed.
