(* ===== verification/SafetyNumber.v ===== *)
(** * Safety numbers ([pkg/safetynumber])

    The sixty-digit number two users compare: the iterated SHA-512 of each
    key, six five-digit chunks per key, the halves in sorted order. *)

From S2P Require Import Prelude Bytes Strconv Sha2.
Open Scope Z_scope.

(** ** The code ([safetynumber.go]) *)

Definition version : Z := 0.
Definition iterations : Z := 5200.

(** [hash[i]]; the callers stay within the 64 octets of a digest. *)
Definition octet (hash : bytes) (i : nat) : Z := Zb (nth i hash "000"%byte).

(** [chunk]. *)
Definition chunk (hash : bytes) (offset : nat) : bytes :=
  let v := Z.lor (Z.shiftl (octet hash offset) 32)
          (Z.lor (Z.shiftl (octet hash (offset + 1)) 24)
          (Z.lor (Z.shiftl (octet hash (offset + 2)) 16)
          (Z.lor (Z.shiftl (octet hash (offset + 3)) 8)
                 (octet hash (offset + 4))))) in
  fmt_pad 5 (v mod 100000).

(** The hash chain of [numeric]. *)
Definition fold_key (n : nat) (pub : bytes) : bytes :=
  Nat.iter n (λ data, sha512 (data ++ pub)) (be_bytes 2 version ++ pub ++ pub).

(** [numeric]: offsets 0, 5, ..., 25. *)
Definition numeric (pub : bytes) : bytes :=
  let data := fold_key (Z.to_nat iterations) pub in
  flat_map (chunk data) [0; 5; 10; 15; 20; 25]%nat.

(** [group]: [fuel] bounds the loop on [i], which advances by five. *)
Fixpoint group_from (fuel : nat) (i : nat) (s : bytes) : bytes :=
  match fuel with
  | O => []
  | S fuel =>
    if decide (i < length s)%nat then
      (if decide (0 < i)%nat then [" "%byte] else [])
      ++ take (Nat.min (i + 5) (length s) - i) (drop i s)
      ++ group_from fuel (i + 5) s
    else []
  end.
Definition group (s : bytes) : bytes := group_from (S (length s)) 0 s.

(** [Compute]. *)
Definition Compute (a b : bytes) : bytes :=
  let na := numeric a in
  let nb := numeric b in
  let combined := if bytes_leb na nb then na ++ nb else nb ++ na in
  group combined.

(** ** Lemmas *)

Lemma length_chunk hash offset : length (chunk hash offset) = 5%nat.
Proof.
  unfold chunk. apply length_fmt_pad; [|lia].
  change (10 ^ Z.of_nat 5) with 100000. by apply Z.mod_pos_bound.
Qed.

Lemma chunk_digits hash offset : forallb is_digit (chunk hash offset) = true.
Proof.
  unfold chunk. apply fmt_pad_digits.
  match goal with |- context [?v mod 100000] =>
    pose proof (Z.mod_pos_bound v 100000 eq_refl) end. lia.
Qed.

Lemma numeric_digits pub :
  length (numeric pub) = 30%nat ∧ forallb is_digit (numeric pub) = true.
Proof.
  unfold numeric. generalize (fold_key (Z.to_nat iterations) pub) as data. intros data.
  cbn [flat_map]. rewrite !length_app, !forallb_app, !length_chunk, !chunk_digits. done.
Qed.

(** Sixty digits in twelve groups of five. *)
Fixpoint groups_of_5 (l : bytes) : list bytes :=
  match l with
  | a :: b :: c :: d :: e :: l => [a; b; c; d; e] :: groups_of_5 l
  | _ => []
  end.

Lemma group_60 s :
  length s = 60%nat →
  group s = concat (take 1 (groups_of_5 s)
                    ++ map (cons " "%byte) (drop 1 (groups_of_5 s))).
Proof.
  intros Hl. do 60 (destruct s as [|? s]; [discriminate Hl|]).
  destruct s; [|discriminate Hl]. reflexivity.
Qed.

Lemma length_group s : length s = 60%nat → length (group s) = 71%nat.
Proof.
  intros Hl. do 60 (destruct s as [|? s]; [discriminate Hl|]). destruct s; [reflexivity|discriminate Hl].
Qed.

Lemma length_Compute a b : length (Compute a b) = 71%nat.
Proof.
  destruct (numeric_digits a) as [Ha _], (numeric_digits b) as [Hb _].
  apply length_group. destruct (bytes_leb _ _); rewrite length_app; lia.
Qed.

#[global] Opaque numeric.
