(* ===== verification/Vault.v ===== *)
(** * Encryption at rest ([pkg/vault])

    [Seal]/[Open] with AES-256-GCM and the PBKDF2 loop, refined against
    RFC 2898. *)

From S2P Require Import Prelude Bytes Sha2 Gcm.
Open Scope Z_scope.

(** ** The code ([vault.go]) *)

Definition KeySize : nat := 32.

(** [newGCM]: the key the AEAD is made with, once its size is checked;
    [aes.NewCipher] and [cipher.NewGCM] accept every 32-octet key. *)
Definition newGCM (key : bytes) : result bytes :=
  if decide (length key ≠ KeySize) then Err (bs "vault: key must be 32 bytes") else Ok key.

(** [Seal]: nonce || ciphertext. *)
Definition Seal (key plaintext : bytes) : M tape bytes :=
  let* gcm := liftM (newGCM key) in
  let* nonce := rand_read gcm_nonce_size in
  retM (nonce ++ gcm_seal gcm nonce plaintext []).

(** [Open]. *)
Definition Open (key sealed : bytes) : result bytes :=
  let? gcm := newGCM key in
  let ns := gcm_nonce_size in
  if decide (length sealed < ns)%nat then Err (bs "vault: ciphertext too short") else
  gcm_open gcm (take ns sealed) (drop ns sealed) [].

Section pbkdf2.
Context (prf : bytes → bytes) (hashLen : nat).

(** The inner loop of [pbkdf2]: [t ^= u] with [u = PRF(u)], from n = 2. *)
Definition pbkdf2_block (salt : bytes) (iter : Z) (block : nat) : bytes :=
  let t := prf (salt ++ be_bytes 4 (Z.of_nat block)) in
  fst (Nat.iter (Z.to_nat (iter - 1))
    (λ '(t, u), let u := prf u in (xor_bytes t u, u)) (t, t)).

(** [pbkdf2]: blocks 1 to [numBlocks], cut to [keyLen]. *)
Definition pbkdf2 (salt : bytes) (iter : Z) (keyLen : nat) : bytes :=
  let numBlocks := ((keyLen + hashLen - 1) / hashLen)%nat in
  take keyLen (flat_map (pbkdf2_block salt iter) (seq 1 numBlocks)).

(** ** RFC 2898 *)

(** U_1, U_2, ... *)
Fixpoint rfc_U (salt : bytes) (i : nat) (j : nat) : bytes :=
  match j with
  | O => prf (salt ++ be_bytes 4 (Z.of_nat i))
  | S j => prf (rfc_U salt i j)
  end.

(** F (P, S, c, i) = U_1 xor U_2 xor ... xor U_c, for c at least 1. *)
Fixpoint rfc_F (salt : bytes) (i : nat) (c : nat) : bytes :=
  match c with
  | O => rfc_U salt i 0
  | S c => xor_bytes (rfc_F salt i c) (rfc_U salt i (S c))
  end.

(** DK = T_1 || T_2 || ... || T_l<0..r-1>, l = CEIL (dkLen / hLen). *)
Definition rfc2898 (salt : bytes) (c : nat) (dkLen : nat) : bytes :=
  take dkLen (concat (map (λ i, rfc_F salt i (c - 1)) (seq 1 ((dkLen + hashLen - 1) / hashLen)))).

Lemma pbkdf2_iter salt i n :
  Nat.iter n (λ '(t, u), let u := prf u in (xor_bytes t u, u)) (rfc_U salt i 0, rfc_U salt i 0)
  = (rfc_F salt i n, rfc_U salt i n).
Proof. induction n as [|n IH]; [done|]. by rewrite Nat.iter_succ, IH. Qed.

Lemma pbkdf2_rfc salt c keyLen :
  pbkdf2 salt (Z.of_nat c) keyLen = rfc2898 salt c keyLen.
Proof.
  unfold pbkdf2, rfc2898. f_equal. rewrite flat_map_concat_map. f_equal.
  apply map_ext. intros i. unfold pbkdf2_block.
  change (prf (salt ++ be_bytes 4 (Z.of_nat i))) with (rfc_U salt i 0).
  replace (Z.to_nat (Z.of_nat c - 1)) with (c - 1)%nat by lia.
  by rewrite pbkdf2_iter.
Qed.
End pbkdf2.

(** [DeriveKey]. *)
Definition DeriveKey (passphrase salt : bytes) (iterations : Z) : bytes :=
  pbkdf2 (hmac passphrase) 32 salt iterations KeySize.

(** ** Lemmas *)

Lemma Seal_Ok key pt t sealed t' :
  Seal key pt t = (Ok sealed, t') →
  length key = KeySize ∧ (gcm_nonce_size ≤ length t)%nat
  ∧ sealed = take gcm_nonce_size t ++ gcm_seal key (take gcm_nonce_size t) pt []
  ∧ t' = drop gcm_nonce_size t.
Proof.
  unfold Seal, bindM, liftM, newGCM, rand_read, retM.
  case_decide as Hk; [done|]. case_decide; [|done].
  intros [= <- <-]. split_and!; [|done..]. by destruct (decide (length key = KeySize)).
Qed.

Lemma Open_Seal key pt t sealed t' : Seal key pt t = (Ok sealed, t') → Open key sealed = Ok pt.
Proof.
  intros (Hk & Ht & -> & _)%Seal_Ok. unfold Open, newGCM.
  rewrite decide_False by (rewrite Hk; by intros []). simpl.
  assert (length (take gcm_nonce_size t) = gcm_nonce_size) as Hn
    by (rewrite length_take; lia).
  rewrite decide_False by (rewrite length_app; lia).
  rewrite take_app_length', drop_app_length' by done. apply gcm_open_seal.
Qed.

(** With a key of the right size and entropy, sealing succeeds. *)
Lemma Seal_total key pt t :
  length key = KeySize → (gcm_nonce_size ≤ length t)%nat →
  ∃ sealed, Seal key pt t = (Ok sealed, drop gcm_nonce_size t)
            ∧ length sealed = (gcm_nonce_size + length pt + gcm_tag_size)%nat.
Proof.
  intros Hk Ht. unfold Seal, bindM, liftM, newGCM, rand_read, retM.
  rewrite decide_False by (rewrite Hk; by intros []). rewrite decide_True by done.
  eexists. split; [done|]. rewrite length_app, length_take, length_gcm_seal. lia.
Qed.

(** What [Seal] draws. *)
Lemma Seal_tape key pt t : ∃ j, (j ≤ 12)%nat ∧ (Seal key pt t).2 = drop j t.
Proof.
  unfold Seal, rand_read. run_M. destruct (newGCM key) as [g|e]; [|exists 0%nat; split; [lia|done]].
  unfold gcm_nonce_size. case_decide as Hd; cbn [snd].
  - by exists 12%nat.
  - exists (length t). split; [lia|by rewrite drop_ge].
Qed.

Section properties.
(** C35: what is sealed can be opened, and only in full.  With a 32-octet key
    and twelve octets of randomness [Seal] succeeds and its result opens to
    the plaintext; any other key size is refused by both; and whatever [Open]
    accepts is, octet for octet, what sealing the plaintext it returns gives
    under the nonce it starts with. *)
Theorem vault_seal_open key pt t :
  (length key = KeySize → (gcm_nonce_size ≤ length t)%nat → ∃ sealed,
     Seal key pt t = (Ok sealed, drop gcm_nonce_size t) ∧ Open key sealed = Ok pt) ∧
  (length key ≠ KeySize → is_ok (Seal key pt t).1 = false ∧ ∀ sealed, is_ok (Open key sealed) = false) ∧
  (∀ sealed, Open key sealed = Ok pt →
     Seal key pt (take gcm_nonce_size sealed) = (Ok sealed, [])).
Proof.
  split_and!.
  - intros Hk Ht. destruct (Seal_total key pt t Hk Ht) as (sealed & E & _). exists sealed.
    split; [done|]. by eapply Open_Seal.
  - intros Hk. unfold Seal, Open, newGCM, bindM, liftM. by rewrite decide_True.
  - intros sealed. unfold Open, newGCM. case_decide as Hk; [discriminate|]. cbn [bindR].
    case_decide as Hl; [discriminate|]. intros E%gcm_open_inv.
    unfold Seal, newGCM, bindM, liftM, retM. rewrite decide_False by (intros Hn; exact (Hn Hk)).
    assert (length (take gcm_nonce_size sealed) = gcm_nonce_size) as Hn by (rewrite length_take; lia).
    rewrite rand_read_enough by lia. rewrite take_take, Nat.min_id, <-E, take_drop.
    by rewrite drop_ge by lia.
Qed.

(** [DeriveKey] is PBKDF2 of RFC 2898 with HMAC-SHA-256. *)
Theorem DeriveKey_rfc2898 passphrase salt c :
  DeriveKey passphrase salt (Z.of_nat c) = rfc2898 (hmac passphrase) 32 salt c KeySize.
Proof. apply pbkdf2_rfc. Qed.
End properties.

Example derive_key_rfc7914 :
  take 64 (hex_encode (DeriveKey (bs "passwd") (bs "salt") 1))
  = bs "55ac046e56e3089fec1691c22544b605f94185216dde0465e68b9d57c20dacbc".
Proof. vm_compute. reflexivity. Qed.
