(* ===== verification/X3dh.v ===== *)
(** * X3DH ([pkg/crypto/x3dh.go])

    Prekeys, bundles and the two sides of the handshake. *)

From S2P Require Import Prelude Bytes Sha2 Kdf Curve Identity.
Open Scope Z_scope.

(** ** The code *)

Record PreKeyBundle := MkBundle {
  b_IdentitySign : bytes;
  b_IdentityDH : bytes;
  b_SignedPreKey : bytes;
  b_SignedPreKeySig : bytes;
  b_OneTimePreKey : bytes;
}.

Record PreKeys := MkPreKeys {
  pk_id : Identity;
  signedPre : bytes;
  signedPreSig : bytes;
  oneTime : bytes;
}.

(** [deriveX3DH]. *)
Definition deriveX3DH (concat : bytes) : bytes :=
  hkdf (replicate 32 "000"%byte) (replicate 32 "255"%byte ++ concat) (bs "stunner-x3dh") 32.

(** [secret, _ := priv.ECDH(pub)]: nil when the error is dropped. *)
Definition ignore_err (r : result bytes) : bytes :=
  match r with Ok b => b | Err _ => [] end.

Section x3dh.
Context `{Curves}.

(** [GeneratePreKeys]. *)
Definition GeneratePreKeys (id : Identity) : M tape PreKeys :=
  let* signedPre := ecdh_generate in
  let* oneTime := ecdh_generate in
  let* sig := liftM (Sign id (x25519_pub signedPre)) in
  retM (MkPreKeys id signedPre sig oneTime).

(** [PreKeys.Bundle]. *)
Definition Bundle (p : PreKeys) : PreKeyBundle :=
  MkBundle (SigningPub (pk_id p)) (AgreementPub (pk_id p)) (x25519_pub (signedPre p))
           (signedPreSig p) (x25519_pub (oneTime p)).

(** [x3dhInitiate]: the secret, the ephemeral public key, one-time use. *)
Definition x3dhInitiate (local : Identity) (b : PreKeyBundle) : M tape (bytes * bytes * bool) :=
  if negb (Verify (b_IdentitySign b) (b_SignedPreKey b) (b_SignedPreKeySig b))
  then failM (bs "crypto: bad signed prekey signature") else
  let* eph := ecdh_generate in
  let* spk := liftM (ecdh_new_public (b_SignedPreKey b)) in
  let* ikB := liftM (ecdh_new_public (b_IdentityDH b)) in
  let dh1 := ignore_err (x25519_ecdh (AgreementPriv local) spk) in
  let dh2 := ignore_err (x25519_ecdh eph ikB) in
  let dh3 := ignore_err (x25519_ecdh eph spk) in
  let concat := dh1 ++ dh2 ++ dh3 in
  if decide (0 < length (b_OneTimePreKey b))%nat then
    let* opk := liftM (ecdh_new_public (b_OneTimePreKey b)) in
    let dh4 := ignore_err (x25519_ecdh eph opk) in
    retM (deriveX3DH (concat ++ dh4), x25519_pub eph, true)
  else retM (deriveX3DH concat, x25519_pub eph, false).

(** [x3dhRespond]. *)
Definition x3dhRespond (pre : PreKeys) (initiatorIK ephPub : bytes) (usedOTP : bool)
    : result bytes :=
  let? ikA := ecdh_new_public initiatorIK in
  let? eph := ecdh_new_public ephPub in
  let dh1 := ignore_err (x25519_ecdh (signedPre pre) ikA) in
  let dh2 := ignore_err (x25519_ecdh (AgreementPriv (pk_id pre)) eph) in
  let dh3 := ignore_err (x25519_ecdh (signedPre pre) eph) in
  let concat := dh1 ++ dh2 ++ dh3 in
  if usedOTP then
    let dh4 := ignore_err (x25519_ecdh (oneTime pre) eph) in
    Ok (deriveX3DH (concat ++ dh4))
  else Ok (deriveX3DH concat).

(** ** Lemmas *)

Context `{!CurveLaws}.

(** Prekeys as [GeneratePreKeys] makes them. *)
Record wf_prekeys (p : PreKeys) : Prop := {
  wf_pk_id : wf_identity (pk_id p);
  wf_pk_sig : Sign (pk_id p) (x25519_pub (signedPre p)) = Ok (signedPreSig p);
}.

Lemma GeneratePreKeys_wf id t p t' :
  wf_identity id → GeneratePreKeys id t = (Ok p, t') → wf_prekeys p ∧ pk_id p = id.
Proof.
  intros Hid. unfold GeneratePreKeys, ecdh_generate, bindM, liftM, retM.
  destruct (rand_read 32 t) as [[spk|e] t1]; [|done].
  destruct (rand_read 32 t1) as [[otk|e] t2]; [|done].
  destruct (Sign id (x25519_pub spk)) as [sig|e] eqn:E; [|done].
  intros [= <- <-]. by split.
Qed.

Lemma ignore_agree a b :
  ignore_err (x25519_ecdh a (x25519_pub b)) = ignore_err (x25519_ecdh b (x25519_pub a)).
Proof. by destruct (x25519_agree a b) as (s & -> & ->). Qed.

Lemma Bundle_verifies p :
  wf_prekeys p →
  Verify (b_IdentitySign (Bundle p)) (b_SignedPreKey (Bundle p)) (b_SignedPreKeySig (Bundle p))
  = true.
Proof. intros [Hid Hsig]. by eapply Verify_Sign. Qed.

(** The initiator's side against an honest bundle, as the responder sees it. *)
Lemma x3dhInitiate_Bundle local p t :
  wf_prekeys p → (32 ≤ length t)%nat →
  let eph := x25519_pub (take 32 t) in
  ∃ sk, x3dhInitiate local (Bundle p) t = (Ok (sk, eph, true), drop 32 t)
        ∧ x3dhRespond p (AgreementPub local) eph true = Ok sk.
Proof.
  intros Hp Ht eph. unfold x3dhInitiate. rewrite Bundle_verifies by done. cbn [negb]. cbv iota.
  unfold ecdh_generate. run_M. rewrite rand_read_enough by done. run_M.
  unfold Bundle, AgreementPub. cbn [b_SignedPreKey b_IdentityDH b_OneTimePreKey].
  rewrite !ecdh_new_public_pub. cbv beta iota.
  rewrite decide_True by (rewrite length_x25519_pub; lia).
  eexists. split; [done|]. unfold x3dhRespond. subst eph. rewrite !ecdh_new_public_pub. simpl.
  by rewrite (ignore_agree (signedPre p)), (ignore_agree (AgreementPriv (pk_id p))),
    (ignore_agree (signedPre p)), (ignore_agree (oneTime p)).
Qed.

Lemma x3dhInitiate_bad_signature local b t :
  Verify (b_IdentitySign b) (b_SignedPreKey b) (b_SignedPreKeySig b) = false →
  x3dhInitiate local b t = (Err (bs "crypto: bad signed prekey signature"), t).
Proof. intros E. unfold x3dhInitiate. by rewrite E. Qed.
End x3dh.
