(* ===== verification/Ratchet.v ===== *)
(** * The Double Ratchet ([pkg/crypto/ratchet.go], [wire.go])

    The ratchet's state and every operation on it, in the source's order of
    effects: what a failing [decrypt] has already changed stays changed. *)

From S2P Require Import Prelude Bytes Strconv Sha2 Gcm Encoding Json Codec Kdf Curve.
Open Scope Z_scope.

(** ** State *)

Definition maxSkip : Z := 1000.

Record ratchet := Ratchet {
  dhs : bytes;                   (** our ratchet private key *)
  dhr : slice;                   (** their ratchet public key, or nil *)
  rk : bytes;                    (** root key *)
  cks : slice;                   (** sending chain key, nil until a DH step *)
  ckr : slice;                   (** receiving chain key, nil until a DH step *)
  ns : Z; nr : Z; pn : Z;        (** [uint32] counters *)
  skipped : gmap bytes bytes;    (** "hex(dhr):n" -> message key *)
  ad : bytes;
}.

Definition set_dhs v r := Ratchet v (dhr r) (rk r) (cks r) (ckr r) (ns r) (nr r) (pn r) (skipped r) (ad r).
Definition set_dhr v r := Ratchet (dhs r) v (rk r) (cks r) (ckr r) (ns r) (nr r) (pn r) (skipped r) (ad r).
Definition set_rk v r := Ratchet (dhs r) (dhr r) v (cks r) (ckr r) (ns r) (nr r) (pn r) (skipped r) (ad r).
Definition set_cks v r := Ratchet (dhs r) (dhr r) (rk r) v (ckr r) (ns r) (nr r) (pn r) (skipped r) (ad r).
Definition set_ckr v r := Ratchet (dhs r) (dhr r) (rk r) (cks r) v (ns r) (nr r) (pn r) (skipped r) (ad r).
Definition set_ns v r := Ratchet (dhs r) (dhr r) (rk r) (cks r) (ckr r) v (nr r) (pn r) (skipped r) (ad r).
Definition set_nr v r := Ratchet (dhs r) (dhr r) (rk r) (cks r) (ckr r) (ns r) v (pn r) (skipped r) (ad r).
Definition set_pn v r := Ratchet (dhs r) (dhr r) (rk r) (cks r) (ckr r) (ns r) (nr r) v (skipped r) (ad r).
Definition set_skipped v r := Ratchet (dhs r) (dhr r) (rk r) (cks r) (ckr r) (ns r) (nr r) (pn r) v (ad r).

Record ratchetHeader := Header { h_DH : slice; h_PN : Z; h_N : Z }.

(** ** Helpers *)

(** [ratchetHeader.bytes]. *)
Definition header_bytes (h : ratchetHeader) : bytes :=
  sl (h_DH h) ++ be_bytes 4 (h_PN h) ++ be_bytes 4 (h_N h).

(** [equal]: the lengths, then octet by octet. *)
Fixpoint equal_loop (a b : bytes) : bool :=
  match a, b with
  | x :: a, y :: b => if Byte.eqb x y then equal_loop a b else false
  | _, _ => true
  end.
Definition equal (a b : bytes) : bool :=
  if decide (length a ≠ length b) then false else equal_loop a b.

(** [itoa]: digits are put from the end of a ten-octet buffer. *)
Definition itoa (n : Z) : bytes :=
  if n =? 0 then ["0"%byte]
  else snd (while 10 (λ '(n, _), 0 <? n)
                  (λ '(n, buf), (n / 10, bZ (48 + n mod 10) :: buf)) (n, [])).

(** The index of [skipped]. *)
Definition skip_key (dh : bytes) (n : Z) : bytes := hex_encode dh ++ ":"%byte :: itoa n.

(** *** Wire form ([wire.go]) *)

Definition encodeMessage (h : ratchetHeader) (ct : slice) : bytes :=
  marshal (enc_struct [field_of "dh" (enc_slice (h_DH h)); field_of "pn" (enc_uint (h_PN h));
                       field_of "n" (enc_uint (h_N h)); field_of "ct" (enc_slice ct)]).

Record wireMessage := Wire { w_DH : slice; w_PN : Z; w_N : Z; w_CT : slice }.

Definition wire_fields : list (field wireMessage) := [
  fld "dh" w_DH (λ v m, Wire v (w_PN m) (w_N m) (w_CT m)) dec_slice;
  fld "pn" w_PN (λ v m, Wire (w_DH m) v (w_N m) (w_CT m)) (dec_uint 32);
  fld "n" w_N (λ v m, Wire (w_DH m) (w_PN m) v (w_CT m)) (dec_uint 32);
  fld "ct" w_CT (λ v m, Wire (w_DH m) (w_PN m) (w_N m) v) dec_slice].

Definition decodeMessage (b : bytes) : result (ratchetHeader * slice) :=
  let? m := unmarshal_ok (dec_struct wire_fields) (Wire None 0 0 None) b in
  Ok (Header (w_DH m) (w_PN m) (w_N m), w_CT m).

(** *** Key derivation steps *)

Definition kdfRoot (rk dhOut : bytes) : bytes * bytes :=
  let out := hkdf rk dhOut (bs "stunner-root") 64 in (take 32 out, drop 32 out).

(** [chainStep]: the message key and the advanced chain key. *)
Definition chainStep (ck : slice) : bytes * slice :=
  (hmacSHA256 (sl ck) ["001"%byte], Some (hmacSHA256 (sl ck) ["002"%byte])).

(** *** AEAD over a message key *)

Definition messageKeys (mk : bytes) : bytes * bytes :=
  let km := hkdf [] mk (bs "stunner-msg") (32 + 12) in (take 32 km, drop 32 km).

(** [msgGCM]; [aes.NewCipher] rejects keys that are not an AES size. *)
Definition msgGCM (mk : bytes) : result (bytes * bytes) :=
  let '(encKey, nonce) := messageKeys mk in
  if decide (length encKey = 32%nat) then Ok (encKey, nonce)
  else Err (bs "crypto/aes: invalid key size").

Definition aeadSeal (mk plaintext ad : bytes) : result bytes :=
  let? gcm := msgGCM mk in Ok (gcm_seal gcm.1 gcm.2 plaintext ad).

Definition aeadOpen (mk ct ad : bytes) : result bytes :=
  let? gcm := msgGCM mk in gcm_open gcm.1 gcm.2 ct ad.

(** ** Operations *)

Section ratchet.
Context `{Curves}.

(** [ratchet.dh]. *)
Definition dh (r : ratchet) (remotePub : bytes) : result bytes :=
  let? pub := ecdh_new_public remotePub in x25519_ecdh (dhs r) pub.

(** [newRatchetInitiator]. *)
Definition newRatchetInitiator (sk remoteRatchetPub ad : bytes) : M tape ratchet :=
  let* dhs := ecdh_generate in
  let r := Ratchet dhs (Some remoteRatchetPub) [] None None 0 0 0 ∅ ad in
  let* out := liftM (dh r remoteRatchetPub) in
  let '(rk, cks) := kdfRoot sk out in
  retM (set_cks (Some cks) (set_rk rk r)).

(** [newRatchetResponder]. *)
Definition newRatchetResponder (sk signedPre ad : bytes) : ratchet :=
  Ratchet signedPre None sk None None 0 0 0 ∅ ad.

(** [ratchet.encrypt]. *)
Definition encrypt (plaintext : bytes) : M ratchet bytes :=
  let* r := getM in
  let '(mk, cks) := chainStep (cks r) in
  let h := Header (Some (x25519_pub (dhs r))) (pn r) (ns r) in
  let* _ := modifyM (λ r, set_ns (w32 (ns r + 1)) (set_cks cks r)) in
  let* ct := liftM (aeadSeal mk plaintext (ad r ++ header_bytes h)) in
  retM (encodeMessage h (Some ct)).

(** [ratchet.trySkipped]: the plaintext and whether a stored key was used. *)
Definition trySkipped (h : ratchetHeader) (ct : bytes) : M ratchet (bytes * bool) :=
  let* r := getM in
  let key := skip_key (sl (h_DH h)) (h_N h) in
  match skipped r !! key with
  | None => retM ([], false)
  | Some mk =>
    let* pt := liftM (aeadOpen mk ct (ad r ++ header_bytes h)) in
    let* _ := modifyM (λ r, set_skipped (delete key (skipped r)) r) in
    retM (pt, true)
  end.

(** One turn of the loop of [skip]. *)
Definition skip_step (r : ratchet) : ratchet :=
  let '(mk, ckr) := chainStep (ckr r) in
  set_nr (w32 (nr r + 1))
    (set_skipped (<[skip_key (sl (dhr r)) (nr r) := mk]> (skipped r)) (set_ckr ckr r)).

(** [ratchet.skip]; [until - nr] turns are enough. *)
Definition skip (until : Z) : M ratchet unit :=
  let* r := getM in
  match ckr r with
  | None => retM tt
  | Some _ =>
    if w32 (nr r + maxSkip) <? until then failM (bs "crypto: too many skipped messages")
    else modifyM (while (Z.to_nat (until - nr r)) (λ r, nr r <? until) skip_step)
  end.

(** [ratchet.dhRatchet]. *)
Definition dhRatchet (remotePub : slice) : M (ratchet * tape) unit :=
  let* _ := on_fst (modifyM (λ r, set_dhr remotePub (set_nr 0 (set_ns 0 (set_pn (ns r) r))))) in
  let* r := on_fst getM in
  let* out := liftM (dh r (sl remotePub)) in
  let* _ := on_fst (modifyM (λ r,
    let '(rk, ckr) := kdfRoot (rk r) out in set_ckr (Some ckr) (set_rk rk r))) in
  let* dhs := on_snd ecdh_generate in
  let* _ := on_fst (modifyM (set_dhs dhs)) in
  let* r := on_fst getM in
  let* out := liftM (dh r (sl remotePub)) in
  on_fst (modifyM (λ r,
    let '(rk, cks) := kdfRoot (rk r) out in set_cks (Some cks) (set_rk rk r))).

(** Whether the header's key starts a new chain. *)
Definition new_chain (h : ratchetHeader) (r : ratchet) : bool :=
  match dhr r with None => true | Some d => negb (equal (sl (h_DH h)) d) end.

(** [ratchet.decrypt] after [decodeMessage]. *)
Definition decrypt_message (h : ratchetHeader) (ct : bytes) : M (ratchet * tape) bytes :=
  let* res := on_fst (trySkipped h ct) in
  if (res.2 : bool) then retM res.1 else
  let* r := on_fst getM in
  let* _ := (if new_chain h r then
               let* _ := on_fst (skip (h_PN h)) in dhRatchet (h_DH h)
             else retM tt) in
  let* _ := on_fst (skip (h_N h)) in
  let* r := on_fst getM in
  let '(mk, ckr) := chainStep (ckr r) in
  let* _ := on_fst (modifyM (λ r, set_nr (w32 (nr r + 1)) (set_ckr ckr r))) in
  liftM (aeadOpen mk ct (ad r ++ header_bytes h)).

(** [ratchet.decrypt]. *)
Definition decrypt (wire : bytes) : M (ratchet * tape) bytes :=
  let* m := liftM (decodeMessage wire) in
  decrypt_message m.1 (sl m.2).
End ratchet.

(** ** Lemmas on the helpers *)

Lemma equal_spec a b : equal a b = true ↔ a = b.
Proof.
  unfold equal. case_decide as Hl; [split; [done|by intros ->]|].
  assert (length a = length b) as Hl' by (by destruct (decide (length a = length b))).
  clear Hl. revert b Hl'. induction a as [|x a IH]; intros [|y b] Hl; simpl in *; try done.
  injection Hl as Hl. destruct (Byte.eqb x y) eqn:E.
  - apply Byte.byte_dec_bl in E as ->. rewrite IH by done. split; [by intros ->|by intros [= ->]].
  - split; [done|]. intros [= -> ->]. by rewrite (Byte.byte_dec_lb (eq_refl y)) in E.
Qed.

Lemma new_chain_false h r d : dhr r = Some d → sl (h_DH h) = d → new_chain h r = false.
Proof. unfold new_chain. intros -> ->. by rewrite (proj2 (equal_spec d d)). Qed.

Lemma new_chain_true h r :
  dhr r ≠ Some (sl (h_DH h)) → new_chain h r = true.
Proof.
  unfold new_chain. destruct (dhr r) as [d|]; [|done]. intros Hd.
  destruct (equal _ d) eqn:E; [|done]. apply equal_spec in E. by rewrite E in Hd.
Qed.

Lemma itoa_loop n z acc :
  0 < z < 10 ^ Z.of_nat n →
  snd (while n (λ '(n, _), 0 <? n) (λ '(n, buf), (n / 10, bZ (48 + n mod 10) :: buf)) (z, acc))
  = fmt_digits n z acc.
Proof.
  revert z acc. induction n as [|n IH]; intros z acc Hz; [simpl in Hz; lia|].
  cbn [while fmt_digits]. rewrite (proj2 (Z.ltb_lt 0 z)) by lia.
  destruct (Z.ltb_spec z 10).
  - rewrite (Z.div_small z 10) by lia. by rewrite while_done.
  - rewrite Nat2Z.inj_succ, Z.pow_succ_r in Hz by lia. apply IH. zlia.
Qed.

(** The ten-octet buffer holds every [uint32]. *)
Lemma itoa_fmt_digits n : 0 ≤ n < 2 ^ 32 → itoa n = fmt_digits 10 n [].
Proof.
  intros Hn. unfold itoa. destruct (Z.eqb_spec n 0) as [->|Hz]; [done|].
  apply itoa_loop. change (10 ^ Z.of_nat 10) with 10000000000.
  change (2 ^ 32) with 4294967296 in Hn. lia.
Qed.

Lemma itoa_digits n : 0 ≤ n < 2 ^ 32 → digits_val (itoa n) = n.
Proof.
  intros Hn. rewrite itoa_fmt_digits by done.
  destruct (fmt_digits_spec 10 n []) as (ds & -> & _ & _ & Hv & _); [|lia|].
  - change (10 ^ Z.of_nat 10) with 10000000000.
    change (2 ^ 32) with 4294967296 in Hn. lia.
  - by rewrite app_nil_r.
Qed.

Lemma split_at_colon (a b s t : bytes) :
  ":"%byte ∉ a → ":"%byte ∉ b → a ++ ":"%byte :: s = b ++ ":"%byte :: t → a = b ∧ s = t.
Proof.
  revert b. induction a as [|x a IH]; intros [|y b] Ha Hb E; simpl in *.
  - by injection E.
  - injection E as <- _. by destruct Hb; left.
  - injection E as -> _. by destruct Ha; left.
  - injection E as -> E. apply not_elem_of_cons in Ha as [_ Ha], Hb as [_ Hb].
    destruct (IH b Ha Hb E) as [-> ->]. done.
Qed.

(** Distinct chains and counters have distinct entries in [skipped]. *)
Lemma skip_key_inj d1 d2 n1 n2 :
  0 ≤ n1 < 2 ^ 32 → 0 ≤ n2 < 2 ^ 32 →
  skip_key d1 n1 = skip_key d2 n2 → d1 = d2 ∧ n1 = n2.
Proof.
  intros H1 H2 E. unfold skip_key in E.
  apply split_at_colon in E as [E1 E2]; [|apply hex_encode_no_colon..].
  split; [by apply hex_encode_inj|].
  by rewrite <-(itoa_digits n1), <-(itoa_digits n2), E2.
Qed.

Lemma length_messageKeys mk :
  length (messageKeys mk).1 = 32%nat ∧ length (messageKeys mk).2 = 12%nat.
Proof.
  unfold messageKeys. simpl fst. simpl snd. rewrite length_take, length_drop, length_hkdf. lia.
Qed.

Lemma aeadSeal_eq mk pt ad :
  aeadSeal mk pt ad = Ok (gcm_seal (messageKeys mk).1 (messageKeys mk).2 pt ad).
Proof.
  unfold aeadSeal, msgGCM. destruct (messageKeys mk) as [k n] eqn:E.
  pose proof (length_messageKeys mk) as [Hl _]. rewrite E in Hl. simpl in Hl.
  by rewrite decide_True by done.
Qed.

Lemma aeadOpen_eq mk ct ad :
  aeadOpen mk ct ad = gcm_open (messageKeys mk).1 (messageKeys mk).2 ct ad.
Proof.
  unfold aeadOpen, msgGCM. destruct (messageKeys mk) as [k n] eqn:E.
  pose proof (length_messageKeys mk) as [Hl _]. rewrite E in Hl. simpl in Hl.
  by rewrite decide_True by done.
Qed.

Lemma aeadOpen_aeadSeal mk pt ad ct : aeadSeal mk pt ad = Ok ct → aeadOpen mk ct ad = Ok pt.
Proof. rewrite aeadSeal_eq, aeadOpen_eq. intros <-%Ok_inj. apply gcm_open_seal. Qed.

(** ** The wire form *)

Definition uint32 (z : Z) : Prop := 0 ≤ z < 2 ^ 32.

Lemma decode_encodeMessage h ct :
  uint32 (h_PN h) → uint32 (h_N h) → decodeMessage (encodeMessage h ct) = Ok (h, ct).
Proof.
  intros Hp Hn. unfold decodeMessage, encodeMessage.
  assert (∀ z, uint32 z → 0 ≤ z < 2 ^ 64) as Hw.
  { unfold uint32. change (2 ^ 32) with 4294967296. change (2 ^ 64) with 18446744073709551616. lia. }
  rewrite (unmarshal_ok_marshal _ _ _ (Wire (h_DH h) (h_PN h) (h_N h) ct)).
  - simpl. by destruct h.
  - wf_struct; auto with stunner.
  - dec_obj ltac:(rewrite ?dec_enc_slice, ?dec_enc_uint by done).
Qed.
