(* ===== verification/Conversation.v ===== *)
(** * Two ratchets over ordered channels

    The specification the Double Ratchet implements: over a reliable ordered
    channel in each direction ([transport.Conn]) each side reads exactly what
    the other wrote.  A network of two ratchets is a step relation that runs
    [encrypt] and [decrypt]; [Lead] is its invariant. *)

From S2P Require Import Prelude Bytes Gcm Codec Kdf Curve Ratchet.
Open Scope Z_scope.

(** ** Chains *)

Definition ck_next (c : slice) : slice := (chainStep c).2.
Definition ck_iter (n : nat) (c : slice) : slice := Nat.iter n ck_next c.

(** The wire message [encrypt] makes from chain key [c] at counter [n]. *)
Definition seal_with (mk : bytes) (ad : bytes) (h : ratchetHeader) (pt : bytes) : bytes :=
  gcm_seal (messageKeys mk).1 (messageKeys mk).2 pt (ad ++ header_bytes h).

Definition message (ad pub : bytes) (pn : Z) (c : slice) (n : Z) (pt : bytes) : bytes :=
  let h := Header (Some pub) pn n in
  encodeMessage h (Some (seal_with (chainStep c).1 ad h pt)).

(** Consecutive messages of one chain. *)
Fixpoint seg (ad pub : bytes) (pn : Z) (c : slice) (n : Z) (pts : list bytes) : list bytes :=
  match pts with
  | [] => []
  | p :: pts => message ad pub pn c n p :: seg ad pub pn (ck_next c) (n + 1) pts
  end.

Lemma ck_iter_S n c : ck_iter (S n) c = ck_iter n (ck_next c).
Proof. apply Nat.iter_succ_r. Qed.

Lemma ck_iter_snoc n c : ck_iter (S n) c = ck_next (ck_iter n c).
Proof. apply Nat.iter_succ. Qed.

Lemma length_seg ad pub pn c n pts : length (seg ad pub pn c n pts) = length pts.
Proof. revert c n. induction pts; intros; simpl; [done|]. by rewrite IHpts. Qed.

Lemma seg_snoc ad pub pn c n pts p :
  seg ad pub pn c n (pts ++ [p])
  = seg ad pub pn c n pts ++ [message ad pub pn (ck_iter (length pts) c) (n + Z.of_nat (length pts)) p].
Proof.
  revert c n. induction pts as [|q pts IH]; intros c n; cbn [seg length app].
  - by rewrite Z.add_0_r.
  - rewrite IH, <-ck_iter_S.
    by replace (n + Z.of_nat (S (length pts))) with (n + 1 + Z.of_nat (length pts)) by lia.
Qed.

(** ** One step of each operation *)

(** The last counter value from which the [maxSkip] window does not wrap. *)
Definition counter_limit : Z := 2 ^ 32 - maxSkip - 1.

Section steps.
Context `{Curves}.

Lemma encrypt_spec pt r :
  encrypt pt r
  = (Ok (message (ad r) (x25519_pub (dhs r)) (pn r) (cks r) (ns r) pt),
     set_ns (w32 (ns r + 1)) (set_cks (ck_next (cks r)) r)).
Proof.
  unfold encrypt. run_M. destruct (chainStep (cks r)) as [mk c] eqn:E.
  rewrite aeadSeal_eq. unfold message, seal_with, ck_next. by rewrite E.
Qed.

Lemma trySkipped_miss h ct r :
  skipped r !! skip_key (sl (h_DH h)) (h_N h) = None → trySkipped h ct r = (Ok ([], false), r).
Proof. intros E. unfold trySkipped. run_M. by rewrite E. Qed.

(** [skip] does nothing when no message is missing. *)
Lemma skip_here r :
  0 ≤ nr r ≤ counter_limit → skip (nr r) r = (Ok tt, r).
Proof.
  intros Hn. unfold skip. run_M. destruct (ckr r); [|done].
  unfold counter_limit in Hn. rewrite w32_small by (unfold maxSkip in *; lia).
  rewrite (proj2 (Z.ltb_ge _ _)) by (unfold maxSkip; lia).
  by rewrite Z.sub_diag.
Qed.

Lemma skip_nil until r : ckr r = None → skip until r = (Ok tt, r).
Proof. intros E. unfold skip. run_M. by rewrite E. Qed.

(** The next message of the chain the receiver is on. *)
Lemma decrypt_same_chain r t pub pn pt :
  dhr r = Some pub → skipped r !! skip_key pub (nr r) = None →
  0 ≤ nr r ≤ counter_limit → uint32 pn →
  decrypt (message (ad r) pub pn (ckr r) (nr r) pt) (r, t)
  = (Ok pt, (set_nr (nr r + 1) (set_ckr (ck_next (ckr r)) r), t)).
Proof.
  intros Hd Hs Hn Hp. unfold decrypt, message. unfold bindM, liftM at 1.
  assert (uint32 (nr r)) by (unfold uint32, counter_limit, maxSkip in *; lia).
  rewrite decode_encodeMessage by done. cbn [fst snd sl].
  unfold decrypt_message. run_M. rewrite trySkipped_miss by done.
  cbn [snd fst]. cbv iota. rewrite (new_chain_false _ _ pub) by done.
  cbn [h_N]. rewrite skip_here by done. destruct (chainStep (ckr r)) as [mk c] eqn:E.
  rewrite aeadOpen_eq. unfold seal_with, ck_next. rewrite E. cbn [fst snd].
  rewrite gcm_open_seal. rewrite w32_small; [done|].
  unfold counter_limit, maxSkip in *. lia.
Qed.

(** The first message of a new chain, once the previous one is complete. *)
Lemma decrypt_new_chain r t pub pn pt s1 rk1 c0 s2 rk2 c1 :
  dhr r ≠ Some pub → skipped r !! skip_key pub 0 = None →
  pn = nr r → 0 ≤ nr r ≤ counter_limit →
  length pub = 32%nat → x25519_ecdh (dhs r) pub = Ok s1 → kdfRoot (rk r) s1 = (rk1, c0) →
  (32 ≤ length t)%nat → x25519_ecdh (take 32 t) pub = Ok s2 → kdfRoot rk1 s2 = (rk2, c1) →
  decrypt (message (ad r) pub pn (Some c0) 0 pt) (r, t)
  = (Ok pt, (Ratchet (take 32 t) (Some pub) rk2 (Some c1) (ck_next (Some c0)) 0 1 (ns r)
                     (skipped r) (ad r), drop 32 t)).
Proof.
  intros Hd Hs Hp Hn Hl H1 Hk1 Ht H2 Hk2. unfold decrypt, message. unfold bindM, liftM at 1.
  assert (uint32 pn) by (unfold uint32, counter_limit, maxSkip in *; lia).
  rewrite decode_encodeMessage by (done || (unfold uint32; simpl; lia)). cbn [fst snd sl].
  unfold decrypt_message. run_M. rewrite trySkipped_miss by done.
  cbn [snd fst]. cbv iota. rewrite new_chain_true by done.
  cbn [h_N h_PN h_DH]. rewrite Hp, skip_here by done.
  unfold dhRatchet, ecdh_generate. run_M. cbn [sl dhs set_dhr set_nr set_ns set_pn rk].
  unfold dh, ecdh_new_public. rewrite !decide_True by done. cbn [bindR dhs set_dhr set_nr set_ns set_pn].
  rewrite H1. run_M. cbn [rk set_dhr set_nr set_ns set_pn]. rewrite Hk1.
  rewrite rand_read_enough by done. cbn [dhs set_dhs]. rewrite H2. run_M.
  cbn [rk set_dhs set_ckr set_rk]. rewrite Hk2.
  pose proof (skip_here (set_cks (Some c1) (set_rk rk2 (set_dhs (take 32 t)
    (set_ckr (Some c0) (set_rk rk1 (set_dhr (Some pub) (set_nr 0 (set_ns 0 (set_pn (ns r) r))))))))))
    as Hsk.
  cbn [nr set_cks set_rk set_dhs set_ckr set_dhr set_nr] in Hsk.
  rewrite Hsk by (unfold counter_limit, maxSkip; lia).
  cbn [ckr set_cks set_rk set_dhs set_ckr]. destruct (chainStep (Some c0)) as [mk c] eqn:E.
  rewrite aeadOpen_eq. unfold seal_with, ck_next. rewrite E. cbn [fst snd].
  cbn [ad set_cks set_rk set_dhs set_ckr set_dhr set_nr set_ns set_pn].
  rewrite gcm_open_seal. done.
Qed.
End steps.


(** ** The network *)

(** A side, what its user has sent, and what its [decrypt] calls returned. *)
Record endpoint := Endpoint { e_ratchet : ratchet; e_sent : list bytes; e_got : list (result bytes) }.

Record net := Net { alice : endpoint; bob : endpoint; to_bob : list bytes; to_alice : list bytes }.

Definition flip_net (n : net) : net := Net (bob n) (alice n) (to_alice n) (to_bob n).

#[local] Opaque message kdfRoot chainStep ck_next ck_iter.

Section network.
Context `{Curves}.

(** The key a DH step draws differs from the one it replaces. *)
Definition fresh (t : tape) (r : ratchet) : Prop :=
  (32 ≤ length t)%nat ∧ x25519_pub (take 32 t) ≠ x25519_pub (dhs r).

(** What Alice can do: send, or read the oldest message on the wire. *)
Inductive act : net → net → Prop :=
  | act_send a b ab ba pt m r :
      ns (e_ratchet a) < counter_limit → encrypt pt (e_ratchet a) = (Ok m, r) →
      act (Net a b ab ba) (Net (Endpoint r (e_sent a ++ [pt]) (e_got a)) b (ab ++ [m]) ba)
  | act_recv a b ab ba m t res r t' :
      fresh t (e_ratchet a) → decrypt m (e_ratchet a, t) = (res, (r, t')) →
      act (Net a b ab (m :: ba)) (Net (Endpoint r (e_sent a) (e_got a ++ [res])) b ab ba).

Definition step (n n' : net) : Prop := act n n' ∨ act (flip_net n) (flip_net n').

Definition start (a b : ratchet) : net := Net (Endpoint a [] []) (Endpoint b [] []) [] [].

(** [X] has made the last DH step: the plaintexts [p] on the wire to [Y] are
    the tail of [X]'s old chain and then its new one, and those [p'] on the
    wire to [X] are on the one chain of [Y] that [X] knows. *)
Record Lead (X Y : ratchet) (q p q' p' : list bytes) : Prop := {
  l_skX : skipped X = ∅;
  l_skY : skipped Y = ∅;
  l_ad : ad X = ad Y;
  l_dhr : dhr X = Some (x25519_pub (dhs Y));
  l_back : q' = seg (ad Y) (x25519_pub (dhs Y)) (pn Y) (ckr X) (nr X) p';
  l_cksY : cks Y = ck_iter (length p') (ckr X);
  l_nsY : ns Y = nr X + Z.of_nat (length p');
  l_new : dhr Y ≠ Some (x25519_pub (dhs X));
  l_root : ∃ s c0, x25519_ecdh (dhs Y) (x25519_pub (dhs X)) = Ok s ∧ kdfRoot (rk Y) s = (rk X, c0) ∧
    ∃ old oldpn p1 p2,
      p = p1 ++ p2 ∧
      q = seg (ad X) old oldpn (ckr Y) (nr Y) p1 ++ seg (ad X) (x25519_pub (dhs X)) (pn X) (Some c0) 0 p2 ∧
      (p1 ≠ [] → dhr Y = Some old) ∧ uint32 oldpn ∧
      pn X = nr Y + Z.of_nat (length p1) ∧
      cks X = ck_iter (length p2) (Some c0) ∧
      ns X = Z.of_nat (length p2);
  l_bounds : 0 ≤ nr X ∧ 0 ≤ nr Y ∧ uint32 (pn Y) ∧
    ns X ≤ counter_limit ∧ ns Y ≤ counter_limit ∧ pn X ≤ counter_limit;
}.

Context `{!CurveLaws}.

Lemma Lead_start sk spk ad t a t' :
  newRatchetInitiator sk (x25519_pub spk) ad t = (Ok a, t') →
  Lead a (newRatchetResponder sk spk ad) [] [] [] [].
Proof.
  unfold newRatchetInitiator, ecdh_generate. run_M.
  destruct (rand_read 32 t) as [[da|e] t1]; [|done].
  unfold dh. rewrite ecdh_new_public_pub. cbn [bindR dhs].
  destruct (x25519_agree da spk) as (s & -> & Hs).
  destruct (kdfRoot sk s) as [rk1 c0] eqn:E. intros [= <- <-].
  split; cbn; try (assumption || reflexivity).
  - discriminate.
  - exists s, c0. split_and!; [assumption..|]. exists [], 0, [], [].
    split_and!; (reflexivity || done).
  - unfold uint32, counter_limit, maxSkip. lia.
Qed.

(** The leader sends. *)
Lemma Lead_send X Y q p q' p' pt m X' :
  Lead X Y q p q' p' → ns X < counter_limit → encrypt pt X = (Ok m, X') →
  Lead X' Y (q ++ [m]) (p ++ [pt]) q' p'.
Proof.
  intros [] Hn. rewrite encrypt_spec. intros [= <- <-].
  destruct l_root0 as (s & c0 & Hs & Hk & old & oldpn & p1 & p2 & -> & -> & Hp1 & Ho & Hpn & Hc & Hns).
  rewrite w32_small by (unfold counter_limit, maxSkip in *; lia).
  split; try assumption.
  - exists s, c0. split_and!; [done..|]. exists old, oldpn, p1, (p2 ++ [pt]).
    cbn [ad ckr nr pn dhs cks ns set_ns set_cks]. split_and!; try (assumption || reflexivity).
    + by rewrite app_assoc.
    + by rewrite seg_snoc, <-app_assoc, Hc, Hns, Z.add_0_l.
    + by rewrite length_app, Nat.add_1_r, ck_iter_snoc, Hc.
    + rewrite length_app. simpl. lia.
  - cbn [nr pn ns set_ns set_cks]. split_and!; try apply l_bounds0. lia.
Qed.

(** The other side sends. *)
Lemma Lead_send_back X Y q p q' p' pt m Y' :
  Lead X Y q p q' p' → ns Y < counter_limit → encrypt pt Y = (Ok m, Y') →
  Lead X Y' q p (q' ++ [m]) (p' ++ [pt]).
Proof.
  intros [] Hn. rewrite encrypt_spec. intros [= <- <-].
  rewrite w32_small by (unfold counter_limit, maxSkip in *; lia).
  split; cbn [ad ckr nr pn dhs cks ns set_ns set_cks];
      try (assumption || (symmetry; assumption)).
  - by rewrite seg_snoc, l_back0, l_cksY0, l_nsY0.
  - by rewrite length_app, Nat.add_1_r, ck_iter_snoc, l_cksY0.
  - rewrite length_app. simpl. lia.
  - split_and!; try apply l_bounds0. lia.
Qed.

(** The leader reads. *)
Lemma Lead_recv X Y q p m q' p' t res X' t' :
  Lead X Y q p (m :: q') p' → decrypt m (X, t) = (res, (X', t')) →
  ∃ pt p1', p' = pt :: p1' ∧ res = Ok pt ∧ Lead X' Y q p q' p1' ∧ t' = t ∧ ns X' = ns X ∧ dhs X' = dhs X.
Proof.
  intros [] E. destruct p' as [|pt p']; [discriminate l_back0|]. injection l_back0 as -> Hq.
  rewrite <-l_ad0, decrypt_same_chain in E.
  2: done. 2: by rewrite l_skX0. 2: { cbn [length] in *. lia. } 2: apply l_bounds0.
  injection E as <- <- <-. exists pt, p'. split_and!; [done..| |done|done|done].
  split; cbn [ad ckr nr pn dhs cks ns set_nr set_ckr];
      try (assumption || (symmetry; assumption)).
  - by rewrite l_cksY0, <-ck_iter_S.
  - cbn [length] in *. lia.
  - split_and!; try apply l_bounds0. lia.
Qed.

(** The other side reads the rest of the old chain, or makes the next DH
    step and so becomes the leader. *)
Lemma Lead_recv_back X Y m q p q' p' t res Y' t' :
  Lead X Y (m :: q) p q' p' → fresh t Y → decrypt m (Y, t) = (res, (Y', t')) →
  ∃ pt p1, p = pt :: p1 ∧ res = Ok pt ∧
    (Lead X Y' q p1 q' p' ∧ t' = t ∧ dhs Y' = dhs Y ∨ Lead Y' X q' p' q p1 ∧ t' = drop 32 t).
Proof.
  intros [] [Hl Hf] E.
  destruct l_root0 as (s & c0 & Hs & Hk & old & oldpn & p1 & p2 & -> & Hq & Hp1 & Ho & Hpn & Hc & Hns).
  destruct p1 as [|pt p1].
  - (* a new chain *)
    cbn [app seg] in Hq. destruct p2 as [|pt p2]; [discriminate Hq|]. injection Hq as -> Hq.
    destruct (x25519_agree (take 32 t) (dhs X)) as (s2 & Hs2 & Hs2').
    destruct (kdfRoot (rk X) s2) as [rk2 c1] eqn:Hk2.
    rewrite l_ad0 in E.
    rewrite (decrypt_new_chain _ _ _ _ _ s (rk X) c0 s2 rk2 c1) in E; try assumption.
    2: by rewrite l_skY0. 2: { cbn [length] in *. lia. } 2: { cbn [length] in *. lia. }
    2: apply length_x25519_pub.
    injection E as <- <- <-. exists pt, p2. split_and!; [done..|]. right. split; [|done].
    split; cbn [ad ckr nr pn dhs cks ns rk skipped dhr];
      try (assumption || (symmetry; assumption) || reflexivity).
    + by rewrite Hc, <-ck_iter_S.
    + rewrite Hns. cbn [length]. lia.
    + rewrite l_dhr0. congruence.
    + exists s2, c1. split_and!; [done..|].
      exists (x25519_pub (dhs Y)), (pn Y), p', []. rewrite !app_nil_r.
      split_and!; try (assumption || reflexivity); try (intros _; assumption); apply l_bounds0.
    + unfold uint32, counter_limit, maxSkip in *. cbn [length] in *. lia.
  - (* the old chain *)
    cbn [app seg] in Hq. injection Hq as -> Hq. rewrite l_ad0, decrypt_same_chain in E.
    2: by apply Hp1. 2: by rewrite l_skY0. 2: { cbn [length] in *. lia. } 2: done.
    injection E as <- <- <-. exists pt, (p1 ++ p2). split_and!; [done..|]. left.
    split; [|done]. split; cbn [ad ckr nr pn dhs cks ns rk dhr set_nr set_ckr];
      try (assumption || (symmetry; assumption)).
    + exists s, c0. split_and!; [done..|]. exists old, oldpn, p1, p2.
      split_and!; try (assumption || reflexivity).
      * intros _. by apply Hp1.
      * rewrite Hpn. cbn [length]. lia.
    + split_and!; try apply l_bounds0. lia.
Qed.

(** The first message of a chain costs its reader one private key. *)
Lemma Lead_first X Y t pt m X' :
  Lead X Y [] [] [] [] → fresh t Y → encrypt pt X = (Ok m, X') →
  ∃ Y', decrypt m (Y, t) = (Ok pt, (Y', drop 32 t)) ∧ ns Y' = 0 ∧ dhs Y' = take 32 t.
Proof.
  intros [] [Hl Hf]. rewrite encrypt_spec. intros [= <- _].
  destruct l_root0 as (s & c0 & Hs & Hk & old & oldpn & p1 & p2 & Hp & _ & _ & _ & Hpn & Hc & Hns).
  symmetry in Hp. apply app_nil in Hp as [-> ->]. cbn [length] in *.
  rewrite Hc, Hns, l_ad0. change (ck_iter 0 (Some c0)) with (Some c0). change (Z.of_nat 0) with 0.
  destruct (x25519_agree (take 32 t) (dhs X)) as (s2 & Hs2 & Hs2').
  destruct (kdfRoot (rk X) s2) as [rk2 c1] eqn:Hk2.
  eexists. split.
  - apply (decrypt_new_chain _ _ _ _ _ s (rk X) c0 s2 rk2 c1); try assumption; try lia.
    + by rewrite l_skY0.
    + apply length_x25519_pub.
  - by split.
Qed.

(** *** One direction at a time

    Everything [X] has sent and [Y] has not read: [Y], with tape [t], can
    read it, whichever of the two made the last DH step. *)
Definition readable (Y X : ratchet) (t : tape) (q p : list bytes) : Prop :=
  Lead X Y q p [] [] ∧ fresh t Y ∨ Lead Y X [] [] q p.

Lemma readable_send Y X t q p pt m X' :
  readable Y X t q p → ns X < counter_limit → encrypt pt X = (Ok m, X') →
  readable Y X' t (q ++ [m]) (p ++ [pt]).
Proof.
  intros [[HL Hf]|HL] Hn He; [left; split; [|done]|right].
  - by eapply Lead_send.
  - by eapply Lead_send_back.
Qed.

(** The same, with what reading has cost so far: of the tape [T] there was
    before, one private key if [Y] made a DH step since. *)
Definition reading (T : tape) (Y X : ratchet) (t : tape) (q p : list bytes) : Prop :=
  Lead X Y q p [] [] ∧ fresh t Y ∧ t = T ∨ Lead Y X [] [] q p ∧ (t = T ∨ t = drop 32 T).

Lemma readable_reading Y X t q p : readable Y X t q p → reading t Y X t q p.
Proof. intros [[? ?]|?]; [by left|right; auto]. Qed.

Lemma reading_readable T Y X t q p : reading T Y X t q p → readable Y X t q p.
Proof. intros [(? & ? & _)|[? _]]; [by left|by right]. Qed.

Lemma reading_recv T Y X t m q p res Y' t' :
  reading T Y X t (m :: q) p → decrypt m (Y, t) = (res, (Y', t')) →
  ∃ pt p1, p = pt :: p1 ∧ res = Ok pt ∧ reading T Y' X t' q p1.
Proof.
  intros [(HL & Hf & ->)|[HL Ht]] Hd.
  - destruct (Lead_recv_back _ _ _ _ _ _ _ _ _ _ _ HL Hf Hd) as (pt & p1 & -> & -> & [(? & -> & E)|[? ->]]);
      exists pt, p1; split_and!; [done|done| |done|done|]; [left; split_and!; [done| |done]|right; auto].
    unfold fresh in *. by rewrite E.
  - destruct (Lead_recv _ _ _ _ _ _ _ _ _ _ _ HL Hd) as (pt & p1 & -> & -> & ? & -> & _).
    exists pt, p1. split_and!; [done..|by right].
Qed.

(** One message on an idle channel: its reader ends up the leader. *)
Lemma readable_hop Y X t pt m X' :
  readable Y X t [] [] → ns X < counter_limit → encrypt pt X = (Ok m, X') →
  ∃ Y' t', decrypt m (Y, t) = (Ok pt, (Y', t')) ∧ Lead Y' X' [] [] [] [] ∧
    (t' = t ∨ t' = drop 32 t) ∧ (ns Y' = ns Y ∨ ns Y' = 0).
Proof.
  intros [[HL Hf]|HL] Hn He.
  - destruct (Lead_first _ _ _ _ _ _ HL Hf He) as (Y' & Hd & Hns & _). exists Y', (drop 32 t).
    pose proof (Lead_send _ _ _ _ _ _ _ _ _ HL Hn He) as HL'. cbn [app] in HL'.
    destruct (Lead_recv_back _ _ _ _ _ _ _ _ _ _ _ HL' Hf Hd) as (? & p1 & [= <- <-] & _ & [(_ & Ht & _)|[HL1 _]]).
    + apply (f_equal length) in Ht. rewrite length_drop in Ht. destruct Hf. lia.
    + by split_and!; [..|right|right].
  - pose proof (Lead_send_back _ _ _ _ _ _ _ _ _ HL Hn He) as HL'. cbn [app] in HL'.
    destruct (decrypt m (Y, t)) as [res [Y' t']] eqn:Hd.
    destruct (Lead_recv _ _ _ _ _ _ _ _ _ _ _ HL' Hd) as (? & p1 & [= <- <-] & -> & HL1 & -> & Hns & _).
    exists Y', t. by split_and!; [..|left|left].
Qed.

(** One that has read on this chain reads on without a DH step. *)
Lemma hop_again Y X t pt m X' :
  Lead Y X [] [] [] [] → ns X < counter_limit → encrypt pt X = (Ok m, X') →
  ∃ Y', decrypt m (Y, t) = (Ok pt, (Y', t)) ∧ ns Y' = ns Y ∧ dhs Y' = dhs Y.
Proof.
  intros HL Hn He. pose proof (Lead_send_back _ _ _ _ _ _ _ _ _ HL Hn He) as HL'. cbn [app] in HL'.
  destruct (decrypt m (Y, t)) as [res [Y' t']] eqn:Hd.
  destruct (Lead_recv _ _ _ _ _ _ _ _ _ _ _ HL' Hd) as (? & p1 & [= <- <-] & -> & _ & -> & Hns & Hdh). by exists Y'.
Qed.

(** ** The network invariant *)

Definition delivered (n : net) (pa pb : list bytes) : Prop :=
  ∃ da db, e_sent (alice n) = da ++ pa ∧ e_got (bob n) = map Ok da
         ∧ e_sent (bob n) = db ++ pb ∧ e_got (alice n) = map Ok db.

Definition Inv (n : net) : Prop := ∃ pa pb,
  delivered n pa pb ∧
  (Lead (e_ratchet (alice n)) (e_ratchet (bob n)) (to_bob n) pa (to_alice n) pb ∨
   Lead (e_ratchet (bob n)) (e_ratchet (alice n)) (to_alice n) pb (to_bob n) pa).

Lemma Inv_flip n : Inv n → Inv (flip_net n).
Proof.
  intros (pa & pb & (da & db & ? & ? & ? & ?) & HL). exists pb, pa. split; [by exists db, da|].
  destruct HL; [by right|by left].
Qed.

Lemma delivered_recv a b ab ba m r pt pa pb :
  delivered (Net a b ab (m :: ba)) pa (pt :: pb) →
  delivered (Net (Endpoint r (e_sent a) (e_got a ++ [Ok pt])) b ab ba) pa pb.
Proof.
  intros (da & db & ? & ? & Hs & Hg). exists da, (db ++ [pt]). cbn in *.
  split_and!; try done; [by rewrite <-app_assoc|by rewrite map_app, Hg].
Qed.

Lemma Inv_act n n' : Inv n → act n n' → Inv n'.
Proof.
  intros (pa & pb & HD & HL) Hact. destruct Hact; cbn in HL.
  - exists (pa ++ [pt]), pb. split.
    + destruct HD as (da & db & Hs & ? & ? & ?). exists da, db. cbn in *.
      split_and!; try done. by rewrite Hs, app_assoc.
    + destruct HL as [HL|HL]; [left|right]; cbn; [by eapply Lead_send|by eapply Lead_send_back].
  - destruct HL as [HL|HL]; [eapply Lead_recv in HL|eapply Lead_recv_back in HL]; try done.
    + destruct HL as (pt & pb' & -> & -> & HL & _). exists pa, pb'.
      split; [by eapply delivered_recv|by left].
    + destruct HL as (pt & pb' & -> & -> & HL). exists pa, pb'.
      split; [by eapply delivered_recv|cbn; tauto].
Qed.

Lemma Inv_step n n' : Inv n → step n n' → Inv n'.
Proof.
  intros HI [Ha|Ha]; [by eapply Inv_act|].
  apply Inv_flip in HI. pose proof (Inv_act _ _ HI Ha) as HI'. apply Inv_flip in HI'.
  by destruct n'.
Qed.

Lemma Inv_reachable a b n :
  Lead a b [] [] [] [] → rtc step (start a b) n → Inv n.
Proof.
  intros HL Hr. assert (Inv (start a b)) as HI by (exists [], []; split; [by exists [], []|by left]).
  induction Hr; [done|]. eauto using Inv_step.
Qed.
End network.

(** ** Running it *)

Inductive event :=
  | Send (by_alice : bool) (pt : bytes)
  | Recv (by_alice : bool) (t : tape).

Section run.
Context `{Curves}.

#[global] Instance fresh_dec t r : Decision (fresh t r).
Proof. unfold fresh. apply _. Defined.

(** Alice's half of an event. *)
Definition exec_send (pt : bytes) (n : net) : option net :=
  let a := alice n in
  if decide (ns (e_ratchet a) < counter_limit) then
    match encrypt pt (e_ratchet a) with
    | (Ok m, r) => Some (Net (Endpoint r (e_sent a ++ [pt]) (e_got a)) (bob n) (to_bob n ++ [m]) (to_alice n))
    | _ => None
    end
  else None.

Definition exec_recv (t : tape) (n : net) : option net :=
  let a := alice n in
  match to_alice n with
  | [] => None
  | m :: ba =>
    if decide (fresh t (e_ratchet a)) then
      let '(res, (r, _)) := decrypt m (e_ratchet a, t) in
      Some (Net (Endpoint r (e_sent a) (e_got a ++ [res])) (bob n) (to_bob n) ba)
    else None
  end.

Definition exec (e : event) (n : net) : option net :=
  match e with
  | Send true pt => exec_send pt n
  | Send false pt => flip_net <$> exec_send pt (flip_net n)
  | Recv true t => exec_recv t n
  | Recv false t => flip_net <$> exec_recv t (flip_net n)
  end.

Fixpoint run (es : list event) (n : net) : option net :=
  match es with [] => Some n | e :: es => n' ← exec e n; run es n' end.

Lemma exec_send_act pt n n' : exec_send pt n = Some n' → act n n'.
Proof.
  unfold exec_send. case_decide; [|done].
  destruct (encrypt pt (e_ratchet (alice n))) as [[m|e] r] eqn:E; [|done]. intros [= <-].
  destruct n as [[]]. by eapply act_send.
Qed.

Lemma exec_recv_act t n n' : exec_recv t n = Some n' → act n n'.
Proof.
  unfold exec_recv. destruct n as [[r0 s0 g0] b ab [|m ba]]; [done|]. cbn [alice e_ratchet e_sent e_got to_alice to_bob bob]. case_decide; [|done].
  destruct (decrypt m (r0, t)) as [res [r t']] eqn:E. intros [= <-]. by eapply (act_recv (Endpoint r0 s0 g0)).
Qed.

Lemma flip_flip n : flip_net (flip_net n) = n.
Proof. by destruct n. Qed.

Lemma exec_step e n n' : exec e n = Some n' → step n n'.
Proof.
  destruct e as [[] pt|[] t]; cbn; intros E.
  - left. by eapply exec_send_act.
  - right. apply fmap_Some in E as (m & E & ->). rewrite flip_flip. by eapply exec_send_act.
  - left. by eapply exec_recv_act.
  - right. apply fmap_Some in E as (m & E & ->). rewrite flip_flip. by eapply exec_recv_act.
Qed.

Lemma run_steps es n n' : run es n = Some n' → rtc step n n'.
Proof.
  revert n. induction es as [|e es IH]; cbn; intros n E; [by injection E as ->|].
  apply bind_Some in E as (n1 & E1 & E2). eapply rtc_l; [by eapply exec_step|by apply IH].
Qed.
End run.

(** ** The channel theorem *)

Section channel.
Context `{CurveLaws}.

Lemma Lead_length X Y q p q' p' :
  Lead X Y q p q' p' → length q = length p ∧ length q' = length p'.
Proof.
  intros []. destruct l_root0 as (s & c0 & _ & _ & old & oldpn & p1 & p2 & -> & -> & _).
  by rewrite l_back0, !length_app, !length_seg.
Qed.

(** Each side has read exactly the start of what the other side sent, and
    the rest is on the wire. *)
Definition in_order (n : net) : Prop := ∃ da db pa pb,
  e_sent (alice n) = da ++ pa ∧ e_got (bob n) = map Ok da ∧ length (to_bob n) = length pa ∧
  e_sent (bob n) = db ++ pb ∧ e_got (alice n) = map Ok db ∧ length (to_alice n) = length pb.

Lemma Lead_in_order a b n :
  Lead a b [] [] [] [] → rtc step (start a b) n → in_order n.
Proof.
  intros HL Hr. eapply Inv_reachable in Hr; [|done].
  destruct Hr as (pa & pb & (da & db & ? & ? & ? & ?) & HL').
  exists da, db, pa, pb. destruct HL' as [[]%Lead_length|[]%Lead_length]; by split_and!.
Qed.

(** C6: two ratchets that share an X3DH secret are a pair of reliable FIFO
    channels.  However sends and reads interleave, and whichever side sends
    first, every [decrypt] call on either side has returned exactly the next
    plaintext the other side passed to [encrypt]: none fails, none is
    reordered, lost or invented, and what is not read yet is on the wire. *)
Theorem conversation_fifo sk spk ad t a t' n :
  newRatchetInitiator sk (x25519_pub spk) ad t = (Ok a, t') →
  rtc step (start a (newRatchetResponder sk spk ad)) n →
  in_order n.
Proof. intros Ha Hr. eapply Lead_in_order; [by eapply Lead_start|done]. Qed.
End channel.

Import ToyCurves.

Module Example.
Definition sk : bytes := zeros 32.
Definition spk : bytes := be_bytes 32 77.
Definition fresh_tape (z : Z) : tape := be_bytes 32 z.
Definition a : ratchet :=
  match (newRatchetInitiator sk (x25519_pub spk) [] (fresh_tape 5)).1 with
  | Ok a => a | Err _ => newRatchetResponder sk spk []
  end.
Definition script : list event :=
  [Send true (bs "hi"); Send true (bs "there"); Recv false (fresh_tape 6); Send false (bs "yo");
   Recv true (fresh_tape 7); Send true (bs "again"); Recv false (fresh_tape 8)].
Definition final : net :=
  let n := start a (newRatchetResponder sk spk []) in default n (run script n).
End Example.

Lemma conversation_fifo_witness :
  e_got (bob Example.final) = [Ok (bs "hi"); Ok (bs "there")] ∧ in_order Example.final.
Proof.
  split; [vm_compute; reflexivity|].
  apply (conversation_fifo Example.sk Example.spk [] (Example.fresh_tape 5) Example.a []).
  - vm_compute; reflexivity.
  - apply (run_steps Example.script). vm_compute. reflexivity.
Defined.
