(* ===== verification/OutOfOrder.v ===== *)
(** * Skipped messages

    What [ratchet.skip] stores and when it refuses, and the promise it makes:
    the messages of one chain decrypt in any order. *)

From S2P Require Import Prelude Bytes Gcm Codec Kdf Curve Ratchet Conversation.
Open Scope Z_scope.

Section skip.
(** The message key of the [i]th step of a chain. *)
Definition mk_at (c : slice) (i : nat) : bytes := (chainStep (ck_iter i c)).1.

(** What [n] turns of the loop do to everything but [skipped]. *)
Lemma iter_skip_step n r :
  0 ≤ nr r → nr r + Z.of_nat n < 2 ^ 32 →
  Nat.iter n skip_step r
  = set_nr (nr r + Z.of_nat n) (set_ckr (ck_iter n (ckr r))
      (set_skipped (skipped (Nat.iter n skip_step r)) r)).
Proof.
  intros H0. induction n as [|n IH]; intros Hn.
  - rewrite Z.add_0_r. by destruct r.
  - rewrite Nat.iter_succ, IH by lia. unfold skip_step at 1 3.
    cbn [ckr nr dhr skipped set_nr set_ckr set_skipped dhs rk cks ns pn ad].
    rewrite ck_iter_snoc. unfold ck_next. destruct (chainStep (ck_iter n (ckr r))) as [mk c] eqn:E.
    cbn [ckr nr dhr skipped set_nr set_ckr set_skipped dhs rk cks ns pn ad fst snd].
    rewrite w32_small by lia. unfold set_nr, set_ckr, set_skipped.
    cbn [ckr nr dhr skipped dhs rk cks ns pn ad]. f_equal. lia.
Qed.

(** The keys they store. *)
Lemma skipped_iter_S n r :
  0 ≤ nr r → nr r + Z.of_nat n < 2 ^ 32 →
  skipped (Nat.iter (S n) skip_step r)
  = <[skip_key (sl (dhr r)) (nr r + Z.of_nat n) := mk_at (ckr r) n]>
      (skipped (Nat.iter n skip_step r)).
Proof.
  intros H0 Hn. rewrite Nat.iter_succ. rewrite (iter_skip_step n r) at 1 by lia.
  unfold skip_step at 1, mk_at. cbn [ckr nr dhr skipped set_nr set_ckr set_skipped].
  by destruct (chainStep (ck_iter n (ckr r))).
Qed.

Lemma skipped_iter_out n r d i :
  0 ≤ nr r → nr r + Z.of_nat n < 2 ^ 32 → uint32 i →
  (d ≠ sl (dhr r) ∨ i < nr r ∨ nr r + Z.of_nat n ≤ i) →
  skipped (Nat.iter n skip_step r) !! skip_key d i = skipped r !! skip_key d i.
Proof.
  intros H0 Hn Hi Ho. induction n as [|n IH]; [done|].
  rewrite skipped_iter_S by lia. rewrite lookup_insert_ne; [apply IH; [lia|]|].
  - destruct Ho as [|[|]]; [tauto|tauto|]. right. right. lia.
  - intros E. apply skip_key_inj in E as [<- <-]; [|unfold uint32 in *; lia..].
    destruct Ho as [?|[?|?]]; [done|lia|lia].
Qed.

Lemma skipped_iter_in n r i :
  0 ≤ nr r → nr r + Z.of_nat n < 2 ^ 32 → (i < n)%nat →
  skipped (Nat.iter n skip_step r) !! skip_key (sl (dhr r)) (nr r + Z.of_nat i)
  = Some (mk_at (ckr r) i).
Proof.
  intros H0 Hn. induction n as [|n IH]; intros Hi; [lia|].
  rewrite skipped_iter_S by lia. destruct (decide (i = n)) as [->|].
  - apply lookup_insert_eq.
  - rewrite lookup_insert_ne; [apply IH; lia|].
    intros E. apply skip_key_inj in E as [_ E]; unfold uint32; lia.
Qed.

Lemma skipped_iter_size n r :
  (size (skipped (Nat.iter n skip_step r)) ≤ size (skipped r) + n)%nat.
Proof.
  induction n as [|n IH]; [simpl; lia|]. rewrite Nat.iter_succ.
  unfold skip_step at 1. destruct (chainStep (ckr _)).
  cbn [skipped set_nr set_ckr set_skipped].
  rewrite map_size_insert. destruct (_ !! _); unfold id; lia.
Qed.

(** The loop of [skip] as an iteration. *)
Lemma skip_while n r until :
  0 ≤ nr r → until < 2 ^ 32 → until = nr r + Z.of_nat n →
  while n (λ r, nr r <? until) skip_step r = Nat.iter n skip_step r.
Proof.
  revert r. induction n as [|n IH]; intros r H0 Hu E; [done|].
  rewrite while_step by (apply Z.ltb_lt; lia). rewrite Nat.iter_succ_r. apply IH; [| |].
  all: unfold skip_step; destruct (chainStep (ckr r)); cbn [nr set_nr]; rewrite ?w32_small by lia; lia.
Qed.

(** [skip] without an error. *)
Lemma skip_run until r n :
  ckr r ≠ None → 0 ≤ nr r → until < 2 ^ 32 → until = nr r + Z.of_nat n →
  until ≤ w32 (nr r + maxSkip) →
  skip until r = (Ok tt, Nat.iter n skip_step r).
Proof.
  intros Hc H0 Hu E Hm. unfold skip. run_M. destruct (ckr r); [|done].
  rewrite (proj2 (Z.ltb_ge _ _)) by lia. f_equal.
  replace (Z.to_nat (until - nr r)) with n by lia. by apply skip_while.
Qed.

Lemma skip_back until r :
  until ≤ nr r → until ≤ w32 (nr r + maxSkip) → skip until r = (Ok tt, r).
Proof.
  intros Hle Hm. unfold skip. run_M. destruct (ckr r); [|done].
  rewrite (proj2 (Z.ltb_ge _ _)) by lia.
  by replace (Z.to_nat (until - nr r)) with 0%nat by lia.
Qed.
End skip.

(** ** Messages ahead of and behind the counter *)

Section order.
Context `{Curves}.

Fixpoint encrypt_all (pts : list bytes) : M ratchet (list bytes) :=
  match pts with
  | [] => retM []
  | pt :: pts => let* w := encrypt pt in let* ws := encrypt_all pts in retM (w :: ws)
  end.

(** The results of reading the messages one after the other. *)
Fixpoint decrypt_all (ws : list bytes) (s : ratchet * tape) : list (result bytes) * (ratchet * tape) :=
  match ws with
  | [] => ([], s)
  | w :: ws =>
    let '(res, s) := decrypt w s in
    let '(rs, s) := decrypt_all ws s in (res :: rs, s)
  end.

Lemma encrypt_all_seg pts r :
  0 ≤ ns r → ns r + Z.of_nat (length pts) < 2 ^ 32 →
  (encrypt_all pts r).1 = Ok (seg (ad r) (x25519_pub (dhs r)) (pn r) (cks r) (ns r) pts).
Proof.
  revert r. induction pts as [|pt pts IH]; intros r H0 Hn; [done|].
  cbn [encrypt_all length seg] in *. unfold bindM, retM. rewrite encrypt_spec.
  rewrite w32_small by lia.
  specialize (IH (set_ns (ns r + 1) (set_cks (ck_next (cks r)) r))). cbn in IH.
  destruct (encrypt_all pts _) as [[ws|e] r']; cbn in *.
  - rewrite <-(Ok_inj _ _ (IH ltac:(lia) ltac:(lia))). done.
  - discriminate (IH ltac:(lia) ltac:(lia)).
Qed.

(** The messages of a chain by position. *)
Lemma seg_map ad pub pn c n pts :
  seg ad pub pn c n pts
  = map (λ i, message ad pub pn (ck_iter i c) (n + Z.of_nat i) (pts !!! i)) (List.seq 0 (length pts)).
Proof.
  revert c n. induction pts as [|p pts IH]; intros c n; [done|].
  cbn [seg length List.seq map].
  rewrite Z.add_0_r. change ((p :: pts) !!! 0%nat) with p. apply (f_equal (cons _)).
  rewrite <-seq_shift, map_map, IH. apply map_ext. intros i. change ((p :: pts) !!! S i) with (pts !!! i).
  rewrite ck_iter_S. by replace (n + Z.of_nat (S i)) with (n + 1 + Z.of_nat i) by lia.
Qed.

(** A message at or past the counter: the gap is skipped. *)
Lemma decrypt_ahead r t pub pn j pt :
  dhr r = Some pub → ckr r ≠ None → uint32 pn →
  skipped r !! skip_key pub (nr r + Z.of_nat j) = None →
  0 ≤ nr r → nr r + maxSkip + 1 < 2 ^ 32 → Z.of_nat j ≤ maxSkip →
  decrypt (message (ad r) pub pn (ck_iter j (ckr r)) (nr r + Z.of_nat j) pt) (r, t)
  = (Ok pt, (set_nr (nr r + Z.of_nat (S j)) (set_ckr (ck_iter (S j) (ckr r))
      (set_skipped (skipped (Nat.iter j skip_step r)) r)), t)).
Proof.
  intros Hd Hc Hp Hs H0 Hn Hj. unfold decrypt, message. unfold bindM, liftM at 1.
  assert (uint32 (nr r + Z.of_nat j)) by (unfold uint32; lia).
  rewrite decode_encodeMessage by done. cbn [fst snd sl].
  unfold decrypt_message. run_M. rewrite trySkipped_miss by done.
  cbn [snd fst]. cbv iota. rewrite (new_chain_false _ _ pub) by done.
  cbn [h_N]. rewrite (skip_run _ r j) by (done || lia || rewrite w32_small; lia).
  rewrite iter_skip_step by lia. cbn [ckr set_nr set_ckr].
  rewrite ck_iter_snoc. unfold ck_next, seal_with.
  destruct (chainStep (ck_iter j (ckr r))) as [mk c] eqn:E.
  rewrite aeadOpen_eq. cbn [ad fst snd set_nr set_ckr set_skipped nr]. rewrite gcm_open_seal.
  rewrite w32_small by lia. unfold set_nr, set_ckr, set_skipped. cbn.
  by replace (nr r + Z.of_nat j + 1) with (nr r + Z.of_nat (S j)) by lia.
Qed.

(** A message whose key was stored. *)
Lemma decrypt_stored r t pub pn c n pt :
  skipped r !! skip_key pub n = Some (chainStep c).1 → uint32 pn → uint32 n →
  decrypt (message (ad r) pub pn c n pt) (r, t)
  = (Ok pt, (set_skipped (delete (skip_key pub n) (skipped r)) r, t)).
Proof.
  intros Hs Hp Hn. unfold decrypt, message. unfold bindM, liftM at 1.
  rewrite decode_encodeMessage by done. cbn [fst snd sl].
  unfold decrypt_message, trySkipped. run_M. cbn [sl h_DH h_N]. rewrite Hs.
  rewrite aeadOpen_eq. unfold seal_with. by rewrite gcm_open_seal.
Qed.

(** The receiver [Y] after the positions [D] of the chain that starts at its
    key and counter: [hi] is the position after the last one. *)
Record chain_inv (Y : ratchet) (pub : bytes) (N : nat) (D : list nat) (hi : nat) (r : ratchet) : Prop := {
  ci_state : r = set_nr (nr Y + Z.of_nat hi) (set_ckr (ck_iter hi (ckr Y)) (set_skipped (skipped r) Y));
  ci_hi : ∀ i, i ∈ D → (i < hi)%nat;
  ci_stored : ∀ i, (i < hi)%nat → i ∉ D →
    skipped r !! skip_key pub (nr Y + Z.of_nat i) = Some (mk_at (ckr Y) i);
  ci_none : ∀ i, i ∈ D ∨ (hi ≤ i < N)%nat → skipped r !! skip_key pub (nr Y + Z.of_nat i) = None;
}.

(** A receiver that can read [N] messages of the chain. *)
Record on_chain (Y : ratchet) (pub : bytes) (N : nat) : Prop := {
  oc_dhr : dhr Y = Some pub;
  oc_ckr : ckr Y ≠ None;
  oc_none : ∀ i, uint32 i → skipped Y !! skip_key pub i = None;
  oc_nr : 0 ≤ nr Y ∧ nr Y + 2 * maxSkip + 2 < 2 ^ 32;
  oc_N : Z.of_nat N ≤ maxSkip + 1;
}.

Lemma on_chain_init Y pub N : on_chain Y pub N → chain_inv Y pub N [] 0 Y.
Proof.
  intros []. split; [|by intros i ?%not_elem_of_nil|lia|].
  - rewrite Z.add_0_r. by destruct Y.
  - intros i Hi. apply oc_none0. unfold uint32, maxSkip in *.
    destruct Hi as [Hi%not_elem_of_nil|]; [done|lia].
Qed.

Lemma ck_iter_ne n c : c ≠ None → ck_iter n c ≠ None.
Proof. destruct n; [done|]. rewrite ck_iter_snoc. done. Qed.

Lemma ck_iter_add i j c : ck_iter i (ck_iter j c) = ck_iter (j + i) c.
Proof. unfold ck_iter. by rewrite <-Nat.iter_add, Nat.add_comm. Qed.

Lemma key_ne Y pub (i j : nat) :
  uint32 (nr Y + Z.of_nat i) → uint32 (nr Y + Z.of_nat j) → i ≠ j →
  skip_key pub (nr Y + Z.of_nat i) ≠ skip_key pub (nr Y + Z.of_nat j).
Proof. intros Hi Hj Hne E. apply skip_key_inj in E as [_ E]; [lia|done..]. Qed.

(** Reading a position not read before. *)
Lemma chain_inv_step Y pub pn N D hi r t i pt :
  on_chain Y pub N → uint32 pn → chain_inv Y pub N D hi r → (hi ≤ N)%nat → (i < N)%nat → i ∉ D →
  ∃ r' hi', decrypt (message (ad Y) pub pn (ck_iter i (ckr Y)) (nr Y + Z.of_nat i) pt) (r, t)
         = (Ok pt, (r', t)) ∧ chain_inv Y pub N (i :: D) hi' r' ∧ (hi' ≤ N)%nat.
Proof.
  intros [Hd Hc _ Hn HN] Hp [Hr Hhi Hst Hno] HhiN Hi HD. unfold maxSkip in *.
  assert (∀ j, (j ≤ N)%nat → uint32 (nr Y + Z.of_nat j)) as Hu by (unfold uint32; lia).
  assert (ad r = ad Y) as <- by (by rewrite Hr).
  destruct (decide (i < hi)%nat) as [Hlt|Hge].
  - (* a stored key *)
    eexists _, hi. rewrite decrypt_stored by first [by apply Hst | done | apply Hu; lia].
    split; [done|]. split; [|done]. split.
    + cbn [skipped set_skipped]. generalize (delete (skip_key pub (nr Y + Z.of_nat i)) (skipped r)).
      intros d. by rewrite Hr.
    + intros j [->|Hj]%elem_of_cons; [done|by apply Hhi].
    + intros j Hj [Hne HjD]%not_elem_of_cons. cbn [skipped set_skipped].
      rewrite lookup_delete_ne; [by apply Hst|]. apply key_ne; [apply Hu; lia..|done].
    + intros j Hj. cbn [skipped set_skipped]. destruct (decide (j = i)) as [->|Hne].
      * apply lookup_delete_eq.
      * apply lookup_delete_None. right. apply Hno. rewrite elem_of_cons in Hj. tauto.
  - (* at or past the counter *)
    assert (∃ j, i = hi + j)%nat as [j ->] by (exists (i - hi)%nat; lia).
    assert (nr r = nr Y + Z.of_nat hi) as Hnr by (by rewrite Hr).
    assert (ckr r = ck_iter hi (ckr Y)) as Hck by (by rewrite Hr).
    assert (dhr r = Some pub) as Hdr by (by rewrite Hr).
    rewrite <-ck_iter_add, <-Hck, Nat2Z.inj_add, Z.add_assoc, <-Hnr.
    eexists _, (S (hi + j)).
    rewrite decrypt_ahead;
      [|done|by rewrite Hck; apply ck_iter_ne|done| |lia|unfold maxSkip; lia|unfold maxSkip; lia].
    2:{ rewrite Hnr, <-Z.add_assoc, <-Nat2Z.inj_add. apply Hno. right. lia. }
    split; [done|]. split; [|lia]. split.
    + cbn [skipped set_skipped set_nr set_ckr]. generalize (skipped (Nat.iter j skip_step r)). intros d.
      rewrite Hnr, Hck, ck_iter_add, Hr, Nat.add_succ_r.
      by replace (nr Y + Z.of_nat hi + Z.of_nat (S j)) with (nr Y + Z.of_nat (S (hi + j))) by lia.
    + intros k [->|Hk]%elem_of_cons; [lia|]. apply Hhi in Hk. lia.
    + intros k Hk [Hne HkD]%not_elem_of_cons. cbn [skipped set_nr set_ckr set_skipped].
      destruct (decide (k < hi)%nat) as [Hlt|Hnlt].
      * rewrite skipped_iter_out; [by apply Hst|lia|lia|apply Hu; lia|lia].
      * assert (∃ l, k = hi + l)%nat as [l ->] by (exists (k - hi)%nat; lia).
        replace (nr Y + Z.of_nat (hi + l)) with (nr r + Z.of_nat l) by lia.
        assert (pub = sl (dhr r)) as -> by (by rewrite Hdr).
        rewrite skipped_iter_in by lia. unfold mk_at. by rewrite Hck, ck_iter_add.
    + intros k Hk. cbn [skipped set_nr set_ckr set_skipped]. rewrite elem_of_cons in Hk.
      assert (k < N)%nat by (destruct Hk as [[->|Hk%Hhi]|]; lia).
      rewrite skipped_iter_out; [|lia|lia|apply Hu; lia|].
      * apply Hno. destruct Hk as [[->|Hk]|]; [right; lia|by left|right; lia].
      * destruct Hk as [[->|Hk%Hhi]|]; lia.
Qed.

Lemma zip_seq (f : nat → bytes) (pts : list bytes) :
  zip (map f (List.seq 0 (length pts))) pts = map (λ i, (f i, pts !!! i)) (List.seq 0 (length pts)).
Proof.
  revert f. induction pts as [|p pts IH]; intros f; [done|].
  cbn [length List.seq map]. rewrite <-seq_shift, !map_map. cbn [zip zip_with].
  rewrite (IH (λ i, f (S i))). done.
Qed.

(** A selection of the pairs is a selection of the positions. *)
Lemma zip_selection (f : nat → bytes) (ws pts : list bytes) pairs :
  map f (List.seq 0 (length pts)) = ws → pairs ⊆+ zip ws pts →
  ∃ order, pairs = map (λ i, (f i, pts !!! i)) order ∧ NoDup order ∧
           Forall (λ i, i < length pts)%nat order.
Proof.
  intros <- [k Hk]%submseteq_Permutation. rewrite zip_seq in Hk. symmetry in Hk.
  apply Permutation_map_inv in Hk as (l & El & Hl).
  symmetry in El. apply map_eq_app in El as (l1 & l2 & -> & <- & <-).
  exists l1. split; [done|].
  assert (NoDup (l1 ++ l2)) as Hnd by (rewrite <-Hl; apply NoDup_ListNoDup, seq_NoDup).
  apply NoDup_app in Hnd as (Hnd & _ & _). split; [done|].
  apply Forall_forall. intros i Hi.
  assert (i ∈ List.seq 0 (length pts)) as Hin by (rewrite Hl; set_solver).
  apply list_elem_of_In, in_seq in Hin. lia.
Qed.

Lemma chain_inv_all Y pub pn N (pts : list bytes) order D hi r t :
  on_chain Y pub N → uint32 pn → chain_inv Y pub N D hi r → (hi ≤ N)%nat →
  NoDup order → Forall (λ i, i < N ∧ i ∉ D)%nat order →
  ∃ s, decrypt_all (map (λ i, message (ad Y) pub pn (ck_iter i (ckr Y)) (nr Y + Z.of_nat i) (pts !!! i)) order) (r, t)
       = (map (λ i, Ok (pts !!! i)) order, s).
Proof.
  intros Hoc Hp. revert D hi r. induction order as [|i order IH]; intros D hi r Hinv Hhi Hnd Hall; [by eexists|].
  apply NoDup_cons in Hnd as [Hni Hnd]. apply Forall_cons_iff in Hall as [[Hi HD] Hall].
  destruct (chain_inv_step Y pub pn N D hi r t i (pts !!! i)) as (r' & hi' & E & Hinv' & Hhi'); try done.
  edestruct (IH (i :: D)) as [s Es]; [done..| |].
  - apply Forall_forall. intros j Hj. rewrite Forall_forall in Hall. destruct (Hall j Hj).
    split; [done|]. apply not_elem_of_cons. split; [by intros ->|done].
  - exists s. cbn [map decrypt_all]. by rewrite E, Es.
Qed.
End order.

Import ToyCurves.

Section properties.
(** C12: messages arrive in any order, within the window.  [X] encrypts a run
    of at most [maxSkip + 1] messages on the chain [Y] is reading, from the one
    [Y] expects next; [Y] has no key stored for that chain, and its counter is
    more than [2 * maxSkip + 2] below 2^32 ([on_chain]).  Then whatever selection of the run
    reaches [Y], in whatever order, every message decrypts to the plaintext it
    was made from.  (A longer run has orders that [skip] refuses:
    [skip_bounded].) *)
Theorem chain_any_order `{CurveLaws} X Y pts ws pairs t :
  ad X = ad Y → cks X = ckr Y → ns X = nr Y → uint32 (pn X) →
  on_chain Y (x25519_pub (dhs X)) (length pts) →
  (encrypt_all pts X).1 = Ok ws →
  pairs ⊆+ zip ws pts →
  (decrypt_all pairs.*1 (Y, t)).1 = map Ok pairs.*2.
Proof.
  intros Had Hck Hns Hpn Hoc Hws Hsub. pose proof Hoc as [_ _ _ [Hnr0 Hmax] HN].
  unfold maxSkip in *. rewrite encrypt_all_seg in Hws by lia. apply Ok_inj in Hws.
  rewrite Had, Hck, Hns, seg_map in Hws.
  edestruct (zip_selection _ _ _ _ Hws Hsub) as (order & -> & Hnd & Hall).
  change (@fmap list _) with (@List.map). rewrite !map_map. cbn [fst snd].
  edestruct (chain_inv_all Y _ (pn X) (length pts) pts order [] 0 Y t Hoc Hpn) as [s E];
    [by apply on_chain_init|lia|done| |].
  - eapply Forall_impl; [done|]. intros i Hi. split; [done|]. apply not_elem_of_nil.
  - rewrite E. done.
Qed.

Definition toy_X : ratchet := Ratchet (be_bytes 32 3) None [] (Some [" "%byte]) None 0 0 0 ∅ [].
Definition toy_Y : ratchet :=
  Ratchet (be_bytes 32 4) (Some (x25519_pub (be_bytes 32 3))) [] None (Some [" "%byte]) 0 0 0 ∅ [].
Definition toy_ws : list bytes :=
  match (encrypt_all [bs "a"; bs "b"; bs "c"] toy_X).1 with Ok ws => ws | Err _ => [] end.

Lemma chain_any_order_witness :
  length toy_ws = 3%nat ∧
  (decrypt_all [toy_ws !!! 2%nat; toy_ws !!! 0%nat] (toy_Y, [])).1 = [Ok (bs "c"); Ok (bs "a")].
Proof.
  split; [vm_compute; reflexivity|].
  apply (chain_any_order toy_X toy_Y [bs "a"; bs "b"; bs "c"] toy_ws
           [(toy_ws !!! 2%nat, bs "c"); (toy_ws !!! 0%nat, bs "a")] []);
    [reflexivity..|unfold uint32; cbn; lia| |vm_compute; reflexivity|].
  - split; cbn; try reflexivity; try discriminate; unfold maxSkip; lia.
  - change (zip toy_ws [bs "a"; bs "b"; bs "c"])
      with [(toy_ws !!! 0%nat, bs "a"); (toy_ws !!! 1%nat, bs "b"); (toy_ws !!! 2%nat, bs "c")].
    etrans; [apply submseteq_swap|]. apply submseteq_skip, submseteq_cons. reflexivity.
Defined.

(** C13: [skip] always terminates and bounds what a peer can make us store.
    It either refuses without changing anything, exactly when a chain is
    running and the counter is past the (wrapped) window, or it leaves the
    receive counter at the larger of its old value and the target, and has
    stored at most [maxSkip] new keys. *)
Theorem skip_bounded until r :
  uint32 (nr r) → uint32 until →
  skip until r =
    (if bool_decide (ckr r ≠ None) && (w32 (nr r + maxSkip) <? until)
     then (Err (bs "crypto: too many skipped messages"), r)
     else (Ok tt, (skip until r).2)) ∧
  let r' := (skip until r).2 in
  (ckr r ≠ None → w32 (nr r + maxSkip) < until ∨ nr r' = Z.max (nr r) until) ∧
  (size (skipped r') ≤ size (skipped r) + Z.to_nat maxSkip)%nat.
Proof.
  unfold uint32. intros Hn Hu. destruct (ckr r) as [c|] eqn:Ec.
  2:{ unfold skip. run_M. rewrite Ec. split_and!; [done|done|simpl; lia]. }
  rewrite bool_decide_true by done. cbn [andb].
  destruct (Z.ltb_spec (w32 (nr r + maxSkip)) until) as [Hw|Hw].
  { unfold skip. run_M. rewrite Ec, (proj2 (Z.ltb_lt _ _)) by done.
    split_and!; [done|by left|simpl; lia]. }
  assert (ckr r ≠ None) as Hc by (by rewrite Ec).
  destruct (Z.le_gt_cases until (nr r)) as [Hle|Hgt].
  - rewrite skip_back by done. split_and!; [done|right; cbn; lia|simpl; lia].
  - assert (until - nr r ≤ maxSkip).
    { revert Hw. unfold w32, maxSkip. intros. zlia. }
    rewrite (skip_run until r (Z.to_nat (until - nr r))) by (done || lia).
    split_and!; [done| |].
    + right. rewrite iter_skip_step by lia. cbn [nr set_nr snd]. lia.
    + etrans; [apply skipped_iter_size|]. unfold maxSkip in *. lia.
Qed.

Lemma skip_bounded_witness :
  skip 3 toy_Y = (Ok tt, (skip 3 toy_Y).2) ∧
  (size (skipped (skip 3 toy_Y).2) ≤ size (skipped toy_Y) + Z.to_nat maxSkip)%nat.
Proof.
  destruct (skip_bounded 3 toy_Y) as (H1 & _ & H3); [unfold uint32; cbn; lia|unfold uint32; lia|].
  split; [exact H1|exact H3].
Defined.
End properties.
