(* ===== verification/Desync.v ===== *)
(** * What an unauthenticated message does to a ratchet

    [decrypt] advances the ratchet before [aeadOpen] has accepted the message,
    and keeps what it changed when it fails.  These theorems say what the code
    does with a forged or repeated message, and with a responder that speaks
    first. *)

From S2P Require Import Prelude Bytes Gcm Codec Kdf Curve X3dh Ratchet Conversation OutOfOrder.
Open Scope Z_scope.

Section desync.
Context `{Curves}.

(** A header of the chain being read whose counter is behind. *)
Lemma decrypt_message_behind h ct r t :
  dhr r = Some (sl (h_DH h)) → ckr r ≠ None →
  skipped r !! skip_key (sl (h_DH h)) (h_N h) = None →
  h_N h ≤ nr r ≤ counter_limit → 0 ≤ nr r →
  decrypt_message h ct (r, t)
  = (aeadOpen (chainStep (ckr r)).1 ct (ad r ++ header_bytes h),
     (set_nr (nr r + 1) (set_ckr (ck_next (ckr r)) r), t)).
Proof.
  intros Hd Hc Hs [Hle Hlim] H0. unfold counter_limit, maxSkip in *.
  unfold decrypt_message. run_M. rewrite trySkipped_miss by done.
  cbn [snd fst]. cbv iota. rewrite (new_chain_false _ _ (sl (h_DH h))) by done.
  rewrite skip_back by (try rewrite w32_small; unfold maxSkip; lia).
  unfold ck_next. destruct (chainStep (ckr r)) as [mk c] eqn:E. cbn [fst snd].
  rewrite w32_small by lia. done.
Qed.

(** A header with a key not seen before, and counters that skip nothing. *)
Lemma decrypt_message_new h ct r t s1 rk1 c0 s2 rk2 c1 :
  dhr r ≠ Some (sl (h_DH h)) → skipped r !! skip_key (sl (h_DH h)) 0 = None →
  h_N h = 0 → h_PN h ≤ nr r ≤ counter_limit → 0 ≤ nr r →
  length (sl (h_DH h)) = 32%nat →
  x25519_ecdh (dhs r) (sl (h_DH h)) = Ok s1 → kdfRoot (rk r) s1 = (rk1, c0) →
  (32 ≤ length t)%nat → x25519_ecdh (take 32 t) (sl (h_DH h)) = Ok s2 → kdfRoot rk1 s2 = (rk2, c1) →
  decrypt_message h ct (r, t)
  = (aeadOpen (chainStep (Some c0)).1 ct (ad r ++ header_bytes h),
     (Ratchet (take 32 t) (h_DH h) rk2 (Some c1) (ck_next (Some c0)) 0 1 (ns r) (skipped r) (ad r),
      drop 32 t)).
Proof.
  intros Hd Hs HN [Hp Hlim] H0 Hl H1 Hk1 Ht H2 Hk2. unfold counter_limit, maxSkip in *.
  unfold decrypt_message. run_M. rewrite HN in *. rewrite trySkipped_miss by (by rewrite HN).
  cbn [snd fst]. cbv iota. rewrite new_chain_true by done.
  rewrite skip_back by (try rewrite w32_small; unfold maxSkip; lia).
  unfold dhRatchet, ecdh_generate. run_M. cbn [sl dhs set_dhr set_nr set_ns set_pn rk].
  unfold dh, ecdh_new_public. rewrite !decide_True by done. cbn [bindR dhs set_dhr set_nr set_ns set_pn].
  rewrite H1. run_M. cbn [rk set_dhr set_nr set_ns set_pn]. rewrite Hk1.
  rewrite rand_read_enough by done. cbn [dhs set_dhs]. rewrite H2. run_M.
  cbn [rk set_dhs set_ckr set_rk]. rewrite Hk2.
  match goal with |- context [skip 0 ?r'] =>
    rewrite (skip_back 0 r') by (apply Z.leb_le; reflexivity) end.
  cbn [ckr set_cks set_rk set_dhs set_ckr]. unfold ck_next.
  destruct (chainStep (Some c0)) as [mk c] eqn:E. cbn [fst snd].
  cbn [ad set_cks set_rk set_dhs set_ckr set_dhr set_nr set_ns set_pn]. done.
Qed.

(** C39: a header is trusted before the message is.  Whatever octets stand in
    for the ciphertext, a message with a fresh 32-octet ratchet key makes
    [decrypt] take the DH step: when authentication then fails, the error
    comes with a ratchet whose peer key is the sender's choice, whose own key
    and root key are replaced and whose receiving chain is gone. *)
Theorem forged_header_commits r t d ct s1 s2 e :
  dhr r ≠ Some d → skipped r !! skip_key d 0 = None →
  0 ≤ nr r ≤ counter_limit → length d = 32%nat → (32 ≤ length t)%nat →
  x25519_ecdh (dhs r) d = Ok s1 → x25519_ecdh (take 32 t) d = Ok s2 →
  (decrypt (encodeMessage (Header (Some d) 0 0) (Some ct)) (r, t)).1 = Err e →
  let r' := (decrypt (encodeMessage (Header (Some d) 0 0) (Some ct)) (r, t)).2.1 in
  dhr r' = Some d ∧ dhs r' = take 32 t ∧
  rk r' = (kdfRoot (kdfRoot (rk r) s1).1 s2).1 ∧
  cks r' = Some (kdfRoot (kdfRoot (rk r) s1).1 s2).2 ∧
  ckr r' = ck_next (Some (kdfRoot (rk r) s1).2) ∧ nr r' = 1 ∧ ns r' = 0.
Proof.
  intros Hd Hs Hn Hl Ht H1 H2. unfold decrypt, bindM, liftM.
  rewrite decode_encodeMessage by (unfold uint32; cbn; lia). cbn [fst snd sl].
  destruct (kdfRoot (rk r) s1) as [rk1 c0] eqn:E1.
  destruct (kdfRoot rk1 s2) as [rk2 c1] eqn:E2.
  rewrite (decrypt_message_new _ _ _ _ s1 rk1 c0 s2 rk2 c1) by (done || cbn; lia).
  intros _. cbn [fst snd dhr dhs rk cks ckr nr ns]. rewrite E2. split_and!; reflexivity.
Qed.

(** A repeated message costs the receiver a chain step.  The message the
    receiver read last, delivered again, is opened with the next message's
    key, and that key is gone afterwards whatever the outcome. *)
Theorem replay_consumes_next_key r t pub pn n ct :
  dhr r = Some pub → ckr r ≠ None → skipped r !! skip_key pub n = None →
  nr r = n + 1 → 0 ≤ n → nr r ≤ counter_limit → uint32 pn →
  decrypt (encodeMessage (Header (Some pub) pn n) (Some ct)) (r, t)
  = (aeadOpen (chainStep (ckr r)).1 ct (ad r ++ header_bytes (Header (Some pub) pn n)),
     (set_nr (nr r + 1) (set_ckr (ck_next (ckr r)) r), t)).
Proof.
  intros Hd Hc Hs Hn H0 Hlim Hp. unfold decrypt. unfold bindM, liftM at 1.
  rewrite decode_encodeMessage by (unfold uint32, counter_limit, maxSkip in *; cbn; lia).
  cbn [fst snd sl]. apply decrypt_message_behind; try assumption; cbn [h_N]; lia.
Qed.

(** C40: a responder that sends before it has received anything encrypts under
    a key anyone can compute: its sending chain is nil, so the first message
    key is HMAC-SHA256 of the octet 1 under the empty key, whatever secret
    X3DH agreed on. *)
Theorem responder_first_is_public sk spk ad pt :
  ∃ w h ct,
    (encrypt pt (newRatchetResponder sk spk ad)).1 = Ok w ∧
    decodeMessage w = Ok (h, Some ct) ∧
    aeadOpen (hmacSHA256 [] ["001"%byte]) ct (ad ++ header_bytes h) = Ok pt.
Proof.
  rewrite encrypt_spec. eexists _, _, _. split; [done|].
  split; [apply decode_encodeMessage; unfold uint32; cbn; lia|].
  rewrite aeadOpen_eq. apply gcm_open_seal.
Qed.
End desync.

(** ** Concrete runs *)

Import ToyCurves.

(** On one chain, with nothing lost, delivering the first message twice
      makes the second, genuine message undecryptable. *)
Theorem replay_breaks_next :
  map is_ok (decrypt_all [toy_ws !!! 0%nat; toy_ws !!! 0%nat; toy_ws !!! 1%nat] (toy_Y, [])).1
  = [true; false; false].
Proof. vm_compute. reflexivity. Qed.

Definition forged : bytes :=
  encodeMessage (Header (Some (x25519_pub (be_bytes 32 1))) 0 0) (Some (bs "not a ciphertext")).

(** After one forged message the peer's genuine messages no longer decrypt. *)
Theorem forged_breaks_next :
  map is_ok (decrypt_all [toy_ws !!! 0%nat; forged; toy_ws !!! 1%nat] (toy_Y, be_bytes 64 9)).1
  = [true; false; false].
Proof. vm_compute. reflexivity. Qed.

Definition toy_d : bytes := x25519_pub (be_bytes 32 1).
Definition toy_secret (k : bytes) : bytes := ignore_err (x25519_ecdh k toy_d).

Lemma forged_header_commits_witness :
  let r' := (decrypt (encodeMessage (Header (Some toy_d) 0 0) (Some [])) (toy_Y, be_bytes 64 9)).2.1 in
  (decrypt (encodeMessage (Header (Some toy_d) 0 0) (Some [])) (toy_Y, be_bytes 64 9)).1
    = Err (bs "cipher: message authentication failed") ∧
  dhr r' = Some toy_d.
Proof.
  intros r'.
  assert ((decrypt (encodeMessage (Header (Some toy_d) 0 0) (Some [])) (toy_Y, be_bytes 64 9)).1
    = Err (bs "cipher: message authentication failed")) as E by (vm_compute; reflexivity).
  refine (conj E (proj1 (forged_header_commits toy_Y (be_bytes 64 9) toy_d []
    (toy_secret (dhs toy_Y)) (toy_secret (take 32 (be_bytes 64 9))) _ _ _ _ _ _ _ _ E))).
  - vm_compute. discriminate.
  - vm_compute. reflexivity.
  - unfold counter_limit, maxSkip. cbn. lia.
  - vm_compute. reflexivity.
  - vm_compute. lia.
  - vm_compute. reflexivity.
  - vm_compute. reflexivity.
Defined.

Lemma replay_consumes_next_key_witness :
  nr (decrypt (encodeMessage (Header (Some (x25519_pub (be_bytes 32 3))) 0 0) (Some []))
        (set_nr 1 toy_Y, [])).2.1 = 2.
Proof.
  rewrite (replay_consumes_next_key (set_nr 1 toy_Y) [] (x25519_pub (be_bytes 32 3)) 0 0 []).
  - reflexivity.
  - reflexivity.
  - discriminate.
  - reflexivity.
  - reflexivity.
  - lia.
  - unfold counter_limit, maxSkip. cbn. lia.
  - unfold uint32. lia.
Defined.
