(* ===== verification/Session.v ===== *)
(** * Sessions ([pkg/crypto/session.go])

    The in-memory session store: X3DH, the ratchets it starts and the table of
    sessions by peer fingerprint.  A [*ratchetSession] is shared by the table
    and by whoever holds the session, so sessions live in a heap and are
    referred to by their address. *)

From S2P Require Import Prelude Bytes Sha2 Gcm Encoding Kdf Curve Identity X3dh Ratchet Conversation.
Open Scope Z_scope.

(** ** The code *)

Record Handshake := MkHandshake {
  hs_IdentitySign : slice;
  hs_IdentityDH : slice;
  hs_Ephemeral : slice;
  hs_UsedOTP : bool;
}.

Record ratchetSession := MkSession {
  s_r : ratchet;
  s_peerFP : bytes;
  s_peerSig : bytes;
}.

Definition addr : Type := nat.

Record memStore := MkStore {
  ms_local : Identity;
  ms_pre : option PreKeys;
  ms_sessions : gmap bytes addr;
  ms_heap : list ratchetSession;
}.

(** [associatedData]: both identity keys, in ascending order. *)
Definition associatedData (a b : bytes) : bytes :=
  if bytes_leb a b then a ++ b else b ++ a.

(** [NewMemStore]. *)
Definition NewMemStore (local : Identity) (pre : option PreKeys) : memStore :=
  MkStore local pre ∅ [].

(** [memStore.Get]. *)
Definition Get (m : memStore) (peerFP : bytes) : option addr := ms_sessions m !! peerFP.

(** [&ratchetSession{...}] and the registration under its fingerprint. *)
Definition register (s : ratchetSession) : M memStore addr := λ m,
  (Ok (length (ms_heap m)),
   MkStore (ms_local m) (ms_pre m) (<[s_peerFP s := length (ms_heap m)]> (ms_sessions m))
           (ms_heap m ++ [s])).

Section session.
Context `{Curves}.

(** [memStore.Initiate]. *)
Definition Initiate (bundle : PreKeyBundle) : M (memStore * tape) (addr * Handshake) :=
  let* m := on_fst getM in
  let* x := on_snd (x3dhInitiate (ms_local m) bundle) in
  let '(sk, ephPub, usedOTP) := x in
  let ad := associatedData (SigningPub (ms_local m)) (b_IdentitySign bundle) in
  let* r := on_snd (newRatchetInitiator sk (b_SignedPreKey bundle) ad) in
  let* p := on_fst (register (MkSession r (Fingerprint (b_IdentitySign bundle)) (b_IdentitySign bundle))) in
  retM (p, MkHandshake (Some (SigningPub (ms_local m))) (Some (AgreementPub (ms_local m)))
                       (Some ephPub) usedOTP).

(** [memStore.Accept]. *)
Definition Accept (hs : Handshake) : M memStore addr :=
  let* m := getM in
  match ms_pre m with
  | None => failM (bs "crypto: no prekeys to accept handshake")
  | Some pre =>
    let* sk := liftM (x3dhRespond pre (sl (hs_IdentityDH hs)) (sl (hs_Ephemeral hs)) (hs_UsedOTP hs)) in
    let ad := associatedData (SigningPub (ms_local m)) (sl (hs_IdentitySign hs)) in
    let r := newRatchetResponder sk (signedPre pre) ad in
    register (MkSession r (Fingerprint (sl (hs_IdentitySign hs))) (sl (hs_IdentitySign hs)))
  end.

(** A method of the session at an address of the heap, which is never freed. *)
Definition at_session {A} (p : addr) (f : M (ratchet * tape) A) : M (memStore * tape) A := λ '(m, t),
  match ms_heap m !! p with
  | None => (Err (bs "invalid memory address or nil pointer dereference"), (m, t))
  | Some s =>
    let '(res, (r, t)) := f (s_r s, t) in
    (res, (MkStore (ms_local m) (ms_pre m) (ms_sessions m)
             (<[p := MkSession r (s_peerFP s) (s_peerSig s)]> (ms_heap m)), t))
  end.

(** [ratchetSession.Encrypt], [Decrypt] and [PeerFingerprint]. *)
Definition session_Encrypt (p : addr) (plaintext : bytes) : M (memStore * tape) bytes :=
  at_session p (on_fst (encrypt plaintext)).
Definition session_Decrypt (p : addr) (ciphertext : bytes) : M (memStore * tape) bytes :=
  at_session p (decrypt ciphertext).
Definition PeerFingerprint (m : memStore) (p : addr) : bytes :=
  match ms_heap m !! p with Some s => s_peerFP s | None => [] end.
End session.

(** ** Lemmas *)

Lemma associatedData_comm a b : associatedData a b = associatedData b a.
Proof.
  unfold associatedData. destruct (bytes_leb a b) eqn:E1, (bytes_leb b a) eqn:E2; try done.
  - by rewrite (bytes_leb_antisym a b).
  - by rewrite (bytes_leb_total a b) in E2.
Qed.

Lemma lookup_snoc_snoc {A} (l : list A) (x y : A) :
  ((l ++ [x]) ++ [y]) !! length l = Some x ∧ ((l ++ [x]) ++ [y]) !! S (length l) = Some y.
Proof. induction l; cbn; [done|]. apply IHl. Qed.

Section establish.
Context `{CurveLaws}.

(** The state both stores are in once [Initiate]'s handshake was accepted. *)
Record established (mA mB : memStore) (pA pB : addr) (preB : PreKeys) (a b : ratchet) : Prop := {
  es_A : ms_heap mA !! pA = Some (MkSession a (Fingerprint (SigningPub (pk_id preB))) (SigningPub (pk_id preB)));
  es_B : ms_heap mB !! pB = Some (MkSession b (Fingerprint (SigningPub (ms_local mA))) (SigningPub (ms_local mA)));
  es_getA : Get mA (Fingerprint (SigningPub (pk_id preB))) = Some pA;
  es_getB : Get mB (Fingerprint (SigningPub (ms_local mA))) = Some pB;
  es_lead : Lead a b [] [] [] [];
  es_ad : ad a = associatedData (SigningPub (ms_local mA)) (SigningPub (pk_id preB));
  es_ns : ns a = 0 ∧ ns b = 0;
  es_key : dhs b = signedPre preB;
}.

Lemma newRatchetInitiator_total sk spk ad t :
  (32 ≤ length t)%nat →
  ∃ a, newRatchetInitiator sk (x25519_pub spk) ad t = (Ok a, drop 32 t) ∧
       Ratchet.ad a = ad ∧ ns a = 0 ∧ dhs a = take 32 t.
Proof.
  intros Ht. unfold newRatchetInitiator, ecdh_generate. run_M. rewrite rand_read_enough by done.
  unfold dh. rewrite ecdh_new_public_pub. cbn [bindR dhs].
  destruct (x25519_agree (take 32 t) spk) as (s & -> & _).
  destruct (kdfRoot sk s) as [rk1 c0]. eauto.
Qed.

Lemma lookup_register m s : ms_heap (register s m).2 !! length (ms_heap m) = Some s.
Proof. cbn. by rewrite lookup_app_r, Nat.sub_diag by done. Qed.

(** A handshake made for a bundle is accepted by every store that holds the
    bundle's prekeys. *)
Lemma Initiate_accepted mA preB t :
  wf_prekeys preB → (64 ≤ length t)%nat →
  ∃ pA hs mA' a b,
    Initiate (Bundle preB) (mA, t) = (Ok (pA, hs), (mA', drop 32 (drop 32 t))) ∧
    ms_local mA' = ms_local mA ∧ dhs a = take 32 (drop 32 t) ∧
    ∀ mB, ms_pre mB = Some preB → ms_local mB = pk_id preB → ∃ pB mB',
      Accept hs mB = (Ok pB, mB') ∧ established mA' mB' pA pB preB a b ∧
      ms_pre mB' = ms_pre mB ∧ ms_local mB' = ms_local mB.
Proof.
  intros Hwf Ht.
  destruct (x3dhInitiate_Bundle (ms_local mA) preB t) as (sk & Hi & Hr); [done|lia|].
  destruct (newRatchetInitiator_total sk (signedPre preB)
    (associatedData (SigningPub (ms_local mA)) (SigningPub (pk_id preB))) (drop 32 t))
    as (a & Ha & Had & Hns & Hd); [rewrite length_drop; lia|].
  unfold Initiate. run_M. rewrite Hi.
  unfold Bundle at 1 2. cbn [b_SignedPreKey b_IdentitySign]. rewrite Ha.
  eexists _, _, _, a, (newRatchetResponder sk (signedPre preB)
    (associatedData (SigningPub (pk_id preB)) (SigningPub (ms_local mA)))).
  split; [reflexivity|]. split; [reflexivity|]. split; [exact Hd|]. intros mB Hpre Hloc.
  unfold Accept. run_M. cbn [hs_IdentityDH hs_Ephemeral hs_UsedOTP hs_IdentitySign sl].
  rewrite Hpre, Hr, Hloc. eexists _, _. split; [reflexivity|]. split; [|by split].
  split; cbn [register fst snd ms_local].
  - apply (lookup_register mA).
  - apply (lookup_register mB).
  - unfold Get. cbn. by rewrite lookup_insert_eq.
  - unfold Get. cbn. by rewrite lookup_insert_eq.
  - rewrite associatedData_comm. by eapply Lead_start.
  - done.
  - done.
  - done.
Qed.

Lemma Initiate_Accept mA mB preB t :
  wf_prekeys preB → ms_pre mB = Some preB → ms_local mB = pk_id preB → (64 ≤ length t)%nat →
  ∃ pA hs mA' pB mB' a b,
    Initiate (Bundle preB) (mA, t) = (Ok (pA, hs), (mA', drop 32 (drop 32 t))) ∧
    Accept hs mB = (Ok pB, mB') ∧
    ms_local mA' = ms_local mA ∧ dhs a = take 32 (drop 32 t) ∧
    established mA' mB' pA pB preB a b.
Proof.
  intros Hwf Hpre Hloc Ht.
  destruct (Initiate_accepted mA preB t Hwf Ht) as (pA & hs & mA' & a & b & Hi & Hl & Hd & HB).
  destruct (HB mB Hpre Hloc) as (pB & mB' & Ha & Hest & _). by exists pA, hs, mA', pB, mB', a, b.
Qed.
End establish.

(** ** What the handshake establishes *)

Section properties.
Context `{CurveLaws}.

(** [Initiate] against a published bundle and [Accept] of the resulting
    handshake give the two stores a session each, registered under the other
    party's fingerprint, and every later interleaving of [Encrypt] and
    [Decrypt] on the two sessions delivers in order and without loss. *)
Theorem handshake_conversation mA mB preB t :
  wf_prekeys preB → ms_pre mB = Some preB → ms_local mB = pk_id preB → (64 ≤ length t)%nat →
  ∃ pA hs mA' pB mB' sA sB,
    Initiate (Bundle preB) (mA, t) = (Ok (pA, hs), (mA', drop 32 (drop 32 t))) ∧
    Accept hs mB = (Ok pB, mB') ∧
    ms_heap mA' !! pA = Some sA ∧ Get mA' (Fingerprint (SigningPub (ms_local mB))) = Some pA ∧
    ms_heap mB' !! pB = Some sB ∧ Get mB' (Fingerprint (SigningPub (ms_local mA))) = Some pB ∧
    ∀ n, rtc step (start (s_r sA) (s_r sB)) n → in_order n.
Proof.
  intros Hwf Hpre Hloc Ht.
  destruct (Initiate_Accept mA mB preB t) as (pA & hs & mA' & pB & mB' & a & b & Hi & Ha & Hl & _ & [] );
    [done..|].
  rewrite Hl, Hloc in *. exists pA, hs, mA', pB, mB'. eexists _, _. split_and!; try eassumption.
  intros n. by apply Lead_in_order.
Qed.

(** C37: [Accept] believes the identity a handshake claims.  For any public
    key [V], a party that knows only its own agreement key [k] - no private
    key of [V] - gets the victim's store to register a working session under
    [V]'s fingerprint: the session is the one [V] would have, and the party
    can converse over it. *)
Theorem Accept_trusts_claimed_key V k mB preB t :
  wf_prekeys preB → ms_pre mB = Some preB → ms_local mB = pk_id preB → (64 ≤ length t)%nat →
  ∃ pA hs mA' pB mB' sA sB,
    Initiate (Bundle preB) (NewMemStore (MkIdentity V [] k) None, t)
      = (Ok (pA, hs), (mA', drop 32 (drop 32 t))) ∧
    Accept hs mB = (Ok pB, mB') ∧
    ms_heap mA' !! pA = Some sA ∧ ms_heap mB' !! pB = Some sB ∧
    PeerFingerprint mB' pB = Fingerprint V ∧ s_peerSig sB = V ∧
    ∀ n, rtc step (start (s_r sA) (s_r sB)) n → in_order n.
Proof.
  intros Hwf Hpre Hloc Ht.
  destruct (Initiate_Accept (NewMemStore (MkIdentity V [] k) None) mB preB t)
    as (pA & hs & mA' & pB & mB' & a & b & Hi & Ha & Hl & _ & [] ); [done..|].
  rewrite Hl in *. exists pA, hs, mA', pB, mB'. eexists _, _. split_and!; try eassumption; try reflexivity.
  - unfold PeerFingerprint. by rewrite es_B0.
  - intros n. by apply Lead_in_order.
Qed.

(** Prekeys are never consumed.  A handshake that was accepted once is
    accepted again: the store makes a second session with the very ratchet
    the first one started from, and the fingerprint now leads to it. *)
Theorem Accept_replay hs m p m' :
  Accept hs m = (Ok p, m') →
  ∃ s m2, Accept hs m' = (Ok (S p), m2) ∧
    ms_heap m' !! p = Some s ∧ ms_heap m2 !! p = Some s ∧ ms_heap m2 !! S p = Some s ∧
    Get m2 (s_peerFP s) = Some (S p).
Proof.
  unfold Accept. run_M. destruct (ms_pre m) as [pre|] eqn:E; [|done].
  destruct (x3dhRespond pre _ _ _) as [sk|e] eqn:Ex; [|done].
  intros [= <- <-]. cbn [ms_pre ms_local ms_heap ms_sessions register]. rewrite E, Ex.
  eexists _, _. split; [unfold register; cbn; by rewrite length_app, Nat.add_1_r|].
  cbn [snd fst ms_heap ms_sessions s_peerFP]. split_and!.
  - by rewrite lookup_app_r, Nat.sub_diag by done.
  - apply (lookup_snoc_snoc (ms_heap m)).
  - apply (lookup_snoc_snoc (ms_heap m)).
  - unfold Get. cbn [ms_sessions]. by rewrite lookup_insert_eq, ?length_app, ?Nat.add_1_r.
Qed.

(** A bundle whose signed prekey is not signed by the identity key it
    names starts nothing: [Initiate] fails, and neither the sessions nor the
    source of randomness has changed. *)
Theorem Initiate_bad_signature bundle m t :
  Verify (b_IdentitySign bundle) (b_SignedPreKey bundle) (b_SignedPreKeySig bundle) = false →
  Initiate bundle (m, t) = (Err (bs "crypto: bad signed prekey signature"), (m, t)).
Proof. intros E. unfold Initiate. run_M. by rewrite x3dhInitiate_bad_signature. Qed.

(** The associated data is the same on both sides and names exactly the
    two identities: it is symmetric, and it determines the pair of 32-octet
    keys up to order. *)
Theorem associatedData_binds a b c d :
  length a = 32%nat → length b = 32%nat → length c = 32%nat → length d = 32%nat →
  associatedData a b = associatedData c d ↔ (a = c ∧ b = d) ∨ (a = d ∧ b = c).
Proof.
  intros Ha Hb Hc Hd. split.
  - unfold associatedData.
    destruct (bytes_leb a b), (bytes_leb c d); intros [-> ->]%app_inj_1; auto; congruence.
  - intros [[-> ->]|[-> ->]]; [done|apply associatedData_comm].
Qed.
End properties.

(** ** Instances *)

Import ToyCurves.

Module Toy.
Definition id_of (seed k : Z) : Identity :=
  MkIdentity (ed25519_pub (be_bytes 32 seed)) (be_bytes 32 seed ++ ed25519_pub (be_bytes 32 seed))
             (be_bytes 32 k).
Definition bob : Identity := id_of 1 2.
Definition pre : PreKeys :=
  MkPreKeys bob (be_bytes 32 3) (ed25519_sign (SigningPriv bob) (x25519_pub (be_bytes 32 3))) (be_bytes 32 4).
Definition alice_store : memStore := NewMemStore (id_of 5 6) None.
Definition bob_store : memStore := NewMemStore bob (Some pre).
Definition hs : Handshake :=
  match (Initiate (Bundle pre) (alice_store, be_bytes 64 7)).1 with
  | Ok (_, hs) => hs | Err _ => MkHandshake None None None false
  end.

Lemma pre_wf : wf_prekeys pre.
Proof.
  split.
  - split; [|done]. exists (be_bytes 32 1). by split_and!.
  - apply Sign_wf. split; [|done]. exists (be_bytes 32 1). by split_and!.
Qed.
End Toy.

Lemma handshake_conversation_witness :
  wf_prekeys Toy.pre ∧ ∃ pA hs mA' pB mB' sA sB,
    Initiate (Bundle Toy.pre) (Toy.alice_store, be_bytes 64 7)
      = (Ok (pA, hs), (mA', drop 32 (drop 32 (be_bytes 64 7)))) ∧
    Accept hs Toy.bob_store = (Ok pB, mB') ∧
    ms_heap mA' !! pA = Some sA ∧ Get mA' (Fingerprint (SigningPub (ms_local Toy.bob_store))) = Some pA ∧
    ms_heap mB' !! pB = Some sB ∧ Get mB' (Fingerprint (SigningPub (ms_local Toy.alice_store))) = Some pB ∧
    ∀ n, rtc step (start (s_r sA) (s_r sB)) n → in_order n.
Proof.
  split; [exact Toy.pre_wf|].
  apply (handshake_conversation Toy.alice_store Toy.bob_store Toy.pre (be_bytes 64 7));
    [exact Toy.pre_wf|reflexivity|reflexivity|rewrite length_be_bytes; lia].
Defined.

Lemma Accept_trusts_claimed_key_witness :
  ∃ pA hs mA' pB mB' sA sB,
    Initiate (Bundle Toy.pre) (NewMemStore (MkIdentity (ed25519_pub (be_bytes 32 9)) [] (be_bytes 32 8)) None, be_bytes 64 7)
      = (Ok (pA, hs), (mA', drop 32 (drop 32 (be_bytes 64 7)))) ∧
    Accept hs Toy.bob_store = (Ok pB, mB') ∧
    ms_heap mA' !! pA = Some sA ∧ ms_heap mB' !! pB = Some sB ∧
    PeerFingerprint mB' pB = Fingerprint (ed25519_pub (be_bytes 32 9)) ∧
    s_peerSig sB = ed25519_pub (be_bytes 32 9) ∧
    ∀ n, rtc step (start (s_r sA) (s_r sB)) n → in_order n.
Proof.
  apply (Accept_trusts_claimed_key (ed25519_pub (be_bytes 32 9)) (be_bytes 32 8) Toy.bob_store Toy.pre (be_bytes 64 7));
    [exact Toy.pre_wf|reflexivity|reflexivity|rewrite length_be_bytes; lia].
Defined.

Lemma Accept_replay_witness :
  ∃ s m2, Accept Toy.hs (Accept Toy.hs Toy.bob_store).2 = (Ok 1%nat, m2) ∧
    ms_heap (Accept Toy.hs Toy.bob_store).2 !! 0%nat = Some s ∧
    ms_heap m2 !! 0%nat = Some s ∧ ms_heap m2 !! 1%nat = Some s ∧ Get m2 (s_peerFP s) = Some 1%nat.
Proof.
  apply (Accept_replay Toy.hs Toy.bob_store 0%nat). vm_compute. reflexivity.
Defined.

Lemma Initiate_bad_signature_witness :
  Initiate (MkBundle (SigningPub Toy.bob) [] [] [] []) (Toy.alice_store, [])
  = (Err (bs "crypto: bad signed prekey signature"), (Toy.alice_store, [])).
Proof. apply Initiate_bad_signature. vm_compute. reflexivity. Defined.

Lemma associatedData_binds_witness :
  associatedData (be_bytes 32 1) (be_bytes 32 2) = associatedData (be_bytes 32 2) (be_bytes 32 1).
Proof. apply associatedData_binds; [apply length_be_bytes..|]. by right. Defined.
