(* ===== verification/WellTyped.v ===== *)
(** * The types of a session store ([pkg/crypto])

    What every session of a store looks like, whatever handshakes, bundles and
    messages it was given: keys of 32 octets, counters of 32 bits, an index of
    skipped keys that is one. *)

From S2P Require Import Prelude Bytes Sha2 Gcm Kdf Curve Identity X3dh Ratchet Conversation Session.
Open Scope Z_scope.

(** ** A ratchet *)

Definition key32 (b : bytes) : Prop := length b = 32%nat.
Definition chain_key (c : slice) : Prop := ∀ b, c = Some b → key32 b.

Record wf_ratchet (r : ratchet) : Prop := {
  wr_dhs : key32 (dhs r);
  wr_rk : key32 (rk r);
  wr_cks : chain_key (cks r);
  wr_ckr : chain_key (ckr r);
  wr_counters : uint32 (ns r) ∧ uint32 (nr r) ∧ uint32 (pn r);
  wr_skipped : ∀ k mk, skipped r !! k = Some mk → key32 mk ∧ ∃ d n, uint32 n ∧ k = skip_key d n;
}.

(** The associated data is the session's for good. *)
Definition typed (a : bytes) (r : ratchet) : Prop := wf_ratchet r ∧ ad r = a.

Lemma chain_key_mac k m : chain_key (Some (hmacSHA256 k m)).
Proof. intros b [= <-]. apply length_hmac. Qed.

Lemma kdfRoot_keys k o : key32 (kdfRoot k o).1 ∧ chain_key (Some (kdfRoot k o).2).
Proof.
  unfold kdfRoot, key32. cbn [fst snd]. split; [by rewrite length_take, length_hkdf|].
  intros b [= <-]. unfold key32. by rewrite length_drop, length_hkdf.
Qed.

Lemma uint32_w32 z : uint32 (w32 z).
Proof. apply w32_range. Qed.

Lemma uint32_0 : uint32 0.
Proof. split; [done|]. reflexivity. Qed.

#[local] Hint Resolve chain_key_mac uint32_w32 uint32_0 : stunner.

Lemma ecdh_generate_key t k t' : ecdh_generate t = (Ok k, t') → key32 k.
Proof. unfold ecdh_generate. intros (? & -> & _)%rand_read_Ok. unfold key32. rewrite length_take. lia. Qed.

Section ratchet.
Context `{Curves} (a : bytes).

(** The plumbing of an operation: one lemma for each construct. *)
Ltac keeps_step :=
  match goal with
  | |- keeps _ (bindM getM _) _ => eapply keeps_bind; [apply keeps_get|]
  | |- keeps _ (bindM (on_fst getM) _) _ => eapply keeps_bind; [apply keeps_fst, keeps_get|]
  | |- keeps _ (retM _) _ => by apply keeps_ret
  | |- keeps _ (failM _) _ => apply keeps_fail
  | |- keeps _ (liftM _) _ => by apply keeps_lift
  end.

Lemma skip_step_typed r : typed a r → typed a (skip_step r).
Proof.
  intros [[] Ha]. split; [|done].
  unfold skip_step, chainStep. split; cbn [dhs rk cks ckr ns nr pn skipped set_nr set_skipped set_ckr]; auto with stunner.
  - destruct wr_counters0 as (? & _ & ?). auto with stunner.
  - intros k mk [[<- <-]|[_ ?]]%lookup_insert_Some; [|by apply wr_skipped0].
    split; [apply length_hmac|]. eexists _, _. split; [|reflexivity]. apply wr_counters0.
Qed.

Lemma skip_typed until : keeps (typed a) (skip until) (λ _, True).
Proof.
  intros r Hr. unfold skip. run_M. destruct (ckr r); [|by split].
  destruct (_ <? _); [by split|]. split; [|done]. cbn [snd]. apply while_inv; [|done].
  intros s Hs _. by apply skip_step_typed.
Qed.

Lemma trySkipped_typed h ct : keeps (typed a) (trySkipped h ct) (λ _, True).
Proof.
  intros r Hr. unfold trySkipped. run_M. destruct (skipped r !! _) as [mk|]; [|by split].
  destruct (aeadOpen mk ct _); [|by split]. split; [|done]. cbn [snd].
  destruct Hr as [[] Ha]. split; [split; auto|done].
  cbn [skipped set_skipped]. intros k mk' [_ ?]%lookup_delete_Some. by apply wr_skipped0.
Qed.

Lemma encrypt_typed pt : keeps (typed a) (encrypt pt) (λ _, True).
Proof.
  intros r [[] Ha]. rewrite encrypt_spec. split; [|done]. cbn [snd]. split; [|done].
  split; cbn [dhs rk cks ckr ns nr pn skipped set_ns set_cks]; auto with stunner.
  - unfold ck_next, chainStep. cbn [snd]. auto with stunner.
  - destruct wr_counters0 as (_ & ? & ?). auto with stunner.
Qed.

Lemma dhRatchet_typed pub : keeps (λ s : ratchet * tape, typed a s.1) (dhRatchet pub) (λ _, True).
Proof.
  unfold dhRatchet.
  eapply keeps_bind with (Q := λ _, True).
  { apply keeps_fst, keeps_modify; [|done]. intros r [[] Ha]. split; [|done]. split; auto.
    cbn [ns nr pn set_dhr set_nr set_ns set_pn]. destruct wr_counters0 as (? & _). auto with stunner. }
  intros _ _. keeps_step. intros r _. cbv beta.
  eapply keeps_bind with (Q := λ _, True); [by apply keeps_lift|]. intros out _.
  eapply keeps_bind with (Q := λ _, True).
  { apply keeps_fst, keeps_modify; [|done]. intros r1 [[] Ha]. destruct (kdfRoot_keys (rk r1) out) as [? ?].
    destruct (kdfRoot (rk r1) out). split; [by split|done]. }
  intros _ _. eapply keeps_bind; [apply keeps_snd, ecdh_generate_key|]. intros k Hk.
  eapply keeps_bind with (Q := λ _, True).
  { apply keeps_fst, keeps_modify; [|done]. intros r1 [[] Ha]. split; [by split|done]. }
  intros _ _. keeps_step. intros r2 _. cbv beta.
  eapply keeps_bind with (Q := λ _, True); [by apply keeps_lift|]. intros out2 _.
  apply keeps_fst, keeps_modify; [|done]. intros r1 [[] Ha]. destruct (kdfRoot_keys (rk r1) out2) as [? ?].
  destruct (kdfRoot (rk r1) out2). split; [by split|done].
Qed.

Lemma decrypt_typed w : keeps (λ s : ratchet * tape, typed a s.1) (decrypt w) (λ _, True).
Proof.
  unfold decrypt. eapply keeps_bind with (Q := λ _, True); [by apply keeps_lift|]. intros [h ct] _.
  unfold decrypt_message. cbn [fst snd].
  eapply keeps_bind; [apply keeps_fst, trySkipped_typed|]. intros [pt used] _. cbn [snd].
  destruct used; [by apply keeps_ret|]. keeps_step. intros r _. cbv beta.
  eapply keeps_bind with (Q := λ _, True).
  { destruct (new_chain h r); [|by apply keeps_ret].
    eapply keeps_bind; [apply keeps_fst, skip_typed|]. intros _ _. apply dhRatchet_typed. }
  intros _ _. eapply keeps_bind; [apply keeps_fst, skip_typed|]. intros _ _.
  keeps_step. intros r2 _. cbv beta. unfold chainStep.
  eapply keeps_bind with (Q := λ _, True); [|intros; by apply keeps_lift].
  apply keeps_fst, keeps_modify; [|done]. intros r1 [[] Ha]. split; [|done].
  split; cbn [dhs rk cks ckr ns nr pn skipped set_nr set_ckr]; auto with stunner.
  destruct wr_counters0 as (? & _ & ?). auto with stunner.
Qed.
End ratchet.

(** ** A store *)

Record wf_store (local : Identity) (pre : option PreKeys) (m : memStore) : Prop := {
  ws_local : ms_local m = local;
  ws_pre : ms_pre m = pre;
  ws_heap : ∀ p s, ms_heap m !! p = Some s →
    typed (associatedData (SigningPub local) (s_peerSig s)) (s_r s) ∧ s_peerFP s = Fingerprint (s_peerSig s);
  ws_table : ∀ fp p, ms_sessions m !! fp = Some p → ∃ s, ms_heap m !! p = Some s ∧ s_peerFP s = fp;
}.

(** What can happen to a store; the arguments are the peers' choice. *)
Inductive store_op :=
  | DoInitiate (b : PreKeyBundle)
  | DoAccept (hs : Handshake)
  | DoEncrypt (p : addr) (pt : bytes)
  | DoDecrypt (p : addr) (w : bytes).

Section store.
Context `{Curves} (local : Identity) (pre : option PreKeys).

Definition store_do (o : store_op) (s : memStore * tape) : memStore * tape :=
  match o with
  | DoInitiate b => (Initiate b s).2
  | DoAccept hs => (on_fst (Accept hs) s).2
  | DoEncrypt p pt => (session_Encrypt p pt s).2
  | DoDecrypt p w => (session_Decrypt p w s).2
  end.

Definition store_run (os : list store_op) (s : memStore * tape) : memStore * tape := fold_left (λ s o, store_do o s) os s.

Abbreviation ok := (wf_store local pre).

Lemma newRatchetInitiator_typed sk pub a t r t' :
  newRatchetInitiator sk pub a t = (Ok r, t') → typed a r.
Proof.
  unfold newRatchetInitiator. run_M. destruct (ecdh_generate t) as [[k|e] t1] eqn:Eg; [|done].
  apply ecdh_generate_key in Eg. match goal with |- context [dh ?r0 pub] => destruct (dh r0 pub) as [out|e] end; [|done].
  destruct (kdfRoot_keys sk out) as [H1 H2]. destruct (kdfRoot sk out) as [rk0 cks0].
  intros [<-%Ok_inj _]%pair_equal_spec. split; [|done].
  split; cbn [dhs rk cks ckr ns nr pn skipped set_cks set_rk]; auto with stunner; [done|].
  intros k0 mk. by rewrite lookup_empty.
Qed.

Lemma newRatchetResponder_typed sk spk a : key32 sk → key32 spk → typed a (newRatchetResponder sk spk a).
Proof.
  intros. split; [|done]. split; cbn; auto with stunner; [done..|]. intros k0 mk. by rewrite lookup_empty.
Qed.

Lemma x3dhRespond_key p ik eph otp sk : x3dhRespond p ik eph otp = Ok sk → key32 sk.
Proof.
  unfold x3dhRespond. intros E. inv_ok. destruct otp; inv_ok; apply length_hkdf.
Qed.

Lemma register_ok s :
  typed (associatedData (SigningPub local) (s_peerSig s)) (s_r s) → s_peerFP s = Fingerprint (s_peerSig s) →
  keeps ok (register s) (λ _, True).
Proof.
  intros Ht Hf m []. split; [|done]. cbn [register snd]. split; cbn [ms_local ms_pre ms_heap ms_sessions]; [done..| |].
  - intros p s' [?|[_ [_ <-]%list_lookup_singleton_Some]]%lookup_app_Some; [by eapply ws_heap0|done].
  - intros fp p [[<- <-]|[_ Hp]]%lookup_insert_Some; [exists s; by rewrite lookup_app_r, Nat.sub_diag by done|].
    destruct (ws_table0 _ _ Hp) as (s' & Hs' & ?). exists s'. split; [by apply lookup_app_l_Some|done].
Qed.

Lemma Initiate_ok b : keeps (λ s : memStore * tape, ok s.1) (Initiate b) (λ _, True).
Proof.
  unfold Initiate. eapply keeps_bind; [apply keeps_fst, keeps_get|]. intros m Hm. cbv beta in Hm.
  eapply keeps_bind with (Q := λ _, True); [by apply keeps_snd|]. intros [[sk eph] otp] _.
  eapply keeps_bind; [apply keeps_snd, newRatchetInitiator_typed|]. intros r Hr. cbv beta in Hr.
  eapply keeps_bind with (Q := λ _, True); [|intros; by apply keeps_ret].
  apply keeps_fst, register_ok; [|done]. cbn [s_r s_peerSig]. by rewrite <-(ws_local _ _ _ Hm).
Qed.

Lemma Accept_ok hs : (∀ p, pre = Some p → key32 (signedPre p)) → keeps ok (Accept hs) (λ _, True).
Proof.
  intros Hpre. unfold Accept. eapply keeps_bind; [apply keeps_get|]. intros m [Hl Hp _ _]. rewrite Hp, Hl.
  destruct pre as [p|] eqn:Ep; [|apply keeps_fail]. rewrite <-Ep.
  eapply keeps_bind; [apply keeps_lift, x3dhRespond_key|]. intros sk Hsk. apply register_ok; [|done].
  cbn [s_r s_peerSig]. apply newRatchetResponder_typed; [done|by apply Hpre].
Qed.

Lemma at_session_ok {A} p (f : M (ratchet * tape) A) :
  (∀ a, keeps (λ s : ratchet * tape, typed a s.1) f (λ _, True)) →
  keeps (λ s : memStore * tape, ok s.1) (at_session p f) (λ _, True).
Proof.
  intros Hf [m t] Hm. unfold at_session. destruct (ms_heap m !! p) as [s|] eqn:Es; [|by split].
  destruct Hm as [Hl Hp Hh Ht]. destruct (Hh _ _ Es) as [Hr Hfp].
  pose proof (Hf _ (s_r s, t) Hr) as [Hr' _]. destruct (f (s_r s, t)) as [res [r t']]. split; [|done].
  cbn [fst snd] in *. split; cbn [ms_local ms_pre ms_heap ms_sessions]; [done..| |].
  - intros p' s' [(<- & <- & _)|[_ ?]]%list_lookup_insert_Some; [by split|by eapply Hh].
  - intros fp p' Hq. destruct (Ht _ _ Hq) as (s' & Hs' & Hfp'). destruct (decide (p' = p)) as [->|Hne].
    + eexists. split; [apply list_lookup_insert_eq; by eapply lookup_lt_Some|]. cbn. congruence.
    + exists s'. by rewrite list_lookup_insert_ne.
Qed.

Lemma store_run_ok os s : (∀ p, pre = Some p → key32 (signedPre p)) → ok s.1 → ok (store_run os s).1.
Proof.
  intros Hpre. revert s. induction os as [|o os IH]; intros s Hs; [done|]. apply IH.
  destruct o as [b|hs|p pt|p w]; unfold store_do.
  - by apply (Initiate_ok b s).
  - by apply (keeps_fst _ _ _ (Accept_ok hs Hpre) s).
  - apply (at_session_ok p (on_fst (encrypt pt))); [|done]. intros a. apply keeps_fst, encrypt_typed.
  - apply (at_session_ok p (decrypt w)); [|done]. intros a. apply decrypt_typed.
Qed.
End store.

Section properties.
Context `{CurveLaws}.

(** C14: a session store stays well typed.  Whatever bundles, handshakes,
    plaintexts and messages it is given - by peers who are not honest either -
    and whether the calls succeed or fail: every session has keys of 32
    octets, 32-bit counters, skipped keys under proper indices, and the
    associated data of the two identities it was made for; the table has each
    session under its own peer's fingerprint; and no session is stuck: what it
    encrypts next is a message that decodes, under a public key of 32 octets. *)
Theorem store_well_typed local pre os t :
  (∀ p, pre = Some p → key32 (signedPre p)) →
  let m := (store_run os (NewMemStore local pre, t)).1 in
  wf_store local pre m ∧
  (∀ fp p, Get m fp = Some p → PeerFingerprint m p = fp) ∧
  (∀ p s pt, ms_heap m !! p = Some s → ∃ ct h c,
     (encrypt pt (s_r s)).1 = Ok ct ∧ decodeMessage ct = Ok (h, c) ∧ key32 (sl (h_DH h))).
Proof.
  intros Hpre m. assert (wf_store local pre m) as Hm.
  { apply store_run_ok; [done|]. split; [done..| |]; intros ? ?; cbn; by rewrite ?lookup_nil, ?lookup_empty. }
  split; [done|]. clearbody m. split.
  - intros fp p (s & Hs & Hfp)%(ws_table _ _ _ Hm). unfold PeerFingerprint. by rewrite Hs.
  - intros p s pt Hs. destruct (ws_heap _ _ _ Hm _ _ Hs) as [[[? ? ? ? (H1 & H2 & H3) ?] _] _].
    rewrite encrypt_spec. eexists _, _, _. split; [reflexivity|]. unfold message. split; [by apply decode_encodeMessage|].
    apply length_x25519_pub.
Qed.
End properties.

Import ToyCurves.

(** A store that accepted a handshake, read a forged message and wrote one. *)
Lemma store_well_typed_witness :
  let os := [DoAccept (MkHandshake (Some (SigningPub Toy.bob)) (Some (be_bytes 32 3)) (Some (be_bytes 32 5)) true);
             DoDecrypt 0%nat (bs "x"); DoEncrypt 0%nat (bs "hi")] in
  let m := (store_run os (NewMemStore Toy.bob (Some Toy.pre), [])).1 in
  wf_store Toy.bob (Some Toy.pre) m ∧
  (∀ fp p, Get m fp = Some p → PeerFingerprint m p = fp) ∧
  (∀ p s pt, ms_heap m !! p = Some s → ∃ ct h c,
     (encrypt pt (s_r s)).1 = Ok ct ∧ decodeMessage ct = Ok (h, c) ∧ key32 (sl (h_DH h))).
Proof.
  intros os. apply (store_well_typed Toy.bob (Some Toy.pre) os []). intros p [= <-]. apply length_be_bytes.
Defined.
