(* ===== verification/Filetransfer.v ===== *)
(** * File transfer ([pkg/filetransfer], [SealFile]/[OpenFile] of [pkg/crypto])

    A file is cut into chunks sealed under a fresh key with counter nonces, and
    put together again in index order. *)

From stdpp Require Import sorting.
From S2P Require Import Prelude Bytes Sha2 Gcm Json Codec.
Open Scope Z_scope.

(** ** The code: sealing a chunk ([crypto.go]) *)

(** [fileGCM]: the key of the AEAD, once its size is checked. *)
Definition fileGCM (key : bytes) : result bytes :=
  if decide (length key ≠ 32%nat) then Err (bs "crypto: transfer key must be 32 bytes") else Ok key.

Definition SealFile (transferKey nonce plaintext : bytes) : result bytes :=
  let? gcm := fileGCM transferKey in
  if decide (length nonce ≠ gcm_nonce_size) then Err (bs "crypto: bad file nonce size")
  else Ok (gcm_seal gcm nonce plaintext []).

Definition OpenFile (transferKey nonce ciphertext : bytes) : result bytes :=
  let? gcm := fileGCM transferKey in
  if decide (length nonce ≠ gcm_nonce_size) then Err (bs "crypto: bad file nonce size")
  else gcm_open gcm nonce ciphertext [].

(** ** The code: [filetransfer.go], [impl.go] *)

Definition DefaultChunkSize : Z := 16 * 1024.

Record Offer := MkOffer {
  o_FileID : bytes;
  o_Name : bytes;
  o_Size : Z;
  o_MIME : bytes;
  o_ChunkSize : Z;
  o_Hash : slice;
  o_TransferKey : slice;
}.

Record Chunk := MkChunk { c_FileID : bytes; c_Index : Z; c_Data : slice }.

(** [nonceFor]: eight zero octets and the index. *)
Definition nonceFor (index : Z) : bytes := replicate 8 "000"%byte ++ be_bytes 4 index.

(** [newFileID]: two hex digits per octet. *)
Definition newFileID : M tape bytes :=
  let* b := rand_fill 12 in
  retM (flat_map (λ v, [hex_digit (Z.shiftr (Zb v) 4); hex_digit (Z.land (Zb v) 15)]) b).

(** [equalHash]: the differences are collected in one octet. *)
Definition equalHash (a b : bytes) : bool :=
  if decide (length a ≠ length b) then false
  else fold_left (λ diff '(x, y), Z.lor diff (Zb (byte_xor x y))) (zip a b) 0 =? 0.

(** The loop of [Split].  The offset grows on every turn, so the length of the
    data bounds the number of turns. *)
Fixpoint split_loop (fuel : nat) (fileID key data : bytes) (chunkSize : Z) (i off : Z)
    : result (list Chunk) :=
  match fuel with
  | O => Ok []
  | S fuel =>
    if off <? Z.of_nat (length data) then
      let end_ := off + chunkSize in
      let end_ := if Z.of_nat (length data) <? end_ then Z.of_nat (length data) else end_ in
      let? sealed := SealFile key (nonceFor i)
                       (take (Z.to_nat (end_ - off)) (drop (Z.to_nat off) data)) in
      let? chunks := split_loop fuel fileID key data chunkSize (w32 (i + 1)) end_ in
      Ok (MkChunk fileID i (Some sealed) :: chunks)
    else Ok []
  end.

(** [Split]. *)
Definition Split (name mime data : bytes) (chunkSize : Z) : M tape (Offer * list Chunk) :=
  let chunkSize := if chunkSize =? 0 then DefaultChunkSize else chunkSize in
  let* key := rand_read 32 in
  let sum := sha256 data in
  let* fileID := newFileID in
  let offer := MkOffer fileID name (w64 (Z.of_nat (length data))) mime chunkSize (Some sum) (Some key) in
  let* chunks := liftM (split_loop (length data) fileID key data chunkSize 0 0) in
  retM (offer, chunks).

Definition by_index (a b : Chunk) : Prop := c_Index a ≤ c_Index b.
#[global] Instance by_index_dec a b : Decision (by_index a b).
Proof. unfold by_index. apply _. Defined.

(** The loop of [Reassemble]: [i] counts the chunks seen. *)
Fixpoint reassemble_loop (offer : Offer) (i : Z) (ordered : list Chunk) (out : bytes) : result bytes :=
  match ordered with
  | [] => Ok out
  | c :: ordered =>
    if negb (c_Index c =? w32 i) then Err (bs "filetransfer: missing or duplicate chunk") else
    let? pt := OpenFile (sl (o_TransferKey offer)) (nonceFor (c_Index c)) (sl (c_Data c)) in
    reassemble_loop offer (i + 1) ordered (out ++ pt)
  end.

(** [Reassemble].  [sort.Slice] leaves chunks of equal index in some order;
    no result depends on it, because equal indices are an error. *)
Definition Reassemble (offer : Offer) (chunks : list Chunk) : result bytes :=
  let ordered := merge_sort by_index chunks in
  let? out := reassemble_loop offer 0 ordered [] in
  if negb (w64 (Z.of_nat (length out)) =? o_Size offer) then Err (bs "filetransfer: size mismatch") else
  if negb (equalHash (sha256 out) (sl (o_Hash offer)))
  then Err (bs "filetransfer: integrity check failed") else Ok out.

(** *** Their JSON *)

Definition enc_Offer (o : Offer) : json :=
  enc_struct [field_of "fileId" (enc_str (o_FileID o)); field_of "name" (enc_str (o_Name o));
              field_of "size" (enc_uint (o_Size o)); field_of "mime" (enc_str (o_MIME o));
              field_of "chunkSize" (enc_uint (o_ChunkSize o)); field_of "hash" (enc_slice (o_Hash o));
              field_of "transferKey" (enc_slice (o_TransferKey o))].

Definition zero_Offer : Offer := MkOffer [] [] 0 [] 0 None None.

Definition Offer_fields : list (field Offer) := [
  fld "fileId" o_FileID (λ v o, MkOffer v (o_Name o) (o_Size o) (o_MIME o) (o_ChunkSize o) (o_Hash o) (o_TransferKey o)) dec_str;
  fld "name" o_Name (λ v o, MkOffer (o_FileID o) v (o_Size o) (o_MIME o) (o_ChunkSize o) (o_Hash o) (o_TransferKey o)) dec_str;
  fld "size" o_Size (λ v o, MkOffer (o_FileID o) (o_Name o) v (o_MIME o) (o_ChunkSize o) (o_Hash o) (o_TransferKey o)) (dec_uint 64);
  fld "mime" o_MIME (λ v o, MkOffer (o_FileID o) (o_Name o) (o_Size o) v (o_ChunkSize o) (o_Hash o) (o_TransferKey o)) dec_str;
  fld "chunkSize" o_ChunkSize (λ v o, MkOffer (o_FileID o) (o_Name o) (o_Size o) (o_MIME o) v (o_Hash o) (o_TransferKey o)) (dec_uint 32);
  fld "hash" o_Hash (λ v o, MkOffer (o_FileID o) (o_Name o) (o_Size o) (o_MIME o) (o_ChunkSize o) v (o_TransferKey o)) dec_slice;
  fld "transferKey" o_TransferKey (λ v o, MkOffer (o_FileID o) (o_Name o) (o_Size o) (o_MIME o) (o_ChunkSize o) (o_Hash o) v) dec_slice].

Definition enc_Chunk (c : Chunk) : json :=
  enc_struct [field_of "fileId" (enc_str (c_FileID c)); field_of "index" (enc_uint (c_Index c));
              field_of "data" (enc_slice (c_Data c))].

Definition zero_Chunk : Chunk := MkChunk [] 0 None.

Definition Chunk_fields : list (field Chunk) := [
  fld "fileId" c_FileID (λ v c, MkChunk v (c_Index c) (c_Data c)) dec_str;
  fld "index" c_Index (λ v c, MkChunk (c_FileID c) v (c_Data c)) (dec_uint 32);
  fld "data" c_Data (λ v c, MkChunk (c_FileID c) (c_Index c) v) dec_slice].

(** ** Lemmas *)

Lemma length_nonceFor i : length (nonceFor i) = gcm_nonce_size.
Proof. unfold nonceFor. by rewrite length_app, length_replicate, length_be_bytes. Qed.

Lemma SealFile_Ok key i pt :
  length key = 32%nat → SealFile key (nonceFor i) pt = Ok (gcm_seal key (nonceFor i) pt []).
Proof.
  intros Hk. unfold SealFile, fileGCM. rewrite decide_False by (by rewrite Hk; intros []).
  cbn [bindR]. by rewrite decide_False by (by rewrite length_nonceFor; intros []).
Qed.

Lemma OpenFile_SealFile key nonce pt ct :
  SealFile key nonce pt = Ok ct → OpenFile key nonce ct = Ok pt.
Proof.
  unfold SealFile, OpenFile, fileGCM. case_decide; [discriminate|]. cbn [bindR].
  case_decide; [discriminate|]. intros <-%Ok_inj. apply gcm_open_seal.
Qed.

Lemma equalHash_spec a b : equalHash a b = true ↔ a = b.
Proof.
  unfold equalHash. case_decide as Hl.
  { split; [done|by intros ->]. }
  assert (length a = length b) as Hl' by (by destruct (decide (length a = length b))). clear Hl.
  assert (∀ d, fold_left (λ diff '(x, y), Z.lor diff (Zb (byte_xor x y))) (zip a b) d = 0 ↔ d = 0 ∧ a = b) as H.
  { revert b Hl'. induction a as [|x a IH]; intros [|y b] Hl d; try done; cbn [zip zip_with fold_left].
    - tauto.
    - injection Hl as Hl. rewrite IH by done. rewrite Z.lor_eq_0_iff, byte_xor_eq_0.
      split; [by intros [[-> ->] ->]|by intros [-> [= -> ->]]]. }
  rewrite Z.eqb_eq, H. tauto.
Qed.

(** The chunks of the pieces of a file, from index [i]. *)
Fixpoint seal_from (fileID key : bytes) (i : Z) (ps : list bytes) : list Chunk :=
  match ps with
  | [] => []
  | p :: ps => MkChunk fileID i (Some (gcm_seal key (nonceFor i) p [])) :: seal_from fileID key (i + 1) ps
  end.

Lemma length_seal_from fid key i ps : length (seal_from fid key i ps) = length ps.
Proof. revert i. induction ps; intros i; cbn; [done|by rewrite IHps]. Qed.

Lemma index_seal_from fid key i ps :
  map c_Index (seal_from fid key i ps) = seqZ i (Z.of_nat (length ps)).
Proof.
  revert i. induction ps as [|p ps IH]; intros i; [done|]. cbn [seal_from map length c_Index].
  rewrite seqZ_cons by lia. rewrite IH. do 2 f_equal; lia.
Qed.

(** The pieces a file of more than [off] octets is cut into. *)
Definition pieces (n : Z) (data : bytes) : list bytes := chunks (length data) (Z.to_nat n) data.

Lemma chunks_fuel {A} f1 f2 n (l : list A) :
  (0 < n)%nat → (length l ≤ f1)%nat → (length l ≤ f2)%nat → chunks f1 n l = chunks f2 n l.
Proof.
  intros Hn. revert f2 l. induction f1 as [|f1 IH]; intros f2 l H1 H2.
  - destruct l; [|cbn in *; lia]. by destruct f2.
  - destruct l as [|x l]; [by destruct f2|]. destruct f2 as [|f2]; [cbn in *; lia|]. cbn [chunks].
    f_equal. apply IH; rewrite length_drop; cbn in *; lia.
Qed.

Lemma concat_chunks {A} f n (l : list A) :
  (0 < n)%nat → (length l ≤ f)%nat → concat (chunks f n l) = l.
Proof.
  intros Hn. revert l. induction f as [|f IH]; intros l Hl.
  - by destruct l; [|cbn in *; lia].
  - destruct l as [|x l]; [done|]. cbn [chunks concat].
    rewrite IH by (rewrite length_drop; cbn in *; lia). by rewrite take_drop.
Qed.

(** How many pieces there are. *)
Lemma length_chunks {A} f n (l : list A) :
  (0 < n)%nat → (length l ≤ f)%nat → length (chunks f n l) = ((length l + n - 1) / n)%nat.
Proof.
  intros Hn. revert l. induction f as [|f IH]; intros l Hl.
  - destruct l; [|cbn in *; lia]. cbn. symmetry. apply Nat.div_small. lia.
  - destruct l as [|x l]; [cbn; symmetry; apply Nat.div_small; lia|]. cbn [chunks length].
    rewrite IH by (rewrite length_drop; cbn in *; lia). rewrite length_drop. cbn [length].
    destruct (decide (S (length l) ≤ n)%nat) as [Hle|Hgt].
    + replace (S (length l) - n + n - 1)%nat with (n - 1)%nat by lia.
      rewrite (Nat.div_small (n - 1)) by lia.
      replace (S (length l) + n - 1)%nat with (length l + 1 * n)%nat by lia.
      rewrite Nat.div_add, Nat.div_small by lia. done.
    + replace (S (length l) + n - 1)%nat with (S (length l) - n + n - 1 + 1 * n)%nat by lia.
      rewrite Nat.div_add by lia. lia.
Qed.

Lemma split_loop_end fuel fid key data cs i off :
  0 ≤ off → drop (Z.to_nat off) data = [] → split_loop fuel fid key data cs i off = Ok [].
Proof.
  intros Hoff E. destruct fuel; [done|]. cbn [split_loop].
  apply (f_equal length) in E. rewrite length_drop in E. cbn in E.
  by rewrite (proj2 (Z.ltb_ge _ _)) by lia.
Qed.

Lemma newFileID_total t : ∃ fid, newFileID t = (Ok fid, drop 12 t) ∧ valid_utf8 fid = true.
Proof.
  unfold newFileID, rand_fill. run_M. eexists. split; [done|].
  rewrite <-(valid_utf8_hex (take 12 t ++ replicate (12 - length t) "000"%byte)). f_equal.
  unfold hex_encode. rewrite !flat_map_concat_map. f_equal. apply map_ext. intros b.
  by rewrite Z.shiftr_div_pow2, (Z.land_ones _ 4) by lia.
Qed.

(** Whatever the size of the data, the chunks are as many as it takes to hold
    it, and their indices count up, in 32 bits. *)
Definition numbered (i : Z) (l : list Chunk) : Prop := map c_Index l = map w32 (seqZ i (Z.of_nat (length l))).

Lemma split_loop_shape fuel fid key data cs : ∀ i off l,
  0 < cs → 0 ≤ i → Z.of_nat (length data) - off ≤ Z.of_nat fuel →
  split_loop fuel fid key data cs (w32 i) off = Ok l →
  numbered i l ∧ Forall (λ c, c_FileID c = fid) l ∧ Z.of_nat (length data) - off ≤ cs * Z.of_nat (length l) ∧
  (l = [] ∨ cs * (Z.of_nat (length l) - 1) < Z.of_nat (length data) - off).
Proof.
  induction fuel as [|fuel IH]; intros i off l Hcs Hi Hf; cbn [split_loop].
  { intros <-%Ok_inj. split_and!; [done|constructor|cbn; lia|by left]. }
  destruct (Z.ltb_spec off (Z.of_nat (length data))) as [Hlt|Hge].
  2: { intros <-%Ok_inj. split_and!; [done|constructor|cbn; lia|by left]. }
  destruct (SealFile _ _ _) as [sealed|]; [|done]. cbn [bindR].
  set (e := if _ <? _ then _ else _).
  assert (off < e ≤ off + cs ∧ (e = off + cs ∨ e = Z.of_nat (length data))) as [He1 He2]
    by (subst e; destruct (Z.ltb_spec (Z.of_nat (length data)) (off + cs)); lia).
  assert (w32 (w32 i + 1) = w32 (i + 1)) as -> by apply Zplus_mod_idemp_l.
  destruct (split_loop fuel fid key data cs (w32 (i + 1)) e) as [l'|] eqn:E; [|done]. cbn [bindR]. intros <-%Ok_inj.
  apply IH in E as (H1 & H2 & H3 & H4); [|lia..]. unfold numbered in *. cbn [map length c_Index]. split_and!.
  - rewrite seqZ_cons, H1 by lia. cbn [map]. do 3 f_equal; lia.
  - by constructor.
  - nia.
  - right. destruct H4 as [->|H4]; [cbn; lia|]. cbn [length]. rewrite Nat2Z.inj_succ.
    rewrite Z.mul_sub_distr_l in H4 |- *. destruct He2 as [He2|He2]; [lia|]. destruct l' as [|c l']; [cbn; lia|].
    exfalso. cbn [length] in H4. rewrite Nat2Z.inj_succ in H4. nia.
Qed.

Lemma Split_shape name mime data t offer l u :
  Split name mime data 0 t = (Ok (offer, l), u) →
  o_Name offer = name ∧ o_Size offer = w64 (Z.of_nat (length data)) ∧ o_ChunkSize offer = DefaultChunkSize ∧
  numbered 0 l ∧ Forall (λ c, valid_utf8 (c_FileID c) = true) l ∧
  Z.of_nat (length data) ≤ DefaultChunkSize * Z.of_nat (length l) ∧
  (l = [] ∨ DefaultChunkSize * (Z.of_nat (length l) - 1) < Z.of_nat (length data)).
Proof.
  unfold Split. change (if 0 =? 0 then _ else _) with DefaultChunkSize. run_M.
  destruct (rand_read 32 t) as [[key|] t1]; [|done]. run_M.
  destruct (newFileID_total t1) as (fid & -> & Hfid). run_M.
  unfold liftM. change 0 with (w32 0) at 1. destruct (split_loop _ _ _ _ _ _ _) as [l'|] eqn:E; [|done].
  intros [[<- <-]%Ok_inj%pair_equal_spec _]%pair_equal_spec.
  apply split_loop_shape in E as (H1 & H2 & H3 & H4); [|done|done|lia].
  rewrite Z.sub_0_r in *. split_and!; try done. eapply Forall_impl; [exact H2|]. by intros c ->.
Qed.

(** What one turn of the loop takes from the data. *)
Lemma split_slice (data : bytes) cs off :
  0 < cs → 0 ≤ off < Z.of_nat (length data) →
  let end_ := if Z.of_nat (length data) <? off + cs then Z.of_nat (length data) else off + cs in
  0 ≤ end_ ∧
  drop (Z.to_nat end_) data = drop (Z.to_nat cs) (drop (Z.to_nat off) data) ∧
  take (Z.to_nat (end_ - off)) (drop (Z.to_nat off) data) = take (Z.to_nat cs) (drop (Z.to_nat off) data).
Proof.
  intros Hcs Hoff end_. subst end_. rewrite drop_drop.
  destruct (Z.ltb_spec (Z.of_nat (length data)) (off + cs)); (split; [lia|]); split.
  - rewrite !drop_ge by lia. done.
  - rewrite !take_ge by (rewrite length_drop; lia). done.
  - f_equal. lia.
  - f_equal. lia.
Qed.

Lemma split_loop_eq fuel fid key data cs i off :
  length key = 32%nat → 0 < cs → 0 ≤ i → 0 ≤ off →
  (length (drop (Z.to_nat off) data) ≤ fuel)%nat →
  i + Z.of_nat (length (chunks fuel (Z.to_nat cs) (drop (Z.to_nat off) data))) ≤ 2 ^ 32 →
  split_loop fuel fid key data cs i off
  = Ok (seal_from fid key i (chunks fuel (Z.to_nat cs) (drop (Z.to_nat off) data))).
Proof.
  intros Hk Hcs. revert i off. induction fuel as [|fuel IH]; intros i off Hi Hoff Hf Hb; [done|].
  destruct (Z.lt_ge_cases off (Z.of_nat (length data))) as [Hlt|Hge].
  2:{ rewrite drop_ge by lia. apply split_loop_end; [done|]. by rewrite drop_ge by lia. }
  destruct (split_slice data cs off) as (He & Hd & Ht); [lia..|].
  cbn [split_loop]. rewrite (proj2 (Z.ltb_lt _ _)) by done.
  revert He Hd Ht. generalize (if Z.of_nat (length data) <? off + cs then Z.of_nat (length data) else off + cs) as e.
  intros e He Hd Ht. rewrite Ht, SealFile_Ok by done. cbn [bindR].
  rewrite length_drop in Hf.
  destruct (drop (Z.to_nat off) data) as [|x l] eqn:E.
  { apply (f_equal length) in E. rewrite length_drop in E. cbn in E. lia. }
  cbn [chunks] in *. rewrite <-Hd in *. cbn [seal_from length] in *.
  destruct (drop (Z.to_nat e) data) as [|y k] eqn:E2.
  { rewrite split_loop_end by done. by destruct fuel. }
  assert (i + 1 < 2 ^ 32).
  { destruct fuel; [|cbn [chunks length] in Hb; lia].
    apply (f_equal length) in E. rewrite length_drop in E. cbn [length] in E.
    apply (f_equal length) in Hd. rewrite length_drop in Hd. cbn [length] in Hd. lia. }
  rewrite w32_small by lia. rewrite IH; rewrite ?E2; try done; try lia.
  rewrite Hd, length_drop. cbn [length].
  apply (f_equal length) in E. rewrite length_drop in E. cbn [length] in E. lia.
Qed.

(** Opening what was sealed gives the pieces back. *)
Lemma reassemble_seal_from offer fid key i ps out :
  sl (o_TransferKey offer) = key → length key = 32%nat → 0 ≤ i → i + Z.of_nat (length ps) ≤ 2 ^ 32 →
  reassemble_loop offer i (seal_from fid key i ps) out = Ok (out ++ concat ps).
Proof.
  intros Hk Hl. revert i out. induction ps as [|p ps IH]; intros i out Hi Hb; cbn [seal_from reassemble_loop].
  - by rewrite app_nil_r.
  - cbn [c_Index c_Data sl length] in *. rewrite w32_small, Z.eqb_refl by lia. cbn [negb].
    rewrite Hk, (OpenFile_SealFile _ _ p) by (by apply SealFile_Ok). cbn [bindR].
    rewrite IH by lia. cbn [concat]. by rewrite app_assoc.
Qed.

(** Sorting brings any arrangement of the chunks of a file back in order. *)
#[global] Instance by_index_trans : Transitive by_index.
Proof. unfold by_index. intros ???. lia. Qed.
#[global] Instance by_index_total : Total by_index.
Proof. unfold by_index. intros ??. lia. Qed.

Lemma sorted_seal_from fid key i ps : StronglySorted by_index (seal_from fid key i ps).
Proof.
  revert i. induction ps as [|p ps IH]; intros i; [constructor|]. cbn [seal_from]. constructor; [done|].
  apply Forall_forall. intros c Hc. unfold by_index. cbn [c_Index].
  assert (c_Index c ∈ map c_Index (seal_from fid key (i + 1) ps)) as Hin
    by (by apply (list_elem_of_fmap_2 c_Index)).
  rewrite index_seal_from in Hin. apply elem_of_seqZ in Hin. lia.
Qed.

Lemma seal_from_index_inj fid key i ps c d :
  c ∈ seal_from fid key i ps → d ∈ seal_from fid key i ps → c_Index c = c_Index d → c = d.
Proof.
  intros Hc Hd E.
  assert (NoDup (c_Index <$> seal_from fid key i ps)) as Hnd.
  { change (NoDup (map c_Index (seal_from fid key i ps))). rewrite index_seal_from. apply NoDup_seqZ. }
  apply list_elem_of_lookup in Hc as [j Hj], Hd as [k Hk].
  assert (j = k) as ->; [|congruence].
  eapply NoDup_lookup; [done|..]; rewrite list_lookup_fmap, ?Hj, ?Hk; cbn; [done|by rewrite E].
Qed.

Lemma sort_seal_from fid key i ps chunks :
  chunks ≡ₚ seal_from fid key i ps → merge_sort by_index chunks = seal_from fid key i ps.
Proof.
  intros Hp. apply (StronglySorted_unique_strong by_index).
  - intros c d Hc Hd H1 H2. rewrite merge_sort_Permutation, Hp in Hc.
    eapply seal_from_index_inj; [done..|]. unfold by_index in *. lia.
  - apply StronglySorted_merge_sort; apply _.
  - apply sorted_seal_from.
  - by rewrite merge_sort_Permutation.
Qed.

(** *** JSON *)

Definition wf_Offer (o : Offer) : Prop :=
  valid_utf8 (o_FileID o) = true ∧ valid_utf8 (o_Name o) = true ∧ valid_utf8 (o_MIME o) = true ∧
  0 ≤ o_Size o < 2 ^ 64 ∧ 0 ≤ o_ChunkSize o < 2 ^ 32.

Definition wf_Chunk (c : Chunk) : Prop := valid_utf8 (c_FileID c) = true ∧ 0 ≤ c_Index c < 2 ^ 32.

Lemma Offer_roundtrip o : wf_Offer o → unmarshal_ok (dec_struct Offer_fields) zero_Offer (marshal (enc_Offer o)) = Ok o.
Proof.
  intros (Hf & Hn & Hm & Hs & Hc). apply unmarshal_ok_marshal.
  - wf_struct; auto using lt_32_64 with stunner.
  - destruct o. unfold enc_Offer. cbn [o_Size o_ChunkSize] in *.
    dec_obj ltac:(rewrite ?dec_enc_slice, ?dec_enc_uint by done).
Qed.

(** Names need not be UTF-8. *)
Definition clean_Offer (o : Offer) : Offer :=
  MkOffer (to_valid_utf8 (o_FileID o)) (to_valid_utf8 (o_Name o)) (o_Size o) (to_valid_utf8 (o_MIME o))
    (o_ChunkSize o) (o_Hash o) (o_TransferKey o).

Lemma enc_Offer_clean o :
  0 ≤ o_Size o < 2 ^ 64 → 0 ≤ o_ChunkSize o < 2 ^ 32 →
  unmarshal_ok (dec_struct Offer_fields) zero_Offer (marshal (enc_Offer o)) = Ok (clean_Offer o).
Proof.
  intros Hs Hc. assert (0 ≤ o_ChunkSize o < 2 ^ 64) as Hc' by lia. apply unmarshal_ok_clean.
  - apply printable_obj. repeat apply Forall_cons_2; [..|constructor]; cbn [snd]; try exact I; apply wf_printable; auto with stunner.
  - replace (clean (enc_Offer o)) with (enc_Offer (clean_Offer o)).
    + destruct o. unfold enc_Offer, clean_Offer. cbn [o_Size o_ChunkSize o_FileID o_Name o_MIME o_Hash o_TransferKey] in *.
      dec_obj ltac:(rewrite ?dec_enc_slice, ?dec_enc_uint by done).
    + destruct o as [f n s m c h k]. unfold enc_Offer, clean_Offer. cbn [o_Size o_ChunkSize o_FileID o_Name o_MIME o_Hash o_TransferKey] in *.
      cbn. rewrite !(clean_wf (enc_slice _)) by apply wf_enc_slice. reflexivity.
Qed.

Lemma Chunk_roundtrip c : wf_Chunk c → unmarshal_ok (dec_struct Chunk_fields) zero_Chunk (marshal (enc_Chunk c)) = Ok c.
Proof.
  intros (Hf & Hi). apply unmarshal_ok_marshal.
  - wf_struct; auto using lt_32_64 with stunner.
  - destruct c. unfold enc_Chunk. cbn [c_Index] in *.
    dec_obj ltac:(rewrite ?dec_enc_slice, ?dec_enc_uint by done).
Qed.

(** ** Split and Reassemble *)

(** The chunk size in effect. *)
Definition eff_size (cs : Z) : Z := if cs =? 0 then DefaultChunkSize else cs.

Lemma eff_size_pos cs : 0 ≤ cs → 0 < eff_size cs.
Proof. unfold eff_size, DefaultChunkSize. intros. destruct (Z.eqb_spec cs 0); lia. Qed.

(** The files [Split] can number: at most [2^32] chunks. *)
Definition splittable (data : bytes) (cs : Z) : Prop :=
  Z.of_nat (length (pieces (eff_size cs) data)) ≤ 2 ^ 32 ∧ Z.of_nat (length data) < 2 ^ 64.

(** The octets [Split] reads: the key, then twelve for the file id. *)
Lemma Split_Ok name mime data cs t :
  0 ≤ cs → (32 ≤ length t)%nat → splittable data cs →
  ∃ fid, valid_utf8 fid = true ∧
    Split name mime data cs t
    = (Ok (MkOffer fid name (Z.of_nat (length data)) mime (eff_size cs) (Some (sha256 data)) (Some (take 32 t)),
           seal_from fid (take 32 t) 0 (pieces (eff_size cs) data)), drop 12 (drop 32 t)).
Proof.
  intros Hcs Ht [Hp Hl]. unfold Split. fold (eff_size cs). run_M. rewrite rand_read_enough by done.
  destruct (newFileID_total (drop 32 t)) as (fid & -> & Hfid). exists fid. split; [done|].
  pose proof (split_loop_eq (length data) fid (take 32 t) data (eff_size cs) 0 0) as E.
  change (drop (Z.to_nat 0) data) with data in E. rewrite E.
  - unfold w64. rewrite Z.mod_small by lia. done.
  - rewrite length_take. lia.
  - by apply eff_size_pos.
  - done.
  - done.
  - done.
  - by rewrite Z.add_0_l.
Qed.

(** The loop of [Reassemble] only gets through indices 0, 1, 2, ... *)
Lemma reassemble_loop_indices offer i l out0 out :
  reassemble_loop offer i l out0 = Ok out → 0 ≤ i → i + Z.of_nat (length l) ≤ 2 ^ 32 →
  map c_Index l = seqZ i (Z.of_nat (length l)).
Proof.
  revert i out0. induction l as [|c l IH]; intros i out0 E Hi Hb; [done|].
  cbn [reassemble_loop length] in *. rewrite w32_small in E by lia.
  destruct (Z.eqb_spec (c_Index c) i) as [Hc|]; [|discriminate E]. cbn [negb] in E.
  apply bindR_Ok in E as (pt & _ & E). cbn [map]. rewrite seqZ_cons by lia. f_equal; [done|].
  rewrite (IH (i + 1) _ E) by lia. f_equal; lia.
Qed.

Lemma Reassemble_inv offer chunks out :
  Reassemble offer chunks = Ok out →
  reassemble_loop offer 0 (merge_sort by_index chunks) [] = Ok out ∧
  w64 (Z.of_nat (length out)) = o_Size offer ∧ sl (o_Hash offer) = sha256 out.
Proof.
  unfold Reassemble. intros (o & E & Hr)%bindR_Ok. revert Hr.
  destruct (Z.eqb_spec (w64 (Z.of_nat (length o))) (o_Size offer)); cbn [negb]; [|discriminate].
  destruct (equalHash (sha256 o) (sl (o_Hash offer))) eqn:Eh; cbn [negb]; [|discriminate].
  intros <-%Ok_inj. apply equalHash_spec in Eh. by split_and!.
Qed.

(** Chunks whose indices wrap around are never taken for a file. *)
Lemma wrapped_not_reassembled offer cs out :
  numbered 0 cs → 2 ^ 32 < Z.of_nat (length cs) → Reassemble offer cs ≠ Ok out.
Proof.
  unfold numbered. intros Hn Hlen (E & _)%Reassemble_inv. pose proof (merge_sort_Permutation by_index cs) as Hp.
  pose proof (StronglySorted_merge_sort by_index cs) as Hs. revert E Hp Hs.
  generalize (merge_sort by_index cs). intros l E Hp Hs. pose proof (Permutation_length Hp) as Hl.
  destruct l as [|c [|d l]]; [cbn in Hl; lia..|]. cbn [reassemble_loop] in E.
  destruct (Z.eqb_spec (c_Index c) (w32 0)) as [Hc|]; [|done]. cbn [negb] in E.
  apply bindR_Ok in E as (pt & _ & E). destruct (Z.eqb_spec (c_Index d) (w32 (0 + 1))) as [Hd|]; [|done].
  change (w32 0) with 0 in Hc. change (w32 (0 + 1)) with 1 in Hd.
  apply StronglySorted_inv in Hs as [Hs _]. apply StronglySorted_inv in Hs as [_ Hs].
  apply (Permutation_map c_Index) in Hp. rewrite Hn in Hp. cbn [map] in Hp. rewrite Hc, Hd in Hp.
  replace (Z.of_nat (length cs)) with (1 + (2 ^ 32 - 1 + (1 + (Z.of_nat (length cs) - 2 ^ 32 - 1)))) in Hp by lia.
  rewrite seqZ_app in Hp by lia. rewrite (seqZ_app _ (2 ^ 32 - 1)) in Hp by lia. rewrite (seqZ_app _ 1 (_ - 1)) in Hp by lia.
  rewrite !map_app in Hp. change (map w32 (seqZ 0 1)) with [0] in Hp.
  replace (0 + 1 + (2 ^ 32 - 1)) with (2 ^ 32) in Hp by lia. change (map w32 (seqZ (2 ^ 32) 1)) with [0] in Hp.
  cbn [app] in Hp. apply Permutation_cons_inv in Hp. assert (0 ∈ 1 :: map c_Index l) as Hin.
  { rewrite Hp, elem_of_app. right. by left. }
  apply elem_of_cons in Hin as [?|Hin]; [lia|]. apply list_elem_of_fmap in Hin as (x & Hx & Hin).
  rewrite Forall_forall in Hs. specialize (Hs x Hin). unfold by_index in Hs. lia.
Qed.

Lemma Reassemble_seal_from offer fid key data cs chunks :
  sl (o_TransferKey offer) = key → length key = 32%nat → 0 < cs →
  Z.of_nat (length (pieces cs data)) ≤ 2 ^ 32 → Z.of_nat (length data) < 2 ^ 64 →
  o_Size offer = Z.of_nat (length data) → o_Hash offer = Some (sha256 data) →
  chunks ≡ₚ seal_from fid key 0 (pieces cs data) →
  Reassemble offer chunks = Ok data.
Proof.
  intros Hk Hl Hcs Hp Hd Hs Hh Hperm. unfold Reassemble. rewrite (sort_seal_from _ _ _ _ _ Hperm).
  rewrite (reassemble_seal_from offer fid key) by (done || lia). cbn [bindR app].
  unfold pieces. rewrite concat_chunks by lia.
  rewrite Hs, Hh. unfold w64. rewrite Z.mod_small, Z.eqb_refl by lia. cbn [negb sl].
  by rewrite (proj2 (equalHash_spec _ _)).
Qed.

Section properties.
(** C28: a file survives the transfer.  The chunks [Split] makes, in any
    order, reassemble to the file, for every file of at most [2^32] chunks;
    and there are as many chunks as the receiver computes from the offer. *)
Theorem Split_Reassemble name mime data cs t offer chunks t' chunks' :
  0 ≤ cs → splittable data cs → Split name mime data cs t = (Ok (offer, chunks), t') →
  chunks' ≡ₚ chunks →
  Reassemble offer chunks' = Ok data ∧
  Z.of_nat (length chunks) = (o_Size offer + o_ChunkSize offer - 1) / o_ChunkSize offer.
Proof.
  intros Hcs Hsp E Hperm. pose proof (eff_size_pos cs Hcs).
  assert (32 ≤ length t)%nat as Ht.
  { unfold Split, bindM in E. destruct (rand_read 32 t) as [[k|e] t1] eqn:Er; [|discriminate E].
    by apply rand_read_Ok in Er as (? & _ & _). }
  destruct (Split_Ok name mime data cs t) as (fid & _ & E'); [done..|].
  rewrite E' in E. injection E as <- <- <-. split.
  - apply (Reassemble_seal_from _ fid (take 32 t) data (eff_size cs));
      [reflexivity|rewrite length_take; lia|done|apply Hsp|apply Hsp|reflexivity|reflexivity|done].
  - cbn [o_Size o_ChunkSize]. rewrite length_seal_from. unfold pieces.
    rewrite length_chunks by lia. rewrite Nat2Z.inj_div. f_equal; lia.
Qed.

(** C29: [Reassemble] accepts nothing else: a result means that the chunks
    carried every index from 0 up exactly once, and that the octets have the
    size and the SHA-256 of the offer. *)
Theorem Reassemble_sound offer chunks out :
  Reassemble offer chunks = Ok out → Z.of_nat (length chunks) ≤ 2 ^ 32 →
  map c_Index chunks ≡ₚ seqZ 0 (Z.of_nat (length chunks)) ∧
  w64 (Z.of_nat (length out)) = o_Size offer ∧ sl (o_Hash offer) = sha256 out.
Proof.
  intros (E & Hs & Hh)%Reassemble_inv Hl. split; [|done].
  pose proof (merge_sort_Permutation by_index chunks) as Hp.
  rewrite <-(Permutation_length Hp) in Hl |- *. rewrite <-Hp at 1.
  by rewrite (reassemble_loop_indices _ _ _ _ _ E) by (done || lia).
Qed.

(** The nonces of a transfer never repeat under its key. *)
Theorem Split_nonces_distinct name mime data cs t offer chunks t' :
  0 ≤ cs → splittable data cs → Split name mime data cs t = (Ok (offer, chunks), t') →
  NoDup (map (λ c, nonceFor (c_Index c)) chunks).
Proof.
  intros Hcs Hsp E.
  assert (32 ≤ length t)%nat as Ht.
  { unfold Split, bindM in E. destruct (rand_read 32 t) as [[k|e] t1] eqn:Er; [|discriminate E].
    by apply rand_read_Ok in Er as (? & _ & _). }
  destruct (Split_Ok name mime data cs t) as (fid & _ & E'); [done..|].
  rewrite E' in E. injection E as <- <- <-. destruct Hsp as [Hp _].
  rewrite <-(map_map c_Index nonceFor), index_seal_from.
  apply NoDup_ListNoDup, List.NoDup_map_inv with (f := λ b, of_be (drop 8 b)).
  rewrite map_map.
  rewrite (map_ext_in _ (λ i, i)).
  - rewrite map_id. apply NoDup_ListNoDup, NoDup_seqZ.
  - intros i Hi%list_elem_of_In%elem_of_seqZ. unfold nonceFor.
    rewrite drop_app_length' by (by rewrite length_replicate). apply of_be_be_bytes_small. lia.
Qed.
End properties.

(** ** Instances *)

Definition toy_file : bytes := bs "hello, world".
Definition toy_split : Offer * list Chunk :=
  match (Split (bs "a.txt") (bs "text/plain") toy_file 5 (be_bytes 44 7)).1 with
  | Ok p => p | Err _ => (zero_Offer, [])
  end.

Lemma toy_split_eq :
  Split (bs "a.txt") (bs "text/plain") toy_file 5 (be_bytes 44 7)
  = (Ok (toy_split.1, toy_split.2), []).
Proof. vm_compute. reflexivity. Qed.

Lemma toy_splittable : splittable toy_file 5.
Proof. split; vm_compute; [discriminate|reflexivity]. Qed.

Lemma Split_Reassemble_witness :
  length toy_split.2 = 3%nat ∧ Reassemble toy_split.1 (rev toy_split.2) = Ok toy_file.
Proof.
  split; [vm_compute; reflexivity|].
  apply (Split_Reassemble (bs "a.txt") (bs "text/plain") toy_file 5 (be_bytes 44 7) toy_split.1
           toy_split.2 [] (rev toy_split.2));
    [lia|exact toy_splittable|exact toy_split_eq|symmetry; apply Permutation_rev].
Defined.

Lemma Reassemble_sound_witness :
  map c_Index toy_split.2 ≡ₚ seqZ 0 3 ∧ sl (o_Hash toy_split.1) = sha256 toy_file.
Proof.
  destruct (Reassemble_sound toy_split.1 toy_split.2 toy_file) as (H1 & _ & H2).
  - vm_compute. reflexivity.
  - vm_compute. discriminate.
  - split; [exact H1|exact H2].
Defined.

Lemma Split_nonces_distinct_witness : NoDup (map (λ c, nonceFor (c_Index c)) toy_split.2).
Proof.
  apply (Split_nonces_distinct (bs "a.txt") (bs "text/plain") toy_file 5 (be_bytes 44 7) toy_split.1
           toy_split.2 []); [lia|exact toy_splittable|exact toy_split_eq].
Defined.
