(* ===== verification/Messaging.v ===== *)
(** * Envelopes and frames ([pkg/messaging])

    The application envelope, its text and receipt bodies, the frame a
    connection carries, and their JSON. *)

From S2P Require Import Prelude Bytes Strconv Json Codec GoTime Curve Identity X3dh Session.
Open Scope Z_scope.

(** ** The model ([messaging.go], [receipt.go]) *)

Definition TypeText : bytes := bs "TEXT".
Definition TypeFileOffer : bytes := bs "FILE_OFFER".
Definition TypeFileChunk : bytes := bs "FILE_CHUNK".
Definition TypeReceipt : bytes := bs "RECEIPT".
Definition TypeTyping : bytes := bs "TYPING".
Definition TypeControl : bytes := bs "CONTROL".

Definition StateQueued : bytes := bs "QUEUED".
Definition StateSent : bytes := bs "SENT".
Definition StateDelivered : bytes := bs "DELIVERED".
Definition StateRead : bytes := bs "READ".
Definition StateFailed : bytes := bs "FAILED".

Record Envelope := MkEnvelope {
  e_Version : Z;
  e_Type : bytes;
  e_MsgID : bytes;
  e_ConvID : bytes;
  e_Timestamp : gotime;
  e_Body : slice;
}.

Record TextBody := MkTextBody { tb_Text : bytes; tb_AnimatedEmoji : option (list bytes) }.

Record ReceiptBody := MkReceiptBody { rb_RefMsgID : bytes; rb_State : bytes }.

Definition set_MsgID (v : bytes) (e : Envelope) : Envelope :=
  MkEnvelope (e_Version e) (e_Type e) v (e_ConvID e) (e_Timestamp e) (e_Body e).

(** ** JSON *)

Definition zero_Envelope : Envelope := MkEnvelope 0 [] [] [] zero_time None.

(** The struct's document; the timestamp may not be representable. *)
Definition enc_Envelope (e : Envelope) : result json :=
  let? ts := enc_time (e_Timestamp e) in
  Ok (enc_struct [field_of "version" (enc_int (e_Version e)); field_of "type" (enc_str (e_Type e));
                  field_of "msgId" (enc_str (e_MsgID e)); field_of "convId" (enc_str (e_ConvID e));
                  field_of "timestamp" ts; field_of "body" (enc_slice (e_Body e))]).

Definition Envelope_fields : list (field Envelope) := [
  fld "version" e_Version (λ v e, MkEnvelope v (e_Type e) (e_MsgID e) (e_ConvID e) (e_Timestamp e) (e_Body e)) (dec_int 64);
  fld "type" e_Type (λ v e, MkEnvelope (e_Version e) v (e_MsgID e) (e_ConvID e) (e_Timestamp e) (e_Body e)) dec_str;
  fld "msgId" e_MsgID (λ v e, MkEnvelope (e_Version e) (e_Type e) v (e_ConvID e) (e_Timestamp e) (e_Body e)) dec_str;
  fld "convId" e_ConvID (λ v e, MkEnvelope (e_Version e) (e_Type e) (e_MsgID e) v (e_Timestamp e) (e_Body e)) dec_str;
  fld "timestamp" e_Timestamp (λ v e, MkEnvelope (e_Version e) (e_Type e) (e_MsgID e) (e_ConvID e) v (e_Body e)) dec_time;
  fld "body" e_Body (λ v e, MkEnvelope (e_Version e) (e_Type e) (e_MsgID e) (e_ConvID e) (e_Timestamp e) v) dec_slice].

Definition enc_TextBody (t : TextBody) : json :=
  enc_struct [field_of "text" (enc_str (tb_Text t));
              omitempty (bool_decide (default [] (tb_AnimatedEmoji t) = [])) "animatedEmoji"
                (enc_strs (tb_AnimatedEmoji t))].

Definition TextBody_fields : list (field TextBody) := [
  fld "text" tb_Text (λ v t, MkTextBody v (tb_AnimatedEmoji t)) dec_str;
  fld "animatedEmoji" tb_AnimatedEmoji (λ v t, MkTextBody (tb_Text t) v) (dec_list [] dec_str)].

Definition enc_ReceiptBody (r : ReceiptBody) : json :=
  enc_struct [field_of "refMsgId" (enc_str (rb_RefMsgID r)); field_of "state" (enc_str (rb_State r))].

Definition ReceiptBody_fields : list (field ReceiptBody) := [
  fld "refMsgId" rb_RefMsgID (λ v r, MkReceiptBody v (rb_State r)) dec_str;
  fld "state" rb_State (λ v r, MkReceiptBody (rb_RefMsgID r) v) dec_str].

(** [crypto.PreKeyBundle]; a nil and an empty key are the same to every use. *)
Definition enc_Bundle (b : PreKeyBundle) : json :=
  enc_struct [field_of "identitySign" (enc_slice (Some (b_IdentitySign b)));
              field_of "identityDH" (enc_slice (Some (b_IdentityDH b)));
              field_of "signedPreKey" (enc_slice (Some (b_SignedPreKey b)));
              field_of "signedPreKeySig" (enc_slice (Some (b_SignedPreKeySig b)));
              omitempty (bool_decide (b_OneTimePreKey b = [])) "oneTimePreKey"
                (enc_slice (Some (b_OneTimePreKey b)))].

Definition zero_Bundle : PreKeyBundle := MkBundle [] [] [] [] [].

Definition Bundle_fields : list (field PreKeyBundle) := [
  fld "identitySign" (λ b, Some (b_IdentitySign b))
    (λ v b, MkBundle (sl v) (b_IdentityDH b) (b_SignedPreKey b) (b_SignedPreKeySig b) (b_OneTimePreKey b)) dec_slice;
  fld "identityDH" (λ b, Some (b_IdentityDH b))
    (λ v b, MkBundle (b_IdentitySign b) (sl v) (b_SignedPreKey b) (b_SignedPreKeySig b) (b_OneTimePreKey b)) dec_slice;
  fld "signedPreKey" (λ b, Some (b_SignedPreKey b))
    (λ v b, MkBundle (b_IdentitySign b) (b_IdentityDH b) (sl v) (b_SignedPreKeySig b) (b_OneTimePreKey b)) dec_slice;
  fld "signedPreKeySig" (λ b, Some (b_SignedPreKeySig b))
    (λ v b, MkBundle (b_IdentitySign b) (b_IdentityDH b) (b_SignedPreKey b) (sl v) (b_OneTimePreKey b)) dec_slice;
  fld "oneTimePreKey" (λ b, Some (b_OneTimePreKey b))
    (λ v b, MkBundle (b_IdentitySign b) (b_IdentityDH b) (b_SignedPreKey b) (b_SignedPreKeySig b) (sl v)) dec_slice].

(** [crypto.Handshake]. *)
Definition enc_Handshake (h : Handshake) : json :=
  enc_struct [field_of "identitySign" (enc_slice (hs_IdentitySign h));
              field_of "identityDH" (enc_slice (hs_IdentityDH h));
              field_of "ephemeral" (enc_slice (hs_Ephemeral h)); field_of "usedOTP" (JBool (hs_UsedOTP h))].

Definition zero_Handshake : Handshake := MkHandshake None None None false.

Definition Handshake_fields : list (field Handshake) := [
  fld "identitySign" hs_IdentitySign (λ v h, MkHandshake v (hs_IdentityDH h) (hs_Ephemeral h) (hs_UsedOTP h)) dec_slice;
  fld "identityDH" hs_IdentityDH (λ v h, MkHandshake (hs_IdentitySign h) v (hs_Ephemeral h) (hs_UsedOTP h)) dec_slice;
  fld "ephemeral" hs_Ephemeral (λ v h, MkHandshake (hs_IdentitySign h) (hs_IdentityDH h) v (hs_UsedOTP h)) dec_slice;
  fld "usedOTP" hs_UsedOTP (λ v h, MkHandshake (hs_IdentitySign h) (hs_IdentityDH h) (hs_Ephemeral h) v) dec_bool].

(** ** [frame.go] *)

Record Frame := MkFrame {
  f_Bundle : option PreKeyBundle;
  f_Handshake : option Handshake;
  f_Payload : slice;
}.

Definition is_none {A} (o : option A) : bool := match o with None => true | Some _ => false end.

Definition enc_opt {A} (enc : A → json) (o : option A) : json :=
  match o with Some a => enc a | None => JNull end.

Definition enc_Frame (f : Frame) : json :=
  enc_struct [omitempty (is_none (f_Bundle f)) "bundle" (enc_opt enc_Bundle (f_Bundle f));
              omitempty (is_none (f_Handshake f)) "hs" (enc_opt enc_Handshake (f_Handshake f));
              omitempty (bool_decide (sl (f_Payload f) = [])) "payload" (enc_slice (f_Payload f))].

Definition zero_Frame : Frame := MkFrame None None None.

Definition Frame_fields : list (field Frame) := [
  fld "bundle" f_Bundle (λ v f, MkFrame v (f_Handshake f) (f_Payload f)) (dec_ptr zero_Bundle (dec_struct Bundle_fields));
  fld "hs" f_Handshake (λ v f, MkFrame (f_Bundle f) v (f_Payload f)) (dec_ptr zero_Handshake (dec_struct Handshake_fields));
  fld "payload" f_Payload (λ v f, MkFrame (f_Bundle f) (f_Handshake f) v) dec_slice].

(** [EncodeFrame], [DecodeFrame]. *)
Definition EncodeFrame (f : Frame) : result bytes := Ok (marshal (enc_Frame f)).
Definition DecodeFrame (b : bytes) : result Frame := unmarshal_ok (dec_struct Frame_fields) zero_Frame b.

(** [newID]. *)
Definition newID : M tape bytes := let* b := rand_fill 16 in retM (hex_encode b).

Definition ProtocolVersion : Z := 1.

(** [NewEnvelope]; [now] is what [time.Now().UTC()] shows. *)
Definition NewEnvelope (now : gotime) (t convID : bytes) (body : slice) : M tape Envelope :=
  let* id := newID in
  retM (MkEnvelope ProtocolVersion t id convID now body).

(** [NewText], called by the core without animated emoji. *)
Definition NewText (now : gotime) (convID text : bytes) (animatedEmoji : option (list bytes)) : M tape Envelope :=
  let body := marshal (enc_TextBody (MkTextBody text animatedEmoji)) in
  NewEnvelope now TypeText convID (Some body).

(** [NewReceipt]. *)
Definition NewReceipt (now : gotime) (convID refMsgID state : bytes) : M tape Envelope :=
  let body := marshal (enc_ReceiptBody (MkReceiptBody refMsgID state)) in
  NewEnvelope now TypeReceipt convID (Some body).

(** [Envelope.Encode], [DecodeEnvelope]. *)
Definition Encode (e : Envelope) : result bytes := let? j := enc_Envelope e in Ok (marshal j).
Definition DecodeEnvelope (b : bytes) : Envelope * option error :=
  unmarshal (dec_struct Envelope_fields) zero_Envelope b.

(** [Envelope.Text] and [Envelope.Receipt]: what was parsed, and the error. *)
Definition Text (e : Envelope) : TextBody * option error :=
  unmarshal (dec_struct TextBody_fields) (MkTextBody [] None) (sl (e_Body e)).
Definition Receipt (e : Envelope) : ReceiptBody * option error :=
  unmarshal (dec_struct ReceiptBody_fields) (MkReceiptBody [] []) (sl (e_Body e)).

(** ** Round trips *)

(** Envelopes whose strings are UTF-8 and whose numbers fit. *)
Record wf_Envelope (e : Envelope) : Prop := {
  we_version : 0 ≤ e_Version e < 2 ^ 63;
  we_type : valid_utf8 (e_Type e) = true;
  we_id : valid_utf8 (e_MsgID e) = true;
  we_conv : valid_utf8 (e_ConvID e) = true;
  we_time : wf_time (e_Timestamp e);
}.

Lemma enc_Envelope_Ok e : wf_Envelope e → ∃ j, enc_Envelope e = Ok j ∧ wf_json j ∧
  ∀ z, dec_struct Envelope_fields j z = (e, None).
Proof.
  intros []. unfold enc_Envelope. rewrite enc_time_Ok by done. cbn [bindR]. eexists. split; [done|]. split.
  - wf_struct; auto with stunner. apply valid_utf8_fmt_time.
  - intros z. destruct e. cbn [e_Version e_Timestamp] in *.
    dec_obj ltac:(rewrite ?dec_enc_slice, ?dec_enc_time, ?dec_enc_int by done).
Qed.

Lemma Encode_DecodeEnvelope e :
  wf_Envelope e → ∃ b, Encode e = Ok b ∧ DecodeEnvelope b = (e, None).
Proof.
  intros He. destruct (enc_Envelope_Ok e He) as (j & Hj & Hw & Hd).
  exists (marshal j). unfold Encode, DecodeEnvelope. rewrite Hj. split; [done|].
  by rewrite unmarshal_marshal, Hd.
Qed.

Lemma dec_enc_Handshake h z : dec_struct Handshake_fields (enc_Handshake h) z = (h, None).
Proof. destruct h. unfold enc_Handshake. dec_obj ltac:(rewrite ?dec_enc_slice). Qed.

Lemma wf_enc_Handshake h : wf_json (enc_Handshake h).
Proof. unfold enc_Handshake. wf_struct; auto with stunner. exact I. Qed.

Lemma dec_enc_Bundle b : dec_struct Bundle_fields (enc_Bundle b) zero_Bundle = (b, None).
Proof.
  destruct b as [a b c d o]. unfold enc_Bundle. cbn [b_IdentitySign b_IdentityDH b_SignedPreKey b_SignedPreKeySig b_OneTimePreKey].
  destruct (bool_decide_reflect (o = [])) as [->|].
  - dec_obj ltac:(rewrite ?dec_enc_slice).
  - dec_obj ltac:(rewrite ?dec_enc_slice).
Qed.

Lemma wf_enc_Bundle b : wf_json (enc_Bundle b).
Proof. unfold enc_Bundle. wf_struct; auto with stunner. Qed.

Lemma dec_enc_ptr {A} (zero : A) (d : decoder A) (enc : A → json) o :
  (∀ a, enc a ≠ JNull) → (∀ a, o = Some a → d (enc a) zero = (a, None)) →
  dec_ptr zero d (enc_opt enc o) None = (o, None).
Proof.
  intros Hn Hd. destruct o as [a|]; [|done]. cbn [enc_opt]. unfold dec_ptr.
  specialize (Hd a eq_refl). destruct (enc a) eqn:E; [by destruct (Hn a)|cbn [default]; by rewrite Hd..].
Qed.

Lemma enc_Bundle_ne b : enc_Bundle b ≠ JNull.
Proof. discriminate. Qed.
Lemma enc_Handshake_ne h : enc_Handshake h ≠ JNull.
Proof. discriminate. Qed.

#[local] Opaque enc_Bundle enc_Handshake Bundle_fields Handshake_fields.

(** A frame is decoded to itself, an empty payload to none. *)
Lemma DecodeFrame_EncodeFrame f :
  f_Payload f ≠ Some [] → ∃ b, EncodeFrame f = Ok b ∧ DecodeFrame b = Ok f.
Proof.
  intros Hp. eexists. split; [done|]. apply unmarshal_ok_marshal.
  - unfold enc_Frame. wf_struct; intros _; auto with stunner.
    + destruct (f_Bundle f); [apply wf_enc_Bundle|done].
    + destruct (f_Handshake f); [apply wf_enc_Handshake|done].
  - destruct f as [b h p]. unfold enc_Frame. cbn [f_Bundle f_Handshake f_Payload] in *.
    pose proof (dec_enc_ptr zero_Bundle _ _ b enc_Bundle_ne (λ b _, dec_enc_Bundle b)) as Hb.
    pose proof (dec_enc_ptr zero_Handshake _ _ h enc_Handshake_ne (λ h _, dec_enc_Handshake h _)) as Hh.
    assert (bool_decide (sl p = []) = is_none p) as -> by (by destruct p as [[|]|]).
    unfold enc_struct, omitempty, field_of. rewrite dec_struct_obj.
    destruct b as [b|], h as [h|], p as [p|]; cbn [is_none omap list_omap id]; unfold id; cbv iota;
      dec_fields ltac:(unfold zero_Frame; cbn [f_Bundle f_Handshake f_Payload enc_opt] in *;
        rewrite ?Hb, ?Hh, ?dec_enc_slice).
Qed.

Lemma dec_enc_TextBody t :
  dec_struct TextBody_fields (enc_TextBody t) (MkTextBody [] None)
  = (MkTextBody (tb_Text t) (match tb_AnimatedEmoji t with Some (_ :: _) => tb_AnimatedEmoji t | _ => None end), None).
Proof.
  destruct t as [s o]. unfold enc_TextBody. cbn [tb_Text tb_AnimatedEmoji].
  pose proof (dec_enc_strs o None) as Ho. revert Ho.
  generalize (enc_strs o) as j. intros j Ho.
  assert (bool_decide (default [] o = []) = match o with Some (_ :: _) => false | _ => true end) as ->
    by (by destruct o as [[|]|]).
  destruct o as [[|x l]|]; dec_obj ltac:(cbn [tb_AnimatedEmoji tb_Text] in *; rewrite ?Ho).
Qed.

Definition valid_opt (l : option (list bytes)) : Prop :=
  match l with None => True | Some l => Forall (λ s, valid_utf8 s = true) l end.

Lemma wf_enc_TextBody t :
  valid_utf8 (tb_Text t) = true → valid_opt (tb_AnimatedEmoji t) → wf_json (enc_TextBody t).
Proof. intros. unfold enc_TextBody. wf_struct; auto with stunner. Qed.

Lemma dec_enc_ReceiptBody r z : dec_struct ReceiptBody_fields (enc_ReceiptBody r) z = (r, None).
Proof. destruct r. unfold enc_ReceiptBody. dec_obj ltac:(idtac). Qed.

Lemma wf_enc_ReceiptBody r :
  valid_utf8 (rb_RefMsgID r) = true → valid_utf8 (rb_State r) = true → wf_json (enc_ReceiptBody r).
Proof. intros. unfold enc_ReceiptBody. by wf_struct. Qed.

(** What [NewEnvelope] makes is well formed. *)
Lemma NewEnvelope_Ok now ty conv body t :
  wf_time now → valid_utf8 ty = true → valid_utf8 conv = true →
  ∃ id, NewEnvelope now ty conv body t
        = (Ok (MkEnvelope ProtocolVersion ty id conv now body), drop 16 t) ∧
        valid_utf8 id = true.
Proof.
  intros. unfold NewEnvelope, newID, rand_fill. run_M. eexists. split; [done|]. apply valid_utf8_hex.
Qed.

Section properties.
(** A text survives encoding.  [NewText] makes an envelope that encodes,
    decodes to itself on the other side, and there yields the text and the
    emoji ids it was made from. *)
Theorem NewText_roundtrip now convID text emoji t :
  wf_time now → valid_utf8 convID = true → valid_utf8 text = true → valid_opt emoji →
  ∃ e b, NewText now convID text emoji t = (Ok e, drop 16 t) ∧
    Encode e = Ok b ∧ DecodeEnvelope b = (e, None) ∧
    e_Type e = TypeText ∧ e_ConvID e = convID ∧
    Text e = (MkTextBody text (match emoji with Some (_ :: _) => emoji | _ => None end), None).
Proof.
  intros Ht Hc Hx He. unfold NewText.
  destruct (NewEnvelope_Ok now TypeText convID (Some (marshal (enc_TextBody (MkTextBody text emoji)))) t)
    as (id & -> & Hid); [done..|].
  edestruct (Encode_DecodeEnvelope) as (b & Hb & Hd); [|eexists _, b; split_and!; [done|done|done|done|done|]].
  { by split. }
  unfold Text. cbn [e_Body sl]. rewrite unmarshal_marshal by by apply wf_enc_TextBody.
  by rewrite dec_enc_TextBody.
Qed.

(** So does a receipt. *)
Theorem NewReceipt_roundtrip now convID ref state t :
  wf_time now → valid_utf8 convID = true → valid_utf8 ref = true → valid_utf8 state = true →
  ∃ e b, NewReceipt now convID ref state t = (Ok e, drop 16 t) ∧
    Encode e = Ok b ∧ DecodeEnvelope b = (e, None) ∧
    e_Type e = TypeReceipt ∧ Receipt e = (MkReceiptBody ref state, None).
Proof.
  intros Ht Hc Hr Hs. unfold NewReceipt.
  destruct (NewEnvelope_Ok now TypeReceipt convID (Some (marshal (enc_ReceiptBody (MkReceiptBody ref state)))) t)
    as (id & -> & Hid); [done..|].
  edestruct (Encode_DecodeEnvelope) as (b & Hb & Hd); [|eexists _, b; split_and!; [done|done|done|done|]].
  { by split. }
  unfold Receipt. cbn [e_Body sl]. rewrite unmarshal_marshal by by apply wf_enc_ReceiptBody.
  by rewrite dec_enc_ReceiptBody.
Qed.

(** A frame is decoded to exactly what was encoded, whichever of its
    three parts it carries; only an empty payload comes back as none. *)
Theorem Frame_roundtrip f :
  f_Payload f ≠ Some [] → ∃ b, EncodeFrame f = Ok b ∧ DecodeFrame b = Ok f.
Proof. apply DecodeFrame_EncodeFrame. Qed.
End properties.

Definition toy_time : gotime := GoTime 2024 2 29 7 5 9 120000000 0.

Lemma toy_time_wf : wf_time toy_time.
Proof. split; vm_compute; (split; discriminate || reflexivity) || reflexivity. Qed.

Lemma NewText_roundtrip_witness :
  ∃ e b, NewText toy_time (bs "alice") (bs "hi") None [] = (Ok e, []) ∧
    Encode e = Ok b ∧ DecodeEnvelope b = (e, None) ∧
    e_Type e = TypeText ∧ e_ConvID e = bs "alice" ∧ Text e = (MkTextBody (bs "hi") None, None).
Proof. apply (NewText_roundtrip toy_time (bs "alice") (bs "hi") None []); [exact toy_time_wf|reflexivity|reflexivity|exact I]. Defined.

Lemma NewReceipt_roundtrip_witness :
  ∃ e b, NewReceipt toy_time (bs "alice") (bs "0af1") StateRead [] = (Ok e, []) ∧
    Encode e = Ok b ∧ DecodeEnvelope b = (e, None) ∧
    e_Type e = TypeReceipt ∧ Receipt e = (MkReceiptBody (bs "0af1") StateRead, None).
Proof. apply (NewReceipt_roundtrip toy_time (bs "alice") (bs "0af1") StateRead []); [exact toy_time_wf|reflexivity..]. Defined.

Lemma Frame_roundtrip_witness :
  ∃ b, EncodeFrame (MkFrame None (Some zero_Handshake) (Some (bs "x"))) = Ok b ∧
       DecodeFrame b = Ok (MkFrame None (Some zero_Handshake) (Some (bs "x"))).
Proof. apply Frame_roundtrip. discriminate. Defined.
