(* ===== verification/Mailbox.v ===== *)
(** * The offline mailbox ([pkg/mailbox])

    The interface a node is written against, with its contract - one FIFO per
    recipient - and the in-process relay, which keeps it. *)

From S2P Require Import Prelude.

(** ** The interface *)

(** [Mailbox]. *)
Class Mailbox (B : Type) := {
  mb_Put (recipientFP ciphertext : bytes) : M B unit;
  mb_Fetch (recipientFP : bytes) : M B (list bytes);
  mb_Pending (b : B) (recipientFP : bytes) : nat;
}.

(** What its comments promise, of a relay that is [up]. *)
Class MailboxLaws (B : Type) `{Mailbox B} := {
  queue : B → bytes → list bytes;
  up : B → Prop;
  law_Put fp ct b : up b → ∃ b', mb_Put fp ct b = (Ok tt, b') ∧ up b' ∧
    ∀ fp', queue b' fp' = if decide (fp = fp') then queue b fp ++ [ct] else queue b fp';
  law_Fetch fp b : up b → ∃ b', mb_Fetch fp b = (Ok (queue b fp), b') ∧ up b' ∧
    ∀ fp', queue b' fp' = if decide (fp = fp') then [] else queue b fp';
  law_Pending b fp : up b → mb_Pending b fp = length (queue b fp);
}.

(** ** The code *)

(** [Memory]. *)
Record mailbox := MkMailbox { box : gmap bytes (list bytes) }.

Definition NewMemory : mailbox := MkMailbox ∅.

(** [m.box[recipientFP]]: nil for an unknown recipient. *)
Definition queued (m : mailbox) (fp : bytes) : list bytes := default [] (box m !! fp).

Definition Put (recipientFP ciphertext : bytes) : M mailbox unit := λ m,
  (Ok tt, MkMailbox (<[recipientFP := queued m recipientFP ++ [ciphertext]]> (box m))).

Definition Fetch (recipientFP : bytes) : M mailbox (list bytes) := λ m,
  (Ok (queued m recipientFP), MkMailbox (delete recipientFP (box m))).

Definition Pending (m : mailbox) (recipientFP : bytes) : nat := length (queued m recipientFP).

#[global] Instance memory_Mailbox : Mailbox mailbox := { mb_Put := Put; mb_Fetch := Fetch; mb_Pending := Pending }.

Lemma queued_insert m fp fp' q :
  queued (MkMailbox (<[fp' := q]> (box m))) fp = if decide (fp' = fp) then q else queued m fp.
Proof.
  unfold queued. cbn. case_decide as E; [subst; by rewrite lookup_insert_eq|by rewrite lookup_insert_ne].
Qed.

Lemma queued_delete m fp fp' :
  queued (MkMailbox (delete fp' (box m))) fp = if decide (fp' = fp) then [] else queued m fp.
Proof.
  unfold queued. cbn. case_decide as E; [subst; by rewrite lookup_delete_eq|by rewrite lookup_delete_ne].
Qed.

#[global] Instance memory_MailboxLaws : MailboxLaws mailbox.
Proof.
  exists queued (λ _, True).
  - intros fp ct b _. eexists. split; [reflexivity|]. split; [done|]. intros fp'. rewrite queued_insert.
    case_decide; [by subst|done].
  - intros fp b _. eexists. split; [reflexivity|]. split; [done|]. intros fp'. apply queued_delete.
  - done.
Defined.

(** ** Every relay that keeps the contract *)

Inductive op := OPut (fp ct : bytes) | OFetch (fp : bytes).

(** What the history says is waiting for [fp]. *)
Definition waiting (fp : bytes) (l : list op) : list bytes :=
  fold_left (λ q o, match o with
    | OPut fp' ct => if decide (fp' = fp) then q ++ [ct] else q
    | OFetch fp' => if decide (fp' = fp) then [] else q
    end) l [].

Lemma waiting_snoc fp l o :
  waiting fp (l ++ [o]) =
  match o with
  | OPut fp' ct => if decide (fp' = fp) then waiting fp l ++ [ct] else waiting fp l
  | OFetch fp' => if decide (fp' = fp) then [] else waiting fp l
  end.
Proof. unfold waiting. rewrite fold_left_app. by destruct o. Qed.

Section relay.
Context {B : Type} `{MailboxLaws B}.

Definition apply_op (o : op) (m : B) : B :=
  match o with OPut fp ct => (mb_Put fp ct m).2 | OFetch fp => (mb_Fetch fp m).2 end.

Definition apply_ops (l : list op) (m : B) : B := fold_left (λ m o, apply_op o m) l m.

Lemma queue_waiting l m :
  up m → (∀ fp, queue m fp = []) → up (apply_ops l m) ∧ ∀ fp, queue (apply_ops l m) fp = waiting fp l.
Proof.
  intros Hu He. induction l as [|o l [Hu' IH]] using rev_ind; [done|].
  unfold apply_ops in *. rewrite fold_left_app. cbn [fold_left].
  destruct o as [fp' ct|fp']; cbn [apply_op].
  - destruct (law_Put fp' ct _ Hu') as (b & -> & Hb & Hq). split; [done|]. intros fp. cbn [snd].
    rewrite Hq, waiting_snoc, !IH. case_decide; [by subst|done].
  - destruct (law_Fetch fp' _ Hu') as (b & -> & Hb & Hq). split; [done|]. intros fp. cbn [snd].
    by rewrite Hq, waiting_snoc, IH.
Qed.

(** A mailbox is one FIFO per recipient.  After any sequence of puts and
    fetches on an empty relay, [Fetch] returns exactly the messages put for
    that recipient since its last fetch, oldest first, [Pending] counts them,
    nothing is left, and no other recipient's queue is touched. *)
Theorem mailbox_fifo l m fp :
  up m → (∀ fp, queue m fp = []) →
  let m1 := apply_ops l m in
  ∃ m2, mb_Fetch fp m1 = (Ok (waiting fp l), m2) ∧
  mb_Pending m1 fp = length (waiting fp l) ∧ mb_Pending m2 fp = 0%nat ∧
  ∀ fp', fp' ≠ fp → queue m2 fp' = waiting fp' l.
Proof.
  intros Hu He m1. destruct (queue_waiting l m Hu He) as [Hu1 Hq]. fold m1 in Hu1, Hq.
  destruct (law_Fetch fp m1 Hu1) as (m2 & E & Hu2 & Hq2). rewrite Hq in E. exists m2.
  split_and!; [done|by rewrite law_Pending, Hq| |].
  - rewrite law_Pending, Hq2 by done. by rewrite decide_True.
  - intros fp' Hne. by rewrite Hq2, decide_False, Hq.
Qed.
End relay.
