(* ===== verification/Url.v ===== *)
(** * The part of [net/url] the contact URIs use

    Query escaping and its inverse, [url.Values.Encode] for the two keys of a
    contact, and [url.Parse]/[url.ParseQuery] as far as [contact.ParseURI]
    looks at their result. *)

From S2P Require Import Prelude Bytes Strconv.
Open Scope Z_scope.

(** ** Escaping *)

(** The bytes [url.QueryEscape] leaves alone. *)
Definition unreserved (b : byte) : bool :=
  in_range 97 122 b || in_range 65 90 b || in_range 48 57 b ||
  (Zb b =? 45) || (Zb b =? 95) || (Zb b =? 46) || (Zb b =? 126).

Definition upper_hex (v : Z) : byte := if v <? 10 then bZ (48 + v) else bZ (55 + v).

Definition escape_byte (b : byte) : bytes :=
  if unreserved b then [b] else
  if Zb b =? 32 then ["+"%byte] else
  ["%"%byte; upper_hex (Zb b / 16); upper_hex (Zb b mod 16)].

Definition QueryEscape (s : bytes) : bytes := flat_map escape_byte s.

Definition unhex_digit (b : byte) : option Z :=
  if in_range 48 57 b then Some (Zb b - 48) else
  if in_range 97 102 b then Some (Zb b - 87) else
  if in_range 65 70 b then Some (Zb b - 55) else None.

(** [url.QueryUnescape]. *)
Fixpoint QueryUnescape (s : bytes) : option bytes :=
  match s with
  | [] => Some []
  | b :: s =>
    if Zb b =? 37 then
      match s with
      | h :: l :: s => h ← unhex_digit h; l ← unhex_digit l; cons (bZ (h * 16 + l)) <$> QueryUnescape s
      | _ => None
      end
    else cons (if Zb b =? 43 then " "%byte else b) <$> QueryUnescape s
  end.

(** ** Parsing *)

(** [strings.Cut] at a byte. *)
Fixpoint cut (sep : byte) (s : bytes) : bytes * option bytes :=
  match s with
  | [] => ([], None)
  | b :: s => if Byte.eqb b sep then ([], Some s) else let '(l, r) := cut sep s in (b :: l, r)
  end.

Fixpoint split_on (sep : byte) (fuel : nat) (s : bytes) : list bytes :=
  match fuel with
  | O => [s]
  | S fuel => match cut sep s with
              | (l, Some r) => l :: split_on sep fuel r
              | (l, None) => [l]
              end
  end.

(** [url.ParseQuery], whose error [URL.Query] drops: pairs that do not parse
    are skipped. *)
Definition parse_pair (p : bytes) : option (bytes * bytes) :=
  if bool_decide (p = []) then None else
  if bool_decide (";"%byte ∈ p) then None else
  let '(k, v) := cut "=" p in
  k ← QueryUnescape k; v ← QueryUnescape (default [] v); Some (k, v).

Definition parse_query (q : bytes) : list (bytes * bytes) :=
  omap parse_pair (split_on "&" (length q) q).

(** [Values.Get]: the first value of a key, or the empty string. *)
Definition query_get (k : bytes) (q : list (bytes * bytes)) : bytes :=
  default [] (snd <$> List.find (λ p, bool_decide (p.1 = k)) q).

Definition is_alpha (b : byte) : bool := in_range 97 122 b || in_range 65 90 b.
Definition is_scheme_char (b : byte) : bool :=
  is_alpha b || in_range 48 57 b || (Zb b =? 43) || (Zb b =? 45) || (Zb b =? 46).
Definition to_lower (b : byte) : byte := if in_range 65 90 b then bZ (Zb b + 32) else b.

(** [getScheme]: the scheme, if any, and the rest; [None] for a leading colon. *)
Fixpoint scheme_loop (acc s all : bytes) : option (bytes * bytes) :=
  match s with
  | [] => Some ([], all)
  | b :: s =>
    if Zb b =? 58 then if bool_decide (acc = []) then None else Some (acc, s)
    else if (if bool_decide (acc = []) then is_alpha b else is_scheme_char b)
         then scheme_loop (acc ++ [b]) s all
         else Some ([], all)
  end.
Definition getScheme (s : bytes) : option (bytes * bytes) := scheme_loop [] s s.

Record url := Url { u_Scheme : bytes; u_Opaque : bytes; u_RawQuery : bytes }.

Definition err_url : error := bs "net/url: invalid URL".

(** A fragment must unescape: two hex digits after every percent sign. *)
Fixpoint frag_ok (s : bytes) : bool :=
  match s with
  | [] => true
  | b :: s =>
    if Zb b =? 37 then
      match s with
      | h :: l :: s => match unhex_digit h, unhex_digit l with Some _, Some _ => frag_ok s | _, _ => false end
      | _ => false
      end
    else frag_ok s
  end.

(** [url.Parse] for URLs of the form scheme:opaque?query.  A URL without a
    scheme or with a path is returned without opaque part: it is an error or not
    according to its authority, and never a contact. *)
Definition url_parse (raw : bytes) : result url :=
  let '(u, frag) := cut "#" raw in
  if existsb (λ b, (Zb b <? 32) || (Zb b =? 127)) u then Err err_url else
  match getScheme u with
  | None => Err err_url
  | Some (scheme, rest) =>
    let '(rest, q) := cut "?" rest in
    let opaque := match rest with b :: _ => if Zb b =? 47 then [] else rest | [] => [] end in
    if negb (frag_ok (default [] frag)) then Err err_url else
    Ok (Url (map to_lower scheme) (if bool_decide (scheme = []) then [] else opaque) (default [] q))
  end.

(** ** Lemmas *)

(** A property of every byte is checked on the 256 values. *)
Lemma forall_bytes (p : byte → bool) :
  forallb (λ z, p (bZ z)) (seqZ 0 256) = true → ∀ b, p b = true.
Proof.
  intros H b. rewrite <-(bZ_Zb b). rewrite forallb_forall in H. apply (H (Zb b)).
  apply list_elem_of_In, elem_of_seqZ. pose proof (Zb_range b). lia.
Qed.

Definition option_Z_eqb (o : option Z) (z : Z) : bool := match o with Some x => x =? z | None => false end.

Lemma unhex_upper b :
  unhex_digit (upper_hex (Zb b / 16)) = Some (Zb b / 16) ∧
  unhex_digit (upper_hex (Zb b mod 16)) = Some (Zb b mod 16).
Proof.
  assert (option_Z_eqb (unhex_digit (upper_hex (Zb b / 16))) (Zb b / 16)
       && option_Z_eqb (unhex_digit (upper_hex (Zb b mod 16))) (Zb b mod 16) = true) as H.
  { revert b. apply forall_bytes. vm_compute. reflexivity. }
  apply andb_true_iff in H as [H1 H2].
  destruct (unhex_digit _) as [x|]; [|done]. apply Z.eqb_eq in H1 as ->.
  destruct (unhex_digit _) as [y|]; [|done]. by apply Z.eqb_eq in H2 as ->.
Qed.

Lemma unreserved_plain b : unreserved b = true → (Zb b =? 37) = false ∧ (Zb b =? 43) = false.
Proof.
  assert (negb (unreserved b) || (negb (Zb b =? 37) && negb (Zb b =? 43)) = true) as H.
  { revert b. apply forall_bytes. vm_compute. reflexivity. }
  intros E. rewrite E in H. cbn [negb orb] in H. apply andb_true_iff in H as [H1 H2].
  by apply negb_true_iff in H1, H2.
Qed.

Lemma QueryUnescape_cons b s :
  QueryUnescape (escape_byte b ++ s) = cons b <$> QueryUnescape s.
Proof.
  unfold escape_byte. destruct (unreserved b) eqn:E.
  - apply unreserved_plain in E as [E1 E2]. cbn [app QueryUnescape]. by rewrite E1, E2.
  - destruct (Z.eqb_spec (Zb b) 32) as [Hb|Hb].
    + cbn [app QueryUnescape]. change (Zb "+" =? 37) with false. cbv iota.
      change (Zb "+" =? 43) with true. cbv iota. assert (b = " "%byte) as -> by (by apply Zb_inj). done.
    + cbn [app QueryUnescape]. change (Zb "%" =? 37) with true. cbv iota.
      destruct (unhex_upper b) as [-> ->]. cbn [mbind option_bind].
      replace (Zb b / 16 * 16 + Zb b mod 16) with (Zb b) by zlia. by rewrite bZ_Zb.
Qed.

Lemma QueryUnescape_QueryEscape s : QueryUnescape (QueryEscape s) = Some s.
Proof.
  induction s as [|b s IH]; [done|]. unfold QueryEscape in *. cbn [flat_map].
  by rewrite QueryUnescape_cons, IH.
Qed.

(** The bytes an escaped string is made of. *)
Definition safe (b : byte) : bool := unreserved b || (Zb b =? 37) || (Zb b =? 43).

Lemma escape_safe s : Forall (λ b, safe b = true) (QueryEscape s).
Proof.
  unfold QueryEscape. induction s as [|b s IH]; [constructor|]. cbn [flat_map]. apply Forall_app_2; [|done].
  assert (forallb safe (escape_byte b) = true) as H.
  { revert b. apply forall_bytes. vm_compute. reflexivity. }
  clear IH. induction (escape_byte b); cbn in *; [constructor|].
  apply andb_true_iff in H as [? ?]. constructor; auto.
Qed.

Lemma cut_none sep s : sep ∉ s → cut sep s = (s, None).
Proof.
  induction s as [|b s IH]; intros Hs; [done|]. apply not_elem_of_cons in Hs as [Hb Hs].
  cbn. destruct (Byte.eqb b sep) eqn:E; [apply Byte.byte_dec_bl in E; congruence|]. by rewrite IH.
Qed.

Lemma cut_some sep l r : sep ∉ l → cut sep (l ++ sep :: r) = (l, Some r).
Proof.
  induction l as [|b l IH]; intros Hl; cbn; [by rewrite (Byte.byte_dec_lb eq_refl)|].
  apply not_elem_of_cons in Hl as [Hb Hl].
  destruct (Byte.eqb b sep) eqn:E; [apply Byte.byte_dec_bl in E; congruence|]. by rewrite IH.
Qed.

Lemma not_safe_notin b s : safe b = false → Forall (λ b, safe b = true) s → b ∉ s.
Proof. intros Hb Hs Hin. rewrite Forall_forall in Hs. rewrite (Hs b Hin) in Hb. done. Qed.

Lemma escape_notin b s : safe b = false → b ∉ QueryEscape s.
Proof. intros. eapply not_safe_notin; [done|apply escape_safe]. Qed.
