(* ===== verification/Contact.v ===== *)
(** * Contacts ([pkg/contact])

    The trust-on-first-use contact book and the contact URI. *)

From stdpp Require Import sorting.
From S2P Require Import Prelude Bytes Encoding Strconv GoTime Curve Identity Url.
Open Scope Z_scope.

(** ** The code *)

Record Contact := MkContact {
  c_Handle : bytes;
  c_IdentityKey : bytes;
  c_Fingerprint : bytes;
  c_AddedAt : gotime;
  c_Verified : bool;
}.

(** [ErrKeyChanged]. *)
Definition ErrKeyChanged : error := bs "contact: identity key changed".

(** [New]; [now] is what [time.Now().UTC()] shows. *)
Definition New (now : gotime) (handle key : bytes) : Contact :=
  MkContact handle key (Fingerprint key) now false.

(** [Memory]. *)
Record book := MkBook { b_m : gmap bytes Contact }.

Definition NewBook : book := MkBook ∅.

Definition SeenKey (now : gotime) (handle key : bytes) : M book Contact := λ b,
  match b_m b !! handle with
  | Some existing =>
    if negb (bool_decide (c_IdentityKey existing = key)) then (Err ErrKeyChanged, b) else (Ok existing, b)
  | None => let c := New now handle key in (Ok c, MkBook (<[handle := c]> (b_m b)))
  end.

Definition Get (b : book) (handle : bytes) : option Contact := b_m b !! handle.

Definition by_handle (c d : Contact) : Prop := bytes_leb (c_Handle c) (c_Handle d) = true.
#[global] Instance by_handle_dec c d : Decision (by_handle c d).
Proof. unfold by_handle. apply _. Defined.

(** [List]: the values in map order, sorted by handle. *)
Definition List (b : book) : list Contact := merge_sort by_handle (map snd (map_to_list (b_m b))).

Definition MarkVerified (handle : bytes) : M book unit := λ b,
  match b_m b !! handle with
  | None => (Err (bs "contact: unknown handle"), b)
  | Some c => (Ok tt, MkBook (<[handle := MkContact (c_Handle c) (c_IdentityKey c) (c_Fingerprint c)
                                            (c_AddedAt c) true]> (b_m b)))
  end.

Definition Remove (handle : bytes) : M book unit := λ b, (Ok tt, MkBook (delete handle (b_m b))).

(** [URI]: the two query values in key order, then [URL.String]. *)
Definition URI (handle key : bytes) : bytes :=
  let q := bs "k=" ++ QueryEscape (b64_encode true false key)
           ++ (if bool_decide (handle = []) then [] else bs "&n=" ++ QueryEscape handle) in
  bs "stunner:contact" ++ "?"%byte :: q.

(** [ParseURI]. *)
Definition ParseURI (now : gotime) (s : bytes) : result Contact :=
  let? u := url_parse s in
  if negb (bool_decide (u_Scheme u = bs "stunner")) || negb (bool_decide (u_Opaque u = bs "contact"))
  then Err (bs "contact: not a stunner contact URI") else
  let q := parse_query (u_RawQuery u) in
  match b64_decode true false (query_get (bs "k") q) with
  | None => Err (bs "contact: bad key encoding")
  | Some raw =>
    if decide (length raw ≠ PublicKeySize) then Err (bs "contact: wrong key length")
    else Ok (New now (query_get (bs "n") q) raw)
  end.

(** ** The URI round trip *)

Lemma k_notin : ∀ b : byte, safe b = false → b ≠ "="%byte → b ∉ bs "k=" .
Proof.
  intros b Hb He Hin. cbn in Hin. apply elem_of_cons in Hin as [->|Hin]; [done|].
  by apply list_elem_of_singleton in Hin as ->.
Qed.

Definition query (handle key : bytes) : bytes :=
  bs "k=" ++ QueryEscape (b64_encode true false key)
  ++ (if bool_decide (handle = []) then [] else bs "&n=" ++ QueryEscape handle).

Lemma split_on_one sep fuel s : sep ∉ s → split_on sep fuel s = [s].
Proof. intros Hs. destruct fuel; [done|]. cbn. by rewrite cut_none. Qed.

Lemma split_on_two sep fuel a b :
  sep ∉ a → sep ∉ b → (0 < fuel)%nat → split_on sep fuel (a ++ sep :: b) = [a; b].
Proof.
  intros Ha Hb Hf. destruct fuel as [|fuel]; [lia|]. cbn [split_on]. rewrite cut_some by done.
  by rewrite split_on_one.
Qed.

Lemma parse_pair_escape k s :
  k ≠ "="%byte → safe k = true → unreserved k = true →
  parse_pair (k :: "="%byte :: QueryEscape s) = Some ([k], s).
Proof.
  intros Hk Hs Hu. unfold parse_pair. rewrite bool_decide_false by done.
  rewrite bool_decide_false.
  2:{ rewrite !not_elem_of_cons. split_and!; [by intros <-|done|by apply escape_notin]. }
  change (k :: "="%byte :: QueryEscape s) with ([k] ++ "="%byte :: QueryEscape s).
  rewrite cut_some by (apply not_elem_of_cons; split; [congruence|apply not_elem_of_nil]).
  cbn [default QueryUnescape]. apply unreserved_plain in Hu as [-> ->]. cbn [fmap option_fmap option_map mbind option_bind].
  unfold default, from_option, id. by rewrite QueryUnescape_QueryEscape.
Qed.

Lemma parse_query_query handle key :
  parse_query (query handle key)
  = (bs "k", b64_encode true false key) :: (if bool_decide (handle = []) then [] else [(bs "n", handle)]).
Proof.
  unfold parse_query, query. change (bs "k=") with ["k"; "="]%byte. cbn [app].
  case_bool_decide as Hh.
  - rewrite app_nil_r, split_on_one.
    + cbn [omap list_omap]. by rewrite parse_pair_escape.
    + rewrite !not_elem_of_cons. split_and!; [done..|by apply escape_notin].
  - change (bs "&n=" ++ QueryEscape handle) with ("&"%byte :: "n"%byte :: "="%byte :: QueryEscape handle).
    change ("k"%byte :: "="%byte :: QueryEscape (b64_encode true false key) ++ "&"%byte :: "n"%byte :: "="%byte :: QueryEscape handle)
      with (("k"%byte :: "="%byte :: QueryEscape (b64_encode true false key)) ++ "&"%byte :: ("n"%byte :: "="%byte :: QueryEscape handle)).
    rewrite split_on_two.
    + cbn [omap list_omap]. by rewrite !parse_pair_escape.
    + rewrite !not_elem_of_cons. split_and!; [done..|by apply escape_notin].
    + rewrite !not_elem_of_cons. split_and!; [done..|by apply escape_notin].
    + cbn. lia.
Qed.

(** The bytes of a contact query: neither a control byte nor a delimiter. *)
Lemma query_chars handle key b : b ∈ query handle key → safe b = true ∨ b = "="%byte ∨ b = "&"%byte.
Proof.
  pose proof (escape_safe (b64_encode true false key)) as H1.
  pose proof (escape_safe handle) as H2. rewrite Forall_forall in H1, H2.
  unfold query. rewrite !elem_of_app. intros [Hb|[Hb|Hb]]; [|by left; apply H1|].
  - apply elem_of_cons in Hb as [->|Hb]; [by left|]. apply list_elem_of_singleton in Hb as ->. auto.
  - case_bool_decide; [by apply not_elem_of_nil in Hb|]. apply elem_of_app in Hb as [Hb|Hb]; [|by left; apply H2].
    apply elem_of_cons in Hb as [->|Hb]; [auto|]. apply elem_of_cons in Hb as [->|Hb]; [by left|].
    apply list_elem_of_singleton in Hb as ->. auto.
Qed.

Lemma query_no handle key b :
  safe b = false → b ≠ "="%byte → b ≠ "&"%byte → b ∉ query handle key.
Proof. intros Hb ?? [H|[H|H]]%query_chars; congruence. Qed.

Lemma url_parse_URI handle key :
  url_parse (URI handle key) = Ok (Url (bs "stunner") (bs "contact") (query handle key)).
Proof.
  unfold url_parse, URI. fold (query handle key).
  change (bs "stunner:contact" ++ "?"%byte :: query handle key)
    with ((bs "stunner:contact" ++ ["?"%byte]) ++ query handle key).
  rewrite cut_none.
  2:{ rewrite elem_of_app. intros [H|H]; [|by apply query_no in H].
      revert H. vm_compute. intros H.
      repeat (apply elem_of_cons in H as [H|H]; [discriminate H|]). by apply not_elem_of_nil in H. }
  assert (existsb (λ b, (Zb b <? 32) || (Zb b =? 127)) ((bs "stunner:contact" ++ ["?"%byte]) ++ query handle key) = false) as ->.
  { rewrite existsb_app. apply orb_false_iff. split; [vm_compute; reflexivity|].
    apply not_true_iff_false. rewrite existsb_exists. intros (b & Hb & Hc).
    apply list_elem_of_In, query_chars in Hb. 
    assert (implb (safe b || Byte.eqb b "=" || Byte.eqb b "&") (negb ((Zb b <? 32) || (Zb b =? 127))) = true) as H.
    { clear. revert b. apply forall_bytes. vm_compute. reflexivity. }
    rewrite Hc in H. destruct Hb as [Hb|[->| ->]]; [rewrite Hb in H|..]; discriminate H. }
  change ((bs "stunner:contact" ++ ["?"%byte]) ++ query handle key)
    with (bs "stunner" ++ ":"%byte :: (bs "contact" ++ "?"%byte :: query handle key)).
  assert (getScheme (bs "stunner" ++ ":"%byte :: (bs "contact" ++ "?"%byte :: query handle key))
          = Some (bs "stunner", bs "contact" ++ "?"%byte :: query handle key)) as -> by done.
  rewrite cut_some; [done|].
  vm_compute. intros H. repeat (apply elem_of_cons in H as [H|H]; [discriminate H|]). by apply not_elem_of_nil in H.
Qed.

Lemma ParseURI_URI now handle key :
  length key = PublicKeySize → ParseURI now (URI handle key) = Ok (New now handle key).
Proof.
  intros Hk. unfold ParseURI. rewrite url_parse_URI. cbn [bindR u_Scheme u_Opaque u_RawQuery].
  rewrite !bool_decide_true by done. cbn [negb orb]. rewrite parse_query_query.
  assert (∀ l, query_get (bs "k") ((bs "k", b64_encode true false key) :: l) = b64_encode true false key) as -> by done.
  rewrite b64_decode_encode. rewrite decide_False by (by rewrite Hk; intros []).
  do 2 f_equal. case_bool_decide as Hh; [by rewrite Hh|done].
Qed.

(** ** Trust on first use *)

Inductive op :=
  | OSeen (now : gotime) (handle key : bytes)
  | OVerify (handle : bytes)
  | ORemove (handle : bytes).

Definition apply_op (b : book) (o : op) : book :=
  match o with
  | OSeen now h k => (SeenKey now h k b).2
  | OVerify h => (MarkVerified h b).2
  | ORemove h => (Remove h b).2
  end.

(** Every contact is stored under its handle, with its own fingerprint. *)
Definition wf_book (b : book) : Prop :=
  map_Forall (λ h c, c_Handle c = h ∧ c_Fingerprint c = Fingerprint (c_IdentityKey c)) (b_m b).

Lemma apply_op_wf b o : wf_book b → wf_book (apply_op b o).
Proof.
  intros Hb. destruct o as [now h k|h|h]; unfold apply_op, SeenKey, MarkVerified, Remove.
  - destruct (b_m b !! h) as [c|] eqn:E; [by destruct (negb _)|]. cbn. by apply map_Forall_insert_2.
  - destruct (b_m b !! h) as [c|] eqn:E; [|done]. cbn. apply map_Forall_insert_2; [|done].
    by destruct (Hb h c E).
  - cbn. by apply map_Forall_delete.
Qed.

Lemma reachable_wf ops : wf_book (fold_left apply_op ops NewBook).
Proof.
  assert (∀ b, wf_book b → wf_book (fold_left apply_op ops b)) as H.
  { induction ops; cbn; auto using apply_op_wf. }
  apply H, map_Forall_empty.
Qed.

(** The key pinned for a handle. *)
Definition pinned (b : book) (h : bytes) : option bytes := c_IdentityKey <$> b_m b !! h.

Lemma pinned_apply_op b o h k : pinned b h = Some k → o ≠ ORemove h → pinned (apply_op b o) h = Some k.
Proof.
  unfold pinned. intros Hk Ho. destruct o as [now h' k'|h'|h']; unfold apply_op, SeenKey, MarkVerified, Remove.
  - destruct (b_m b !! h') as [c|] eqn:E; [by destruct (negb _)|]. cbn.
    rewrite lookup_insert_ne; [done|]. intros ->. by rewrite E in Hk.
  - destruct (b_m b !! h') as [c|] eqn:E; [|done]. cbn. destruct (decide (h' = h)) as [->|].
    + rewrite E in Hk. by rewrite lookup_insert_eq.
    + by rewrite lookup_insert_ne.
  - cbn. rewrite lookup_delete_ne; [done|]. congruence.
Qed.

Lemma pinned_apply_ops b ops h k :
  pinned b h = Some k → ORemove h ∉ ops → pinned (fold_left apply_op ops b) h = Some k.
Proof.
  revert b. induction ops as [|o ops IH]; intros b Hk Hn; [done|].
  apply not_elem_of_cons in Hn as [Hne Hn]. cbn. apply IH; [|done]. by apply pinned_apply_op.
Qed.

Lemma SeenKey_pinned now h k b :
  (∀ c, (SeenKey now h k b).1 = Ok c → pinned (SeenKey now h k b).2 h = Some k ∧ c_IdentityKey c = k) ∧
  (∀ k', pinned b h = Some k' → k' ≠ k → SeenKey now h k b = (Err ErrKeyChanged, b)) ∧
  (pinned b h = Some k → ∃ c, SeenKey now h k b = (Ok c, b)).
Proof.
  unfold SeenKey, pinned. destruct (b_m b !! h) as [e|] eqn:E; cbn.
  - case_bool_decide as Hk; cbn; split_and!; try (intros; congruence).
    + intros c [= <-]. rewrite E. cbn. by rewrite Hk.
    + eauto.
  - split_and!; [|intros; congruence..]. intros c [= <-]. rewrite lookup_insert_eq. done.
Qed.

Lemma by_handle_trans : Transitive by_handle.
Proof.
  intros c d e. unfold by_handle, bytes_leb.
  destruct (bytes_compare (c_Handle c) (c_Handle d)) eqn:E1; [|destruct (bytes_compare (c_Handle d) (c_Handle e)) eqn:E2|done].
  - apply bytes_compare_eq in E1 as ->. done.
  - apply bytes_compare_eq in E2 as <-. by rewrite E1.
  - by rewrite (bytes_compare_lt_trans _ _ _ E1 E2).
  - done.
Qed.

Lemma by_handle_total : Total by_handle.
Proof.
  intros c d. unfold by_handle. destruct (bytes_leb (c_Handle c) (c_Handle d)) eqn:E; [by left|].
  right. by apply bytes_leb_total.
Qed.

Section properties.
(** C30: a handle's key is pinned by its first use.  Once [SeenKey] has
    returned a contact for a handle, then whatever else happens to the book
    short of removing that handle, the same key is accepted with nothing
    stored, and any other key is refused with [ErrKeyChanged] and nothing
    stored. *)
Theorem tofu_pins_key now handle key b c ops now' key' :
  (SeenKey now handle key b).1 = Ok c → ORemove handle ∉ ops →
  let b' := fold_left apply_op ops (SeenKey now handle key b).2 in
  if decide (key' = key)
  then ∃ c', SeenKey now' handle key' b' = (Ok c', b') ∧ c_IdentityKey c' = key
  else SeenKey now' handle key' b' = (Err ErrKeyChanged, b').
Proof.
  intros E Hn b'. destruct (SeenKey_pinned now handle key b) as (H1 & _ & _).
  destruct (H1 c E) as [Hp _].
  assert (pinned b' handle = Some key) as Hp' by (by apply pinned_apply_ops).
  destruct (SeenKey_pinned now' handle key' b') as (G1 & G2 & G3). case_decide as Hk.
  - subst key'. destruct (G3 Hp') as [c' Hc]. exists c'. split; [done|].
    destruct (G1 c') as [_ ?]; [by rewrite Hc|done].
  - by apply (G2 key).
Qed.

(** C31: a contact URI carries exactly the handle and the key: parsing what
    [URI] prints gives back the contact, for every handle (any octets) and
    every 32-octet key. *)
Theorem contact_uri_roundtrip now handle key :
  length key = PublicKeySize → ParseURI now (URI handle key) = Ok (New now handle key).
Proof. apply ParseURI_URI. Qed.

(** [List] shows each contact of the book once, in the order of their
    handles, in every book the operations can build. *)
Theorem list_sorted_complete ops :
  let b := fold_left apply_op ops NewBook in
  StronglySorted by_handle (List b) ∧ NoDup (map c_Handle (List b)) ∧
  (∀ c, c ∈ List b ↔ b_m b !! c_Handle c = Some c).
Proof.
  intros b. pose proof (reachable_wf ops) as Hwf. fold b in Hwf.
  pose proof by_handle_trans. pose proof by_handle_total.
  assert (List b ≡ₚ map snd (map_to_list (b_m b))) as Hp by apply merge_sort_Permutation.
  assert (map c_Handle (map snd (map_to_list (b_m b))) = map fst (map_to_list (b_m b))) as Hh.
  { rewrite map_map. apply map_ext_in. intros [h c] Hin%list_elem_of_In%elem_of_map_to_list.
    by destruct (Hwf h c Hin). }
  split_and!.
  - apply StronglySorted_merge_sort; done.
  - rewrite Hp, Hh. apply NoDup_fst_map_to_list.
  - intros c. rewrite Hp, list_elem_of_fmap. split.
    + intros ([h c'] & -> & Hin%elem_of_map_to_list). cbn. by destruct (Hwf h c' Hin) as [-> _].
    + intros Hc. exists (c_Handle c, c). split; [done|]. by apply elem_of_map_to_list.
Qed.
End properties.

Lemma tofu_pins_key_witness :
  (SeenKey zero_time (bs "bob") (bs "K2") (SeenKey zero_time (bs "bob") (bs "K1") NewBook).2).1 = Err ErrKeyChanged.
Proof.
  pose proof (tofu_pins_key zero_time (bs "bob") (bs "K1") NewBook (New zero_time (bs "bob") (bs "K1")) []
                zero_time (bs "K2") eq_refl (not_elem_of_nil _)) as H.
  rewrite decide_False in H by (intros E; discriminate E). cbn [fold_left] in H. rewrite H. reflexivity.
Defined.

Lemma contact_uri_roundtrip_witness :
  ParseURI zero_time (URI (bs "Bob & co") (be_bytes 32 7)) = Ok (New zero_time (bs "Bob & co") (be_bytes 32 7)).
Proof. apply contact_uri_roundtrip. apply length_be_bytes. Defined.
