(* ===== verification/Settings.v ===== *)
(** * Settings ([pkg/settings])

    User preferences, their defaults and their JSON. *)

From S2P Require Import Prelude Bytes Strconv Json Codec.
Open Scope Z_scope.

(** ** The code *)

Record ICEServer := MkICE { i_URLs : option (list bytes); i_Username : bytes; i_Credential : bytes }.

Record Settings := MkSettings {
  st_ICEServers : option (list ICEServer);
  st_RelayEnabled : bool;
  st_RelayAddress : bytes;
  st_AppLock : bytes;
  st_Disappearing : Z;
}.

Definition DefaultICEServers : list ICEServer := [
  MkICE (Some [bs "stun:stun.l.google.com:19302"]) [] [];
  MkICE (Some [bs "stun:stun1.l.google.com:19302"]) [] []].

Definition Default : Settings := MkSettings (Some DefaultICEServers) false [] (bs "none") 0.

(** [Settings.EffectiveICEServers]. *)
Definition EffectiveICEServers (s : Settings) : list ICEServer :=
  match default [] (st_ICEServers s) with [] => DefaultICEServers | l => l end.

Definition enc_ICE (s : ICEServer) : json :=
  enc_struct [field_of "urls" (enc_strs (i_URLs s));
              omitempty (bool_decide (i_Username s = [])) "username" (enc_str (i_Username s));
              omitempty (bool_decide (i_Credential s = [])) "credential" (enc_str (i_Credential s))].

Definition zero_ICE : ICEServer := MkICE None [] [].

Definition ICE_fields : list (field ICEServer) := [
  fld "urls" i_URLs (λ v s, MkICE v (i_Username s) (i_Credential s)) (dec_list [] dec_str);
  fld "username" i_Username (λ v s, MkICE (i_URLs s) v (i_Credential s)) dec_str;
  fld "credential" i_Credential (λ v s, MkICE (i_URLs s) (i_Username s) v) dec_str].

Definition enc_Settings (s : Settings) : json :=
  enc_struct [field_of "iceServers" (match st_ICEServers s with None => JNull | Some l => JArr (map enc_ICE l) end);
              field_of "relayEnabled" (JBool (st_RelayEnabled s));
              omitempty (bool_decide (st_RelayAddress s = [])) "relayAddress" (enc_str (st_RelayAddress s));
              field_of "appLock" (enc_str (st_AppLock s));
              field_of "disappearingDefaultSeconds" (enc_int (st_Disappearing s))].

Definition zero_Settings : Settings := MkSettings None false [] [] 0.

Definition Settings_fields : list (field Settings) := [
  fld "iceServers" st_ICEServers
    (λ v s, MkSettings v (st_RelayEnabled s) (st_RelayAddress s) (st_AppLock s) (st_Disappearing s))
    (dec_list zero_ICE (dec_struct ICE_fields));
  fld "relayEnabled" st_RelayEnabled
    (λ v s, MkSettings (st_ICEServers s) v (st_RelayAddress s) (st_AppLock s) (st_Disappearing s)) dec_bool;
  fld "relayAddress" st_RelayAddress
    (λ v s, MkSettings (st_ICEServers s) (st_RelayEnabled s) v (st_AppLock s) (st_Disappearing s)) dec_str;
  fld "appLock" st_AppLock
    (λ v s, MkSettings (st_ICEServers s) (st_RelayEnabled s) (st_RelayAddress s) v (st_Disappearing s)) dec_str;
  fld "disappearingDefaultSeconds" st_Disappearing
    (λ v s, MkSettings (st_ICEServers s) (st_RelayEnabled s) (st_RelayAddress s) (st_AppLock s) v) (dec_int 64)].

(** [Settings.JSON], [FromJSON]. *)
Definition JSON (s : Settings) : bytes := marshal (enc_Settings s).
Definition FromJSON (b : bytes) : Settings * option error := unmarshal (dec_struct Settings_fields) zero_Settings b.

(** ** Round trip *)

Definition wf_ICE (s : ICEServer) : Prop :=
  match i_URLs s with None => True | Some l => Forall (λ u, valid_utf8 u = true) l end ∧
  valid_utf8 (i_Username s) = true ∧ valid_utf8 (i_Credential s) = true.

Definition wf_Settings (s : Settings) : Prop :=
  Forall wf_ICE (default [] (st_ICEServers s)) ∧ valid_utf8 (st_RelayAddress s) = true ∧
  valid_utf8 (st_AppLock s) = true ∧ 0 ≤ st_Disappearing s < 2 ^ 63.

Lemma wf_enc_ICE s : wf_ICE s → wf_json (enc_ICE s).
Proof. intros (Hu & Hn & Hc). unfold enc_ICE. wf_struct; auto with stunner. Qed.

Lemma dec_enc_ICE s : dec_struct ICE_fields (enc_ICE s) zero_ICE = (s, None).
Proof.
  destruct s as [u n c]. unfold enc_ICE. cbn [i_URLs i_Username i_Credential].
  pose proof (dec_enc_strs u None) as Hu. revert Hu. generalize (enc_strs u) as j. intros j Hu.
  destruct (bool_decide_reflect (n = [])) as [->|], (bool_decide_reflect (c = [])) as [->|];
    dec_obj ltac:(unfold zero_ICE; cbn [i_URLs i_Username i_Credential] in *; rewrite ?Hu).
Qed.

#[local] Opaque enc_ICE ICE_fields.

Lemma dec_enc_Settings s :
  0 ≤ st_Disappearing s < 2 ^ 63 → dec_struct Settings_fields (enc_Settings s) zero_Settings = (s, None).
Proof.
  destruct s as [l r a k d]. cbn [st_Disappearing]. intros Hd. unfold enc_Settings.
  cbn [st_ICEServers st_RelayEnabled st_RelayAddress st_AppLock st_Disappearing].
  assert (∀ z, dec_list zero_ICE (dec_struct ICE_fields)
            (match l with None => JNull | Some l => JArr (map enc_ICE l) end) z = (l, None)) as Hl.
  { intros z. destruct l as [l|]; [|done]. cbn.
    by rewrite (dec_elems_map zero_ICE _ enc_ICE) by (intros; apply dec_enc_ICE). }
  revert Hl. generalize (match l with None => JNull | Some l => JArr (map enc_ICE l) end) as j. intros j Hl.
  destruct (bool_decide_reflect (a = [])) as [->|]; dec_obj ltac:(rewrite ?Hl, ?dec_enc_int by done).
Qed.

Lemma wf_enc_Settings s : wf_Settings s → wf_json (enc_Settings s).
Proof.
  intros (Hi & Ha & Hk & Hd). unfold enc_Settings. wf_struct; auto with stunner; [|exact I].
  destruct (st_ICEServers s) as [l|]; [|done]. apply wf_json_arr.
  cbn in Hi. induction Hi; cbn; [constructor|]. constructor; [by apply wf_enc_ICE|done].
Qed.

Lemma FromJSON_JSON s : wf_Settings s → FromJSON (JSON s) = (s, None).
Proof.
  intros Hs. unfold FromJSON, JSON. rewrite unmarshal_marshal by by apply wf_enc_Settings.
  apply dec_enc_Settings, Hs.
Qed.

Lemma Default_wf : wf_Settings Default.
Proof. split_and!; [|done..]. repeat constructor. Qed.

Section properties.
(** Settings cross the FFI boundary and the store unchanged. *)
Theorem settings_roundtrip s : wf_Settings s → FromJSON (JSON s) = (s, None).
Proof. apply FromJSON_JSON. Qed.

(** The transport always gets a server: the configured ones if there are
    any, otherwise the public defaults, and never none. *)
Theorem effective_servers s :
  EffectiveICEServers s ≠ [] ∧
  EffectiveICEServers s = match st_ICEServers s with
                          | Some (x :: l) => x :: l
                          | _ => DefaultICEServers
                          end.
Proof. unfold EffectiveICEServers. by destruct (st_ICEServers s) as [[|x l]|]. Qed.
End properties.

Lemma settings_roundtrip_witness : FromJSON (JSON Default) = (Default, None).
Proof. apply settings_roundtrip. exact Default_wf. Defined.
