(* ===== verification/Emoji.v ===== *)
(** * Emoji ([pkg/emoji])

    Shortcode lookup, replacement in text, and packs of animated emoji. *)

From S2P Require Import Prelude Bytes Strconv Json Codec Url.
Open Scope Z_scope.

(** ** [emoji.go] *)

Record Animated := MkAnimated { an_ID : bytes; an_Shortcode : bytes; an_Format : bytes; an_AssetRef : bytes }.

Definition utf (l : list Z) : bytes := map bZ l.

Definition shortcodes : list (bytes * bytes) := [
  (bs "smile", utf [240;159;152;132]); (bs "grin", utf [240;159;152;129]);
  (bs "joy", utf [240;159;152;130]); (bs "heart", utf [226;157;164;239;184;143]);
  (bs "thumbsup", utf [240;159;145;141]); (bs "thumbsdown", utf [240;159;145;142]);
  (bs "fire", utf [240;159;148;165]); (bs "tada", utf [240;159;142;137]);
  (bs "rocket", utf [240;159;154;128]); (bs "eyes", utf [240;159;145;128]);
  (bs "wave", utf [240;159;145;139]); (bs "lock", utf [240;159;148;146])].

Fixpoint assoc (k : bytes) (l : list (bytes * bytes)) : option bytes :=
  match l with
  | [] => None
  | (k', v) :: l => if bool_decide (k' = k) then Some v else assoc k l
  end.

(** [strings.ToLower] as far as ASCII results go: the ASCII letters and the two
    other runes whose lower case is one.  No key of the catalog has any other
    rune. *)
Definition lower_chunk (c : rchunk) : bytes :=
  match c with
  | Rune [b] => [to_lower b]
  | Rune e => if decide (e = ["226"; "132"; "170"]%byte) then ["k"%byte]
              else if decide (e = ["196"; "176"]%byte) then ["i"%byte] else e
  | Bad => replacement
  end.
Definition ToLower (s : bytes) : bytes := flat_map lower_chunk (runes s).

(** [Lookup]. *)
Definition Lookup (shortcode : bytes) : option bytes := assoc (ToLower shortcode) shortcodes.

(** The loop of [Replace]: two colons go with each turn, so the length of the
    text bounds the turns. *)
Fixpoint replace_loop (fuel : nat) (s : bytes) : bytes :=
  match fuel with
  | O => s
  | S fuel =>
    match cut ":" s with
    | (_, None) => s
    | (pre, Some tail) =>
      match cut ":" tail with
      | (_, None) => pre ++ ":"%byte :: tail
      | (name, Some rest) =>
        pre ++ match Lookup name with
               | Some e => e
               | None => ":"%byte :: name ++ [":"%byte]
               end ++ replace_loop fuel rest
      end
    end
  end.

Definition Replace (s : bytes) : bytes := replace_loop (length s) s.

(** ** [animated.go] *)

(** [strings.Trim(s, ":")]. *)
Fixpoint trim_left (s : bytes) : bytes :=
  match s with b :: t => if Byte.eqb b ":" then trim_left t else s | [] => [] end.
Definition Trim (s : bytes) : bytes := rev (trim_left (rev (trim_left s))).

Record Pack := MkPack {
  p_Name : bytes;
  p_Emoji : option (list Animated);
  p_byID : gmap bytes Animated;
  p_byShort : gmap bytes Animated;
}.

(** [Pack.index]. *)
Definition index (p : Pack) : Pack :=
  let l := default [] (p_Emoji p) in
  MkPack (p_Name p) (p_Emoji p)
    (fold_left (λ m e, <[an_ID e := e]> m) l ∅)
    (fold_left (λ m e, <[Trim (an_Shortcode e) := e]> m) l ∅).

Definition NewPack (name : bytes) (emoji : list Animated) : Pack :=
  index (MkPack name (Some emoji) ∅ ∅).

Definition Animated_fields : list (field Animated) := [
  fld "id" an_ID (λ v e, MkAnimated v (an_Shortcode e) (an_Format e) (an_AssetRef e)) dec_str;
  fld "shortcode" an_Shortcode (λ v e, MkAnimated (an_ID e) v (an_Format e) (an_AssetRef e)) dec_str;
  fld "format" an_Format (λ v e, MkAnimated (an_ID e) (an_Shortcode e) v (an_AssetRef e)) dec_str;
  fld "assetRef" an_AssetRef (λ v e, MkAnimated (an_ID e) (an_Shortcode e) (an_Format e) v) dec_str].

Definition Pack_fields : list (field Pack) := [
  fld "name" p_Name (λ v p, MkPack v (p_Emoji p) (p_byID p) (p_byShort p)) dec_str;
  fld "emoji" p_Emoji (λ v p, MkPack (p_Name p) v (p_byID p) (p_byShort p))
    (dec_list (MkAnimated [] [] [] []) (dec_struct Animated_fields))].

(** [LoadPack]. *)
Definition LoadPack (manifest : bytes) : result Pack :=
  let? p := unmarshal_ok (dec_struct Pack_fields) (MkPack [] None ∅ ∅) manifest in
  Ok (index p).

Definition ByID (p : Pack) (id : bytes) : option Animated := p_byID p !! id.
Definition ByShortcode (p : Pack) (shortcode : bytes) : option Animated := p_byShort p !! Trim shortcode.

(** ** Lemmas *)

Lemma cut_app sep s l r : cut sep s = (l, Some r) → s = l ++ sep :: r ∧ sep ∉ l.
Proof.
  revert l. induction s as [|b s IH]; intros l E; [discriminate E|]. cbn in E.
  destruct (Byte.eqb b sep) eqn:Eb.
  - apply Byte.byte_dec_bl in Eb as ->. injection E as <- <-. split; [done|apply not_elem_of_nil].
  - destruct (cut sep s) as [l' r'] eqn:Ec. injection E as <- ->. destruct (IH l' eq_refl) as [-> Hn].
    split; [done|]. apply not_elem_of_cons. split; [|done]. intros ->.
    by rewrite (Byte.byte_dec_lb eq_refl) in Eb.
Qed.

(** Enough fuel is enough. *)
Lemma replace_loop_fuel f1 f2 s :
  (length s ≤ f1)%nat → (length s ≤ f2)%nat → replace_loop f1 s = replace_loop f2 s.
Proof.
  revert f2 s. induction f1 as [|f1 IH]; intros f2 s H1 H2.
  { destruct s; [|cbn in H1; lia]. by destruct f2. }
  destruct f2 as [|f2]; [destruct s; [done|cbn in H2; lia]|]. cbn [replace_loop].
  destruct (cut ":" s) as [pre [tail|]] eqn:E1; [|done]. apply cut_app in E1 as [-> _].
  destruct (cut ":" tail) as [name [rest|]] eqn:E2; [|done]. apply cut_app in E2 as [-> _].
  do 2 f_equal. rewrite !length_app in *. cbn [length] in *. rewrite !length_app in *. cbn [length] in *.
  apply IH; lia.
Qed.

Lemma Replace_token pre name rest :
  ":"%byte ∉ pre → ":"%byte ∉ name →
  Replace (pre ++ ":"%byte :: name ++ ":"%byte :: rest)
  = pre ++ match Lookup name with Some e => e | None => ":"%byte :: name ++ [":"%byte] end ++ Replace rest.
Proof.
  intros Hp Hn. unfold Replace.
  destruct (length (pre ++ ":"%byte :: name ++ ":"%byte :: rest)) as [|f] eqn:El.
  { rewrite length_app in El. cbn in El. lia. }
  cbn [replace_loop]. rewrite !cut_some by done. do 2 f_equal.
  rewrite length_app in El. cbn [length] in El. rewrite length_app in El. cbn [length] in El.
  apply replace_loop_fuel; lia.
Qed.

Lemma Replace_plain s : ":"%byte ∉ s → Replace s = s.
Proof. intros Hs. unfold Replace. destruct (length s); [done|]. cbn [replace_loop]. by rewrite cut_none. Qed.

Lemma Replace_open pre tail :
  ":"%byte ∉ pre → ":"%byte ∉ tail → Replace (pre ++ ":"%byte :: tail) = pre ++ ":"%byte :: tail.
Proof.
  intros Hp Ht. unfold Replace. destruct (length _); [done|]. cbn [replace_loop].
  by rewrite cut_some, cut_none by done.
Qed.

Lemma index_fold {K} `{Countable K} {A} (f : A → K) (l : list A) (m : gmap K A) k :
  fold_left (λ m e, <[f e := e]> m) l m !! k
  = match last (filter (λ e, f e = k) l) with Some e => Some e | None => m !! k end.
Proof.
  revert m. induction l as [|e l IH]; intros m; [done|]. cbn [fold_left]. rewrite IH.
  rewrite filter_cons. case_decide as Hk.
  - rewrite last_cons. destruct (last _); [done|]. by rewrite <-Hk, lookup_insert_eq.
  - destruct (last _); [done|]. by rewrite lookup_insert_ne.
Qed.

Section properties.
(** [Replace] terminates and works token by token.  Text without a colon
    and an unclosed token are left alone; for every text, the leftmost pair
    of colons is one token - its emoji if the name is known, itself if not -
    and the rest is treated the same way. *)
Theorem Replace_spec pre name rest :
  ":"%byte ∉ pre → ":"%byte ∉ name →
  Replace pre = pre ∧ Replace (pre ++ ":"%byte :: name) = pre ++ ":"%byte :: name ∧
  Replace (pre ++ ":"%byte :: name ++ ":"%byte :: rest)
  = pre ++ match Lookup name with Some e => e | None => ":"%byte :: name ++ [":"%byte] end ++ Replace rest.
Proof. intros. split_and!; [by apply Replace_plain|by apply Replace_open|by apply Replace_token]. Qed.

(** A token is missed when an unrelated colon precedes it: the colon that
    opens the token is taken as the one that closes the unknown name. *)
Theorem Replace_misses_token :
  Lookup (bs "fire") = Some (utf [240;159;148;165]) ∧
  Replace (bs "at 12:30 :fire:") = bs "at 12:30 :fire:".
Proof. split; vm_compute; reflexivity. Qed.

(** A pack finds its entries: a lookup by id, or by shortcode with or
    without colons, returns the last entry of the manifest with that key and
    fails exactly when there is none. *)
Theorem pack_lookup name l i code :
  ByID (NewPack name l) i = last (filter (λ e, an_ID e = i) l) ∧
  ByShortcode (NewPack name l) code = last (filter (λ e, Trim (an_Shortcode e) = Trim code) l).
Proof.
  unfold ByID, ByShortcode, NewPack, index. cbn [p_byID p_byShort p_Emoji]. unfold default, from_option.
  rewrite !index_fold, !lookup_empty. split; by destruct (last _).
Qed.
End properties.

Lemma Replace_spec_witness :
  Replace (bs "go :fire: now") = bs "go " ++ utf [240;159;148;165] ++ bs " now".
Proof.
  destruct (Replace_spec (bs "go ") (bs "fire") (bs " now")) as (_ & _ & H).
  - vm_compute. intros H. repeat (apply elem_of_cons in H as [H|H]; [discriminate H|]). by apply not_elem_of_nil in H.
  - vm_compute. intros H. repeat (apply elem_of_cons in H as [H|H]; [discriminate H|]). by apply not_elem_of_nil in H.
  - etrans; [exact H|]. vm_compute. reflexivity.
Defined.
