(* ===== verification/Storage.v ===== *)
(** * The encrypted store ([pkg/storage])

    A store is a document in memory and its sealed copy on disk; every change
    rewrites the whole file.  The file system and its failures are part of the
    state. *)

From stdpp Require Import sorting.
From S2P Require Import Prelude Bytes Gcm Strconv Json Codec GoTime Vault Settings Contact Messaging.
Open Scope Z_scope.

(** ** The document ([filestore.go]) *)

Record Conversation := MkConversation { v_ID : bytes; v_PeerID : bytes; v_DisplayName : bytes }.

Record storedMessage := MkStored { sm_Envelope : Envelope; sm_State : bytes; sm_ConvID : bytes }.

(** Slices are [None] when nil. *)
Record dbData := MkDb {
  d_Settings : option Settings;
  d_Contacts : gmap bytes Contact;
  d_Conversations : gmap bytes Conversation;
  d_Messages : gmap bytes (option (list storedMessage));
  d_Outbox : option (list storedMessage);
  d_Blobs : gmap bytes slice;
}.

Definition empty_db : dbData := MkDb None ∅ ∅ ∅ None ∅.

Definition set_Settings v d := MkDb v (d_Contacts d) (d_Conversations d) (d_Messages d) (d_Outbox d) (d_Blobs d).
Definition set_Contacts v d := MkDb (d_Settings d) v (d_Conversations d) (d_Messages d) (d_Outbox d) (d_Blobs d).
Definition set_Conversations v d := MkDb (d_Settings d) (d_Contacts d) v (d_Messages d) (d_Outbox d) (d_Blobs d).
Definition set_Messages v d := MkDb (d_Settings d) (d_Contacts d) (d_Conversations d) v (d_Outbox d) (d_Blobs d).
Definition set_Outbox v d := MkDb (d_Settings d) (d_Contacts d) (d_Conversations d) (d_Messages d) v (d_Blobs d).
Definition set_Blobs v d := MkDb (d_Settings d) (d_Contacts d) (d_Conversations d) (d_Messages d) (d_Outbox d) v.

(** *** Its JSON *)

Definition enc_Contact (c : Contact) : result json :=
  let? at_ := enc_time (c_AddedAt c) in
  Ok (enc_struct [field_of "handle" (enc_str (c_Handle c)); field_of "identityKey" (enc_slice (Some (c_IdentityKey c)));
                  field_of "fingerprint" (enc_str (c_Fingerprint c)); field_of "addedAt" at_;
                  field_of "verified" (JBool (c_Verified c))]).

Definition zero_Contact : Contact := MkContact [] [] [] zero_time false.

Definition Contact_fields : list (field Contact) := [
  fld "handle" c_Handle (λ v c, MkContact v (c_IdentityKey c) (c_Fingerprint c) (c_AddedAt c) (c_Verified c)) dec_str;
  fld "identityKey" (λ c, Some (c_IdentityKey c)) (λ v c, MkContact (c_Handle c) (sl v) (c_Fingerprint c) (c_AddedAt c) (c_Verified c)) dec_slice;
  fld "fingerprint" c_Fingerprint (λ v c, MkContact (c_Handle c) (c_IdentityKey c) v (c_AddedAt c) (c_Verified c)) dec_str;
  fld "addedAt" c_AddedAt (λ v c, MkContact (c_Handle c) (c_IdentityKey c) (c_Fingerprint c) v (c_Verified c)) dec_time;
  fld "verified" c_Verified (λ v c, MkContact (c_Handle c) (c_IdentityKey c) (c_Fingerprint c) (c_AddedAt c) v) dec_bool].

(** [messaging.Conversation] has no tags. *)
Definition enc_Conversation (c : Conversation) : result json :=
  Ok (enc_struct [field_of "ID" (enc_str (v_ID c)); field_of "PeerID" (enc_str (v_PeerID c));
                  field_of "DisplayName" (enc_str (v_DisplayName c))]).

Definition Conversation_fields : list (field Conversation) := [
  fld "ID" v_ID (λ v c, MkConversation v (v_PeerID c) (v_DisplayName c)) dec_str;
  fld "PeerID" v_PeerID (λ v c, MkConversation (v_ID c) v (v_DisplayName c)) dec_str;
  fld "DisplayName" v_DisplayName (λ v c, MkConversation (v_ID c) (v_PeerID c) v) dec_str].

Definition enc_Stored (m : storedMessage) : result json :=
  let? e := enc_Envelope (sm_Envelope m) in
  Ok (enc_struct [field_of "envelope" e; field_of "state" (enc_str (sm_State m));
                  field_of "convId" (enc_str (sm_ConvID m))]).

Definition zero_Stored : storedMessage := MkStored zero_Envelope [] [].

Definition Stored_fields : list (field storedMessage) := [
  fld "envelope" sm_Envelope (λ v m, MkStored v (sm_State m) (sm_ConvID m)) (dec_struct Envelope_fields);
  fld "state" sm_State (λ v m, MkStored (sm_Envelope m) v (sm_ConvID m)) dec_str;
  fld "convId" sm_ConvID (λ v m, MkStored (sm_Envelope m) (sm_State m) v) dec_str].

Fixpoint mapR {A B} (f : A → result B) (l : list A) : result (list B) :=
  match l with
  | [] => Ok []
  | x :: l => let? y := f x in let? r := mapR f l in Ok (y :: r)
  end.

(** A slice of structs, [null] when nil. *)
Definition enc_listR {A} (enc : A → result json) (l : option (list A)) : result json :=
  match l with None => Ok JNull | Some l => let? js := mapR enc l in Ok (JArr js) end.

(** A map: its members in the order of their keys. *)
Definition key_le {A} (x y : bytes * A) : Prop := bytes_leb x.1 y.1 = true.
#[global] Instance key_le_dec {A} (x y : bytes * A) : Decision (key_le x y).
Proof. unfold key_le. apply _. Defined.

Definition enc_map {A} (enc : A → result json) (m : gmap bytes A) : result json :=
  let? l := mapR (λ kv, let? j := enc kv.2 in Ok (kv.1, j)) (merge_sort key_le (map_to_list m)) in
  Ok (JObj l).

(** Members are assigned into the map that is there.  A [null] makes it nil in
    Go, which reads as empty; that a later write to a nil map panics is not
    modelled. *)
Definition dec_map {A} (zero : A) (d : decoder A) : decoder (gmap bytes A) := λ j m,
  match j with
  | JNull => (∅, None)
  | JObj l => fold_left (λ '(m, e) kv, let '(a, e') := d kv.2 zero in (<[kv.1 := a]> m, first_err e e')) l (m, None)
  | _ => (m, Some err_type)
  end.

Definition enc_dbData (d : dbData) : result json :=
  let? cs := enc_map enc_Contact (d_Contacts d) in
  let? vs := enc_map enc_Conversation (d_Conversations d) in
  let? ms := enc_map (enc_listR enc_Stored) (d_Messages d) in
  let? ob := enc_listR enc_Stored (d_Outbox d) in
  let? bl := enc_map (λ b, Ok (enc_slice b)) (d_Blobs d) in
  Ok (enc_struct [omitempty (is_none (d_Settings d)) "settings" (enc_opt enc_Settings (d_Settings d));
                  field_of "contacts" cs; field_of "conversations" vs; field_of "messages" ms;
                  field_of "outbox" ob; field_of "blobs" bl]).

Definition db_fields : list (field dbData) := [
  fld "settings" d_Settings set_Settings (dec_ptr zero_Settings (dec_struct Settings_fields));
  fld "contacts" d_Contacts set_Contacts (dec_map zero_Contact (dec_struct Contact_fields));
  fld "conversations" d_Conversations set_Conversations (dec_map (MkConversation [] [] []) (dec_struct Conversation_fields));
  fld "messages" d_Messages set_Messages (dec_map None (dec_list zero_Stored (dec_struct Stored_fields)));
  fld "outbox" d_Outbox set_Outbox (dec_list zero_Stored (dec_struct Stored_fields));
  fld "blobs" d_Blobs set_Blobs (dec_map None dec_slice)].

(** ** The store *)

(** What the operating system does with the next writes: succeed, or fail with
    an error and leave some content in the file (or no file). *)
Definition faults : Type := list (option (error * option bytes)).

Record fileStore := MkFS {
  fs_key : bytes;
  fs_data : dbData;
  fs_disk : option bytes;      (** the file at [path], if there is one *)
  fs_faults : faults;
}.

Definition set_data (f : dbData → dbData) (s : fileStore) : fileStore :=
  MkFS (fs_key s) (f (fs_data s)) (fs_disk s) (fs_faults s).

(** [os.WriteFile(s.path, sealed, 0o600)]. *)
Definition write_file (b : bytes) : M fileStore unit := λ s,
  match fs_faults s with
  | Some (e, left_) :: rest => (Err e, MkFS (fs_key s) (fs_data s) left_ rest)
  | None :: rest => (Ok tt, MkFS (fs_key s) (fs_data s) (Some b) rest)
  | [] => (Ok tt, MkFS (fs_key s) (fs_data s) (Some b) [])
  end.

(** [openFileStore], given what [os.MkdirAll] and [os.ReadFile] return: a file,
    no file, or another error. *)
Definition openFileStore (path key : bytes) (mkdir : option error) (read : result (option bytes))
    (fl : faults) : result fileStore :=
  if decide (length key ≠ KeySize) then Err (bs "storage: key must be 32 bytes") else
  if decide (path = []) then Err (bs "storage: empty path") else
  match mkdir with
  | Some e => Err e
  | None =>
    let? disk := read in
    match disk with
    | None => Ok (MkFS key empty_db None fl)
    | Some sealed =>
      let? blob := Open key sealed in
      let? d := unmarshal_ok (dec_struct db_fields) empty_db blob in
      Ok (MkFS key d disk fl)
    end
  end.

(** A store method runs with the shared source of randomness. *)
Abbreviation SM := (M (fileStore * tape)).

(** [flush]. *)
Definition flush : SM unit :=
  let* s := on_fst getM in
  let* blob := liftM (let? j := enc_dbData (fs_data s) in Ok (marshal j)) in
  let* sealed := on_snd (Seal (fs_key s) blob) in
  on_fst (write_file sealed).

(** A change of the document, then [flush]. *)
Definition change (f : dbData → dbData) : SM unit :=
  let* _ := on_fst (modifyM (set_data f)) in flush.

Definition LoadSettings (s : fileStore) : result Settings :=
  Ok match d_Settings (fs_data s) with None => Default | Some st => st end.

Definition SaveSettings (set : Settings) : SM unit := change (set_Settings (Some set)).

(** [Conversations] and [Contacts]: the values in map order. *)
Definition Conversations (s : fileStore) : result (list Conversation) :=
  Ok (map snd (map_to_list (d_Conversations (fs_data s)))).
Definition Contacts (s : fileStore) : result (list Contact) :=
  Ok (map snd (map_to_list (d_Contacts (fs_data s)))).

Definition UpsertConversation (c : Conversation) : SM unit :=
  change (λ d, set_Conversations (<[v_ID c := c]> (d_Conversations d)) d).

(** [s.data.Messages[convID]]: nil for an unknown conversation. *)
Definition messages_of (d : dbData) (convID : bytes) : option (list storedMessage) :=
  default None (d_Messages d !! convID).

Definition AppendMessage (convID : bytes) (env : Envelope) (state : bytes) : SM unit :=
  change (λ d, set_Messages (<[convID := Some (default [] (messages_of d convID) ++ [MkStored env state convID])]> (d_Messages d)) d).

(** [Messages]; a negative offset is a slice out of bounds. *)
Definition Messages (s : fileStore) (convID : bytes) (limit offset : Z) : result (list Envelope) :=
  let all := default [] (messages_of (fs_data s) convID) in
  let offset := if Z.of_nat (length all) <? offset then Z.of_nat (length all) else offset in
  if offset <? 0 then Err (bs "runtime error: slice bounds out of range") else
  let all := drop (Z.to_nat offset) all in
  let all := if (0 <? limit) && (limit <? Z.of_nat (length all)) then take (Z.to_nat limit) all else all in
  Ok (map sm_Envelope all).

Definition EnqueueOutbox (convID : bytes) (env : Envelope) : SM unit :=
  change (λ d, set_Outbox (Some (default [] (d_Outbox d) ++ [MkStored env StateQueued convID])) d).

Definition PendingOutbox (s : fileStore) : result (list Envelope) :=
  Ok (map sm_Envelope (default [] (d_Outbox (fs_data s)))).

(** [append([]byte(nil), v...)]: nil when there is nothing to copy. *)
Definition copy_slice (v : bytes) : slice := match v with [] => None | _ => Some v end.

Definition blob_key (namespace key : bytes) : bytes := namespace ++ "/"%byte :: key.

Definition SaveBlob (namespace key value : bytes) : SM unit :=
  change (λ d, set_Blobs (<[blob_key namespace key := copy_slice value]> (d_Blobs d)) d).

Definition LoadBlob (s : fileStore) (namespace key : bytes) : result bytes :=
  match d_Blobs (fs_data s) !! blob_key namespace key with
  | None => Err (bs "storage: blob not found")
  | Some v => Ok (sl v)
  end.

Definition SaveContact (c : Contact) : SM unit :=
  change (λ d, set_Contacts (<[c_Handle c := c]> (d_Contacts d)) d).

Definition DeleteContact (handle : bytes) : SM unit :=
  change (λ d, set_Contacts (delete handle (d_Contacts d)) d).

Definition DeleteConversation (convID : bytes) : SM unit :=
  change (λ d, set_Messages (delete convID (d_Messages d))
                 (set_Conversations (delete convID (d_Conversations d)) d)).

Definition DeleteMessage (convID msgID : bytes) : SM unit :=
  change (λ d, set_Messages (<[convID :=
    match messages_of d convID with
    | None => None
    | Some msgs => Some (filter (λ m, e_MsgID (sm_Envelope m) ≠ msgID) msgs)
    end]> (d_Messages d)) d).

Definition Close : SM unit := flush.

(** ** The document round trip *)

Lemma mapR_Ok {A B} (f : A → result B) (g : A → B) l :
  (∀ x, x ∈ l → f x = Ok (g x)) → mapR f l = Ok (map g l).
Proof.
  induction l as [|x l IH]; intros H; [done|]. cbn [mapR map]. rewrite (H x) by left. cbn [bindR].
  by rewrite IH by (intros y Hy; apply H; by right).
Qed.

Lemma fold_insert_list_to_map {A} (l : list (bytes * A)) (m : gmap bytes A) :
  NoDup l.*1 → (∀ k, k ∈ l.*1 → m !! k = None) →
  fold_left (λ m kv, <[kv.1 := kv.2]> m) l m = list_to_map l ∪ m.
Proof.
  revert m. induction l as [|[k a] l IH]; intros m Hnd Hm; cbn; [by rewrite map_empty_union|].
  apply NoDup_cons in Hnd as [Hk Hnd]. rewrite IH; [|done|].
  - rewrite <-insert_union_r; [by rewrite insert_union_l|]. by apply not_elem_of_list_to_map.
  - intros k' Hk'. rewrite lookup_insert_ne by (intros ->; done). apply Hm. by right.
Qed.

(** Well-formed elements of a container: encoded, and decoded to themselves. *)
Definition codec_ok {A} (enc : A → result json) (zero : A) (d : decoder A) (a : A) : Prop :=
  ∃ j, enc a = Ok j ∧ wf_json j ∧ d j zero = (a, None).

Lemma dec_enc_map {A} (enc : A → result json) (zero : A) (d : decoder A) (m : gmap bytes A) :
  map_Forall (λ k a, valid_utf8 k = true ∧ codec_ok enc zero d a) m →
  ∃ j, enc_map enc m = Ok j ∧ wf_json j ∧ dec_map zero d j ∅ = (m, None).
Proof.
  intros Hm. unfold enc_map.
  set (l := merge_sort key_le (map_to_list m)).
  assert (l ≡ₚ map_to_list m) as Hp by apply merge_sort_Permutation.
  pose (g := λ a, match enc a with Ok j => j | Err _ => JNull end).
  assert (∀ kv, kv ∈ l → valid_utf8 kv.1 = true ∧ enc kv.2 = Ok (g kv.2) ∧ wf_json (g kv.2)
                         ∧ d (g kv.2) zero = (kv.2, None)) as Hl.
  { intros [k a] Hin. rewrite Hp in Hin. apply elem_of_map_to_list in Hin.
    destruct (Hm k a Hin) as (Hk & j & Hj & Hw & Hd). cbn. unfold g. rewrite Hj. done. }
  rewrite (mapR_Ok _ (λ kv, (kv.1, g kv.2))).
  2:{ intros kv Hin. destruct (Hl kv Hin) as (_ & -> & _). done. }
  eexists. split; [done|]. split.
  - apply wf_json_obj, Forall_forall. intros kj (kv & -> & Hin)%list_elem_of_fmap. by destruct (Hl kv Hin) as (? & _ & ? & _).
  - cbn [dec_map bindR]. 
    assert (∀ (l' : list (bytes * A)) (m0 : gmap bytes A), (∀ kv, kv ∈ l' → d (g kv.2) zero = (kv.2, None)) →
      fold_left (λ '(m, e) kv, let '(a, e') := d kv.2 zero in (<[kv.1 := a]> m, first_err e e'))
        (map (λ kv, (kv.1, g kv.2)) l') (m0, None) = (fold_left (λ m kv, <[kv.1 := kv.2]> m) l' m0, None)) as Hf.
    { induction l' as [|kv l' IH]; intros m0 H; [done|]. cbn [map fold_left fst snd]. rewrite (H kv) by left.
      cbn [first_err]. apply IH. intros y Hy. apply H. by right. }
    rewrite Hf by (intros kv Hin; apply Hl, Hin).
    rewrite fold_insert_list_to_map, (right_id ∅ (∪)).
    + f_equal. rewrite <-(list_to_map_to_list m). apply list_to_map_proper; [|done].
      rewrite Hp. apply NoDup_fst_map_to_list.
    + rewrite Hp. apply NoDup_fst_map_to_list.
    + intros k _. apply lookup_empty.
Qed.

Lemma dec_enc_listR {A} (enc : A → result json) (zero : A) (d : decoder A) (l : option (list A)) z :
  Forall (codec_ok enc zero d) (default [] l) →
  ∃ j, enc_listR enc l = Ok j ∧ wf_json j ∧ dec_list zero d j z = (l, None).
Proof.
  intros Hl. destruct l as [l|]; [|by exists JNull]. cbn in Hl. unfold enc_listR.
  assert (∃ js, mapR enc l = Ok js ∧ Forall wf_json js ∧ dec_elems zero d js = (l, None)) as (js & -> & Hw & Hd).
  { induction Hl as [|a l (j & Hj & Hw & Hd) _ (js & Hjs & Hws & Hds)]; [by exists []|].
    exists (j :: js). cbn [mapR dec_elems]. rewrite Hj, Hd. cbn [bindR]. rewrite Hjs, Hds.
    split_and!; [done|by constructor|done]. }
  eexists. split; [done|]. split; [by apply wf_json_arr|]. cbn [dec_list]. by rewrite Hd.
Qed.

Definition wf_Contact (c : Contact) : Prop :=
  valid_utf8 (c_Handle c) = true ∧ valid_utf8 (c_Fingerprint c) = true ∧ wf_time (c_AddedAt c).
Definition wf_Conversation (c : Conversation) : Prop :=
  valid_utf8 (v_ID c) = true ∧ valid_utf8 (v_PeerID c) = true ∧ valid_utf8 (v_DisplayName c) = true.
Definition wf_Stored (m : storedMessage) : Prop :=
  wf_Envelope (sm_Envelope m) ∧ valid_utf8 (sm_State m) = true ∧ valid_utf8 (sm_ConvID m) = true.

Lemma Contact_codec c : wf_Contact c → codec_ok enc_Contact zero_Contact (dec_struct Contact_fields) c.
Proof.
  intros (Hh & Hf & Ht). unfold codec_ok, enc_Contact. rewrite enc_time_Ok by done. cbn [bindR].
  eexists. split; [done|]. split.
  - wf_struct; auto with stunner; [apply valid_utf8_fmt_time|exact I].
  - destruct c as [h k f t v]. cbn [c_AddedAt] in *. dec_obj ltac:(rewrite ?dec_enc_slice, ?dec_enc_time by done).
Qed.

Lemma Conversation_codec c :
  wf_Conversation c → codec_ok enc_Conversation (MkConversation [] [] []) (dec_struct Conversation_fields) c.
Proof.
  intros (Hi & Hp & Hd). unfold codec_ok, enc_Conversation. eexists. split; [done|]. split.
  - by wf_struct.
  - destruct c as [i p n]. dec_obj ltac:(idtac).
Qed.

Lemma Stored_codec m : wf_Stored m → codec_ok enc_Stored zero_Stored (dec_struct Stored_fields) m.
Proof.
  intros (He & Hs & Hc). destruct (enc_Envelope_Ok _ He) as (j & Hj & Hw & Hd).
  unfold codec_ok, enc_Stored. rewrite Hj. cbn [bindR]. eexists. split; [done|]. split.
  - by wf_struct.
  - destruct m as [e s c]. cbn [sm_Envelope] in *. dec_obj ltac:(rewrite ?Hd).
Qed.

(** The documents that can be written and read back. *)
Record wf_db (d : dbData) : Prop := {
  wd_settings : match d_Settings d with None => True | Some s => wf_Settings s end;
  wd_contacts : map_Forall (λ k c, valid_utf8 k = true ∧ wf_Contact c) (d_Contacts d);
  wd_convs : map_Forall (λ k c, valid_utf8 k = true ∧ wf_Conversation c) (d_Conversations d);
  wd_msgs : map_Forall (λ k l, valid_utf8 k = true ∧ Forall wf_Stored (default [] l)) (d_Messages d);
  wd_outbox : Forall wf_Stored (default [] (d_Outbox d));
  wd_blobs : map_Forall (λ k (_ : slice), valid_utf8 k = true) (d_Blobs d);
}.

#[local] Opaque enc_Settings Settings_fields Contact_fields Conversation_fields Stored_fields.

Lemma db_codec d : wf_db d → ∃ j, enc_dbData d = Ok j ∧ wf_json j ∧ dec_struct db_fields j empty_db = (d, None).
Proof.
  intros [Hs Hc Hv Hm Ho Hb]. unfold enc_dbData.
  destruct (dec_enc_map enc_Contact zero_Contact (dec_struct Contact_fields) (d_Contacts d)) as (jc & -> & Wc & Dc).
  { eapply map_Forall_impl; [exact Hc|]. intros k c [? ?]. auto using Contact_codec. }
  destruct (dec_enc_map enc_Conversation (MkConversation [] [] []) (dec_struct Conversation_fields) (d_Conversations d))
    as (jv & -> & Wv & Dv).
  { eapply map_Forall_impl; [exact Hv|]. intros k c [? ?]. auto using Conversation_codec. }
  destruct (dec_enc_map (enc_listR enc_Stored) None (dec_list zero_Stored (dec_struct Stored_fields)) (d_Messages d))
    as (jm & -> & Wm & Dm).
  { eapply map_Forall_impl; [exact Hm|]. intros k l [? Hl]. split; [done|].
    apply dec_enc_listR. eapply Forall_impl; [exact Hl|]. apply Stored_codec. }
  destruct (dec_enc_listR enc_Stored zero_Stored (dec_struct Stored_fields) (d_Outbox d) None) as (jo & -> & Wo & Do).
  { eapply Forall_impl; [exact Ho|]. apply Stored_codec. }
  destruct (dec_enc_map (λ b : slice, Ok (enc_slice b)) None dec_slice (d_Blobs d)) as (jb & -> & Wb & Db).
  { eapply map_Forall_impl; [exact Hb|]. intros k b Hk. split; [done|]. eexists. split; [done|].
    split; [apply wf_enc_slice|apply dec_enc_slice]. }
  cbn [bindR]. eexists. split; [done|]. split.
  - wf_struct; auto. intros _. destruct (d_Settings d); [by apply wf_enc_Settings|done].
  - destruct d as [st cs vs ms ob bl]. cbn [d_Settings d_Contacts d_Conversations d_Messages d_Outbox d_Blobs] in *.
    assert (dec_ptr zero_Settings (dec_struct Settings_fields) (enc_opt enc_Settings st) None = (st, None)) as Ds.
    { apply dec_enc_ptr; [done|]. intros s ->. apply dec_enc_Settings, Hs. }
    unfold enc_struct, omitempty, field_of. rewrite dec_struct_obj. unfold empty_db.
    destruct st as [s|]; cbn [is_none omap list_omap id]; unfold id; cbv iota;
      dec_fields ltac:(unfold set_Settings, set_Contacts, set_Conversations, set_Messages, set_Outbox, set_Blobs;
        cbn [d_Settings d_Contacts d_Conversations d_Messages d_Outbox d_Blobs] in *;
        rewrite ?Ds, ?Dc, ?Dv, ?Dm, ?Do, ?Db).
Qed.

(** ** Durability *)

Lemma newGCM_Ok key : length key = KeySize → newGCM key = Ok key.
Proof. intros Hk. unfold newGCM. by rewrite decide_False by (by rewrite Hk; intros []). Qed.

(** A flush that returns nil has left a file that opens to the document. *)
Lemma flush_reopen s t s' t' path fl :
  length (fs_key s) = KeySize → path ≠ [] → wf_db (fs_data s) → flush (s, t) = (Ok tt, (s', t')) →
  fs_key s' = fs_key s ∧ fs_data s' = fs_data s ∧
  openFileStore path (fs_key s) None (Ok (fs_disk s')) fl = Ok (MkFS (fs_key s) (fs_data s) (fs_disk s') fl).
Proof.
  intros Hk Hp Hw. destruct (db_codec _ Hw) as (j & Hj & Hwj & Hd).
  unfold flush. run_M. rewrite Hj. cbn [bindR].
  destruct (Seal (fs_key s) (marshal j) t) as [[sealed|e] t1] eqn:Es; [|discriminate].
  pose proof (Open_Seal _ _ _ _ _ Es) as Ho.
  assert (openFileStore path (fs_key s) None (Ok (Some sealed)) fl
            = Ok (MkFS (fs_key s) (fs_data s) (Some sealed) fl)) as Hopen.
  { unfold openFileStore. rewrite decide_False by (by rewrite Hk; intros []).
    rewrite decide_False by done. cbn [bindR]. rewrite Ho. cbn [bindR].
    by rewrite (unmarshal_ok_marshal _ _ _ (fs_data s)). }
  unfold write_file. destruct (fs_faults s) as [|[[e left_]|] rest]; [|discriminate|];
    intros [= <- <-]; cbn [fs_key fs_data fs_disk]; (split_and!; [done|done|exact Hopen]).
Qed.

Lemma change_reopen f s t s' t' path fl :
  length (fs_key s) = KeySize → path ≠ [] → wf_db (f (fs_data s)) →
  change f (s, t) = (Ok tt, (s', t')) →
  fs_data s' = f (fs_data s) ∧
  openFileStore path (fs_key s) None (Ok (fs_disk s')) fl = Ok (MkFS (fs_key s) (fs_data s') (fs_disk s') fl).
Proof.
  intros Hk Hp Hw. unfold change. run_M. intros E.
  destruct (flush_reopen (set_data f s) _ _ _ path fl Hk Hp Hw E) as (E1 & E2 & E3).
  cbn [fs_data set_data fs_key] in *. rewrite E2. done.
Qed.

(** A change is made in memory even when it could not be written. *)
Lemma change_memory f s t : fs_data (change f (s, t)).2.1 = f (fs_data s).
Proof.
  unfold change, flush. run_M. cbn [set_data].
  destruct (let? j := enc_dbData _ in Ok (marshal j)) as [blob|e]; [|done].
  destruct (Seal _ blob t) as [[sealed|e] t1]; [|done].
  unfold write_file. cbn [fs_faults set_data]. by destruct (fs_faults s) as [|[[e left_]|] rest].
Qed.

Lemma change_key f s t : fs_key (change f (s, t)).2.1 = fs_key s.
Proof.
  unfold change, flush. run_M. cbn [set_data].
  destruct (let? j := enc_dbData _ in Ok (marshal j)) as [blob|e]; [|done].
  destruct (Seal _ blob t) as [[sealed|e] t1]; [|done].
  unfold write_file. cbn [fs_faults set_data]. by destruct (fs_faults s) as [|[[e left_]|] rest].
Qed.

(** A change of the store draws at most one nonce. *)
Lemma change_tape f s t : ∃ j, (j ≤ 12)%nat ∧ (change f (s, t)).2.2 = drop j t.
Proof.
  unfold change, flush. run_M. cbn [set_data].
  destruct (let? j := enc_dbData _ in Ok (marshal j)) as [blob|e]; [|exists 0%nat; split; [lia|done]].
  destruct (Seal_tape (fs_key (set_data f s)) blob t) as (j & Hj & Ht). exists j. split; [done|].
  destruct (Seal (fs_key (set_data f s)) blob t) as [[sealed|e] t']; [|done].
  cbn [fst snd] in *. by destruct (write_file _ _).
Qed.

(** The methods that change the store. *)
Inductive mutation :=
  | MSaveSettings (s : Settings)
  | MUpsertConversation (c : Conversation)
  | MAppendMessage (convID : bytes) (env : Envelope) (state : bytes)
  | MEnqueueOutbox (convID : bytes) (env : Envelope)
  | MSaveBlob (namespace key value : bytes)
  | MSaveContact (c : Contact)
  | MDeleteContact (handle : bytes)
  | MDeleteConversation (convID : bytes)
  | MDeleteMessage (convID msgID : bytes).

Definition mutate (m : mutation) : SM unit :=
  match m with
  | MSaveSettings s => SaveSettings s
  | MUpsertConversation c => UpsertConversation c
  | MAppendMessage c e s => AppendMessage c e s
  | MEnqueueOutbox c e => EnqueueOutbox c e
  | MSaveBlob n k v => SaveBlob n k v
  | MSaveContact c => SaveContact c
  | MDeleteContact h => DeleteContact h
  | MDeleteConversation c => DeleteConversation c
  | MDeleteMessage c m => DeleteMessage c m
  end.

(** What each of them means to do to the document. *)
Definition effect (m : mutation) (d : dbData) : dbData :=
  match m with
  | MSaveSettings s => set_Settings (Some s) d
  | MUpsertConversation c => set_Conversations (<[v_ID c := c]> (d_Conversations d)) d
  | MAppendMessage c e st =>
    set_Messages (<[c := Some (default [] (messages_of d c) ++ [MkStored e st c])]> (d_Messages d)) d
  | MEnqueueOutbox c e => set_Outbox (Some (default [] (d_Outbox d) ++ [MkStored e StateQueued c])) d
  | MSaveBlob n k v => set_Blobs (<[blob_key n k := copy_slice v]> (d_Blobs d)) d
  | MSaveContact c => set_Contacts (<[c_Handle c := c]> (d_Contacts d)) d
  | MDeleteContact h => set_Contacts (delete h (d_Contacts d)) d
  | MDeleteConversation c =>
    set_Messages (delete c (d_Messages d)) (set_Conversations (delete c (d_Conversations d)) d)
  | MDeleteMessage c i =>
    set_Messages (<[c := (λ msgs, filter (λ m, e_MsgID (sm_Envelope m) ≠ i) msgs) <$> messages_of d c]> (d_Messages d)) d
  end.

Lemma mutate_effect m : mutate m = change (effect m).
Proof. by destruct m. Qed.

(** Arguments that the JSON of the document can hold. *)
Definition wf_mutation (m : mutation) : Prop :=
  match m with
  | MSaveSettings s => wf_Settings s
  | MUpsertConversation c => valid_utf8 (v_ID c) = true ∧ wf_Conversation c
  | MAppendMessage c e st => valid_utf8 c = true ∧ wf_Stored (MkStored e st c)
  | MEnqueueOutbox c e => wf_Stored (MkStored e StateQueued c)
  | MSaveBlob n k _ => valid_utf8 (blob_key n k) = true
  | MSaveContact c => valid_utf8 (c_Handle c) = true ∧ wf_Contact c
  | MDeleteContact _ | MDeleteConversation _ => True
  | MDeleteMessage c _ => valid_utf8 c = true
  end.

Lemma messages_of_wf d c : wf_db d → Forall wf_Stored (default [] (messages_of d c)).
Proof.
  intros Hd. unfold messages_of. destruct (d_Messages d !! c) as [l|] eqn:E; [|constructor].
  by destruct (wd_msgs _ Hd _ _ E).
Qed.

Lemma effect_wf m d : wf_mutation m → wf_db d → wf_db (effect m d).
Proof.
  intros Hm Hd. pose proof (λ c, messages_of_wf d c Hd) as Hof. destruct Hd, m; cbn [wf_mutation] in Hm;
    (split; cbn [effect d_Settings d_Contacts d_Conversations d_Messages d_Outbox d_Blobs
       set_Settings set_Conversations set_Messages set_Outbox set_Blobs set_Contacts];
     try done; try (by apply map_Forall_delete); try (apply map_Forall_insert_2; [|done]); try done).
  - destruct Hm as [Hc Hst]. split; [done|]. cbn [default]. apply Forall_app. split; [apply Hof|by constructor].
  - cbn [default]. apply Forall_app. split; [done|by constructor].
  - split; [done|]. specialize (Hof convID). destruct (messages_of d convID); [|constructor].
    cbn [fmap option_fmap option_map default] in *. apply Forall_forall. intros x [_ Hx]%list_elem_of_filter. by eapply Forall_forall in Hof.
Qed.

(** ** The interface *)

(** [storage.Store]. *)
Class Store (S : Type) := {
  st_LoadSettings : S → result Settings;
  st_SaveSettings : Settings → M (S * tape) unit;
  st_SaveContact : Contact → M (S * tape) unit;
  st_Contacts : S → result (list Contact);
  st_DeleteContact : bytes → M (S * tape) unit;
  st_Conversations : S → result (list Conversation);
  st_UpsertConversation : Conversation → M (S * tape) unit;
  st_DeleteConversation : bytes → M (S * tape) unit;
  st_AppendMessage : bytes → Envelope → bytes → M (S * tape) unit;
  st_Messages : S → bytes → Z → Z → result (list Envelope);
  st_DeleteMessage : bytes → bytes → M (S * tape) unit;
  st_EnqueueOutbox : bytes → Envelope → M (S * tape) unit;
  st_PendingOutbox : S → result (list Envelope);
  st_SaveBlob : bytes → bytes → bytes → M (S * tape) unit;
  st_LoadBlob : S → bytes → bytes → result bytes;
  st_Close : M (S * tape) unit;
}.

Definition st_mutate {S} `{Store S} (m : mutation) : M (S * tape) unit :=
  match m with
  | MSaveSettings s => st_SaveSettings s
  | MUpsertConversation c => st_UpsertConversation c
  | MAppendMessage c e s => st_AppendMessage c e s
  | MEnqueueOutbox c e => st_EnqueueOutbox c e
  | MSaveBlob n k v => st_SaveBlob n k v
  | MSaveContact c => st_SaveContact c
  | MDeleteContact h => st_DeleteContact h
  | MDeleteConversation c => st_DeleteConversation c
  | MDeleteMessage c m => st_DeleteMessage c m
  end.

(** Its contract: a store is a document.  A call that returns nil has done what
    it means to the document; one that fails has done it or not; the others
    read it. *)
Class StoreLaws (S : Type) `{Store S} := {
  contents : S → dbData;
  law_mutate m s t r s' t' : st_mutate m (s, t) = (r, (s', t')) →
    contents s' = effect m (contents s) ∨ r ≠ Ok tt ∧ contents s' = contents s;
  law_Close s t r s' t' : st_Close (s, t) = (r, (s', t')) → contents s' = contents s;
  law_LoadSettings s : st_LoadSettings s = Ok (default Default (d_Settings (contents s)));
  law_LoadBlob s n k : ∀ v, st_LoadBlob s n k = Ok v ↔ sl <$> d_Blobs (contents s) !! blob_key n k = Some v;
  law_Messages s c : st_Messages s c 0 0 = Ok (map sm_Envelope (default [] (messages_of (contents s) c)));
  law_PendingOutbox s : st_PendingOutbox s = Ok (map sm_Envelope (default [] (d_Outbox (contents s))));
  law_Contacts s : ∃ l, st_Contacts s = Ok l ∧ l ≡ₚ map snd (map_to_list (d_Contacts (contents s)));
  law_Conversations s : ∃ l, st_Conversations s = Ok l ∧ l ≡ₚ map snd (map_to_list (d_Conversations (contents s)));
}.

#[global] Instance file_Store : Store fileStore := {
  st_LoadSettings := LoadSettings; st_SaveSettings := SaveSettings;
  st_SaveContact := SaveContact; st_Contacts := Contacts; st_DeleteContact := DeleteContact;
  st_Conversations := Conversations; st_UpsertConversation := UpsertConversation;
  st_DeleteConversation := DeleteConversation; st_AppendMessage := AppendMessage;
  st_Messages := Messages; st_DeleteMessage := DeleteMessage;
  st_EnqueueOutbox := EnqueueOutbox; st_PendingOutbox := PendingOutbox;
  st_SaveBlob := SaveBlob; st_LoadBlob := LoadBlob; st_Close := Close;
}.

Lemma flush_memory s t : fs_data (flush (s, t)).2.1 = fs_data s.
Proof. pose proof (change_memory (λ d, d) s t) as Hm. by destruct s. Qed.

#[global] Instance file_StoreLaws : StoreLaws fileStore.
Proof.
  exists fs_data.
  - intros m s t r s' t' E. left. pose proof (change_memory (effect m) s t) as Hm.
    rewrite <-mutate_effect in Hm. change (st_mutate m) with (mutate m) in E. rewrite E in Hm. exact Hm.
  - intros s t r s' t' E. pose proof (flush_memory s t) as Hm. change (st_Close (s, t)) with (flush (s, t)) in E.
    by rewrite E in Hm.
  - intros s. cbn. unfold LoadSettings. by destruct (d_Settings (fs_data s)).
  - intros s n k v. cbn. unfold LoadBlob. destruct (d_Blobs _ !! _); cbn; split; congruence.
  - intros s c. cbn. unfold Messages. set (l := default [] _).
    rewrite (proj2 (Z.ltb_ge (Z.of_nat (length l)) 0)) by lia. reflexivity.
  - done.
  - intros s. by eexists.
  - intros s. by eexists.
Defined.

(** *** Any number of calls *)

(** The document after some calls, whatever they returned. *)
Definition effects (ms : list mutation) (d : dbData) : dbData := fold_left (λ d m, effect m d) ms d.

Definition history (ms : list mutation) (st : fileStore * tape) : fileStore * tape :=
  fold_left (λ st m, (mutate m st).2) ms st.

Lemma history_spec ms : ∀ s t,
  fs_data (history ms (s, t)).1 = effects ms (fs_data s) ∧ fs_key (history ms (s, t)).1 = fs_key s.
Proof.
  induction ms as [|m ms IH]; intros s t; [done|]. cbn [history effects fold_left].
  destruct (mutate m (s, t)) as [r [s1 t1]] eqn:E. rewrite mutate_effect in E.
  pose proof (change_memory (effect m) s t) as Hd. pose proof (change_key (effect m) s t) as Hk.
  rewrite E in Hd, Hk. cbn [fst snd] in *. destruct (IH s1 t1) as [H1 H2]. unfold history, effects in *.
  by rewrite H1, H2, Hd.
Qed.

Lemma effects_wf ms d : Forall wf_mutation ms → wf_db d → wf_db (effects ms d).
Proof. intros Hms. revert d. induction Hms as [|m ms Hm _ IH]; intros d Hd; [done|]. by apply IH, effect_wf. Qed.

Section properties.
(** C26: the store is durable.  Whatever calls were made on a store, and
    whichever of them failed to write: when the next call that changes it
    returns nil, opening its file with the same key yields exactly the
    document in memory - and that is the one all these calls mean, those that
    reported an error included, as none of them is undone. *)
Theorem store_durable ms m s t s1 t1 s' t' path fl :
  length (fs_key s) = KeySize → path ≠ [] → wf_db (fs_data s) → Forall wf_mutation (ms ++ [m]) →
  history ms (s, t) = (s1, t1) → mutate m (s1, t1) = (Ok tt, (s', t')) →
  fs_data s' = effects (ms ++ [m]) (fs_data s) ∧
  openFileStore path (fs_key s) None (Ok (fs_disk s')) fl
  = Ok (MkFS (fs_key s) (effects (ms ++ [m]) (fs_data s)) (fs_disk s') fl).
Proof.
  intros Hk Hp Hw Hms Eh E. destruct (history_spec ms s t) as [Hd Hk1]. rewrite Eh in Hd, Hk1. cbn [fst] in *.
  assert (effects (ms ++ [m]) (fs_data s) = effect m (fs_data s1)) as Heff.
  { unfold effects at 1. rewrite fold_left_app. cbn [fold_left]. fold (effects ms (fs_data s)). by rewrite Hd. }
  pose proof (effects_wf _ _ Hms Hw) as Hw'. rewrite Heff in Hw'. rewrite mutate_effect in E.
  destruct (change_reopen (effect m) s1 t1 s' t' path fl) as [H1 H2]; [by rewrite Hk1|done..|].
  rewrite Heff, <-H1. rewrite Hk1 in H2. by split.
Qed.

(** Messages are an append-only log with deletion by id.  Appending to a
    conversation adds the envelope at its end and touches no other;
    [Messages] shows the window from [offset], of at most [limit] if that is
    positive, and reports a negative offset as a panic; deleting removes the
    envelopes with that id and keeps the others in order.  All of this holds
    of the document in memory even when the write fails. *)
Theorem messages_log s t conv env state limit offset mid conv' :
  let all s := default [] (messages_of (fs_data s) conv') in
  all (AppendMessage conv env state (s, t)).2.1
    = all s ++ (if decide (conv' = conv) then [MkStored env state conv] else []) ∧
  all (DeleteMessage conv mid (s, t)).2.1
    = (if decide (conv' = conv) then filter (λ m, e_MsgID (sm_Envelope m) ≠ mid) (all s) else all s) ∧
  Messages s conv' limit offset
    = (if decide (offset < 0) then Err (bs "runtime error: slice bounds out of range")
       else Ok (map sm_Envelope
              (let rest := drop (Z.to_nat offset) (all s) in
               if decide (0 < limit) then take (Z.to_nat limit) rest else rest))).
Proof.
  intros all. subst all. cbn beta. split_and!.
  - unfold AppendMessage. rewrite change_memory. unfold messages_of. cbn [d_Messages set_Messages].
    case_decide as Hc; [subst; by rewrite lookup_insert_eq|]. by rewrite lookup_insert_ne, app_nil_r.
  - unfold DeleteMessage. rewrite change_memory. unfold messages_of. cbn [d_Messages set_Messages].
    case_decide as Hc; [subst; rewrite lookup_insert_eq|by rewrite lookup_insert_ne].
    by destruct (default None (d_Messages (fs_data s) !! conv)).
  - unfold Messages. generalize (default [] (messages_of (fs_data s) conv')) as l. intros l.
    destruct (Z.ltb_spec (Z.of_nat (length l)) offset).
    + rewrite (proj2 (Z.ltb_ge (Z.of_nat (length l)) 0)) by lia. rewrite decide_False by lia.
      rewrite Nat2Z.id, !drop_ge by lia. cbn [length].
      rewrite (proj2 (andb_false_iff _ _)) by (destruct (0 <? limit) eqn:El; [right; apply Z.ltb_ge; apply Z.ltb_lt in El; lia|by left]).
      case_decide; by rewrite ?take_nil.
    + case_decide as Ho; [by rewrite (proj2 (Z.ltb_lt _ _)) by lia|].
      rewrite (proj2 (Z.ltb_ge offset 0)) by lia. do 2 f_equal.
      case_decide as Hl; [rewrite (proj2 (Z.ltb_lt 0 limit)) by lia; cbn [andb]|by rewrite (proj2 (Z.ltb_ge 0 limit)) by lia].
      destruct (Z.ltb_spec limit (Z.of_nat (length (drop (Z.to_nat offset) l)))); [done|].
      by rewrite take_ge by lia.
Qed.

(** Two different blobs can share a slot: namespace and key are joined by
    a slash that either may contain, so saving one overwrites the other. *)
Theorem blob_keys_collide s t v :
  let s' := (SaveBlob (bs "a") (bs "b/c") v (s, t)).2.1 in
  LoadBlob s' (bs "a/b") (bs "c") = Ok v.
Proof.
  cbn beta. unfold SaveBlob, LoadBlob. rewrite change_memory. cbn [d_Blobs set_Blobs].
  change (blob_key (bs "a/b") (bs "c")) with (blob_key (bs "a") (bs "b/c")).
  rewrite lookup_insert_eq. by destruct v.
Qed.
End properties.

Definition toy_store : fileStore := MkFS (zeros 32) empty_db None [].
Definition toy_saved : fileStore := (SaveSettings Default (toy_store, zeros 12)).2.1.

(** The first write fails and empties the file; the second succeeds, and the
    file then holds both changes. *)
Definition toy_calls : list mutation := [MSaveSettings Default].
Definition toy_last : mutation := MSaveBlob (bs "app") (bs "state") (bs "x").
Definition toy_faulty : fileStore := MkFS (zeros 32) empty_db None [Some (bs "disk full", Some [])].
Definition toy_end : fileStore := (mutate toy_last (history toy_calls (toy_faulty, zeros 24))).2.1.

Lemma store_durable_witness :
  fs_data toy_end = effects (toy_calls ++ [toy_last]) empty_db ∧
  openFileStore (bs "store.bin") (zeros 32) None (Ok (fs_disk toy_end)) []
  = Ok (MkFS (zeros 32) (effects (toy_calls ++ [toy_last]) empty_db) (fs_disk toy_end) []).
Proof.
  eapply (store_durable toy_calls toy_last toy_faulty (zeros 24) _ _ toy_end _ (bs "store.bin") []).
  - reflexivity.
  - discriminate.
  - split; try apply map_Forall_empty; [exact I|apply Forall_nil_2].
  - repeat constructor. apply Default_wf.
  - reflexivity.
  - vm_compute. reflexivity.
Defined.
