(* ===== verification/Transport.v ===== *)
(** * Connections ([pkg/transport])

    The in-process pipe and the WebRTC adapter's channel; establishing WebRTC
    connections is in [Webrtc].  A Go [select] that
    has several ready cases takes any of them, and blocks when it has none:
    the operations are relations between the state before, the result and the
    state after. *)

From S2P Require Import Prelude Bytes Settings.
Open Scope Z_scope.

(** [ErrClosed]. *)
Definition ErrClosed : error := bs "transport: connection closed".

(** ** [Pipe] ([inproc.go]) *)

Inductive side := A | B.
Definition other (s : side) : side := match s with A => B | B => A end.

Record pipe := MkPipe { a2b : list bytes; b2a : list bytes; p_done : bool }.

Definition Pipe : pipe := MkPipe [] [] false.

(** The capacity of both channels. *)
Definition capacity : nat := 64.

(** The channel a side writes to, and the one it reads from. *)
Definition out (s : side) (p : pipe) : list bytes := match s with A => a2b p | B => b2a p end.
Definition in_ (s : side) (p : pipe) : list bytes := out (other s) p.
Definition set_out (s : side) (q : list bytes) (p : pipe) : pipe :=
  match s with A => MkPipe q (b2a p) (p_done p) | B => MkPipe (a2b p) q (p_done p) end.

(** [pipeConn.Send]: both cases may be ready. *)
Inductive pipe_Send (s : side) (b : bytes) (p : pipe) : result unit → pipe → Prop :=
  | send_closed : p_done p = true → pipe_Send s b p (Err ErrClosed) p
  | send_queued : (length (out s p) < capacity)%nat → pipe_Send s b p (Ok tt) (set_out s (out s p ++ [b]) p).

(** [pipeConn.Recv]: a buffered message is delivered even when closed. *)
Inductive pipe_Recv (s : side) (p : pipe) : result bytes → pipe → Prop :=
  | recv_done_drain b q : p_done p = true → in_ s p = b :: q → pipe_Recv s p (Ok b) (set_out (other s) q p)
  | recv_done_empty : p_done p = true → in_ s p = [] → pipe_Recv s p (Err ErrClosed) p
  | recv_message b q : in_ s p = b :: q → pipe_Recv s p (Ok b) (set_out (other s) q p).

(** [pipeConn.Close], on either side; the second close does nothing. *)
Definition pipe_Close (p : pipe) : pipe := MkPipe (a2b p) (b2a p) true.

(** ** The WebRTC adapter ([pionConn]) *)

Record pionConn := MkPion { pc_in : list bytes; pc_open : bool; pc_done : bool }.

Definition newPionConn : pionConn := MkPion [] false false.

(** The connection states of the callback. *)
Inductive conn_state := Failed | ConnClosed | OtherState.

(** [closeDone]. *)
Definition closeDone (c : pionConn) : pionConn := MkPion (pc_in c) (pc_open c) true.

(** What pion calls: the handlers [newPionConn] registers.  A message that
    arrives while the buffer is full waits, unless the connection is done: then
    it may be dropped. *)
Inductive pion_event (c : pionConn) : pionConn → Prop :=
  | on_open : pion_event c (MkPion (pc_in c) true (pc_done c))
  | on_message b : (length (pc_in c) < capacity)%nat → pion_event c (MkPion (pc_in c ++ [b]) (pc_open c) (pc_done c))
  | on_message_dropped : pc_done c = true → pion_event c c
  | on_close : pion_event c (closeDone c)
  | on_state st : pion_event c (match st with Failed | ConnClosed => closeDone c | OtherState => c end).

(** [waitOpen]: opened, closed, or [connectTimeout] passed. *)
Inductive pion_waitOpen (c : pionConn) : result unit → Prop :=
  | wait_open : pc_open c = true → pion_waitOpen c (Ok tt)
  | wait_done : pc_done c = true → pion_waitOpen c (Err ErrClosed)
  | wait_timeout : pion_waitOpen c (Err (bs "transport: timed out opening data channel")).

(** [pionConn.Send], given what [dc.Send] answers. *)
Definition pion_Send (dc_Send : bytes → result unit) (c : pionConn) (b : bytes) : result unit :=
  if pc_done c then Err ErrClosed else dc_Send b.

(** [pionConn.Recv]. *)
Inductive pion_Recv (c : pionConn) : result bytes → pionConn → Prop :=
  | precv_message b q : pc_in c = b :: q → pion_Recv c (Ok b) (MkPion q (pc_open c) (pc_done c))
  | precv_drain b q : pc_done c = true → pc_in c = b :: q → pion_Recv c (Ok b) (MkPion q (pc_open c) (pc_done c))
  | precv_closed : pc_done c = true → pc_in c = [] → pion_Recv c (Err ErrClosed) c.

(** [toICEServers]: credentials only go with a user name. *)
Definition toICEServers (l : list ICEServer) : list ICEServer :=
  map (λ s, if bool_decide (i_Username s = []) then MkICE (i_URLs s) [] [] else s) l.

(** ** The contract of [Pipe] *)

(** A pipe with the log of what each side had accepted and has read. *)
Record plog := MkPlog { l_pipe : pipe; l_sent : side → list bytes; l_read : side → list bytes }.

Definition upd (s : side) (x : bytes) (f : side → list bytes) : side → list bytes :=
  λ s', match s, s' with A, A | B, B => f s' ++ [x] | _, _ => f s' end.

Inductive pipe_step (l : plog) : plog → Prop :=
  | ps_send s b p : pipe_Send s b (l_pipe l) (Ok tt) p → pipe_step l (MkPlog p (upd s b (l_sent l)) (l_read l))
  | ps_send_err s b e p : pipe_Send s b (l_pipe l) (Err e) p → pipe_step l (MkPlog p (l_sent l) (l_read l))
  | ps_recv s b p : pipe_Recv s (l_pipe l) (Ok b) p → pipe_step l (MkPlog p (l_sent l) (upd s b (l_read l)))
  | ps_recv_err s e p : pipe_Recv s (l_pipe l) (Err e) p → pipe_step l (MkPlog p (l_sent l) (l_read l))
  | ps_close : pipe_step l (MkPlog (pipe_Close (l_pipe l)) (l_sent l) (l_read l)).

Definition plog0 : plog := MkPlog Pipe (λ _, []) (λ _, []).

(** Accepted = read by the other side, then buffered. *)
Definition pipe_inv (l : plog) : Prop :=
  ∀ s, l_sent l s = l_read l (other s) ++ out s (l_pipe l) ∧ (length (out s (l_pipe l)) ≤ capacity)%nat.

Lemma out_set_out s s' q p : out s' (set_out s q p) = match s, s' with A, A | B, B => q | _, _ => out s' p end.
Proof. by destruct s, s'. Qed.

Lemma pipe_step_inv l l' : pipe_inv l → pipe_step l l' → pipe_inv l'.
Proof.
  intros Hinv Hs. destruct Hs as [s b p Hs|s b e p Hs|s b p Hr|s e p Hr|]; intros s'; destruct (Hinv s') as [H1 H2].
  - inversion Hs as [|Hlt]; subst. cbn [l_sent l_read l_pipe]. rewrite out_set_out.
    destruct s, s'; cbn [upd other] in *; try done;
      (split; [by rewrite H1, app_assoc|rewrite length_app; cbn [length]; lia]).
  - inversion Hs; subst. done.
  - cbn [l_sent l_read l_pipe].
    assert (∃ q, in_ s (l_pipe l) = b :: q ∧ p = set_out (other s) q (l_pipe l)) as (q & Hq & ->)
      by (inversion Hr; subst; eauto).
    rewrite out_set_out. unfold in_ in Hq.
    destruct s, s'; cbn [upd other] in *; try done;
      (split; [by rewrite H1, Hq, <-app_assoc|rewrite Hq in H2; cbn [length] in H2; lia]).
  - inversion Hr; subst. done.
  - cbn. split; [by destruct s'|by destruct s'].
Qed.

Section properties.
(** The pipe is a reliable ordered channel in each direction.  However
    sends, reads and closes of the two ends interleave, the messages a side
    has had accepted are exactly those the other side has read followed by
    those still buffered, at most [capacity] of them.  A message accepted
    before the close can still be read after it: a closed pipe only reports
    [ErrClosed] to a reader once its buffer is empty. *)
Theorem pipe_reliable l s :
  rtc pipe_step plog0 l →
  l_sent l s = l_read l (other s) ++ out s (l_pipe l) ∧ (length (out s (l_pipe l)) ≤ capacity)%nat ∧
  (∀ r p, pipe_Recv (other s) (l_pipe l) r p →
     match out s (l_pipe l) with
     | b :: _ => r = Ok b
     | [] => r = Err ErrClosed ∧ p_done (l_pipe l) = true
     end).
Proof.
  intros Hr. assert (pipe_inv l) as Hi.
  { assert (∀ l1 l2, rtc pipe_step l1 l2 → pipe_inv l1 → pipe_inv l2) as H.
    { induction 1; eauto using pipe_step_inv. }
    eapply H; [done|]. intros s'. destruct s'; (split; [done|]); cbn; lia. }
  destruct (Hi s) as [H1 H2]. split_and!; [done..|]. intros r p Hrecv.
  assert (in_ (other s) (l_pipe l) = out s (l_pipe l)) as E by (by destruct s).
  inversion Hrecv as [b q Hd Hq|Hd Hq|b q Hq]; subst; rewrite E in Hq; by rewrite Hq.
Qed.

(** So is the adapter over a data channel: whatever pion calls, a
    message that was taken from the channel is read in order, and closing -
    by the peer, by a failed connection, or twice - loses none of those. *)
Theorem pion_reads_in_order c c' b :
  (pion_event c c' → ∃ new, pc_in c' = pc_in c ++ new ∧ (pc_done c = true → pc_done c' = true)) ∧
  (pion_Recv c (Ok b) c' ↔ pc_in c = b :: pc_in c' ∧ pc_open c' = pc_open c ∧ pc_done c' = pc_done c) ∧
  (∀ e, pion_Recv c (Err e) c' ↔ e = ErrClosed ∧ pc_in c = [] ∧ pc_done c = true ∧ c' = c) ∧
  closeDone (closeDone c) = closeDone c.
Proof.
  split_and!.
  - destruct 1 as [|x Hx| | |st]; cbn; [exists []|exists [x]|exists []|exists []|exists []];
      rewrite ?app_nil_r; try done. by destruct st.
  - split.
    + inversion 1; subst; by split_and!.
    + intros (Hq & Ho & Hd). destruct c' as [q o d]. cbn in *. subst. by constructor.
  - intros e. split.
    + inversion 1; subst; by split_and!.
    + intros (-> & Hq & Hd & ->). by constructor.
  - done.
Qed.
End properties.

Lemma pipe_reliable_witness :
  let l := MkPlog (MkPipe [bs "2"] [] true) (upd A (bs "2") (upd A (bs "1") (λ _, []))) (upd B (bs "1") (λ _, [])) in
  l_sent l A = l_read l B ++ [bs "2"] ∧ (length (out A (l_pipe l)) ≤ capacity)%nat.
Proof.
  intros l. destruct (pipe_reliable l A) as (H1 & H2 & _); [|split; [exact H1|exact H2]].
  eapply rtc_l; [apply (ps_send plog0 A (bs "1")); apply send_queued, Nat.ltb_lt; reflexivity|].
  eapply rtc_l; [apply (ps_send _ A (bs "2")); apply send_queued, Nat.ltb_lt; reflexivity|].
  eapply rtc_l; [apply (ps_recv _ B (bs "1")); eapply recv_message; reflexivity|].
  eapply rtc_l; [apply ps_close|]. apply rtc_refl.
Defined.
