(* ===== verification/Conn.v ===== *)
(** * The contract of a connection ([transport.Conn])

    [Conn] is the interface the links are written against; its laws say what
    they may count on while the connection is intact - nobody closed it, no
    frame was refused: each direction is a reliable ordered channel.  The
    in-process pipe and two WebRTC adapters over a data channel keep them. *)

From S2P Require Import Prelude Bytes Settings Transport.
Open Scope Z_scope.

(** The operations of both ends, as relations on the state of the two ends and
    what is between them. *)
Class Conn (C : Type) := {
  conn_Send : Transport.side → bytes → C → result unit → C → Prop;
  conn_Recv : Transport.side → C → result bytes → C → Prop;
  conn_Close : Transport.side → C → C → Prop;
  conn_moves : C → C → Prop;                   (** what happens in between by itself *)
  flight : Transport.side → C → list bytes;    (** sent by a side, and not read yet *)
  intact : C → Prop;
}.

Class ConnLaws (C : Type) `{Conn C} := {
  law_Send s b c r c' : conn_Send s b c r c' → intact c' →
    intact c ∧ r = Ok tt ∧ flight s c' = flight s c ++ [b] ∧ flight (other s) c' = flight (other s) c;
  law_Recv s c r c' : conn_Recv s c r c' → intact c' →
    intact c ∧ ∃ b, r = Ok b ∧ flight (other s) c = b :: flight (other s) c' ∧ flight s c' = flight s c;
  law_Close s c c' : conn_Close s c c' → ¬ intact c';
  law_moves c c' : conn_moves c c' → intact c' → intact c ∧ ∀ s, flight s c' = flight s c;
}.

(** ** The pipe *)

#[global] Instance pipe_Conn : Conn pipe := {
  conn_Send := pipe_Send;
  conn_Recv := pipe_Recv;
  conn_Close := λ _ p p', p' = pipe_Close p;
  conn_moves := λ _ _, False;
  flight := out;
  intact := λ p, p_done p = false;
}.

Lemma out_set_out_same s q p : out s (set_out s q p) = q.
Proof. by destruct s, p. Qed.

Lemma out_set_out_other s q p : out (other s) (set_out s q p) = out (other s) p.
Proof. by destruct s, p. Qed.

Lemma p_done_set_out s q p : p_done (set_out s q p) = p_done p.
Proof. by destruct s, p. Qed.

Lemma other_other s : other (other s) = s.
Proof. by destruct s. Qed.

#[global] Instance pipe_ConnLaws : ConnLaws pipe.
Proof.
  split; cbn.
  - intros s b c r c' [Hd|Hl]; [congruence|]. rewrite p_done_set_out, out_set_out_same, out_set_out_other. done.
  - intros s c r c' Hr. destruct Hr as [b q Hd Hi|Hd Hi|b q Hi]; rewrite ?p_done_set_out; [congruence..|].
    unfold in_ in Hi. rewrite out_set_out_same. pose proof (out_set_out_other (other s) q c) as E.
    rewrite other_other in E. rewrite E. by eauto.
  - by intros s c c' ->.
  - done.
Qed.

(** ** Two adapters over a data channel

    What pion does between the two: a data channel is ordered and reliable
    until it fails.  [pp_refused] records that [dc.Send] refused a frame. *)

Record pion_pair := MkPair {
  pp_A : pionConn; pp_B : pionConn;
  pp_AB : list bytes; pp_BA : list bytes;      (** in the channel *)
  pp_refused : bool;
}.

Definition pp_end (s : side) (c : pion_pair) : pionConn := match s with A => pp_A c | B => pp_B c end.
Definition pp_wire (s : side) (c : pion_pair) : list bytes := match s with A => pp_AB c | B => pp_BA c end.
Definition set_end (s : side) (e : pionConn) (c : pion_pair) : pion_pair :=
  match s with
  | A => MkPair e (pp_B c) (pp_AB c) (pp_BA c) (pp_refused c)
  | B => MkPair (pp_A c) e (pp_AB c) (pp_BA c) (pp_refused c)
  end.
Definition set_wire (s : side) (q : list bytes) (c : pion_pair) : pion_pair :=
  match s with
  | A => MkPair (pp_A c) (pp_B c) q (pp_BA c) (pp_refused c)
  | B => MkPair (pp_A c) (pp_B c) (pp_AB c) q (pp_refused c)
  end.
Definition refuse (c : pion_pair) : pion_pair := MkPair (pp_A c) (pp_B c) (pp_AB c) (pp_BA c) true.

(** [Send], whatever [dc.Send] answers. *)
Inductive pair_Send (s : side) (b : bytes) (c : pion_pair) : result unit → pion_pair → Prop :=
  | pair_sent dc : pion_Send dc (pp_end s c) b = Ok tt → pair_Send s b c (Ok tt) (set_wire s (pp_wire s c ++ [b]) c)
  | pair_refused dc e : pion_Send dc (pp_end s c) b = Err e → pair_Send s b c (Err e) (refuse c).

(** What pion calls.  A message reaches the other end in order, if there is
    room; at an end that is done it may be dropped. *)
Inductive pair_moves (c : pion_pair) : pion_pair → Prop :=
  | move_event s e : pion_event (pp_end s c) e → pc_in e = pc_in (pp_end s c) → pair_moves c (set_end s e c)
  | move_message s b q :
      pp_wire (other s) c = b :: q → (length (pc_in (pp_end s c)) < capacity)%nat →
      pair_moves c (set_wire (other s) q (set_end s (MkPion (pc_in (pp_end s c) ++ [b]) (pc_open (pp_end s c)) (pc_done (pp_end s c))) c))
  | move_dropped s b q :
      pp_wire (other s) c = b :: q → pc_done (pp_end s c) = true → pair_moves c (set_wire (other s) q c).

(** [pionConn.Close]: [closeDone], then the connection is closed, which the
    other end hears of as an event. *)
Definition pion_Close (s : side) (c : pion_pair) : pion_pair := set_end s (closeDone (pp_end s c)) c.

Definition pair_Recv (s : side) (c : pion_pair) (r : result bytes) (c' : pion_pair) : Prop :=
  ∃ e, pion_Recv (pp_end s c) r e ∧ c' = set_end s e c.

#[global] Instance pion_Conn : Conn pion_pair := {
  conn_Send := pair_Send;
  conn_Recv := pair_Recv;
  conn_Close := λ s c c', c' = pion_Close s c;
  conn_moves := pair_moves;
  flight := λ s c, pc_in (pp_end (other s) c) ++ pp_wire s c;
  intact := λ c, pc_done (pp_A c) = false ∧ pc_done (pp_B c) = false ∧ pp_refused c = false;
}.

Lemma pion_event_done e e' : pion_event e e' → pc_done e' = false → pc_done e = false.
Proof. destruct 1 as [| | | |st]; cbn; try done. by destruct st. Qed.

#[global] Instance pion_ConnLaws : ConnLaws pion_pair.
Proof.
  split; cbn.
  - intros s b c r c' [dc Hs|dc e Hs] (H1 & H2 & H3); [|done].
    destruct s, c; cbn in *; by rewrite app_assoc.
  - intros s c r c' (e & Hr & ->) (H1 & H2 & H3).
    destruct Hr as [b q Hi|b q Hd Hi|Hd Hi]; destruct s, c; cbn in *; try congruence;
      (split; [done|]); exists b; by rewrite Hi.
  - intros s c c' -> (H1 & H2 & _). by destruct s.
  - intros c c' [s e He Hi|s b q Hw Hl|s b q Hw Hd] (H1 & H2 & H3); destruct s, c; cbn in *; try congruence.
    + apply pion_event_done in He; [|done]. split; [done|]. intros []; cbn; congruence.
    + apply pion_event_done in He; [|done]. split; [done|]. intros []; cbn; congruence.
    + split; [done|]. intros []; cbn; [done|]. by rewrite Hw, <-app_assoc.
    + split; [done|]. intros []; cbn; [|done]. by rewrite Hw, <-app_assoc.
Qed.
