(* ===== verification/Signaling.v ===== *)
(** * Signaling ([pkg/signaling])

    The in-process registry, and the DHT signaler's framing, routing and
    advertising around libp2p; the libp2p host is in [Dht].  An operation on a channel that would block has
    no result ([None]). *)

From S2P Require Import Prelude Bytes.
Open Scope Z_scope.

(** [ErrNotImplemented], which reports a failed lookup. *)
Definition ErrNotImplemented : error := bs "signaling: peer not found".

Record PeerInfo := MkPeerInfo { pi_PeerID : bytes; pi_Addresses : list bytes }.

(** ** The registry ([memory.go]) *)

Record inbox := MkInbox {
  offers : list (bytes * bytes);          (** from, data *)
  cands : list bytes;
  answers : gmap bytes (list bytes);      (** from -> answers *)
}.

Definition newInbox : inbox := MkInbox [] [] ∅.

Record registry := MkRegistry {
  advert : gmap bytes bytes;
  online : gmap bytes bool;
  boxes : gmap bytes inbox;
}.

Definition NewRegistry : registry := MkRegistry ∅ ∅ ∅.

(** [Registry.box]: the inbox of a peer, made on first use. *)
Definition box_of (r : registry) (p : bytes) : inbox := default newInbox (boxes r !! p).
Definition set_box (p : bytes) (b : inbox) (r : registry) : registry :=
  MkRegistry (advert r) (online r) (<[p := b]> (boxes r)).

(** [inbox.answerChan]. *)
Definition answers_from (b : inbox) (from : bytes) : list bytes := default [] (answers b !! from).

(** A signaler of the registry; [s_lastRemote] is empty until an offer came. *)
Record memSignaler := MkSignaler { s_peerID : bytes; s_lastRemote : bytes }.

(** [Registry.Join]. *)
Definition Join (r : registry) (peerID : bytes) : registry * memSignaler :=
  (MkRegistry (advert r) (<[peerID := true]> (online r)) (<[peerID := box_of r peerID]> (boxes r)),
   MkSignaler peerID []).

Definition Advertise (r : registry) (s : memSignaler) (discoveryKey : bytes) : registry :=
  MkRegistry (<[hex_encode discoveryKey := s_peerID s]> (advert r)) (online r) (boxes r).

Definition Find (r : registry) (discoveryKey : bytes) : result PeerInfo :=
  match advert r !! hex_encode discoveryKey with
  | None => Err ErrNotImplemented
  | Some peerID => Ok (MkPeerInfo peerID [bs "inproc://" ++ peerID])
  end.

Definition offer_cap : nat := 16.
Definition answer_cap : nat := 8.

(** [memSignaler.SendSDP]. *)
Definition SendSDP (r : registry) (s : memSignaler) (peerID sdp : bytes) : option (result unit * registry) :=
  if decide (peerID ≠ []) then
    let b := box_of r peerID in
    if decide (length (offers b) < offer_cap)%nat
    then Some (Ok tt, set_box peerID (MkInbox (offers b ++ [(s_peerID s, sdp)]) (cands b) (answers b)) r)
    else None
  else
    let to := s_lastRemote s in
    if decide (to = []) then Some (Err ErrNotImplemented, r) else
    let b := box_of r to in
    if decide (length (answers_from b (s_peerID s)) < answer_cap)%nat
    then Some (Ok tt, set_box to (MkInbox (offers b) (cands b)
                (<[s_peerID s := answers_from b (s_peerID s) ++ [sdp]]> (answers b))) r)
    else None.

(** [memSignaler.RecvSDP]. *)
Definition RecvSDP (r : registry) (s : memSignaler) (peerID : bytes)
    : option (result bytes * (registry * memSignaler)) :=
  let b := box_of r (s_peerID s) in
  if decide (peerID = []) then
    match offers b with
    | [] => None
    | (from, data) :: rest =>
      Some (Ok data, (set_box (s_peerID s) (MkInbox rest (cands b) (answers b)) r,
                      MkSignaler (s_peerID s) from))
    end
  else
    match answers_from b peerID with
    | [] => None
    | data :: rest =>
      Some (Ok data, (set_box (s_peerID s) (MkInbox (offers b) (cands b) (<[peerID := rest]> (answers b))) r, s))
    end.

(** [memSignaler.SendCandidate], [RecvCandidate]. *)
Definition SendCandidate (r : registry) (s : memSignaler) (peerID c : bytes) : option (result unit * registry) :=
  let to := if decide (peerID = []) then s_lastRemote s else peerID in
  if decide (to = []) then Some (Err ErrNotImplemented, r) else
  let b := box_of r to in
  if decide (length (cands b) < offer_cap)%nat
  then Some (Ok tt, set_box to (MkInbox (offers b) (cands b ++ [c]) (answers b)) r)
  else None.

Definition RecvCandidate (r : registry) (s : memSignaler) : option (result bytes * registry) :=
  let b := box_of r (s_peerID s) in
  match cands b with
  | [] => None
  | c :: rest => Some (Ok c, set_box (s_peerID s) (MkInbox (offers b) rest (answers b)) r)
  end.

Definition Presence (r : registry) (peerID : bytes) : bool := default false (online r !! peerID).

(** [memSignaler.Close]. *)
Definition Close (r : registry) (s : memSignaler) : registry :=
  MkRegistry (advert r) (<[s_peerID s := false]> (online r)) (boxes r).

(** ** The DHT signaler ([libp2p.go]) *)

(** [writeFrame]: kind, length, data. *)
Definition writeFrame (kind : byte) (data : bytes) : bytes :=
  kind :: be_bytes 4 (w32 (Z.of_nat (length data))) ++ data.

(** [io.ReadFull] of [n] octets from what the stream holds. *)
Definition read_full (n : nat) (s : bytes) : result (bytes * bytes) :=
  if decide (n ≤ length s)%nat then Ok (take n s, drop n s)
  else Err (if decide (s = []) then bs "EOF" else bs "unexpected EOF").

(** [readFrame]: the kind and the data. *)
Definition readFrame (s : bytes) : result (byte * bytes) :=
  let? h := read_full 5 s in
  match h.1 with
  | kind :: len =>
    let? d := read_full (Z.to_nat (of_be len)) h.2 in Ok (kind, d.1)
  | [] => Err (bs "unexpected EOF")
  end.

Record DHTSignaler := MkDHT {
  h_lastRemote : bytes;
  h_answers : gmap bytes (list bytes);
  h_advertised : gset bytes;
  h_offerIn : list (bytes * bytes);
  h_candIn : list bytes;
  h_loops : list bytes;        (** the advertise loops started, by namespace *)
}.

Definition NewDHT : DHTSignaler := MkDHT [] ∅ ∅ [] [] [].

(** [DHTSignaler.Advertise]: [dutil.Advertise] starts a loop that never ends. *)
Definition dht_Advertise (discoveryKey : bytes) (d : DHTSignaler) : DHTSignaler :=
  let ns := hex_encode discoveryKey in
  if decide (ns ∈ h_advertised d) then d
  else MkDHT (h_lastRemote d) (h_answers d) ({[ns]} ∪ h_advertised d) (h_offerIn d) (h_candIn d) (h_loops d ++ [ns]).

(** [DHTSignaler.Find]: of the providers the DHT lists, the first other one
    with an address. *)
Definition dht_Find (self : bytes) (found : result (list PeerInfo)) : result PeerInfo :=
  let? l := found in
  of_option (bs "signaling: peer not found in DHT")
    (List.find (λ ai, negb (bool_decide (pi_PeerID ai = self) || bool_decide (pi_Addresses ai = []))) l).

Definition dht_cap : nat := 8.

(** What a stream handler has read and is about to queue. *)
Inductive pending :=
  | POffer (from data : bytes)
  | PAnswer (from data : bytes)
  | PCand (data : bytes).

(** [onStream] up to its [select]: an offer makes its sender the last remote. *)
Definition onStream_read (remote stream : bytes) (d : DHTSignaler) : DHTSignaler * option pending :=
  match readFrame stream with
  | Err _ => (d, None)
  | Ok (kind, data) =>
    if Byte.eqb kind "o" then
      (MkDHT remote (h_answers d) (h_advertised d) (h_offerIn d) (h_candIn d) (h_loops d), Some (POffer remote data))
    else if Byte.eqb kind "a" then (d, Some (PAnswer remote data))
    else if Byte.eqb kind "c" then (d, Some (PCand data))
    else (d, None)
  end.

(** The [select] of [onStream]: it waits while the queue is full. *)
Definition onStream_queue (p : pending) (d : DHTSignaler) : option DHTSignaler :=
  match p with
  | POffer from data =>
    if decide (length (h_offerIn d) < dht_cap)%nat
    then Some (MkDHT (h_lastRemote d) (h_answers d) (h_advertised d) (h_offerIn d ++ [(from, data)]) (h_candIn d) (h_loops d))
    else None
  | PAnswer from data =>
    let q := default [] (h_answers d !! from) in
    if decide (length q < dht_cap)%nat
    then Some (MkDHT (h_lastRemote d) (<[from := q ++ [data]]> (h_answers d)) (h_advertised d) (h_offerIn d) (h_candIn d) (h_loops d))
    else None
  | PCand data =>
    if decide (length (h_candIn d) < dht_cap)%nat
    then Some (MkDHT (h_lastRemote d) (h_answers d) (h_advertised d) (h_offerIn d) (h_candIn d ++ [data]) (h_loops d))
    else None
  end.

(** [onStream]. *)
Definition onStream (remote stream : bytes) (d : DHTSignaler) : option DHTSignaler :=
  match onStream_read remote stream d with
  | (d, None) => Some d
  | (d, Some p) => onStream_queue p d
  end.

Section dht.
(** [peer.Decode] and [host.NewStream], of libp2p. *)
Context (decode : bytes → result bytes) (newStream : bytes → result unit).

(** [sendStream]: the peer the stream goes to and what is written to it. *)
Definition sendStream (peerID : bytes) (kind : byte) (data : bytes) (d : DHTSignaler) : result (bytes * bytes) :=
  let? pid := (if decide (peerID = []) then
                 if decide (h_lastRemote d = []) then Err (bs "signaling: no peer to reply to")
                 else Ok (h_lastRemote d)
               else decode peerID) in
  let? _ := newStream pid in
  Ok (pid, writeFrame kind data).

Definition dht_SendSDP (peerID sdp : bytes) (d : DHTSignaler) : result (bytes * bytes) :=
  if decide (peerID ≠ []) then sendStream peerID "o" sdp d else sendStream [] "a" sdp d.

Definition dht_SendCandidate (peerID c : bytes) (d : DHTSignaler) : result (bytes * bytes) :=
  sendStream peerID "c" c d.

(** [DHTSignaler.RecvSDP], while the context is not done. *)
Definition dht_RecvSDP (peerID : bytes) (d : DHTSignaler) : option (result bytes * DHTSignaler) :=
  if decide (peerID = []) then
    match h_offerIn d with
    | [] => None
    | (from, data) :: rest =>
      Some (Ok data, MkDHT from (h_answers d) (h_advertised d) rest (h_candIn d) (h_loops d))
    end
  else
    match decode peerID with
    | Err e => Some (Err e, d)
    | Ok pid =>
      match default [] (h_answers d !! pid) with
      | [] => None
      | data :: rest =>
        Some (Ok data, MkDHT (h_lastRemote d) (<[pid := rest]> (h_answers d)) (h_advertised d)
                             (h_offerIn d) (h_candIn d) (h_loops d))
      end
    end.
End dht.

(** ** Lemmas *)

Lemma readFrame_writeFrame kind data rest :
  Z.of_nat (length data) < 2 ^ 32 → readFrame (writeFrame kind data ++ rest) = Ok (kind, data).
Proof.
  intros Hl. unfold readFrame, writeFrame. rewrite w32_small by lia.
  set (len := be_bytes 4 (Z.of_nat (length data))).
  assert (length len = 4%nat) as Hlen by apply length_be_bytes.
  change ((kind :: len ++ data) ++ rest) with (kind :: (len ++ data) ++ rest). rewrite <-app_assoc.
  unfold read_full at 1. rewrite decide_True by (cbn [length]; rewrite !length_app; lia).
  cbn [bindR fst snd]. change (take 5 (kind :: len ++ data ++ rest)) with (kind :: take 4 (len ++ data ++ rest)).
  change (drop 5 (kind :: len ++ data ++ rest)) with (drop 4 (len ++ data ++ rest)).
  rewrite take_app_length', drop_app_length' by done. cbn [bindR].
  unfold len. rewrite of_be_be_bytes_small by lia. rewrite Nat2Z.id.
  unfold read_full. rewrite decide_True by (rewrite length_app; lia). cbn [bindR fst].
  by rewrite take_app_length.
Qed.

Lemma box_set_box r p q b : box_of (set_box p b r) q = if decide (p = q) then b else box_of r q.
Proof.
  unfold box_of. cbn. case_decide; [subst; by rewrite lookup_insert_eq|by rewrite lookup_insert_ne].
Qed.

(** The offers waiting for a peer, and the answers from one peer to another. *)
Definition offers_to (r : registry) (p : bytes) : list (bytes * bytes) := offers (box_of r p).
Definition answers_to (r : registry) (p from : bytes) : list bytes := answers_from (box_of r p) from.

Lemma answers_insert b from q from' :
  answers_from (MkInbox (offers b) (cands b) (<[from := q]> (answers b))) from'
  = if decide (from = from') then q else answers_from b from'.
Proof.
  unfold answers_from. cbn. case_decide; [subst; by rewrite lookup_insert_eq|by rewrite lookup_insert_ne].
Qed.

Section properties.
(** C32: the registry keeps offers and answers apart.  An offer to a peer is
    queued for that peer alone and read by its [RecvSDP("")]; an answer goes
    to the peer whose offer was read last and is read only by that peer's
    [RecvSDP] naming the sender; neither disturbs any other queue. *)
Theorem registry_routing r s peer sdp :
  (∀ r', peer ≠ [] → SendSDP r s peer sdp = Some (Ok tt, r') →
     (∀ p, offers_to r' p = offers_to r p ++ (if decide (peer = p) then [(s_peerID s, sdp)] else [])) ∧
     (∀ p f, answers_to r' p f = answers_to r p f)) ∧
  (∀ r', SendSDP r s [] sdp = Some (Ok tt, r') →
     (∀ p, offers_to r' p = offers_to r p) ∧
     (∀ p f, answers_to r' p f
        = answers_to r p f ++ (if decide (s_lastRemote s = p ∧ s_peerID s = f) then [sdp] else []))) ∧
  (∀ d r' s', RecvSDP r s [] = Some (Ok d, (r', s')) →
     offers_to r (s_peerID s) = (s_lastRemote s', d) :: offers_to r' (s_peerID s) ∧
     (∀ p, p ≠ s_peerID s → offers_to r' p = offers_to r p) ∧
     (∀ p f, answers_to r' p f = answers_to r p f)) ∧
  (∀ d r' s', peer ≠ [] → RecvSDP r s peer = Some (Ok d, (r', s')) →
     answers_to r (s_peerID s) peer = d :: answers_to r' (s_peerID s) peer ∧ s' = s ∧
     (∀ p, offers_to r' p = offers_to r p) ∧
     (∀ p f, (p, f) ≠ (s_peerID s, peer) → answers_to r' p f = answers_to r p f)).
Proof.
  unfold SendSDP, RecvSDP, offers_to, answers_to. split_and!.
  - intros r' Hp. rewrite decide_True by done. case_decide; [|done]. intros [= <-].
    split; intros p; [|intros f]; rewrite box_set_box; case_decide; subst; cbn; by rewrite ?app_nil_r.
  - intros r'. rewrite decide_False by (by intros []). case_decide; [done|].
    case_decide; [|done]. intros [= <-].
    split; intros p; [|intros f]; rewrite box_set_box; case_decide as Hq; subst; cbn; try done.
    + rewrite answers_insert. case_decide as Hf; subst.
      * by rewrite decide_True.
      * rewrite decide_False by tauto. by rewrite app_nil_r.
    + rewrite decide_False by tauto. by rewrite app_nil_r.
  - intros d r' s'. rewrite decide_True by done.
    destruct (offers (box_of r (s_peerID s))) as [|[from data] rest] eqn:E; [done|].
    intros [= <- <- <-]. cbn [s_lastRemote]. split_and!.
    + rewrite box_set_box, decide_True by done. by cbn.
    + intros p Hp. by rewrite box_set_box, decide_False by done.
    + intros p f. rewrite box_set_box. case_decide; by subst.
  - intros d r' s' Hp. rewrite decide_False by done.
    destruct (answers_from (box_of r (s_peerID s)) peer) as [|data rest] eqn:E; [done|].
    intros [= <- <- <-]. split_and!.
    + rewrite box_set_box, decide_True by done. by rewrite answers_insert, decide_True.
    + done.
    + intros p. rewrite box_set_box. case_decide; by subst.
    + intros p f Hne. rewrite box_set_box. case_decide; [subst|done].
      rewrite answers_insert. case_decide; [subst; done|done].
Qed.

(** Stream frames survive the stream: what [writeFrame] wrote is what
    [readFrame] reads, whatever follows, and a frame cut short is an error. *)
Theorem frame_roundtrip kind data rest n :
  Z.of_nat (length data) < 2 ^ 32 → (n < length (writeFrame kind data))%nat →
  readFrame (writeFrame kind data ++ rest) = Ok (kind, data) ∧
  is_ok (readFrame (take n (writeFrame kind data))) = false.
Proof.
  intros Hl Hn. split; [by apply readFrame_writeFrame|].
  unfold writeFrame in *. rewrite w32_small in * by lia.
  set (len := be_bytes 4 (Z.of_nat (length data))) in *.
  assert (length len = 4%nat) as Hlen by apply length_be_bytes.
  cbn [length] in Hn. rewrite length_app in Hn. unfold readFrame, read_full at 1.
  case_decide as H5; [|done]. rewrite length_take in H5. cbn [length] in H5. rewrite length_app in H5.
  destruct n as [|n]; [lia|]. cbn [take bindR fst snd].
  change (take 5 (kind :: take n (len ++ data))) with (kind :: take 4 (take n (len ++ data))).
  change (drop 5 (kind :: take n (len ++ data))) with (drop 4 (take n (len ++ data))).
  rewrite take_take, Nat.min_l, take_app_length' by lia. unfold len at 1.
  rewrite of_be_be_bytes_small by lia. rewrite Nat2Z.id. unfold read_full.
  rewrite decide_False; [done|]. rewrite length_drop, length_take, length_app. lia.
Qed.

(** One advertise loop per discovery key, however often [Advertise] is
    called. *)
Theorem advertise_once keys :
  let d := fold_left (λ d k, dht_Advertise k d) keys NewDHT in
  NoDup (h_loops d) ∧ (∀ k, hex_encode k ∈ h_loops d ↔ k ∈ keys).
Proof.
  assert (∀ keys d, (NoDup (h_loops d) ∧ (∀ ns, ns ∈ h_loops d ↔ ns ∈ h_advertised d)) →
    let d' := fold_left (λ d k, dht_Advertise k d) keys d in
    NoDup (h_loops d') ∧ (∀ ns, ns ∈ h_loops d' ↔ ns ∈ h_loops d ∨ ∃ k, k ∈ keys ∧ ns = hex_encode k)) as H.
  { clear keys. induction keys as [|k keys IH]; intros d [Hnd Hadv].
    - split; [done|]. intros ns. split; [by left|]. intros [?|(k & ?%not_elem_of_nil & _)]; done.
    - cbn [fold_left]. unfold dht_Advertise at 2 4. case_decide as Hin.
      + destruct (IH d (conj Hnd Hadv)) as [H1 H2]. split; [done|]. intros ns. rewrite H2.
        setoid_rewrite elem_of_cons. split; [intros [?|(k' & ? & ->)]; eauto|].
        intros [?|(k' & [->|?] & ->)]; [by left|left; by apply Hadv|eauto].
      + destruct (IH (MkDHT (h_lastRemote d) (h_answers d) ({[hex_encode k]} ∪ h_advertised d) (h_offerIn d)
                        (h_candIn d) (h_loops d ++ [hex_encode k]))) as [H1 H2].
        { cbn. split; [|intros ns; rewrite elem_of_app, list_elem_of_singleton, Hadv; set_solver].
          apply NoDup_app. split_and!; [done| |apply NoDup_singleton].
          intros ns Hns ->%list_elem_of_singleton. by apply Hin, Hadv. }
        split; [done|]. intros ns. rewrite H2. cbn. rewrite elem_of_app, list_elem_of_singleton.
        setoid_rewrite elem_of_cons. split; [intros [[?| ->]|(k' & ? & ->)]; eauto|].
        intros [?|(k' & [->|?] & ->)]; eauto. }
  destruct (H keys NewDHT) as [H1 H2].
  { split; [apply NoDup_nil_2|]. intros ns. cbn. rewrite elem_of_empty. split; [by intros ?%not_elem_of_nil|done]. }
  intros d. subst d. split; [done|]. intros k. rewrite H2. cbn. split.
  - intros [?%not_elem_of_nil|(k' & ? & ->%hex_encode_inj)]; done.
  - intros. eauto.
Qed.

(** An answer can go to the wrong peer.  The DHT signaler replies to the
    peer whose offer arrived last, not to the one whose offer was read: an
    offer of [y] that arrives while [x]'s is being answered takes [x]'s
    answer, although the pending offer of [y] is still unread. *)
Theorem dht_answer_misrouted decode newStream x y ox oy answer d1 d2 d3 :
  onStream x (writeFrame "o" ox) NewDHT = Some d1 →
  dht_RecvSDP decode [] d1 = Some (Ok ox, d2) →
  onStream y (writeFrame "o" oy) d2 = Some d3 →
  y ≠ [] → newStream y = Ok tt → Z.of_nat (length oy) < 2 ^ 32 →
  dht_SendSDP decode newStream [] answer d3 = Ok (y, writeFrame "a" answer).
Proof.
  intros _ _ H3 Hy Hs Hl. unfold onStream, onStream_read in H3.
  pose proof (readFrame_writeFrame "o" oy [] Hl) as Hr. rewrite app_nil_r in Hr. rewrite Hr in H3.
  cbn [Byte.eqb] in H3. change (Byte.eqb "o" "o") with true in H3. cbv iota in H3. cbn [onStream_queue] in H3.
  case_decide; [|done]. injection H3 as <-.
  unfold dht_SendSDP, sendStream. rewrite decide_False by (by intros []). rewrite decide_True by done.
  cbn [h_lastRemote]. rewrite decide_False by done. cbn [bindR]. rewrite Hs. done.
Qed.
End properties.

Lemma registry_routing_witness :
  let r := (Join NewRegistry (bs "bob")).1 in
  offers_to (set_box (bs "bob") (MkInbox [(bs "alice", bs "offer")] [] ∅) r) (bs "bob") = [(bs "alice", bs "offer")].
Proof.
  intros r.
  destruct (registry_routing r (MkSignaler (bs "alice") []) (bs "bob") (bs "offer")) as (H & _).
  destruct (H (set_box (bs "bob") (MkInbox [(bs "alice", bs "offer")] [] ∅) r)) as [H1 _].
  - discriminate.
  - reflexivity.
  - rewrite (H1 (bs "bob")). reflexivity.
Defined.

Lemma frame_roundtrip_witness :
  readFrame (writeFrame "o" (bs "sdp") ++ bs "xyz") = Ok ("o"%byte, bs "sdp").
Proof.
  destruct (frame_roundtrip "o" (bs "sdp") (bs "xyz") 0) as [H _]; [reflexivity|cbn; lia|exact H].
Defined.

Lemma dht_answer_misrouted_witness :
  let d1 := MkDHT (bs "x") ∅ ∅ [(bs "x", bs "ox")] [] [] in
  let d2 := MkDHT (bs "x") ∅ ∅ [] [] [] in
  let d3 := MkDHT (bs "y") ∅ ∅ [(bs "y", bs "oy")] [] [] in
  dht_SendSDP Ok (λ _, Ok tt) [] (bs "answer for x") d3 = Ok (bs "y", writeFrame "a" (bs "answer for x")).
Proof.
  intros d1 d2 d3.
  apply (dht_answer_misrouted Ok (λ _, Ok tt) (bs "x") (bs "y") (bs "ox") (bs "oy") (bs "answer for x") d1 d2 d3).
  - vm_compute. reflexivity.
  - vm_compute. reflexivity.
  - vm_compute. reflexivity.
  - discriminate.
  - reflexivity.
  - reflexivity.
Defined.
