(* ===== verification/Account.v ===== *)
(** * The account and the core's one-shot operations ([pkg/account],
    [pkg/core], the result of [pkg/netcheck])

    Loading or creating the sealed identity, and the operations the FFI layers
    call without a running engine. *)

From S2P Require Import Prelude Bytes Gcm Strconv Curve Identity SafetyNumber Vault X3dh Session GoTime Contact Settings.
Open Scope Z_scope.

(** ** [account.go] *)

Record Account := MkAccount {
  acc_Identity : Identity;
  acc_PreKeys : PreKeys;
  acc_Contacts : book;
}.

(** What the operating system answers: [os.MkdirAll], [os.ReadFile] of the
    identity file (a file, none, or another error), [os.WriteFile]. *)
Record os_answers := MkOS {
  os_mkdir : option error;
  os_read : result (option bytes);
  os_write : option error;
}.

Section account.
Context `{Curves}.

(** The identity, and the file contents written if it was created. *)
Definition load_or_generate (key : bytes) (os : os_answers) : M tape (Identity * option bytes) :=
  match os_read os with
  | Ok (Some sealed) =>
    let* blob := liftM (Open key sealed) in
    let* id := liftM (Unmarshal blob) in
    retM (id, None)
  | Ok None =>
    let* id := Generate in
    let* sealed := Seal key (Marshal id) in
    match os_write os with
    | Some e => failM e
    | None => retM (id, Some sealed)
    end
  | Err e => failM e
  end.

(** [LoadOrCreate]. *)
Definition LoadOrCreate (key : bytes) (os : os_answers) : M tape (Account * option bytes) :=
  if decide (length key ≠ KeySize) then failM (bs "account: key must be 32 bytes") else
  match os_mkdir os with
  | Some e => failM e
  | None =>
    let* x := load_or_generate key os in
    let* pre := GeneratePreKeys x.1 in
    retM (MkAccount x.1 pre NewBook, x.2)
  end.

Definition acc_Fingerprint (a : Account) : bytes := Fingerprint (SigningPub (acc_Identity a)).
Definition ContactURI (a : Account) (handle : bytes) : bytes := URI handle (SigningPub (acc_Identity a)).
Definition SafetyNumberWith (a : Account) (peer : bytes) : bytes := Compute (SigningPub (acc_Identity a)) peer.
Definition Sessions (a : Account) : memStore := NewMemStore (acc_Identity a) (Some (acc_PreKeys a)).
End account.

(** ** [netcheck.go] *)

Record Result := MkResult { r_OK : bool; r_ReflexiveAddr : bytes; r_CandidateTypes : list bytes }.

(** UTF-8 of the dash in the messages. *)
Definition em_dash : bytes := map bZ [226; 128; 148].

(** [Result.Detail]. *)
Definition Detail (r : Result) : bytes :=
  if r_OK r then bs "STUN reachable " ++ em_dash ++ bs " public address " ++ r_ReflexiveAddr r else
  match r_CandidateTypes r with
  | [] => bs "No ICE candidates gathered. Check network connectivity and that the app has network permission (Android INTERNET / macOS network entitlement)."
  | _ => bs "STUN did not respond (only local candidates). A direct P2P path may require a TURN server on restrictive networks."
  end.

(** A gathered candidate: its type, address and port. *)
Record candidate := MkCand { ca_Typ : bytes; ca_Address : bytes; ca_Port : Z }.

(** The [OnICECandidate] callback of [STUN]: types seen, and the result so far. *)
Definition on_candidate (st : gset bytes * Result) (c : candidate) : gset bytes * Result :=
  let '(types, res) := st in
  ({[ca_Typ c]} ∪ types,
   if bool_decide (ca_Typ c = bs "srflx") && bool_decide (r_ReflexiveAddr res = [])
   then MkResult true (ca_Address c ++ ":"%byte :: fmt_uint (ca_Port c)) (r_CandidateTypes res)
   else res).

(** [STUN], from the candidates gathered in time; the types in map order. *)
Definition STUN (cands : result (list candidate)) : result Result :=
  let? l := cands in
  let '(types, res) := fold_left on_candidate l (∅, MkResult false [] []) in
  Ok (MkResult (r_OK res) (r_ReflexiveAddr res) (r_CandidateTypes res ++ elements types)).

(** ** [core.go] *)

Definition Version : bytes := bs "0.2.0".
Definition VersionString : bytes := bs "Stunner core " ++ Version.

(** [CheckSTUN]: ok, address, detail. *)
Definition CheckSTUN (cands : list ICEServer → result (list candidate)) : result (bool * bytes * bytes) :=
  let? res := STUN (cands DefaultICEServers) in
  Ok (r_OK res, r_ReflexiveAddr res, Detail res).

Section core.
Context `{Curves}.

Definition NewIdentityFingerprint : M tape bytes :=
  let* id := Generate in retM (Fingerprint (SigningPub id)).

Definition NewContactURI (handle : bytes) : M tape bytes :=
  let* id := Generate in retM (URI handle (SigningPub id)).
End core.

(** [ValidateContactURI]: handle and fingerprint. *)
Definition ValidateContactURI (now : gotime) (uri : bytes) : result (bytes * bytes) :=
  let? c := ParseURI now uri in Ok (c_Handle c, c_Fingerprint c).

(** [SafetyNumber]. *)
Definition SafetyNumber (now : gotime) (uriA uriB : bytes) : result bytes :=
  let? a := ParseURI now uriA in
  let? b := ParseURI now uriB in
  Ok (Compute (c_IdentityKey a) (c_IdentityKey b)).

(** ** Lemmas *)

Lemma Compute_comm a b : Compute a b = Compute b a.
Proof.
  unfold Compute. destruct (bytes_leb (numeric a) (numeric b)) eqn:E1, (bytes_leb (numeric b) (numeric a)) eqn:E2; try done.
  - by rewrite (bytes_leb_antisym (numeric a) (numeric b)).
  - by rewrite (bytes_leb_total _ _ E1) in E2.
Qed.

Lemma length_SigningPub `{CurveLaws} id : wf_identity id → length (SigningPub id) = PublicKeySize.
Proof. intros [(seed & _ & -> & _) _]. apply length_ed25519_pub. Qed.

Section load.
Context `{CurveLaws}.

Lemma Generate_total t : (64 ≤ length t)%nat → ∃ id, Generate t = (Ok id, drop 32 (drop 32 t)).
Proof.
  intros Ht. unfold Generate, ed25519_generate, ecdh_generate. run_M. rewrite rand_read_enough by lia.
  rewrite rand_read_enough by (rewrite length_drop; lia). eauto.
Qed.

Lemma GeneratePreKeys_total id t :
  wf_identity id → (64 ≤ length t)%nat →
  ∃ pre, GeneratePreKeys id t = (Ok pre, drop 32 (drop 32 t)) ∧ signedPre pre = take 32 t.
Proof.
  intros Hid Ht. unfold GeneratePreKeys, ecdh_generate. run_M. rewrite rand_read_enough by lia.
  rewrite rand_read_enough by (rewrite length_drop; lia). rewrite Sign_wf by done. eauto.
Qed.

(** In an empty directory an account is made; what it draws, and in which order. *)
Lemma LoadOrCreate_fresh key os t :
  length key = KeySize → os_mkdir os = None → os_read os = Ok None → os_write os = None → (140 ≤ length t)%nat →
  ∃ acc file, LoadOrCreate key os t = (Ok (acc, Some file), drop 140 t) ∧
    wf_prekeys (acc_PreKeys acc) ∧ pk_id (acc_PreKeys acc) = acc_Identity acc ∧
    signedPre (acc_PreKeys acc) = take 32 (drop 76 t).
Proof.
  intros Hk Hm Hr Hw Ht. unfold LoadOrCreate. rewrite decide_False by (by rewrite Hk; intros []). rewrite Hm.
  unfold load_or_generate. rewrite Hr. run_M.
  destruct (Generate_total t) as [id Hg]; [lia|]. rewrite Hg. apply Generate_wf in Hg.
  destruct (Seal_total key (Marshal id) (drop 32 (drop 32 t)) Hk) as (sealed & -> & _).
  { rewrite !length_drop. unfold gcm_nonce_size. lia. }
  rewrite Hw. cbn [fst snd]. rewrite !drop_drop.
  destruct (GeneratePreKeys_total id (drop (32 + (32 + gcm_nonce_size)) t)) as (pre & Hp & Hs); [done|..].
  { rewrite length_drop. unfold gcm_nonce_size. lia. }
  rewrite Hp. apply GeneratePreKeys_wf in Hp as [? ?]; [|done].
  exists (MkAccount id pre NewBook), sealed. rewrite !drop_drop. by split_and!.
Qed.

(** What a successful call has done. *)
Lemma LoadOrCreate_inv key os t a file t' :
  LoadOrCreate key os t = (Ok (a, file), t') →
  length key = KeySize ∧ os_mkdir os = None ∧
  match os_read os with
  | Ok None => file ≠ None ∧ wf_identity (acc_Identity a) ∧
               ∀ sealed, file = Some sealed → Open key sealed = Ok (Marshal (acc_Identity a))
  | Ok (Some sealed) => file = None ∧ ∃ blob, Open key sealed = Ok blob ∧ Unmarshal blob = Ok (acc_Identity a)
  | Err _ => False
  end.
Proof.
  unfold LoadOrCreate. case_decide as Hk; [done|].
  assert (length key = KeySize) as Hk' by (by destruct (decide (length key = KeySize))).
  destruct (os_mkdir os); [done|]. unfold load_or_generate. run_M.
  destruct (os_read os) as [[sealed|]|e]; [| |done].
  - destruct (Open key sealed) as [blob|]; [|done]. destruct (Unmarshal blob) as [id|] eqn:Eu; [|done].
    cbn [fst snd]. destruct (GeneratePreKeys id t) as [[pre|] t1]; [|done]. intros [= <- <- <-]. eauto 10.
  - destruct (Generate t) as [[id|] t1] eqn:Eg; [|done].
    destruct (Seal key (Marshal id) t1) as [[sealed|] t2] eqn:Es; [|done].
    destruct (os_write os); [done|]. cbn [fst snd].
    destruct (GeneratePreKeys id t2) as [[pre|] t3]; [|done]. intros [= <- <- <-].
    split_and!; [done|done|done|by eapply Generate_wf|]. intros s [= <-]. by eapply Open_Seal.
Qed.

(** A later call reads back what the first one wrote. *)
Lemma LoadOrCreate_again key os t a sealed t1 os' t' :
  LoadOrCreate key os t = (Ok (a, Some sealed), t1) →
  os_mkdir os' = None → os_read os' = Ok (Some sealed) → (64 ≤ length t')%nat →
  ∃ a', LoadOrCreate key os' t' = (Ok (a', None), drop 32 (drop 32 t')) ∧ acc_Identity a' = acc_Identity a ∧
    wf_prekeys (acc_PreKeys a') ∧ pk_id (acc_PreKeys a') = acc_Identity a'.
Proof.
  intros E Hm Hr Ht. apply LoadOrCreate_inv in E as (Hk & _ & E).
  destruct (os_read os) as [[s|]|e]; [by destruct E|destruct E as (_ & Hid & Ho)|done].
  unfold LoadOrCreate. rewrite decide_False by (by rewrite Hk; intros []). rewrite Hm.
  unfold load_or_generate. rewrite Hr. run_M. rewrite (Ho sealed eq_refl), Unmarshal_Marshal by done.
  cbn [fst snd]. destruct (GeneratePreKeys_total (acc_Identity a) t') as (pre & Hpre & _); [done..|]. rewrite Hpre.
  apply GeneratePreKeys_wf in Hpre as [? ?]; [|done].
  eexists. split; [done|]. split_and!; done.
Qed.
End load.

Section properties.
Context `{CurveLaws}.

(** The account is persistent.  What [LoadOrCreate] wrote when it created
    an account, it reads back on every later start with the same key: the
    same identity - so the same fingerprint, contact URI and safety numbers -
    and the file is not written again. *)
Theorem account_persists key os t a sealed t1 os' t' :
  LoadOrCreate key os t = (Ok (a, Some sealed), t1) →
  os_mkdir os' = None → os_read os' = Ok (Some sealed) → (64 ≤ length t')%nat →
  ∃ a' t2, LoadOrCreate key os' t' = (Ok (a', None), t2) ∧ acc_Identity a' = acc_Identity a ∧
    acc_Fingerprint a' = acc_Fingerprint a ∧ (∀ h, ContactURI a' h = ContactURI a h).
Proof.
  intros E Hm Hr Ht. destruct (LoadOrCreate_again key os t a sealed t1 os' t' E Hm Hr Ht) as (a' & E' & Hid & _).
  exists a'. eexists. split; [done|]. unfold acc_Fingerprint, ContactURI. rewrite Hid. by split_and!.
Qed.

(** The account file is never overwritten: a call that finds one either
    loads the identity in it or fails, and writes nothing in both cases. *)
Theorem account_never_overwritten key os t sealed :
  os_read os = Ok (Some sealed) →
  match (LoadOrCreate key os t).1 with
  | Ok (a, file) => file = None ∧ ∃ blob, Open key sealed = Ok blob ∧ Unmarshal blob = Ok (acc_Identity a)
  | Err _ => True
  end.
Proof.
  intros Hr. destruct (LoadOrCreate key os t) as [[[a file]|e] t'] eqn:E; [|done].
  apply LoadOrCreate_inv in E as (_ & _ & E). by rewrite Hr in E.
Qed.

(** C27: both users read out the same safety number: from the two contact
    URIs in either order, whatever handles they carry, it is the same sixty
    digits in twelve groups of five. *)
Theorem safety_number_agrees now ka kb ha hb ha' hb' :
  length ka = PublicKeySize → length kb = PublicKeySize →
  ∃ s digits,
    SafetyNumber now (URI ha ka) (URI hb kb) = Ok s ∧
    SafetyNumber now (URI hb' kb) (URI ha' ka) = Ok s ∧
    length digits = 60%nat ∧ forallb is_digit digits = true ∧
    s = concat (take 1 (groups_of_5 digits) ++ map (cons " "%byte) (drop 1 (groups_of_5 digits))).
Proof.
  intros Ha Hb. unfold SafetyNumber. rewrite !ParseURI_URI by done. cbn [bindR New c_IdentityKey].
  exists (Compute ka kb), (if bytes_leb (numeric ka) (numeric kb) then numeric ka ++ numeric kb else numeric kb ++ numeric ka).
  split; [done|]. split; [by rewrite Compute_comm|]. unfold Compute.
  destruct (numeric_digits ka) as [L1 D1], (numeric_digits kb) as [L2 D2].
  assert (∀ x y, length x = 30%nat → length y = 30%nat → forallb is_digit x = true → forallb is_digit y = true →
    length (x ++ y) = 60%nat ∧ forallb is_digit (x ++ y) = true ∧
    group (x ++ y) = concat (take 1 (groups_of_5 (x ++ y)) ++ map (cons " "%byte) (drop 1 (groups_of_5 (x ++ y))))) as Hg.
  { intros x y Hx Hy Dx Dy. assert (length (x ++ y) = 60%nat) by (rewrite length_app; lia).
    split_and!; [done|by rewrite forallb_app, Dx, Dy|by apply group_60]. }
  destruct (bytes_leb (numeric ka) (numeric kb)); by apply Hg.
Qed.
End properties.

(** The STUN diagnosis is sound and complete: the probe reports success
    exactly when a server-reflexive candidate was gathered, and then shows the
    address of the first one. *)
Theorem stun_diagnosis l :
  Forall (λ c, ca_Address c ≠ []) l →
  ∃ r, STUN (Ok l) = Ok r ∧
  match List.find (λ c, bool_decide (ca_Typ c = bs "srflx")) l with
  | Some c => r_OK r = true ∧ r_ReflexiveAddr r = ca_Address c ++ ":"%byte :: fmt_uint (ca_Port c)
  | None => r_OK r = false ∧ r_ReflexiveAddr r = []
  end ∧ (∀ t, t ∈ r_CandidateTypes r ↔ ∃ c, c ∈ l ∧ ca_Typ c = t).
Proof.
  intros Ha. unfold STUN. cbn [bindR].
  assert (∀ types res, r_CandidateTypes res = [] →
    let st := fold_left on_candidate l (types, res) in
    r_CandidateTypes st.2 = [] ∧ (∀ t, t ∈ st.1 ↔ t ∈ types ∨ ∃ c, c ∈ l ∧ ca_Typ c = t) ∧
    (r_ReflexiveAddr res ≠ [] → st.2 = res) ∧
    (r_ReflexiveAddr res = [] → r_OK res = false →
      match List.find (λ c, bool_decide (ca_Typ c = bs "srflx")) l with
      | Some c => r_OK st.2 = true ∧ r_ReflexiveAddr st.2 = ca_Address c ++ ":"%byte :: fmt_uint (ca_Port c)
      | None => st.2 = res
      end)) as H.
  { induction Ha as [|c l Hc Ha IH]; intros types res Ht.
    - cbn. split_and!; try done. intros t. split; [by left|]. intros [?|(c & ?%not_elem_of_nil & _)]; done.
    - cbn [fold_left on_candidate List.find].
      match goal with |- context [fold_left on_candidate l (_, ?b)] => set (res' := b) end.
      assert (r_CandidateTypes res' = []) as Ht' by (subst res'; by destruct (_ && _)).
      destruct (IH ({[ca_Typ c]} ∪ types) res' Ht') as (I1 & I2 & I3 & I4). split_and!.
      + done.
      + intros t. rewrite I2, elem_of_union, elem_of_singleton. setoid_rewrite elem_of_cons.
        split; [intros [[->|?]|(d & ? & <-)]; eauto|]. intros [?|(d & [->|?] & <-)]; eauto.
      + intros Hr. assert (res' = res) as E by (subst res'; rewrite (bool_decide_false (r_ReflexiveAddr res = [])) by done; by rewrite andb_false_r).
        rewrite <-E. apply I3. by rewrite E.
      + intros Hr Ho. destruct (bool_decide_reflect (ca_Typ c = bs "srflx")) as [Hs|Hs].
        * assert (res' = MkResult true (ca_Address c ++ ":"%byte :: fmt_uint (ca_Port c)) (r_CandidateTypes res)) as E
            by (subst res'; by rewrite !bool_decide_true by done).
          rewrite I3; [by rewrite E|]. rewrite E. cbn. by destruct (ca_Address c).
        * assert (res' = res) as E by reflexivity.
          clearbody res'. subst res'. exact (I4 Hr Ho). }
  destruct (H ∅ (MkResult false [] []) eq_refl) as (H1 & H2 & _ & H4). specialize (H4 eq_refl eq_refl).
  destruct (fold_left on_candidate l (∅, MkResult false [] [])) as [types res]. cbn [fst snd] in *.
  eexists. split; [done|]. cbn [r_OK r_ReflexiveAddr r_CandidateTypes]. split.
  - destruct (List.find _ l); [done|]. by rewrite H4.
  - intros t. rewrite H1. cbn [app]. rewrite elem_of_elements, H2. set_solver.
Qed.

Import ToyCurves.

Definition toy_os : os_answers := MkOS None (Ok None) None.
Definition toy_acc : Account * option bytes :=
  match (LoadOrCreate (zeros 32) toy_os (zeros 200)).1 with
  | Ok p => p | Err _ => (MkAccount Toy.bob Toy.pre NewBook, None)
  end.

Lemma account_persists_witness :
  ∃ a' t2, LoadOrCreate (zeros 32) (MkOS None (Ok toy_acc.2) None) (zeros 64) = (Ok (a', None), t2) ∧
    acc_Identity a' = acc_Identity toy_acc.1 ∧ acc_Fingerprint a' = acc_Fingerprint toy_acc.1 ∧
    (∀ h, ContactURI a' h = ContactURI toy_acc.1 h).
Proof.
  apply (account_persists (zeros 32) toy_os (zeros 200) toy_acc.1 (default [] toy_acc.2) (zeros 60)).
  - vm_compute. reflexivity.
  - reflexivity.
  - vm_compute. reflexivity.
  - vm_compute. lia.
Defined.

Lemma account_never_overwritten_witness :
  match (LoadOrCreate (zeros 32) (MkOS None (Ok (Some [])) None) []).1 with
  | Ok (a, file) => file = None ∧ ∃ blob, Open (zeros 32) [] = Ok blob ∧ Unmarshal blob = Ok (acc_Identity a)
  | Err _ => True
  end.
Proof. apply (account_never_overwritten (zeros 32) (MkOS None (Ok (Some [])) None) [] []). reflexivity. Defined.

Lemma safety_number_agrees_witness :
  ∃ s digits,
    SafetyNumber zero_time (URI (bs "al") (be_bytes 32 1)) (URI (bs "bo") (be_bytes 32 2)) = Ok s ∧
    SafetyNumber zero_time (URI [] (be_bytes 32 2)) (URI [] (be_bytes 32 1)) = Ok s ∧
    length digits = 60%nat ∧ forallb is_digit digits = true ∧
    s = concat (take 1 (groups_of_5 digits) ++ map (cons " "%byte) (drop 1 (groups_of_5 digits))).
Proof.
  apply (safety_number_agrees zero_time (be_bytes 32 1) (be_bytes 32 2) (bs "al") (bs "bo") [] []); apply length_be_bytes.
Defined.

Lemma stun_diagnosis_witness :
  ∃ r, STUN (Ok [MkCand (bs "host") (bs "10.0.0.2") 5; MkCand (bs "srflx") (bs "1.2.3.4") 77]) = Ok r ∧
    (r_OK r = true ∧ r_ReflexiveAddr r = bs "1.2.3.4" ++ ":"%byte :: fmt_uint 77) ∧
    (∀ t, t ∈ r_CandidateTypes r ↔
       ∃ c, c ∈ [MkCand (bs "host") (bs "10.0.0.2") 5; MkCand (bs "srflx") (bs "1.2.3.4") 77] ∧ ca_Typ c = t).
Proof.
  apply (stun_diagnosis [MkCand (bs "host") (bs "10.0.0.2") 5; MkCand (bs "srflx") (bs "1.2.3.4") 77]).
  repeat constructor; discriminate.
Defined.
