(* ===== verification/Proc.v ===== *)
(** * Processes on a connection

    A goroutine that talks over one [transport.Conn] is a process: it runs on
    its own state until it sends, receives or closes, and goes on with the
    answer and with whatever state it then finds.  Two processes on the two
    ends of a reliable connection form a network. *)

From S2P Require Import Prelude.

(** ** Processes *)

Inductive outcome (S A : Type) : Type :=
  | Halt (r : result A) (s : S)
  | Sending (b : bytes) (s : S) (k : result unit → S → outcome S A)
  | Receiving (s : S) (k : result bytes → S → outcome S A)
  | Closing (s : S) (k : S → outcome S A).
Arguments Halt {S A} r s.
Arguments Sending {S A} b s k.
Arguments Receiving {S A} s k.
Arguments Closing {S A} s k.

Definition proc (S A : Type) : Type := S → outcome S A.

Fixpoint bindO {S A B} (o : outcome S A) (k : result A → proc S B) : outcome S B :=
  match o with
  | Halt r s => k r s
  | Sending b s f => Sending b s (λ r s, bindO (f r s) k)
  | Receiving s f => Receiving s (λ r s, bindO (f r s) k)
  | Closing s f => Closing s (λ s, bindO (f s) k)
  end.

Definition retP {S A} (a : A) : proc S A := λ s, Halt (Ok a) s.
Definition failP {S A} (e : error) : proc S A := λ s, Halt (Err e) s.
Definition bindP {S A B} (m : proc S A) (k : A → proc S B) : proc S B := λ s,
  bindO (m s) (λ r, match r with Ok a => k a | Err e => failP e end).
(** Run with a handler for the error. *)
Definition catchP {S A} (m : proc S A) (h : error → proc S A) : proc S A := λ s,
  bindO (m s) (λ r, match r with Ok a => retP a | Err e => h e end).

(** A stretch of code that does not touch the connection. *)
Definition localP {S A} (m : M S A) : proc S A := λ s, let '(r, s) := m s in Halt r s.
Definition sendP {S} (b : bytes) : proc S unit := λ s, Sending b s (λ r s, Halt r s).
Definition recvP {S} : proc S bytes := λ s, Receiving s (λ r s, Halt r s).
Definition closeP {S} : proc S unit := λ s, Closing s (λ s, Halt (Ok tt) s).

Notation "'let!' x ':=' m 'in' k" := (bindP m (λ x, k))
  (at level 10, x binder, m at level 100, k at level 200) : go_scope.

Section laws.
Context {S A B : Type}.

Lemma bindP_ret (a : A) (k : A → proc S B) s : bindP (retP a) k s = k a s.
Proof. reflexivity. Qed.

Lemma bindP_fail (e : error) (k : A → proc S B) s : bindP (failP e) k s = Halt (Err e) s.
Proof. reflexivity. Qed.

Lemma bindP_local (m : M S A) (k : A → proc S B) s :
  bindP (localP m) k s = match m s with (Ok a, s) => k a s | (Err e, s) => Halt (Err e) s end.
Proof. unfold bindP, localP. by destruct (m s) as [[a|e] s']. Qed.
End laws.

(** ** Two processes on a reliable connection *)

Record duo (SA SB RA RB : Type) := Duo {
  left : outcome SA RA;
  right : outcome SB RB;
  to_right : list bytes;
  to_left : list bytes;
}.
Arguments Duo {SA SB RA RB}. Arguments left {SA SB RA RB}. Arguments right {SA SB RA RB}.
Arguments to_right {SA SB RA RB}. Arguments to_left {SA SB RA RB}.

Inductive duo_step {SA SB RA RB} : duo SA SB RA RB → duo SA SB RA RB → Prop :=
  | duo_send_l b s k o q q' : duo_step (Duo (Sending b s k) o q q') (Duo (k (Ok tt) s) o (q ++ [b]) q')
  | duo_recv_l b s k o q q' : duo_step (Duo (Receiving s k) o q (b :: q')) (Duo (k (Ok b) s) o q q')
  | duo_send_r b s k o q q' : duo_step (Duo o (Sending b s k) q q') (Duo o (k (Ok tt) s) q (q' ++ [b]))
  | duo_recv_r b s k o q q' : duo_step (Duo o (Receiving s k) (b :: q) q') (Duo o (k (Ok b) s) q q').

(** A process given the messages it will receive, in order. *)
Fixpoint feed {S A} (o : outcome S A) (ws : list bytes) : outcome S A :=
  match o, ws with
  | Receiving s k, w :: ws => feed (k (Ok w) s) ws
  | _, _ => o
  end.

Lemma feed_nil {S A} (o : outcome S A) : feed o [] = o.
Proof. by destruct o. Qed.

(** Configurations that have exactly one way to go on. *)
Section path.
Context {C : Type} (R : C → C → Prop).

(** [n] forced steps lead to a configuration that has none. *)
Inductive forced : nat → C → C → Prop :=
  | forced_O c : (∀ d, ¬ R c d) → forced O c c
  | forced_S n c c' f : R c c' → (∀ d, R c d → d = c') → forced n c' f → forced (S n) c f.

(** Every run stays on the path: it is finite and can only end at its end. *)
Lemma forced_run n c f : forced n c f → ∀ k d, nsteps R k c d → k ≤ n ∧ rtc R d f.
Proof.
  induction 1 as [c Hn|n c c' f Hr Hu Hf IH]; intros k d Hk.
  - inversion Hk; subst; [by split|]. by destruct (Hn y).
  - destruct Hk as [|k c y d Hy Hk].
    + split; [lia|]. eapply rtc_l; [done|]. destruct (IH 0 c') as [_ ?]; [constructor|done].
    + apply Hu in Hy as ->. destruct (IH k d Hk) as [? ?]. split; [lia|done].
Qed.
End path.

Section duo_forced.
Context {SA SB RA RB : Type}.
Abbreviation R := (@duo_step SA SB RA RB).

Lemma forced_send_r n s k b s' k' q q' f :
  q' = [] → forced R n (Duo (Receiving s k) (k' (Ok tt) s') q (q' ++ [b])) f →
  forced R (S n) (Duo (Receiving s k) (Sending b s' k') q q') f.
Proof. intros ->. apply forced_S; [constructor|]. by inversion 1. Qed.

Lemma forced_recv_l n s k b s' k' q q' f :
  q = [] → forced R n (Duo (k (Ok b) s) (Receiving s' k') q q') f →
  forced R (S n) (Duo (Receiving s k) (Receiving s' k') q (b :: q')) f.
Proof. intros ->. apply forced_S; [constructor|]. by inversion 1. Qed.

Lemma forced_send_l n s k b s' k' q q' f :
  q = [] → forced R n (Duo (k (Ok tt) s) (Receiving s' k') (q ++ [b]) q') f →
  forced R (S n) (Duo (Sending b s k) (Receiving s' k') q q') f.
Proof. intros ->. apply forced_S; [constructor|]. by inversion 1. Qed.

Lemma forced_recv_r n r s b s' k' q q' f :
  forced R n (Duo (Halt r s) (k' (Ok b) s') q q') f →
  forced R (S n) (Duo (Halt r s) (Receiving s' k') (b :: q) q') f.
Proof. apply forced_S; [constructor|]. by inversion 1. Qed.

Lemma forced_end r s r' s' q q' : forced R 0 (Duo (Halt r s) (Halt r' s') q q') (Duo (Halt r s) (Halt r' s') q q').
Proof. constructor. by inversion 1. Qed.
End duo_forced.
