(* ===== verification/Node.v ===== *)
(** * The node ([pkg/node])

    Links: the handshakes, encrypted envelopes, files, receipts and offline
    messages, as processes on a connection.  [sendMu] makes each sending method
    one uninterrupted stretch, which is how the methods are modelled. *)

From S2P Require Import Prelude Bytes Gcm Strconv Json Codec GoTime Kdf Curve Identity X3dh Ratchet Conversation Session Filetransfer Messaging Mailbox Contact Storage Account Proc.
Open Scope Z_scope.

(** ** State *)

(** A node: its account, its store if it has one, its sessions, and what it
    draws from its environment - randomness and clock readings. *)
Record node := MkNode {
  n_Account : Account;
  n_Store : option fileStore;
  n_sessions : memStore;
  n_tape : tape;
  n_clock : list gotime;
}.

Definition set_Store v n := MkNode (n_Account n) v (n_sessions n) (n_tape n) (n_clock n).
Definition set_sessions v n := MkNode (n_Account n) (n_Store n) v (n_tape n) (n_clock n).
Definition set_tape v n := MkNode (n_Account n) (n_Store n) (n_sessions n) v (n_clock n).
Definition set_clock v n := MkNode (n_Account n) (n_Store n) (n_sessions n) (n_tape n) v.

(** [Link]; the connection is the one its process runs on. *)
Record Link := MkLink { l_session : addr; l_peerFP : bytes; l_peerKey : bytes }.

(** [New]. *)
Definition New (acc : Account) (store : option fileStore) (t : tape) (clock : list gotime) : node :=
  MkNode acc store (Sessions acc) t clock.

(** Methods of the parts of a node. *)
Definition with_sessions {A} (m : M (memStore * tape) A) : M node A := λ n,
  let '(r, (s, t)) := m (n_sessions n, n_tape n) in (r, set_tape t (set_sessions s n)).
Definition with_tape {A} (m : M tape A) : M node A := λ n,
  let '(r, t) := m (n_tape n) in (r, set_tape t n).

(** [time.Now().UTC()]: the next reading of the clock. *)
Definition now_utc : M node gotime := λ n,
  (Ok (List.hd zero_time (n_clock n)), set_clock (List.tl (n_clock n)) n).

Section node.
Context `{Curves}.

(** [Node.Bundle]. *)
Definition node_Bundle (n : node) : PreKeyBundle := Bundle (acc_PreKeys (n_Account n)).

Definition lift_sessions {A} (m : M (memStore * tape) A) : proc node A := localP (with_sessions m).

(** ** Handshakes ([node.go], [live.go]) *)

Definition link_of (p : addr) (peerKey : bytes) : M node Link := λ n,
  (Ok (MkLink p (PeerFingerprint (n_sessions n) p) peerKey), n).

(** [Node.Dial]. *)
Definition Dial (bundle : PreKeyBundle) : proc node Link :=
  let! x := lift_sessions (Initiate bundle) in
  let! frame := localP (liftM (EncodeFrame (MkFrame None (Some x.2) None))) in
  let! _ := sendP frame in
  localP (link_of x.1 (b_IdentitySign bundle)).

(** [Node.Accept]. *)
Definition node_Accept : proc node Link :=
  let! raw := recvP in
  let! frame := localP (liftM (DecodeFrame raw)) in
  match f_Handshake frame with
  | None => failP (bs "node: first frame missing handshake")
  | Some hs =>
    let! p := lift_sessions (on_fst (Accept hs)) in
    localP (link_of p (sl (hs_IdentitySign hs)))
  end.

Definition ErrIdentityMismatch : error := bs "node: peer identity does not match expected contact".

(** [Node.handshakeInitiator]. *)
Definition handshakeInitiator (peerIdentity : bytes) : proc node Link :=
  let! raw := recvP in
  let! frame := localP (liftM (DecodeFrame raw)) in
  match f_Bundle frame with
  | None => failP (bs "node: first frame missing prekey bundle")
  | Some bundle =>
    if negb (bool_decide (b_IdentitySign bundle = peerIdentity)) then failP ErrIdentityMismatch else
    let! x := lift_sessions (Initiate bundle) in
    let! out := localP (liftM (EncodeFrame (MkFrame None (Some x.2) None))) in
    let! _ := sendP out in
    localP (link_of x.1 peerIdentity)
  end.

(** [Node.handshakeResponder]. *)
Definition handshakeResponder : proc node Link :=
  let! n := localP getM in
  let! out := localP (liftM (EncodeFrame (MkFrame (Some (node_Bundle n)) None None))) in
  let! _ := sendP out in
  let! raw := recvP in
  let! frame := localP (liftM (DecodeFrame raw)) in
  match f_Handshake frame with
  | None => failP (bs "node: missing handshake from initiator")
  | Some hs =>
    let! p := lift_sessions (on_fst (Accept hs)) in
    localP (link_of p (sl (hs_IdentitySign hs)))
  end.

(** [Node.Connect], given what discovery and the transport answer. *)
Definition Connect (find : result unit) (dial : result unit) (peerIdentity : bytes) : proc node Link :=
  let! _ := localP (liftM find) in
  let! _ := localP (liftM dial) in
  catchP (handshakeInitiator peerIdentity) (λ e, let! _ := closeP in failP e).

(** [Node.Listen], given what the signaler and the transport answer. *)
Definition Listen (advertise : result unit) (accept : result unit) : proc node Link :=
  let! _ := localP (liftM advertise) in
  let! _ := localP (liftM accept) in
  catchP handshakeResponder (λ e, let! _ := closeP in failP e).

(** ** Envelopes *)

(** [Link.encryptSendLocked]. *)
Definition encryptSendLocked (l : Link) (env : Envelope) : proc node unit :=
  let! pt := localP (liftM (Encode env)) in
  let! ct := lift_sessions (session_Encrypt (l_session l) pt) in
  let! frame := localP (liftM (EncodeFrame (MkFrame None None (Some ct)))) in
  sendP frame.

(** [persistable]. *)
Definition persistable (t : bytes) : bool := bool_decide (t = TypeText) || bool_decide (t = TypeFileOffer).

(** [n.Store.AppendMessage], whose error is dropped. *)
Definition store_append (env : Envelope) : M node unit := λ n,
  match n_Store n with
  | Some st =>
    if persistable (e_Type env) then
      let '(_, (st, t)) := AppendMessage (e_ConvID env) env StateSent (st, n_tape n) in
      (Ok tt, set_tape t (set_Store (Some st) n))
    else (Ok tt, n)
  | None => (Ok tt, n)
  end.

(** [Link.sendEnvelopeLocked] and [SendEnvelope]. *)
Definition SendEnvelope (l : Link) (env : Envelope) : proc node unit :=
  let! _ := encryptSendLocked l env in localP (store_append env).

Definition make_text (convID text : bytes) : M node Envelope :=
  let* now := now_utc in with_tape (NewText now convID text None).

(** [Link.SendText]. *)
Definition SendText (l : Link) (convID text : bytes) : proc node Envelope :=
  let! env := localP (make_text convID text) in
  let! _ := SendEnvelope l env in retP env.

Definition make_envelope (t convID : bytes) (body : slice) : M node Envelope :=
  let* now := now_utc in with_tape (NewEnvelope now t convID body).

(** [Link.SendTyping]. *)
Definition SendTyping (l : Link) (convID : bytes) : proc node unit :=
  let! env := localP (make_envelope TypeTyping convID None) in encryptSendLocked l env.

(** [Link.SendReceipt] ([receipt.go]). *)
Definition SendReceipt (l : Link) (convID refMsgID state : bytes) : proc node unit :=
  let! env := localP (let* now := now_utc in with_tape (NewReceipt now convID refMsgID state)) in
  encryptSendLocked l env.

(** [Link.Receive]. *)
Definition Receive (l : Link) : proc node Envelope :=
  let! raw := recvP in
  let! frame := localP (liftM (DecodeFrame raw)) in
  let! pt := lift_sessions (session_Decrypt (l_session l) (sl (f_Payload frame))) in
  localP (liftM (as_result (DecodeEnvelope pt))).

(** ** Files ([file.go]) *)

(** [ParseFileOffer]. *)
Definition ParseFileOffer (env : Envelope) : result Offer :=
  if negb (bool_decide (e_Type env = TypeFileOffer)) then Err (bs "node: expected file offer") else
  unmarshal_ok (dec_struct Offer_fields) zero_Offer (sl (e_Body env)).

(** The number of chunks the offer announces: computed in [uint64], then an
    [int]. *)
Definition num_chunks (offer : Offer) : Z :=
  if 0 <? o_ChunkSize offer then
    let n := w64 (w64 (o_Size offer + o_ChunkSize offer) - 1) / o_ChunkSize offer in
    if n <? 2 ^ 63 then n else n - 2 ^ 64
  else 0.

(** [make([]filetransfer.Chunk, 0, num)]: a chunk takes 48 octets, and a
    slice cannot be larger than the address space. *)
Definition make_ok (num : Z) : bool := (0 <=? num) && (num * 48 <=? 2 ^ 48).

Fixpoint receive_chunks (l : Link) (num : nat) : proc node (list Chunk) :=
  match num with
  | O => retP []
  | S num =>
    let! cenv := Receive l in
    let! c := localP (liftM (unmarshal_ok (dec_struct Chunk_fields) zero_Chunk (sl (e_Body cenv)))) in
    let! cs := receive_chunks l num in
    retP (c :: cs)
  end.

(** [Link.ReceiveFileBody]. *)
Definition ReceiveFileBody (l : Link) (offer : Offer) : proc node bytes :=
  if negb (make_ok (num_chunks offer)) then failP (bs "runtime error: makeslice: cap out of range") else
  let! chunks := receive_chunks l (Z.to_nat (num_chunks offer)) in
  localP (liftM (Reassemble offer chunks)).

(** [Link.ReceiveFile]. *)
Definition ReceiveFile (l : Link) : proc node (Offer * bytes) :=
  let! env := Receive l in
  let! offer := localP (liftM (ParseFileOffer env)) in
  let! data := ReceiveFileBody l offer in
  retP (offer, data).

Fixpoint send_chunks (l : Link) (convID : bytes) (chunks : list Chunk) : proc node unit :=
  match chunks with
  | [] => retP tt
  | c :: chunks =>
    let! env := localP (make_envelope TypeFileChunk convID (Some (marshal (enc_Chunk c)))) in
    let! _ := SendEnvelope l env in
    send_chunks l convID chunks
  end.

(** [Link.SendFile]. *)
Definition SendFile (l : Link) (convID name mime data : bytes) : proc node Offer :=
  let! x := localP (with_tape (Split name mime data 0)) in
  let! env := localP (make_envelope TypeFileOffer convID (Some (marshal (enc_Offer x.1)))) in
  let! _ := SendEnvelope l env in
  let! _ := send_chunks l convID x.2 in
  retP x.1.

(** ** Offline delivery *)

(** [Node.SendOffline]. *)
Definition SendOffline {B} `{Mailbox B} (bundle : PreKeyBundle) (env : Envelope) : M (node * B) unit :=
  let* x := on_fst (with_sessions (Initiate bundle)) in
  let* pt := liftM (Encode env) in
  let* ct := on_fst (with_sessions (session_Encrypt x.1 pt)) in
  let* frame := liftM (EncodeFrame (MkFrame None (Some x.2) (Some ct))) in
  on_snd (mb_Put (Fingerprint (b_IdentitySign bundle)) frame).

(** The loop of [FetchOffline]. *)
Fixpoint open_offline (raws : list bytes) (out : list Envelope) : M node (list Envelope) :=
  match raws with
  | [] => retM out
  | raw :: raws =>
    let* frame := liftM (DecodeFrame raw) in
    match f_Handshake frame with
    | None => failM (bs "node: offline message missing handshake")
    | Some hs =>
      let* p := with_sessions (on_fst (Accept hs)) in
      let* pt := with_sessions (session_Decrypt p (sl (f_Payload frame))) in
      let* env := liftM (as_result (DecodeEnvelope pt)) in
      open_offline raws (out ++ [env])
    end
  end.

(** [Node.FetchOffline]. *)
Definition FetchOffline {B} `{Mailbox B} : M (node * B) (list Envelope) :=
  let* n := on_fst getM in
  let* raws := on_snd (mb_Fetch (acc_Fingerprint (n_Account n))) in
  on_fst (open_offline raws []).
End node.

(** ** Lemmas *)

Section lemmas.
Context `{CurveLaws}.

(** A node as [account.LoadOrCreate] and [New] make it. *)
Record node_ok (n : node) : Prop := {
  no_prekeys : wf_prekeys (acc_PreKeys (n_Account n));
  no_id : pk_id (acc_PreKeys (n_Account n)) = acc_Identity (n_Account n);
  no_local : ms_local (n_sessions n) = acc_Identity (n_Account n);
  no_pre : ms_pre (n_sessions n) = Some (acc_PreKeys (n_Account n));
}.

Lemma decode_bundle b : DecodeFrame (marshal (enc_Frame (MkFrame (Some b) None None))) = Ok (MkFrame (Some b) None None).
Proof. by destruct (DecodeFrame_EncodeFrame (MkFrame (Some b) None None)) as (w & [= <-] & ?). Qed.

Lemma decode_handshake h p :
  p ≠ Some [] → DecodeFrame (marshal (enc_Frame (MkFrame None (Some h) p))) = Ok (MkFrame None (Some h) p).
Proof. intros Hp. by destruct (DecodeFrame_EncodeFrame (MkFrame None (Some h) p)) as (w & [= <-] & ?). Qed.

Lemma Initiate_identity b m t p hs s :
  Initiate b (m, t) = (Ok (p, hs), s) → hs_IdentitySign hs = Some (SigningPub (ms_local m)).
Proof.
  unfold Initiate. run_M. destruct (x3dhInitiate _ _ _) as [[[[sk e] o]|e] t1]; [|discriminate].
  destruct (newRatchetInitiator _ _ _ _) as [[r|e'] t2]; [|discriminate].
  cbv beta iota. intros [[_ <-]%Ok_inj%pair_equal_spec _]%pair_equal_spec. done.
Qed.

(** [Initiate] registers a session only when nothing failed. *)
Lemma Initiate_sessions b m t r m' t' :
  Initiate b (m, t) = (r, (m', t')) →
  match r with
  | Ok _ => Verify (b_IdentitySign b) (b_SignedPreKey b) (b_SignedPreKeySig b) = true
  | Err _ => m' = m
  end.
Proof.
  unfold Initiate. run_M. destruct (Verify _ _ _) eqn:Ev.
  2:{ rewrite x3dhInitiate_bad_signature by done. by intros [<- [= <- <-]]%pair_equal_spec. }
  destruct (x3dhInitiate _ _ _) as [[[[sk e] o]|e] t1].
  2: by intros [<- [= <- <-]]%pair_equal_spec.
  destruct (newRatchetInitiator _ _ _ _) as [[rr|e'] t2].
  2: by intros [<- [= <- <-]]%pair_equal_spec.
  cbv beta iota. by intros [<- _]%pair_equal_spec.
Qed.
#[local] Opaque Initiate Accept DecodeFrame enc_Frame marshal.

(** [handshakeInitiator] once the first frame is decoded. *)
Definition finish_initiator (peerIdentity : bytes) (frame : Frame) : proc node Link :=
  match f_Bundle frame with
  | None => failP (bs "node: first frame missing prekey bundle")
  | Some bundle =>
    if negb (bool_decide (b_IdentitySign bundle = peerIdentity)) then failP ErrIdentityMismatch else
    let! x := lift_sessions (Initiate bundle) in
    let! out := localP (liftM (EncodeFrame (MkFrame None (Some x.2) None))) in
    let! _ := sendP out in
    localP (link_of x.1 peerIdentity)
  end.

Lemma with_sessions_eq {A} (m : M (memStore * tape) A) n r s t :
  m (n_sessions n, n_tape n) = (r, (s, t)) → with_sessions m n = (r, set_tape t (set_sessions s n)).
Proof. intros E. unfold with_sessions. by rewrite E. Qed.

Lemma with_sessions_fst {A} (m : M memStore A) n r s :
  m (n_sessions n) = (r, s) → with_sessions (on_fst m) n = (r, set_tape (n_tape n) (set_sessions s n)).
Proof. intros E. apply with_sessions_eq. unfold on_fst. by rewrite E. Qed.

(** The interactive handshake has one run, of four steps. *)
Lemma handshake_forced nA nB :
  node_ok nB → (64 ≤ length (n_tape nA))%nat →
  ∃ lA lB nA' nB' a b,
    forced duo_step 4
      (Duo (handshakeInitiator (SigningPub (acc_Identity (n_Account nB))) nA) (handshakeResponder nB) [] [])
      (Duo (Halt (Ok lA) nA') (Halt (Ok lB) nB') [] []) ∧
    established (n_sessions nA') (n_sessions nB') (l_session lA) (l_session lB) (acc_PreKeys (n_Account nB)) a b ∧
    ms_local (n_sessions nA') = ms_local (n_sessions nA) ∧
    l_peerKey lA = SigningPub (acc_Identity (n_Account nB)) ∧
    l_peerFP lA = Fingerprint (SigningPub (acc_Identity (n_Account nB))) ∧
    l_peerKey lB = SigningPub (ms_local (n_sessions nA)) ∧
    l_peerFP lB = Fingerprint (SigningPub (ms_local (n_sessions nA))) ∧
    n_clock nA' = n_clock nA ∧ n_clock nB' = n_clock nB ∧
    n_tape nA' = drop 32 (drop 32 (n_tape nA)) ∧ n_tape nB' = n_tape nB ∧
    dhs a = take 32 (drop 32 (n_tape nA)).
Proof.
  intros [Hp Hid Hloc Hpre] Ht.
  destruct (Initiate_Accept (n_sessions nA) (n_sessions nB) (acc_PreKeys (n_Account nB)) (n_tape nA))
    as (pA & hs & mA' & pB & mB' & a & b & Hi & Ha & Hl & Hd & Hest); [done|done|by rewrite Hloc|done|].
  eexists _, _, _, _, a, b. split.
  - eapply forced_send_r; [done|]. cbn [bindO app].
    eapply forced_recv_l; [done|]. cbn [bindO]. rewrite bindP_local.
    unfold liftM at 1. rewrite decode_bundle. cbn [f_Bundle].
    rewrite bool_decide_eq_true_2 by (cbn; by rewrite Hid). cbn [negb].
    unfold lift_sessions at 1. rewrite bindP_local. erewrite with_sessions_eq by exact Hi.
    cbn beta iota. rewrite bindP_local. unfold liftM at 1, EncodeFrame.
    eapply forced_send_l; [done|]. cbn [bindO app].
    eapply forced_recv_r. cbn [bindO]. rewrite bindP_local.
    unfold liftM at 1. rewrite decode_handshake by done. cbn [f_Handshake].
    unfold lift_sessions at 1. rewrite bindP_local.
    erewrite with_sessions_fst by exact Ha.
    eapply forced_end.
  - cbn [n_sessions set_tape set_sessions l_session l_peerKey l_peerFP fst snd].
    split_and!; try done.
    + unfold PeerFingerprint. cbn [n_sessions set_tape set_sessions fst].
      by rewrite (es_A _ _ _ _ _ _ _ Hest), Hid.
    + by rewrite (Initiate_identity _ _ _ _ _ _ Hi).
    + unfold PeerFingerprint. cbn [n_sessions set_tape set_sessions fst].
      by rewrite (es_B _ _ _ _ _ _ _ Hest), Hl.
Qed.

End lemmas.

(** ** What the interactive handshake guarantees *)

Section properties.
Context `{CurveLaws}.

(** C10: two nodes that run [Connect] and [Listen]'s handshakes on a reliable
    connection reach, in at most four steps and on the only run there is, a
    state where both have a link: each names the other's identity key and
    fingerprint, and whatever the two sessions then encrypt is delivered in
    order. *)
Theorem connect_establishes nA nB :
  node_ok nB → (64 ≤ length (n_tape nA))%nat →
  ∃ lA lB nA' nB' sA sB,
    let fin := Duo (Halt (Ok lA) nA') (Halt (Ok lB) nB') [] [] in
    (∀ k d, nsteps duo_step k
       (Duo (handshakeInitiator (SigningPub (acc_Identity (n_Account nB))) nA) (handshakeResponder nB) [] []) d →
       (k ≤ 4)%nat ∧ rtc duo_step d fin) ∧
    l_peerKey lA = SigningPub (acc_Identity (n_Account nB)) ∧
    l_peerFP lA = acc_Fingerprint (n_Account nB) ∧
    l_peerKey lB = SigningPub (ms_local (n_sessions nA)) ∧
    l_peerFP lB = Fingerprint (SigningPub (ms_local (n_sessions nA))) ∧
    ms_heap (n_sessions nA') !! l_session lA = Some sA ∧
    ms_heap (n_sessions nB') !! l_session lB = Some sB ∧
    ∀ n, rtc step (start (s_r sA) (s_r sB)) n → in_order n.
Proof.
  intros Hok Ht.
  destruct (handshake_forced nA nB Hok Ht)
    as (lA & lB & nA' & nB' & a & b & Hf & Hest & Hl & H1 & H2 & H3 & H4 & _).
  exists lA, lB, nA', nB'. eexists _, _. split; [|split_and!; try eassumption].
  - by apply forced_run.
  - by apply (es_A _ _ _ _ _ _ _ Hest).
  - by apply (es_B _ _ _ _ _ _ _ Hest).
  - intros n. apply Lead_in_order, (es_lead _ _ _ _ _ _ _ Hest).
Qed.

(** C11: [Connect] talks to nobody else.  Whatever first frame arrives, either
    a handshake goes out - and then the frame carried a bundle of exactly the
    expected identity, whose signed prekey that identity signed - or the
    connection is closed, an error returned, and the table of sessions is
    untouched; a bundle of another identity gives [ErrIdentityMismatch]. *)
Theorem connect_rejects_impostor peerIdentity w n :
  match feed (Connect (Ok tt) (Ok tt) peerIdentity n) [w] with
  | Sending _ _ _ => ∃ f b, DecodeFrame w = Ok f ∧ f_Bundle f = Some b ∧
      b_IdentitySign b = peerIdentity ∧
      Verify peerIdentity (b_SignedPreKey b) (b_SignedPreKeySig b) = true
  | Closing s k => ∃ e, k s = Halt (Err e) s ∧ n_sessions s = n_sessions n ∧
      (∀ f b, DecodeFrame w = Ok f → f_Bundle f = Some b → b_IdentitySign b ≠ peerIdentity →
         e = ErrIdentityMismatch ∧ s = n)
  | _ => False
  end.
Proof.
  change (feed (Connect (Ok tt) (Ok tt) peerIdentity n) [w]) with
    (feed (bindO ((let! frame := localP (liftM (DecodeFrame w)) in finish_initiator peerIdentity frame) n)
           (λ r, match r with Ok a => retP a | Err e => let! _ := closeP in failP e end)) []).
  rewrite feed_nil.
  rewrite bindP_local. unfold liftM at 1. destruct (DecodeFrame w) as [f|e] eqn:Ef.
  2:{ cbn [bindO]. exists e. by split_and!. }
  unfold finish_initiator. destruct (f_Bundle f) as [b|] eqn:Eb.
  2:{ eexists. split_and!; [done..|]. intros ?? <-%Ok_inj. congruence. }
  case_bool_decide as Hb; cbn [negb].
  2:{ eexists. split_and!; [done..|]. intros ?? <-%Ok_inj. by rewrite Eb. }
  unfold lift_sessions. rewrite bindP_local. unfold with_sessions.
  destruct (Initiate b (n_sessions n, n_tape n)) as [r [m t]] eqn:Ei.
  apply Initiate_sessions in Ei. destruct r as [[p hs]|e].
  - exists f, b. by rewrite <-Hb.
  - subst m. exists e. split_and!; [done..|]. intros ?? <-%Ok_inj. congruence.
Qed.

(** A file offer can crash the receiver.  The number of chunks is computed
    from two fields the sender chose and goes to [make] unchecked: for an
    offer of one-octet chunks and a size from [2^43] up, which parses,
    [ReceiveFileBody] panics before it reads anything. *)
Theorem hostile_offer_panics l n env size :
  2 ^ 43 ≤ size < 2 ^ 64 → e_Type env = TypeFileOffer →
  let offer := MkOffer [] [] size [] 1 None None in
  e_Body env = Some (marshal (enc_Offer offer)) →
  ParseFileOffer env = Ok offer ∧
  ReceiveFileBody l offer n = Halt (Err (bs "runtime error: makeslice: cap out of range")) n.
Proof.
  intros Hs Ht offer Hb. split.
  - unfold ParseFileOffer. rewrite Ht, Hb, bool_decide_eq_true_2 by done. cbn [negb sl].
    apply Offer_roundtrip. split_and!; (done || cbn; lia).
  - unfold ReceiveFileBody, make_ok, num_chunks. cbn [o_ChunkSize o_Size offer].
    change (0 <? 1) with true. cbv iota.
    assert (w64 (w64 (size + 1) - 1) = size) as ->.
    { unfold w64. rewrite Zminus_mod_idemp_l, Z.add_simpl_r. apply Z.mod_small. lia. }
    rewrite Z.div_1_r.
    destruct (Z.ltb_spec size (2 ^ 63)).
    + rewrite (proj2 (Z.leb_gt (size * 48) _)) by lia. by rewrite andb_false_r.
    + rewrite (proj2 (Z.leb_gt 0 _)) by lia. done.
Qed.
End properties.

(** ** Instances *)

Import ToyCurves.

Module ToyNodes.
Definition alice_id : Identity := Toy.id_of 5 6.
Definition alice_pre : PreKeys :=
  MkPreKeys alice_id (be_bytes 32 13)
    (ed25519_sign (SigningPriv alice_id) (x25519_pub (be_bytes 32 13))) (be_bytes 32 14).
Definition clock : list gotime := replicate 4 toy_time.
Definition alice : node := New (MkAccount alice_id alice_pre NewBook) None (be_bytes 128 7) clock.
Definition bob : node := New (MkAccount Toy.bob Toy.pre NewBook) None (be_bytes 128 (2 ^ 800)) clock.

Lemma bob_ok : node_ok bob.
Proof. split; [exact Toy.pre_wf|reflexivity..]. Qed.
End ToyNodes.

Lemma connect_establishes_witness :
  ∃ lA lB nA' nB' sA sB,
    let fin := Duo (Halt (Ok lA) nA') (Halt (Ok lB) nB') [] [] in
    (∀ k d, nsteps duo_step k
       (Duo (handshakeInitiator (SigningPub Toy.bob) ToyNodes.alice) (handshakeResponder ToyNodes.bob) [] []) d →
       (k ≤ 4)%nat ∧ rtc duo_step d fin) ∧
    l_peerKey lA = SigningPub Toy.bob ∧
    l_peerFP lA = acc_Fingerprint (n_Account ToyNodes.bob) ∧
    l_peerKey lB = SigningPub ToyNodes.alice_id ∧
    l_peerFP lB = Fingerprint (SigningPub ToyNodes.alice_id) ∧
    ms_heap (n_sessions nA') !! l_session lA = Some sA ∧
    ms_heap (n_sessions nB') !! l_session lB = Some sB ∧
    ∀ n, rtc step (start (s_r sA) (s_r sB)) n → in_order n.
Proof.
  apply (connect_establishes ToyNodes.alice ToyNodes.bob ToyNodes.bob_ok).
  cbn [n_tape ToyNodes.alice New]. rewrite length_be_bytes. lia.
Defined.

Lemma hostile_offer_panics_witness :
  let offer := MkOffer [] [] (2 ^ 63) [] 1 None None in
  ReceiveFileBody (MkLink 0%nat [] []) offer ToyNodes.alice
  = Halt (Err (bs "runtime error: makeslice: cap out of range")) ToyNodes.alice.
Proof.
  intros offer. subst offer.
  apply (hostile_offer_panics (MkLink 0%nat [] []) ToyNodes.alice
    (MkEnvelope 1 TypeFileOffer [] [] zero_time
       (Some (marshal (enc_Offer (MkOffer [] [] (2 ^ 63) [] 1 None None))))) (2 ^ 63));
    [lia|reflexivity|reflexivity].
Defined.
