(* ===== verification/NodeLink.v ===== *)
(** * Envelopes over a link ([pkg/node])

    [Link.SendEnvelope] and [Link.Receive] on the two ends of a connection
    refine the ratchet network of [Conversation], and so deliver in order. *)

From S2P Require Import Prelude Bytes Gcm Codec GoTime Curve Identity X3dh Ratchet Conversation Session Filetransfer Messaging Contact Storage Account Proc Node.
Open Scope Z_scope.

(** ** One call of each method *)

(** The frame [encryptSendLocked] writes. *)
Definition payload_frame (ct : bytes) : bytes := marshal (enc_Frame (MkFrame None None (Some ct))).

Definition session_of (n : node) (l : Link) : option ratchetSession := ms_heap (n_sessions n) !! l_session l.

(** [n] with the ratchet of [l]'s session replaced. *)
Definition put_session (l : Link) (s : ratchetSession) (n : node) : node :=
  set_sessions (MkStore (ms_local (n_sessions n)) (ms_pre (n_sessions n)) (ms_sessions (n_sessions n))
                  (<[l_session l := s]> (ms_heap (n_sessions n)))) n.

Definition set_ratchet (r : ratchet) (s : ratchetSession) : ratchetSession := MkSession r (s_peerFP s) (s_peerSig s).

Lemma marshal_struct_ne l : marshal (enc_struct l) ≠ [].
Proof. unfold enc_struct. cbn [marshal]. discriminate. Qed.

Lemma message_ne ad pub pn c n pt : message ad pub pn c n pt ≠ [].
Proof. apply marshal_struct_ne. Qed.

Section calls.
Context `{Curves}.

Lemma session_of_put l s s' n : session_of n l = Some s → session_of (put_session l s' n) l = Some s'.
Proof.
  intros E. unfold session_of, put_session. cbn [n_sessions set_sessions ms_heap].
  apply list_lookup_insert_eq. by eapply lookup_lt_Some.
Qed.

#[local] Opaque encrypt decrypt DecodeFrame enc_Frame marshal DecodeEnvelope enc_Envelope.

Lemma encryptSend_spec l env n s pt ct r :
  session_of n l = Some s → Encode env = Ok pt → encrypt pt (s_r s) = (Ok ct, r) →
  encryptSendLocked l env n
  = Sending (payload_frame ct) (put_session l (set_ratchet r s) n) (λ r s, Halt r s).
Proof.
  intros Hs He Hc. unfold encryptSendLocked. rewrite bindP_local. unfold liftM at 1. rewrite He.
  unfold lift_sessions. rewrite bindP_local.
  erewrite with_sessions_eq.
  2:{ unfold session_Encrypt, at_session. unfold session_of in Hs. rewrite Hs.
      unfold on_fst. rewrite Hc. reflexivity. }
  done.
Qed.

Lemma store_append_sessions env n :
  ∃ st j, store_append env n = (Ok tt, set_tape (drop j (n_tape n)) (set_Store st n)) ∧ (j ≤ 12)%nat.
Proof.
  unfold store_append. destruct n as [a [st|] m t c]; cbn [n_Store].
  - destruct (persistable (e_Type env)).
    + pose proof (change_tape (λ d, set_Messages (<[e_ConvID env := Some (default [] (messages_of d (e_ConvID env))
        ++ [MkStored env StateSent (e_ConvID env)])]> (d_Messages d)) d) st t) as (j & Hj & Ht).
      fold (AppendMessage (e_ConvID env) env StateSent) in Ht. cbn [n_tape].
      destruct (AppendMessage _ _ _ _) as [r [st' t']]. cbn [snd] in Ht. subst t'. by exists (Some st'), j.
    + exists (Some st), 0%nat. split; [done|lia].
  - exists None, 0%nat. split; [done|lia].
Qed.

(** [SendEnvelope]: one frame, and the session has moved on. *)
Lemma SendEnvelope_spec l env n s pt ct r :
  session_of n l = Some s → Encode env = Ok pt → encrypt pt (s_r s) = (Ok ct, r) →
  ∃ k st j,
    SendEnvelope l env n = Sending (payload_frame ct) (put_session l (set_ratchet r s) n) k ∧
    k (Ok tt) (put_session l (set_ratchet r s) n)
    = Halt (Ok tt) (set_tape (drop j (n_tape n)) (set_Store st (put_session l (set_ratchet r s) n))) ∧ (j ≤ 12)%nat.
Proof.
  intros Hs He Hc. unfold SendEnvelope, bindP at 1. erewrite encryptSend_spec by done. cbn [bindO].
  destruct (store_append_sessions env (put_session l (set_ratchet r s) n)) as (st & j & E & Ht).
  eexists _, st, j. split; [reflexivity|]. split; [|exact Ht]. cbn beta iota. unfold localP. by rewrite E.
Qed.

(** [Receive]: one frame in, whatever it decrypts to. *)
Lemma Receive_spec l n s ct res r t :
  session_of n l = Some s → ct ≠ [] → decrypt ct (s_r s, n_tape n) = (res, (r, t)) →
  ∃ k, Receive l n = Receiving n k ∧
    k (Ok (payload_frame ct)) n
    = Halt (bindR res (λ pt, as_result (DecodeEnvelope pt))) (set_tape t (put_session l (set_ratchet r s) n)).
Proof.
  intros Hs Hct Hd. eexists. split; [reflexivity|]. cbn [bindO]. cbn beta iota.
  rewrite bindP_local. unfold liftM at 1.
  destruct (DecodeFrame_EncodeFrame (MkFrame None None (Some ct))) as (w & <-%Ok_inj & Hf); [cbn [f_Payload]; congruence|].
  fold (payload_frame ct) in Hf. rewrite Hf. unfold lift_sessions. rewrite bindP_local.
  erewrite with_sessions_eq.
  2:{ unfold session_Decrypt, at_session. unfold session_of in Hs. rewrite Hs.
      cbn [f_Payload sl]. rewrite Hd. reflexivity. }
  by destruct res.
Qed.
End calls.

(** ** Two links *)

(** A node at one end: what was sent over its link, and what [Receive] returned. *)
Record side := Side {
  sd_node : node; sd_link : Link; sd_out : list Envelope; sd_in : list (result Envelope);
}.

Record wires := Wires { w_a : side; w_b : side; w_ab : list bytes; w_ba : list bytes }.

Definition flip_wires (w : wires) : wires := Wires (w_b w) (w_a w) (w_ba w) (w_ab w).

Definition ratchet_of (s : side) : option ratchet := s_r <$> session_of (sd_node s) (sd_link s).

Section network.
Context `{Curves}.

(** What the node at the first end can do. *)
Inductive link_act : wires → wires → Prop :=
  | la_send n l out inb b ab ba env r w n1 k n2 :
      wf_Envelope env → s_r <$> session_of n l = Some r → ns r < counter_limit →
      SendEnvelope l env n = Sending w n1 k → k (Ok tt) n1 = Halt (Ok tt) n2 →
      link_act (Wires (Side n l out inb) b ab ba) (Wires (Side n2 l (out ++ [env]) inb) b (ab ++ [w]) ba)
  | la_recv n l out inb b ab ba r w k res n2 :
      s_r <$> session_of n l = Some r → fresh (n_tape n) r →
      Receive l n = Receiving n k → k (Ok w) n = Halt res n2 →
      link_act (Wires (Side n l out inb) b ab (w :: ba)) (Wires (Side n2 l out (inb ++ [res])) b ab ba).

Definition link_step (w w' : wires) : Prop := link_act w w' ∨ link_act (flip_wires w) (flip_wires w').

(** *** Refinement *)

Definition encodes (env : Envelope) (pt : bytes) : Prop := wf_Envelope env ∧ Encode env = Ok pt.
Definition received (r : result bytes) : result Envelope :=
  bindR r (λ pt, as_result (DecodeEnvelope pt)).

(** A side and the endpoint it implements. *)
Record side_rel (s : side) (e : endpoint) : Prop := {
  sr_ratchet : ratchet_of s = Some (e_ratchet e);
  sr_out : Forall2 encodes (sd_out s) (e_sent e);
  sr_in : sd_in s = map received (e_got e);
}.

Record wires_rel (w : wires) (n : net) : Prop := {
  wr_a : side_rel (w_a w) (alice n);
  wr_b : side_rel (w_b w) (bob n);
  wr_ab : w_ab w = map payload_frame (to_bob n);
  wr_ba : w_ba w = map payload_frame (to_alice n);
  wr_ne : Forall (.≠ []) (to_bob n) ∧ Forall (.≠ []) (to_alice n);
}.

Lemma wires_rel_flip w n : wires_rel w n → wires_rel (flip_wires w) (flip_net n).
Proof. intros [? ? ? ? [? ?]]. by split. Qed.

Lemma session_of_set_tape t n l : session_of (set_tape t n) l = session_of n l.
Proof. done. Qed.

Lemma link_act_simulated w w' n : wires_rel w n → link_act w w' → ∃ n', act n n' ∧ wires_rel w' n'.
Proof.
  intros [Ha Hb Hab Hba [Hne1 Hne2]] Hact. destruct n as [a b tb ta]. cbn [alice bob to_bob to_alice] in *.
  destruct Hact as [nd l out inb sb ab ba env r w n1 k n2 He Hr Hc Hs Hk|nd l out inb sb ab ba r w k res n2 Hr Hf Hs Hk];
    cbn [w_a w_b w_ab w_ba] in *; destruct Ha as [Hra Ho Hi];
    unfold ratchet_of in Hra; cbn [sd_node sd_link sd_out sd_in] in *; rewrite Hr in Hra;
    injection Hra as ->; apply fmap_Some in Hr as (s & Hses & Hsr).
  - destruct (Encode_DecodeEnvelope env He) as (pt & Hpt & _).
    destruct (encrypt pt (e_ratchet a)) as [rc r'] eqn:Ec. pose proof Ec as Ec'.
    rewrite encrypt_spec in Ec'. injection Ec' as <- Hr'.
    edestruct (SendEnvelope_spec l env nd s pt) as (k' & st & t & E1 & E2 & _);
      [done|done|by rewrite <-Hsr|].
    rewrite E1 in Hs. injection Hs as <- <- <-. rewrite E2 in Hk. injection Hk as <-.
    eexists. split; [by apply (act_send _ _ _ _ pt)|].
    split; cbn [w_a w_b w_ab w_ba alice bob to_bob to_alice]; try done.
    + split; cbn [sd_node sd_link sd_out sd_in e_ratchet e_sent e_got]; [|apply Forall2_app; [done|by constructor; [split|]]|done].
      unfold ratchet_of. cbn [sd_node sd_link]. rewrite session_of_set_tape.
      change (session_of (set_Store st ?x) l) with (session_of x l).
      by rewrite (session_of_put _ _ _ _ Hses).
    + by rewrite Hab, map_app.
    + split; [|done]. apply Forall_app. split; [done|]. repeat constructor. apply message_ne.
  - destruct ta as [|ct ta]; [discriminate Hba|]. injection Hba as -> Hba.
    apply Forall_cons in Hne2 as [Hne Hne2].
    destruct (decrypt ct (e_ratchet a, n_tape nd)) as [rc [r' t']] eqn:Ed.
    destruct (Receive_spec l nd s ct rc r' t' Hses Hne) as (k' & E1 & E2); [by rewrite <-Hsr|].
    rewrite E1 in Hs. injection Hs as <-. rewrite E2 in Hk. injection Hk as <- <-.
    eexists. split; [by eapply act_recv|].
    split; cbn [w_a w_b w_ab w_ba alice bob to_bob to_alice]; try done.
    split; cbn [sd_node sd_link sd_out sd_in e_ratchet e_sent e_got]; [|done|].
    + unfold ratchet_of. cbn [sd_node sd_link]. rewrite session_of_set_tape.
      by rewrite (session_of_put _ _ _ _ Hses).
    + by rewrite Hi, map_app.
Qed.

Lemma link_steps_simulated w w' n :
  wires_rel w n → rtc link_step w w' → ∃ n', rtc step n n' ∧ wires_rel w' n'.
Proof.
  intros Hw Hr. revert n Hw. induction Hr as [w|w w1 w' Hs _ IH]; intros n Hw; [by exists n|].
  assert (∃ n1, step n n1 ∧ wires_rel w1 n1) as (n1 & Hn & Hw1).
  { destruct Hs as [Hs|Hs].
    - destruct (link_act_simulated _ _ _ Hw Hs) as (n1 & ? & ?). exists n1. split; [by left|done].
    - destruct (link_act_simulated _ _ _ (wires_rel_flip _ _ Hw) Hs) as (n1 & Hn & Hw1).
      exists (flip_net n1). split; [by right; rewrite flip_flip|].
      apply wires_rel_flip in Hw1. by destruct w1. }
  destruct (IH n1 Hw1) as (n' & ? & ?). exists n'. split; [by eapply rtc_l|done].
Qed.
End network.

(** ** Progress *)

(** The first user can send any envelope, and receive if a frame is waiting. *)
Definition can_go `{Curves} (w : wires) : Prop := ∃ r, ratchet_of (w_a w) = Some r ∧
  (∀ env, wf_Envelope env → ns r < counter_limit →
     ∃ w', link_act w w' ∧ sd_out (w_a w') = sd_out (w_a w) ++ [env]) ∧
  (w_ba w ≠ [] → fresh (n_tape (sd_node (w_a w))) r →
     ∃ w' res, link_act w w' ∧ sd_in (w_a w') = sd_in (w_a w) ++ [res]).

Lemma wires_rel_can_go `{Curves} w n : wires_rel w n → can_go w.
Proof.
  intros [[Hr _ _] _ _ Hba [_ Hne]]. exists (e_ratchet (alice n)). split; [done|].
  destruct w as [[nd l out inb] sb ab ba]. unfold ratchet_of in *.
  cbn [w_a w_b w_ab w_ba sd_node sd_link sd_out sd_in] in *.
  apply fmap_Some in Hr as (s & Hs & Hr). split.
  - intros env He Hc. destruct (Encode_DecodeEnvelope env He) as (pt & Hpt & _).
    edestruct (SendEnvelope_spec l env nd s pt) as (k & st & t & E1 & E2 & _);
      [done|done|apply encrypt_spec|].
    eexists. split; [by eapply la_send; [|rewrite Hs; cbn; by rewrite <-Hr|..]|done].
  - intros Hw Hf. destruct (to_alice n) as [|ct ta]; [by subst|]. subst ba. cbn [map].
    apply Forall_cons in Hne as [Hne _].
    destruct (decrypt ct (s_r s, n_tape nd)) as [res [r t]] eqn:Ed.
    destruct (Receive_spec l nd s ct res r t Hs Hne Ed) as (k & E1 & E2).
    eexists _, _. split; [by eapply la_recv; [rewrite Hs; cbn; by rewrite <-Hr|..]|done].
Qed.

(** ** What two connected nodes get *)

(** Each node has received exactly the start of what the other sent, and the
    rest is on the wire. *)
Definition links_in_order (w : wires) : Prop := ∃ da db pa pb,
  sd_out (w_a w) = da ++ pa ∧ sd_in (w_b w) = map Ok da ∧ length (w_ab w) = length pa ∧
  sd_out (w_b w) = db ++ pb ∧ sd_in (w_a w) = map Ok db ∧ length (w_ba w) = length pb.

Lemma encodes_received env pt : encodes env pt → received (Ok pt) = Ok env.
Proof.
  intros [He Hp]. destruct (Encode_DecodeEnvelope env He) as (b & Hb & Hd).
  rewrite Hp in Hb. apply Ok_inj in Hb as ->. unfold received. cbn [bindR]. by rewrite Hd.
Qed.

Lemma encodes_delivered out da pa :
  Forall2 encodes out (da ++ pa) →
  ∃ oa op, out = oa ++ op ∧ map received (map Ok da) = map Ok oa ∧ length op = length pa.
Proof.
  intros (oa & op & Ha & Hp & ->)%Forall2_app_inv_r. exists oa, op. split_and!; [done| |by eapply Forall2_length].
  clear Hp. induction Ha as [|e p oa da He _ IH]; [done|]. cbn [map].
  by rewrite (encodes_received _ _ He), IH.
Qed.

Lemma wires_rel_in_order w n : wires_rel w n → in_order n → links_in_order w.
Proof.
  intros [Ha Hb Hab Hba _] (da & db & pa & pb & Hsa & Hgb & Hta & Hsb & Hga & Htb).
  destruct Ha as [_ Hoa Hia], Hb as [_ Hob Hib].
  rewrite Hsa in Hoa. rewrite Hsb in Hob. rewrite Hgb in Hib. rewrite Hga in Hia.
  destruct (encodes_delivered _ _ _ Hoa) as (oa & op & ? & Hra & ?).
  destruct (encodes_delivered _ _ _ Hob) as (ob & oq & ? & Hrb & ?).
  exists oa, ob, op, oq. rewrite Hab, Hba, !length_map, Hia, Hib. split_and!; congruence.
Qed.

Section properties.
Context `{CurveLaws}.

(** C5: what one user sends the other user receives.  After [Connect] and
    [Listen]'s handshake, for every interleaving of [SendEnvelope] and
    [Receive] on the two links, every [Receive] on either side has returned
    exactly the next envelope the other side sent - the same version, type,
    ids, time and body - and what is not received yet is on the wire: none is
    lost, altered, duplicated or reordered.  No call fails either: each side can
    always send the next envelope, up to the limit of its message counter, and
    receive when a frame is waiting. *)
Theorem links_deliver_envelopes nA nB :
  node_ok nB → (64 ≤ length (n_tape nA))%nat →
  ∃ lA lB nA' nB',
    rtc duo_step
      (Duo (handshakeInitiator (SigningPub (acc_Identity (n_Account nB))) nA) (handshakeResponder nB) [] [])
      (Duo (Halt (Ok lA) nA') (Halt (Ok lB) nB') [] []) ∧
    ∀ w, rtc link_step (Wires (Side nA' lA [] []) (Side nB' lB [] []) [] []) w →
      links_in_order w ∧ can_go w ∧ can_go (flip_wires w).
Proof.
  intros Hok Ht. destruct (handshake_forced nA nB Hok Ht) as (lA & lB & nA' & nB' & a & b & Hf & [] & _).
  exists lA, lB, nA', nB'. split.
  - by destruct (forced_run _ _ _ _ Hf 0 _ (nsteps_O _ _)).
  - intros w Hw. eapply link_steps_simulated in Hw as (n & Hn & Hr).
    + split_and!; [|by eapply wires_rel_can_go|eapply wires_rel_can_go; by apply wires_rel_flip].
      eapply wires_rel_in_order; [done|]. by eapply Lead_in_order.
    + split; cbn [w_a w_b w_ab w_ba start alice bob to_bob to_alice]; try done.
      all: split; cbn [sd_node sd_link sd_out sd_in e_sent e_got e_ratchet]; try done.
      all: unfold ratchet_of, session_of; cbn [sd_node sd_link]; by rewrite ?es_A, ?es_B.
Qed.
End properties.

Import ToyCurves.

Lemma links_deliver_envelopes_witness :
  ∃ lA lB nA' nB',
    rtc duo_step
      (Duo (handshakeInitiator (SigningPub Toy.bob) ToyNodes.alice) (handshakeResponder ToyNodes.bob) [] [])
      (Duo (Halt (Ok lA) nA') (Halt (Ok lB) nB') [] []) ∧
    ∀ w, rtc link_step (Wires (Side nA' lA [] []) (Side nB' lB [] []) [] []) w →
        links_in_order w ∧ can_go w ∧ can_go (flip_wires w).
Proof.
  apply (links_deliver_envelopes ToyNodes.alice ToyNodes.bob ToyNodes.bob_ok).
  cbn [n_tape ToyNodes.alice New]. rewrite length_be_bytes. lia.
Defined.
