(* ===== verification/NodeFile.v ===== *)
(** * Files over a link ([pkg/node], [file.go])

    [Link.SendFile] at one end and [Link.ReceiveFile] at the other: what the
    receiver returns is the file that was sent. *)

From S2P Require Import Prelude Bytes Sha2 Gcm Json Codec GoTime Curve Identity X3dh Ratchet Conversation Session Filetransfer Messaging Contact Storage Account Proc Node NodeLink.
Open Scope Z_scope.

(** ** A sending process *)

(** The frames a process writes before it needs anything, and where it stops. *)
Fixpoint sent {S A} (o : outcome S A) : list bytes * outcome S A :=
  match o with
  | Sending b s k => let '(ws, o) := sent (k (Ok tt) s) in (b :: ws, o)
  | _ => ([], o)
  end.

Lemma sent_bind {S A B} (o : outcome S A) (k : result A → proc S B) ws r s :
  sent o = (ws, Halt r s) → sent (bindO o k) = (ws ++ (sent (k r s)).1, (sent (k r s)).2).
Proof.
  revert ws. induction o as [r0 s0|b s0 f IH|s0 f IH|s0 f IH]; intros ws E; cbn [sent bindO] in *.
  - injection E as <- -> ->. by destruct (sent (k r s)).
  - destruct (sent (f (Ok tt) s0)) as [ws' o'] eqn:Ef. injection E as <- ->.
    by rewrite (IH (Ok tt) s0 _ Ef).
  - discriminate E.
  - discriminate E.
Qed.

Lemma sent_bindP {S A B} (m : proc S A) (k : A → proc S B) ws a s s' ws' o :
  sent (m s) = (ws, Halt (Ok a) s') → sent (k a s') = (ws', o) → sent (bindP m k s) = (ws ++ ws', o).
Proof. intros E1 E2. unfold bindP. rewrite (sent_bind _ _ _ _ _ E1). by rewrite E2. Qed.

Lemma sent_local {S A B} (m : M S A) (k : A → proc S B) s a s' :
  m s = (Ok a, s') → sent (bindP (localP m) k s) = sent (k a s').
Proof. intros E. rewrite bindP_local. by rewrite E. Qed.

(** ** A receiving process *)

(** [o], fed exactly [ws], stops with [r] in [s]. *)
Inductive eats {S A} : outcome S A → list bytes → result A → S → Prop :=
  | eats_halt r s : eats (Halt r s) [] r s
  | eats_recv s k w ws r s' : eats (k (Ok w) s) ws r s' → eats (Receiving s k) (w :: ws) r s'.

Lemma eats_bind {S A B} (o : outcome S A) (k : result A → proc S B) ws ws' r s r' s' :
  eats o ws r s → eats (k r s) ws' r' s' → eats (bindO o k) (ws ++ ws') r' s'.
Proof. induction 1 as [r s|s0 f w ws r s1 _ IH]; intros E; cbn [bindO app]; [done|]. constructor. by apply IH. Qed.

Lemma eats_bindP {S A B} (m : proc S A) (k : A → proc S B) ws ws' a s s1 r s' :
  eats (m s) ws (Ok a) s1 → eats (k a s1) ws' r s' → eats (bindP m k s) (ws ++ ws') r s'.
Proof. intros E1 E2. by eapply eats_bind. Qed.

Lemma eats_local {S A B} (m : M S A) (k : A → proc S B) s a s1 ws r s' :
  m s = (Ok a, s1) → eats (k a s1) ws r s' → eats (bindP (localP m) k s) ws r s'.
Proof. intros E. rewrite bindP_local. by rewrite E. Qed.

Lemma eats_feed {S A} (o : outcome S A) ws r s : eats o ws r s → feed o ws = Halt r s.
Proof. induction 1; [done|]. by cbn [feed]. Qed.

(** ** The sender *)

Section files.
Context `{CurveLaws}.

(** What an envelope draws: its id, and the nonce of the store. *)
Definition envelope_cost : nat := 28.

(** Node [n] has sent [pts] over [l], as the frames of [cts]; it had [L] octets
    of randomness before that; the other end has ratchet [Y] and tape [t]. *)
Record flow (n : node) (l : Link) (Y : ratchet) (t : tape) (L : nat) (cts pts : list bytes) : Prop := {
  fl_session : ∃ s, session_of n l = Some s ∧ readable Y (s_r s) t cts pts;
  fl_ne : Forall (.≠ []) cts;
  fl_clock : Forall wf_time (n_clock n);
  fl_tape : (L ≤ length (n_tape n) + length cts * envelope_cost)%nat;
}.

(** How many more messages the sender's counter allows. *)
Definition room (n : node) (l : Link) (k : nat) : Prop :=
  ∃ s, session_of n l = Some s ∧ ns (s_r s) + Z.of_nat k ≤ counter_limit ∧ 0 ≤ ns (s_r s).

Lemma wf_zero_time : wf_time zero_time.
Proof. split; vm_compute; (split; discriminate || reflexivity) || reflexivity. Qed.

Lemma make_envelope_spec ty conv body n :
  valid_utf8 ty = true → valid_utf8 conv = true → Forall wf_time (n_clock n) →
  ∃ env t, make_envelope ty conv body n = (Ok env, set_tape t (set_clock (List.tl (n_clock n)) n)) ∧
    wf_Envelope env ∧ e_Type env = ty ∧ e_ConvID env = conv ∧ e_Body env = body ∧ t = drop 16 (n_tape n).
Proof.
  intros Hty Hc Hcl. unfold make_envelope, now_utc, with_tape. run_M.
  assert (wf_time (List.hd zero_time (n_clock n))) as Ht.
  { destruct Hcl; [apply wf_zero_time|done]. }
  destruct (NewEnvelope_Ok (List.hd zero_time (n_clock n)) ty conv body (n_tape n)) as (id & E & Hid); [done..|].
  cbn [n_tape set_clock]. rewrite E. eexists _, _. split; [reflexivity|].
  split; [|done]. by split.
Qed.

Lemma flow_le n l Y t L L' cts pts : flow n l Y t L cts pts → (L' ≤ L)%nat → flow n l Y t L' cts pts.
Proof. intros [] ?. split; (done || lia). Qed.

Lemma SendEnvelope_flow n l Y t L cts pts env k :
  flow n l Y t L cts pts → room n l (S k) → wf_Envelope env →
  ∃ ct pt n', sent (SendEnvelope l env n) = ([payload_frame ct], Halt (Ok tt) n') ∧
    encodes env pt ∧ flow n' l Y t (L + 16) (cts ++ [ct]) (pts ++ [pt]) ∧ room n' l k.
Proof.
  intros [(s & Hs & Hr) Hne Hcl HL] (s' & Hs' & Hlim & Hpos) He. rewrite Hs in Hs'. injection Hs' as <-.
  destruct (Encode_DecodeEnvelope env He) as (pt & Hpt & _).
  pose proof (encrypt_spec pt (s_r s)) as Henc.
  assert (ns (s_r s) < counter_limit) as Hlt by lia.
  pose proof (readable_send _ _ _ _ _ _ _ _ Hr Hlt Henc) as Hr'.
  edestruct (SendEnvelope_spec l env n s pt) as (kk & st & j & E1 & E2 & Hj); [done..|].
  eexists _, pt, _. split; [rewrite E1; cbn [sent]; rewrite E2; reflexivity|]. split; [by split|].
  split; [split|].
  - eexists. split; [apply (session_of_put _ _ _ _ Hs)|]. exact Hr'.
  - apply Forall_app. split; [done|]. constructor; [apply message_ne|constructor].
  - done.
  - cbn [n_tape set_tape]. rewrite length_app, length_drop. unfold envelope_cost in *. cbn [length]. lia.
  - eexists. split; [apply (session_of_put _ _ _ _ Hs)|]. cbn [set_ratchet s_r set_ns set_cks ns].
    rewrite w32_small; unfold counter_limit, maxSkip in *; lia.
Qed.

(** One envelope of a file: made, then sent. *)
Lemma envelope_flow n l Y t L cts pts k ty conv body :
  flow n l Y t L cts pts → room n l (S k) → valid_utf8 ty = true → valid_utf8 conv = true →
  ∃ ct pt env n',
    (∀ B (K : Envelope → proc node B) ws o, sent (K env n') = (ws, o) →
      sent ((let! env := localP (make_envelope ty conv body) in let! _ := SendEnvelope l env in K env) n)
      = (payload_frame ct :: ws, o)) ∧
    encodes env pt ∧ e_Type env = ty ∧ e_Body env = body ∧
    flow n' l Y t L (cts ++ [ct]) (pts ++ [pt]) ∧ room n' l k.
Proof.
  intros Hfl Hroom Hty Hconv.
  destruct (make_envelope_spec ty conv body n Hty Hconv (fl_clock _ _ _ _ _ _ _ Hfl)) as (env & u & E & He & H1 & _ & H2 & Hu).
  set (n1 := set_tape u (set_clock (List.tl (n_clock n)) n)) in E.
  assert (flow n1 l Y t (L - 16) cts pts) as Hfl1.
  { destruct Hfl as [Hs Hne Hcl HL]. split; [done..| |].
    - cbn [n_clock n1 set_tape set_clock]. destruct Hcl; [constructor|done].
    - cbn [n_tape n1 set_tape]. rewrite Hu, length_drop. lia. }
  destruct (SendEnvelope_flow n1 l Y t (L - 16) cts pts env k Hfl1 Hroom He) as (ct & pt & n' & E' & Hen & Hfl' & Hroom').
  exists ct, pt, env, n'. split_and!; [|done..|eapply flow_le; [exact Hfl'|lia]|done].
  intros B K' ws o HK. rewrite (sent_local _ _ _ _ _ E). change (payload_frame ct :: ws) with ([payload_frame ct] ++ ws).
  by eapply sent_bindP.
Qed.

Definition chunk_env (c : Chunk) (env : Envelope) : Prop := e_Body env = Some (marshal (enc_Chunk c)).

Lemma send_chunks_flow l conv Y t L cs : ∀ n cts pts k,
  flow n l Y t L cts pts → room n l (length cs + k) → valid_utf8 conv = true →
  ∃ cts' pts' envs n',
    sent (send_chunks l conv cs n) = (map payload_frame cts', Halt (Ok tt) n') ∧
    Forall2 encodes envs pts' ∧ Forall2 chunk_env cs envs ∧
    flow n' l Y t L (cts ++ cts') (pts ++ pts') ∧ room n' l k.
Proof.
  induction cs as [|c cs IH]; intros n cts pts k Hfl Hroom Hconv.
  - exists [], [], [], n. rewrite !app_nil_r.
    split_and!; [done|constructor|constructor|done..].
  - cbn [length] in Hroom.
    destruct (envelope_flow n l Y t L cts pts (length cs + k) TypeFileChunk conv (Some (marshal (enc_Chunk c))))
      as (ct & pt & env & n1 & E & Hen & _ & Hb & Hfl1 & Hroom1); [done..|].
    destruct (IH n1 _ _ k Hfl1 Hroom1 Hconv) as (cts' & pts' & envs & n' & E' & H1 & H2 & H3 & H4).
    exists (ct :: cts'), (pt :: pts'), (env :: envs), n'. rewrite <-!app_assoc in H3.
    split_and!; [|by constructor..|done|done]. cbn [send_chunks]. by apply (E _ (λ _, send_chunks l conv cs)).
Qed.

(** A text, over a link with nothing on the wire. *)
Lemma SendText_flow l conv text n Y t L k :
  flow n l Y t L [] [] → room n l (S k) → valid_utf8 conv = true →
  ∃ ct pt env n', sent (SendText l conv text n) = ([payload_frame ct], Halt (Ok env) n') ∧
    encodes env pt ∧ e_Body env = Some (marshal (enc_TextBody (MkTextBody text None))) ∧
    flow n' l Y t L [ct] [pt] ∧ room n' l k.
Proof.
  intros Hfl Hroom Hconv.
  destruct (envelope_flow n l Y t L [] [] k TypeText conv (Some (marshal (enc_TextBody (MkTextBody text None)))))
    as (ct & pt & env & n' & E & H1 & _ & H2 & H3 & H4); [done..|].
  exists ct, pt, env, n'. split; [|done]. exact (E _ retP [] _ eq_refl).
Qed.

(** [SendFile]: the offer, then the chunks. *)
Lemma SendFile_flow l conv name mime data n Y t k offer cs u :
  Split name mime data 0 (n_tape n) = (Ok (offer, cs), u) →
  flow n l Y t 0 [] [] → room n l (S (length cs + k)) → valid_utf8 conv = true →
  ∃ cts pts env envs n',
    sent (SendFile l conv name mime data n) = (map payload_frame cts, Halt (Ok offer) n') ∧
    Forall2 encodes (env :: envs) pts ∧
    e_Type env = TypeFileOffer ∧ e_Body env = Some (marshal (enc_Offer offer)) ∧
    Forall2 chunk_env cs envs ∧ flow n' l Y t (length u) cts pts ∧ room n' l k.
Proof.
  intros Hsp Hfl Hroom Hconv.
  assert (flow (set_tape u n) l Y t (length u) [] []) as Hfl0 by (destruct Hfl; split; (done || cbn; lia)).
  destruct (envelope_flow (set_tape u n) l Y t (length u) [] [] (length cs + k) TypeFileOffer conv
    (Some (marshal (enc_Offer offer)))) as (ct & pt & env & n1 & E & Hen & Hty & Hb & Hfl1 & Hroom1); [done..|].
  destruct (send_chunks_flow l conv Y t (length u) cs n1 _ _ k Hfl1 Hroom1 Hconv) as (cts' & pts' & envs & n' & E' & H1 & H2 & H3 & H4).
  exists (ct :: cts'), (pt :: pts'), env, envs, n'. split_and!; [|by constructor|done..].
  unfold SendFile. erewrite sent_local by (unfold with_tape; by rewrite Hsp). cbn [fst snd map].
  apply (E _ (λ _, let! _ := send_chunks l conv cs in retP offer)). rewrite <-(app_nil_r (map payload_frame cts')). by eapply sent_bindP.
Qed.

(** *** The receiver *)

(** Node [m] has still to read [pts] from [l], as the frames of [cts]; the
    other end has ratchet [X].  Before, it was [o]: reading changes neither its
    account nor its keys. *)
Record sink (o m : node) (l : Link) (X : ratchet) (cts pts : list bytes) : Prop := {
  si_session : ∃ s, session_of m l = Some s ∧ reading (n_tape o) (s_r s) X (n_tape m) cts pts;
  si_ne : Forall (.≠ []) cts;
  si_origin : n_Account m = n_Account o ∧ ms_pre (n_sessions m) = ms_pre (n_sessions o) ∧
    ms_local (n_sessions m) = ms_local (n_sessions o) ∧ n_clock m = n_clock o ∧ n_Store m = n_Store o;
}.

Lemma Receive_sink o m l X ct cts pt pts env :
  sink o m l X (ct :: cts) (pt :: pts) → encodes env pt →
  ∃ m', eats (Receive l m) [payload_frame ct] (Ok env) m' ∧ sink o m' l X cts pts.
Proof.
  intros [(s & Hs & Hr) Hne Ho] Hen. apply Forall_cons in Hne as [Hct Hne].
  destruct (decrypt ct (s_r s, n_tape m)) as [res [r t]] eqn:Ed.
  destruct (reading_recv _ _ _ _ _ _ _ _ _ _ Hr Ed) as (pt' & p1 & [= <- <-] & -> & Hr').
  destruct (Receive_spec l m s ct (Ok pt) r t Hs Hct Ed) as (k & E1 & E2).
  eexists. split.
  - rewrite E1. apply eats_recv. rewrite E2. fold (received (Ok pt)). rewrite (encodes_received _ _ Hen). constructor.
  - split; [|done|exact Ho]. eexists. split; [rewrite session_of_set_tape; apply (session_of_put _ _ _ _ Hs)|done].
Qed.

Lemma receive_chunks_sink o l X cs : ∀ m cts pts envs,
  sink o m l X cts pts → length cts = length pts →
  Forall2 encodes envs pts → Forall2 chunk_env cs envs → Forall wf_Chunk cs →
  ∃ m', eats (receive_chunks l (length cs) m) (map payload_frame cts) (Ok cs) m' ∧ sink o m' l X [] [].
Proof.
  induction cs as [|c cs IH]; intros m cts pts envs Hsi Hlen Hen Hce Hwf.
  - inversion Hce; subst. inversion Hen; subst. destruct cts; [|discriminate Hlen].
    exists m. split; [constructor|done].
  - apply Forall2_cons_inv_l in Hce as (env & envs' & Hb & Hce & ->).
    apply Forall2_cons_inv_l in Hen as (pt & pts' & He & Hen & ->).
    destruct cts as [|ct cts]; [discriminate Hlen|]. injection Hlen as Hlen.
    apply Forall_cons in Hwf as [Hc Hwf].
    destruct (Receive_sink _ _ _ _ _ _ _ _ _ Hsi He) as (m1 & E1 & Hsi1).
    destruct (IH m1 cts pts' envs' Hsi1 Hlen Hen Hce Hwf) as (m' & E' & Hsi').
    exists m'. split; [|done]. cbn [length receive_chunks map].
    change (payload_frame ct :: ?ws) with ([payload_frame ct] ++ ws).
    eapply eats_bindP; [exact E1|]. eapply eats_local.
    { unfold liftM. rewrite Hb. cbn [sl]. by rewrite Chunk_roundtrip. }
    rewrite <-(app_nil_r (map payload_frame cts)). eapply eats_bindP; [exact E'|]. constructor.
Qed.

(** *** The whole transfer *)

Lemma flow_sink nA lA nB lB L cts pts sB :
  session_of nB lB = Some sB → flow nA lA (s_r sB) (n_tape nB) L cts pts →
  ∃ sA, session_of nA lA = Some sA ∧ sink nB nB lB (s_r sA) cts pts.
Proof.
  intros HsB [(sA & HsA & Hr) Hne _ _]. exists sA. split; [done|]. split; [|done|done].
  exists sB. split; [done|]. by apply readable_reading.
Qed.

Lemma flow_length nA lA Y t L cts pts : flow nA lA Y t L cts pts → length cts = length pts.
Proof. intros [(s & _ & [[HL _]|HL]) _ _ _]; by apply Lead_length in HL as [? ?]. Qed.

(** The chunks the receiver waits for are the chunks there are. *)
Lemma num_chunks_split fid name mime data h key :
  let offer := MkOffer fid name (Z.of_nat (length data)) mime DefaultChunkSize h key in
  Z.of_nat (length (pieces DefaultChunkSize data)) < 2 ^ 32 →
  num_chunks offer = Z.of_nat (length (pieces DefaultChunkSize data)) ∧
  Z.of_nat (length data) < 2 ^ 47 ∧ make_ok (num_chunks offer) = true.
Proof.
  intros offer. unfold num_chunks, make_ok, pieces, offer. cbn [o_ChunkSize o_Size].
  change DefaultChunkSize with 16384. rewrite length_chunks by lia. rewrite Nat2Z.inj_div.
  replace (Z.of_nat (length data + Z.to_nat 16384 - 1)) with (Z.of_nat (length data) + 16384 - 1) by lia.
  change (Z.of_nat (Z.to_nat 16384)) with 16384. intros Hn.
  assert (Z.of_nat (length data) < 2 ^ 47) by zlia. change (0 <? 16384) with true. cbv iota.
  unfold w64. rewrite (Z.mod_small (_ + _)). 2: lia. rewrite (Z.mod_small (_ - _)) by lia.
  rewrite (proj2 (Z.ltb_lt _ _)) by lia. split_and!; [done..|].
  apply andb_true_intro. split; [apply Z.leb_le|apply Z.leb_le]; zlia.
Qed.

(** The chunks a receiver of the offer waits for. *)
Definition count (offer : Offer) : nat := Z.to_nat (num_chunks offer).

(** The length of a Go slice is an [int]. *)
Definition file_fits (data : bytes) : Prop := Z.of_nat (length data) < 2 ^ 63.

(** The indices of its chunks do not wrap around. *)
Definition file_small (data : bytes) : Prop := Z.of_nat (length data) ≤ 2 ^ 46.

(** What the other end makes of a file, whatever its size and its name: the
    offer it decodes announces as many chunks as there are, and they are not
    taken for another file. *)
Record split_of (name data : bytes) (offer : Offer) (cs : list Chunk) : Prop := {
  sp_name : o_Name offer = to_valid_utf8 name;
  sp_count : count offer = length cs;
  sp_wf : Forall wf_Chunk cs;
  sp_only out : Reassemble offer cs = Ok out → out = data;
  sp_whole : file_small data → Reassemble offer cs = Ok data ∧ make_ok (num_chunks offer) = true;
}.

Lemma Split_whole name mime data t offer cs u :
  Split name mime data 0 t = (Ok (offer, cs), u) → Z.of_nat (length cs) ≤ 2 ^ 32 →
  Reassemble (clean_Offer offer) cs = Ok data.
Proof.
  intros E Hl. destruct (Split_shape _ _ _ _ _ _ _ E) as (_ & _ & _ & _ & _ & Hc & _).
  change DefaultChunkSize with 16384 in Hc.
  assert (32 ≤ length t)%nat as Ht.
  { unfold Split, bindM in E. destruct (rand_read 32 t) as [[k|e] t1] eqn:Er; [|discriminate E].
    by apply rand_read_Ok in Er as (? & _ & _). }
  assert (Z.of_nat (length (pieces DefaultChunkSize data)) ≤ 2 ^ 32) as Hp.
  { unfold pieces. change DefaultChunkSize with 16384. rewrite length_chunks by lia. rewrite Nat2Z.inj_div.
    replace (Z.of_nat (length data + Z.to_nat 16384 - 1)) with (Z.of_nat (length data) + 16384 - 1) by lia.
    change (Z.of_nat (Z.to_nat 16384)) with 16384. zlia. }
  destruct (Split_Ok name mime data 0 t) as (fid & _ & E'); [done|done|split; [exact Hp|lia]|].
  change (eff_size 0) with DefaultChunkSize in E'. rewrite E' in E.
  apply pair_equal_spec in E as [[<- <-]%Ok_inj%pair_equal_spec _].
  apply (Reassemble_seal_from _ fid (take 32 t) data DefaultChunkSize); try done; try lia.
  rewrite length_take. lia.
Qed.

Lemma Split_num_chunks name mime data t offer cs u :
  file_fits data → Split name mime data 0 t = (Ok (offer, cs), u) →
  num_chunks (clean_Offer offer) = Z.of_nat (length cs).
Proof.
  unfold file_fits. intros Hd E. destruct (Split_shape _ _ _ _ _ _ _ E) as (_ & Hs & Hc & _ & _ & H1 & H2).
  change DefaultChunkSize with 16384 in *. unfold w64 in Hs. rewrite Z.mod_small in Hs by lia.
  unfold num_chunks, clean_Offer. cbn [o_ChunkSize o_Size]. rewrite Hs, Hc.
  change (0 <? 16384) with true. cbv iota. unfold w64. rewrite (Z.mod_small (_ + _)) by lia.
  rewrite (Z.mod_small (_ - _)) by lia. rewrite (proj2 (Z.ltb_lt _ _)) by zlia.
  destruct H2 as [->|H2]; [cbn in *; zlia|]. zlia.
Qed.

Lemma Split_received name mime data t offer cs u :
  file_fits data → Split name mime data 0 t = (Ok (offer, cs), u) →
  unmarshal_ok (dec_struct Offer_fields) zero_Offer (marshal (enc_Offer offer)) = Ok (clean_Offer offer) ∧
  split_of name data (clean_Offer offer) cs.
Proof.
  intros Hd E. pose proof (Split_num_chunks _ _ _ _ _ _ _ Hd E) as Hnum. unfold file_fits in Hd.
  destruct (Split_shape _ _ _ _ _ _ _ E) as (Hn & Hs & Hc & Hix & Hfid & H1 & H2).
  change DefaultChunkSize with 16384 in *. unfold w64 in Hs. rewrite Z.mod_small in Hs by lia. split; [|split].
  - apply enc_Offer_clean; rewrite ?Hs, ?Hc; lia.
  - unfold clean_Offer. cbn [o_Name]. by rewrite Hn.
  - unfold count. by rewrite Hnum, Nat2Z.id.
  - apply Forall_forall. intros c Hin. split; [rewrite Forall_forall in Hfid; by apply Hfid|].
    assert (c_Index c ∈ map c_Index cs) as Hi by by apply list_elem_of_fmap_2.
    rewrite Hix in Hi. apply list_elem_of_fmap in Hi as (i & -> & _). apply Z.mod_pos_bound. lia.
  - intros out Ho. destruct (Z.le_gt_cases (Z.of_nat (length cs)) (2 ^ 32)) as [Hle|Hgt].
    + rewrite (Split_whole _ _ _ _ _ _ _ E Hle) in Ho. by apply Ok_inj in Ho.
    + by apply wrapped_not_reassembled in Ho.
  - unfold file_small. intros Hsm. assert (Z.of_nat (length cs) ≤ 2 ^ 32) as Hle.
    { destruct H2 as [->|H2]; [done|lia]. }
    split; [by eapply Split_whole|]. rewrite Hnum. unfold make_ok. apply andb_true_intro. split; apply Z.leb_le; lia.
Qed.

Lemma wf_seal_from fid key i ps :
  valid_utf8 fid = true → 0 ≤ i → i + Z.of_nat (length ps) ≤ 2 ^ 32 → Forall wf_Chunk (seal_from fid key i ps).
Proof.
  intros Hf. revert i. induction ps as [|p ps IH]; intros i Hi Hb; [constructor|].
  cbn [seal_from length] in *. constructor; [|apply IH; lia]. split; [done|cbn; lia].
Qed.

Lemma ReceiveFile_sink o m l X cts pts envs env offer cs data :
  sink o m l X cts pts → length cts = length pts → Forall2 encodes (env :: envs) pts →
  e_Type env = TypeFileOffer → e_Body env = Some (marshal (enc_Offer offer)) → wf_Offer offer →
  Forall2 chunk_env cs envs → Forall wf_Chunk cs →
  num_chunks offer = Z.of_nat (length cs) → make_ok (num_chunks offer) = true →
  Reassemble offer cs = Ok data →
  ∃ m', eats (ReceiveFile l m) (map payload_frame cts) (Ok (offer, data)) m' ∧ sink o m' l X [] [].
Proof.
  intros Hsi Hlen Hen Hty Hb Hwo Hce Hwf Hnum Hmk Hre.
  apply Forall2_cons_inv_l in Hen as (pt & pts' & He & Hen & ->).
  destruct cts as [|ct cts]; [discriminate Hlen|]. injection Hlen as Hlen.
  destruct (Receive_sink _ _ _ _ _ _ _ _ _ Hsi He) as (m1 & E1 & Hsi1).
  destruct (receive_chunks_sink _ _ _ _ _ _ _ _ Hsi1 Hlen Hen Hce Hwf) as (m' & E' & Hsi').
  exists m'. split; [|done]. unfold ReceiveFile. cbn [map].
  change (payload_frame ct :: ?ws) with ([payload_frame ct] ++ ws).
  eapply eats_bindP; [exact E1|]. eapply eats_local.
  { unfold liftM, ParseFileOffer. rewrite Hty, Hb, bool_decide_eq_true_2 by done. cbn [negb sl].
    by rewrite Offer_roundtrip. }
  rewrite <-(app_nil_r (map payload_frame cts)). eapply eats_bindP; [|constructor].
  unfold ReceiveFileBody. rewrite Hmk. cbn [negb]. rewrite Hnum, Nat2Z.id.
  rewrite <-(app_nil_r (map payload_frame cts)). eapply eats_bindP; [exact E'|].
  unfold localP, liftM. rewrite Hre. constructor.
Qed.
End files.

(** ** What a file transfer gets *)

(** Two links with nothing on the wire between them; the second node is the
    one that will read, and has randomness for a DH step. *)
Definition idle `{Curves} (nA : node) (lA : Link) (nB : node) (lB : Link) : Prop :=
  ∃ sA sB, session_of nA lA = Some sA ∧ session_of nB lB = Some sB ∧
    readable (s_r sB) (s_r sA) (n_tape nB) [] [].

Lemma handshake_idle `{CurveLaws} nA nB :
  node_ok nB → (64 ≤ length (n_tape nA))%nat →
  (32 ≤ length (n_tape nB))%nat →
  x25519_pub (take 32 (n_tape nB)) ≠ x25519_pub (signedPre (acc_PreKeys (n_Account nB))) →
  ∃ lA lB nA' nB',
    rtc duo_step
      (Duo (handshakeInitiator (SigningPub (acc_Identity (n_Account nB))) nA) (handshakeResponder nB) [] [])
      (Duo (Halt (Ok lA) nA') (Halt (Ok lB) nB') [] []) ∧
    idle nA' lA nB' lB ∧ idle nB' lB nA' lA ∧
    (∀ k, Z.of_nat k ≤ counter_limit → room nA' lA k ∧ room nB' lB k) ∧
    n_clock nA' = n_clock nA ∧ n_clock nB' = n_clock nB ∧
    n_tape nA' = drop 32 (drop 32 (n_tape nA)) ∧ n_tape nB' = n_tape nB.
Proof.
  intros Hok Ht HtB Hfr.
  destruct (handshake_forced nA nB Hok Ht)
    as (lA & lB & nA' & nB' & a & b & Hf & [] & _ & _ & _ & _ & _ & Hc1 & Hc2 & Ht1 & Ht2 & _).
  exists lA, lB, nA', nB'. split; [by destruct (forced_run _ _ _ _ Hf 0 _ (nsteps_O _ _))|].
  destruct es_ns as [Hna Hnb]. split_and!; try done.
  - eexists _, _. split_and!; [exact es_A|exact es_B|]. cbn [s_r]. left. split; [done|].
    unfold fresh. by rewrite Ht2, es_key.
  - eexists _, _. split_and!; [exact es_B|exact es_A|]. cbn [s_r]. by right.
  - intros k Hk. split; eexists; (split; [eassumption|]); cbn [s_r]; lia.
Qed.

Section transfer.
Context `{CurveLaws}.

(** Where a transfer leaves both nodes; what is sent fits in as many frames as
    there are chunks, and one. *)
Lemma file_flow nA lA nB lB sB conv name mime data k :
  session_of nB lB = Some sB → flow nA lA (s_r sB) (n_tape nB) 0 [] [] → (32 ≤ length (n_tape nA))%nat →
  valid_utf8 conv = true → valid_utf8 name = true → valid_utf8 mime = true →
  room nA lA (S (length (pieces DefaultChunkSize data) + k)) →
  ∃ cts pts offer nA' nB' sA',
    sent (SendFile lA conv name mime data nA) = (map payload_frame cts, Halt (Ok offer) nA') ∧
    eats (ReceiveFile lB nB) (map payload_frame cts) (Ok (offer, data)) nB' ∧
    length cts = S (length (pieces DefaultChunkSize data)) ∧
    o_Name offer = name ∧ o_MIME offer = mime ∧ o_Size offer = Z.of_nat (length data) ∧
    flow nA' lA (s_r sB) (n_tape nB) (length (n_tape nA) - 44) cts pts ∧ room nA' lA k ∧
    session_of nA' lA = Some sA' ∧ sink nB nB' lB (s_r sA') [] [].
Proof.
  intros HsB Hfl0 Ht Hc Hn Hm Hroom.
  assert (Z.of_nat (length (pieces DefaultChunkSize data)) < 2 ^ 32) as Hp.
  { destruct Hroom as (s & _ & Hle & Hpos). unfold counter_limit, maxSkip in Hle. lia. }
  destruct (num_chunks_split [] name mime data None None Hp) as (_ & Hd & _).
  destruct (Split_Ok name mime data 0 (n_tape nA)) as (fid & Hfid & Hsp); [done|done| |].
  { split; [apply Z.lt_le_incl; exact Hp|lia]. }
  change (eff_size 0) with DefaultChunkSize in Hsp. set (cs := seal_from _ _ _ _) in Hsp.
  assert (length cs = length (pieces DefaultChunkSize data)) as Hlen by apply length_seal_from.
  set (offer := MkOffer _ _ _ _ _ _ _) in Hsp.
  destruct (SendFile_flow lA conv name mime data nA (s_r sB) (n_tape nB) k offer cs _ Hsp)
    as (cts & pts & env & envs & nA' & E & Hen & Hty & Hb & Hce & Hfl & Hroom'); [done|by rewrite Hlen|done|].
  pose proof (flow_length _ _ _ _ _ _ _ Hfl) as Hl.
  destruct (flow_sink _ _ _ _ _ _ _ _ HsB Hfl) as (sA' & HsA' & Hsi).
  destruct (num_chunks_split fid name mime data (o_Hash offer) (o_TransferKey offer) Hp) as (Hnum & _ & Hmk).
  edestruct (ReceiveFile_sink nB nB lB (s_r sA') cts pts envs env offer cs data) as (nB' & E' & Hsi'); try done.
  - unfold wf_Offer. cbn [offer o_FileID o_Name o_MIME o_Size o_ChunkSize].
    unfold DefaultChunkSize. split_and!; (done || lia).
  - apply wf_seal_from; [done|done|lia].
  - by rewrite Hlen.
  - eapply (Reassemble_seal_from _ fid (take 32 (n_tape nA)) data DefaultChunkSize); try done; try lia.
    rewrite length_take. lia.
  - exists cts, pts, offer, nA', nB', sA'. split_and!; try done.
    + rewrite Hl, <-(Forall2_length _ _ _ Hen), <-Hlen. cbn [length]. by rewrite (Forall2_length _ _ _ Hce).
    + eapply flow_le; [exact Hfl|]. rewrite !length_drop. lia.
Qed.
End transfer.

Section properties.
Context `{CurveLaws}.

(** C7: a file survives the connection.  Over two idle links, [SendFile]
    succeeds and writes some frames, and [ReceiveFile] on exactly these frames
    succeeds, waits for no more, and returns the offer with the name and type
    given and the very octets of the file; and nothing is left on the wire. *)
Theorem file_transfer nA lA nB lB conv name mime data :
  idle nA lA nB lB → Forall wf_time (n_clock nA) → (32 ≤ length (n_tape nA))%nat →
  valid_utf8 conv = true → valid_utf8 name = true → valid_utf8 mime = true →
  room nA lA (S (length (pieces DefaultChunkSize data))) →
  ∃ ws offer nA' nB' sA' sB',
    sent (SendFile lA conv name mime data nA) = (ws, Halt (Ok offer) nA') ∧
    feed (ReceiveFile lB nB) ws = Halt (Ok (offer, data)) nB' ∧
    o_Name offer = name ∧ o_MIME offer = mime ∧ o_Size offer = Z.of_nat (length data) ∧
    session_of nA' lA = Some sA' ∧ session_of nB' lB = Some sB' ∧
    readable (s_r sB') (s_r sA') (n_tape nB') [] [].
Proof.
  intros (sA & sB & HsA & HsB & Hr) Hcl Ht Hc Hn Hm Hroom.
  destruct (file_flow nA lA nB lB sB conv name mime data 0)
    as (cts & pts & offer & nA' & nB' & sA' & E & E' & _ & H1 & H2 & H3 & _ & _ & HsA' & [(sB' & HsB' & Hr') _ _]);
    try done.
  { split; [by eauto|constructor|done|cbn; lia]. }
  { by rewrite Nat.add_0_r. }
  exists (map payload_frame cts), offer, nA', nB', sA', sB'.
  split_and!; try done; [by apply eats_feed|by eapply reading_readable].
Qed.
End properties.

Import ToyCurves.

Lemma file_transfer_witness :
  ∃ lA lB nA nB,
    rtc duo_step
      (Duo (handshakeInitiator (SigningPub Toy.bob) ToyNodes.alice) (handshakeResponder ToyNodes.bob) [] [])
      (Duo (Halt (Ok lA) nA) (Halt (Ok lB) nB) [] []) ∧
    ∃ ws offer nA' nB' sA' sB',
      sent (SendFile lA (bs "conv1") (bs "a.txt") (bs "text/plain") toy_file nA) = (ws, Halt (Ok offer) nA') ∧
      feed (ReceiveFile lB nB) ws = Halt (Ok (offer, toy_file)) nB' ∧
      o_Name offer = bs "a.txt" ∧ o_MIME offer = bs "text/plain" ∧ o_Size offer = 12 ∧
      session_of nA' lA = Some sA' ∧ session_of nB' lB = Some sB' ∧
      readable (s_r sB') (s_r sA') (n_tape nB') [] [].
Proof.
  destruct (handshake_idle ToyNodes.alice ToyNodes.bob ToyNodes.bob_ok)
    as (lA & lB & nA & nB & Hr & Hi & _ & Hroom & Hc & _ & Ht & _).
  { cbn [n_tape ToyNodes.alice New]. rewrite length_be_bytes. lia. }
  { cbn [n_tape ToyNodes.bob New]. rewrite length_be_bytes. lia. }
  { vm_compute. discriminate. }
  exists lA, lB, nA, nB. split; [exact Hr|].
  apply (file_transfer nA lA nB lB (bs "conv1") (bs "a.txt") (bs "text/plain") toy_file); [exact Hi| | |reflexivity..|].
  - rewrite Hc. apply Forall_replicate, toy_time_wf.
  - rewrite Ht, !length_drop. cbn [n_tape ToyNodes.alice New]. rewrite length_be_bytes. lia.
  - apply Hroom. vm_compute. discriminate.
Defined.
