(* ===== verification/NodeHop.v ===== *)
(** * One envelope at a time over a link ([pkg/node])

    Two links with nothing on the wire: what one call of a sending method and
    one of [Receive] do to them, whichever way the envelope goes.  The
    conversations of [Live] and [Engines] are made of such steps. *)

From S2P Require Import Prelude Bytes Json Codec GoTime Curve Identity X3dh Ratchet Conversation Session Filetransfer Messaging Contact Storage Account Proc Node NodeLink NodeFile.
Open Scope Z_scope.

Section hops.
Context `{CurveLaws}.

(** [o] writes one frame, whose sealed message is [ct], and leaves the session
    of [l] with ratchet [r]; [j] octets of randomness went into it. *)
Record hops (n : node) (l : Link) (o : outcome node unit) (ct : bytes) (r : ratchet) (j : nat) (n' : node) : Prop := {
  ho_sent : sent o = ([payload_frame ct], Halt (Ok tt) n');
  ho_ne : ct ≠ [];
  ho_session : s_r <$> session_of n' l = Some r;
  ho_tape : n_tape n' = drop j (n_tape n);
  ho_clock : ∃ i, n_clock n' = drop i (n_clock n);
}.

Lemma encryptSend_hops l env n s pt ct r :
  session_of n l = Some s → Encode env = Ok pt → encrypt pt (s_r s) = (Ok ct, r) →
  ∃ n', hops n l (encryptSendLocked l env n) ct r 0 n'.
Proof.
  intros Hs He Hc. eexists. split.
  - rewrite (encryptSend_spec l env n s pt ct r) by done. reflexivity.
  - rewrite encrypt_spec in Hc. injection Hc as <- _. apply message_ne.
  - by rewrite (session_of_put _ _ _ _ Hs).
  - done.
  - by exists 0%nat.
Qed.

Lemma SendEnvelope_hops l env n s pt ct r :
  session_of n l = Some s → Encode env = Ok pt → encrypt pt (s_r s) = (Ok ct, r) →
  ∃ j n', (j ≤ 12)%nat ∧ hops n l (SendEnvelope l env n) ct r j n'.
Proof.
  intros Hs He Hc. destruct (SendEnvelope_spec l env n s pt ct r Hs He Hc) as (k & st & j & E1 & E2 & Hj).
  exists j. eexists. split; [done|]. split.
  - rewrite E1. cbn [sent]. rewrite E2. reflexivity.
  - rewrite encrypt_spec in Hc. injection Hc as <- _. apply message_ne.
  - rewrite session_of_set_tape. change (session_of (set_Store st ?x) l) with (session_of x l).
    by rewrite (session_of_put _ _ _ _ Hs).
  - done.
  - by exists 0%nat.
Qed.

(** A receipt: its envelope is made, then sent. *)
Lemma SendReceipt_hops l conv ref state n s :
  session_of n l = Some s → Forall wf_time (n_clock n) →
  valid_utf8 conv = true → valid_utf8 ref = true → valid_utf8 state = true →
  ∃ env pt ct r n',
    encodes env pt ∧ e_Type env = TypeReceipt ∧ Receipt env = (MkReceiptBody ref state, None) ∧
    encrypt pt (s_r s) = (Ok ct, r) ∧ hops n l (SendReceipt l conv ref state n) ct r 16 n'.
Proof.
  intros Hs Hc Hconv Href Hst. set (body := Some (marshal (enc_ReceiptBody (MkReceiptBody ref state)))).
  destruct (make_envelope_spec TypeReceipt conv body n) as (env & t & En & Hw & Hty & _ & Hb & ->); [reflexivity|done..|].
  set (n0 := set_tape _ _) in En.
  destruct (Encode_DecodeEnvelope env Hw) as (pt & Hpt & _).
  pose proof (encrypt_spec pt (s_r s)) as He. set (ct := message _ _ _ _ _ _) in He.
  destruct (encryptSend_hops l env n0 s pt ct _ Hs Hpt He) as (n' & [A1 A2 A3 A4 [i A5]]).
  exists env, pt, ct. eexists _, n'. split_and!; [by split|done| |exact He|].
  - unfold Receipt. rewrite Hb. cbn [sl body]. rewrite unmarshal_marshal by by apply wf_enc_ReceiptBody.
    by rewrite dec_enc_ReceiptBody.
  - split; [|done|done|by rewrite A4|].
    + unfold SendReceipt. rewrite bindP_local.
      change (let* now := now_utc in with_tape (NewReceipt now conv ref state)) with (make_envelope TypeReceipt conv body).
      by rewrite En.
    + rewrite A5. exists (1 + i)%nat. cbn [n_clock n0 set_tape set_clock]. destruct (n_clock n); [apply drop_nil|done].
Qed.

(** A text. *)
Lemma SendText_hops l conv text n s :
  session_of n l = Some s → Forall wf_time (n_clock n) → valid_utf8 conv = true →
  ∃ env pt ct r j n',
    encodes env pt ∧ e_Body env = Some (marshal (enc_TextBody (MkTextBody text None))) ∧
    encrypt pt (s_r s) = (Ok ct, r) ∧ (j ≤ 28)%nat ∧
    sent (SendText l conv text n) = ([payload_frame ct], Halt (Ok env) n') ∧ ct ≠ [] ∧
    s_r <$> session_of n' l = Some r ∧ n_tape n' = drop j (n_tape n).
Proof.
  intros Hs Hc Hconv. set (body := Some (marshal (enc_TextBody (MkTextBody text None)))).
  destruct (make_envelope_spec TypeText conv body n) as (env & t & En & Hw & _ & _ & Hb & ->); [reflexivity|done..|].
  set (n0 := set_tape _ _) in En.
  destruct (Encode_DecodeEnvelope env Hw) as (pt & Hpt & _).
  pose proof (encrypt_spec pt (s_r s)) as He. set (ct := message _ _ _ _ _ _) in He.
  destruct (SendEnvelope_hops l env n0 s pt ct _ Hs Hpt He) as (j & n' & Hj & [A1 A2 A3 A4 _]).
  exists env, pt, ct. eexists _, (16 + j)%nat, n'. split_and!; [by split|exact Hb|exact He|lia| |exact A2|exact A3|].
  - unfold SendText. rewrite (sent_local _ _ _ _ _ En). change [payload_frame ct] with ([payload_frame ct] ++ []).
    eapply sent_bindP; [exact A1|reflexivity].
  - rewrite A4. cbn [n_tape n0 set_tape]. by rewrite drop_drop.
Qed.

(** [m], at the other end, reads it, and then has made the last DH step. *)
Lemma hop_read m l s X ct X' env pt :
  session_of m l = Some s → readable (s_r s) X (n_tape m) [] [] → ns X < counter_limit →
  encrypt pt X = (Ok ct, X') → encodes env pt → ct ≠ [] →
  ∃ m' s', eats (Receive l m) [payload_frame ct] (Ok env) m' ∧ session_of m' l = Some s' ∧
    Lead (s_r s') X' [] [] [] [] ∧ (ns (s_r s') = ns (s_r s) ∨ ns (s_r s') = 0) ∧ n_clock m' = n_clock m.
Proof.
  intros Hs Hr Hn He Hen Hct.
  destruct (readable_hop _ _ _ _ _ _ Hr Hn He) as (Y' & t' & Hd & HL & _ & Hns).
  destruct (Receive_spec l m s ct (Ok pt) Y' t' Hs Hct Hd) as (k & E1 & E2).
  exists (set_tape t' (put_session l (set_ratchet Y' s) m)), (set_ratchet Y' s). split_and!; [| |exact HL|exact Hns|reflexivity].
  - rewrite E1. apply eats_recv. rewrite E2. fold (received (Ok pt)). rewrite (encodes_received _ _ Hen). constructor.
  - by rewrite session_of_set_tape, (session_of_put _ _ _ _ Hs).
Qed.

(** *** Two links just made *)

Lemma encrypt_keeps pt X ct X' :
  encrypt pt X = (Ok ct, X') → dhs X' = dhs X ∧ ns X' = w32 (ns X + 1).
Proof. rewrite encrypt_spec. by intros [_ <-]%pair_equal_spec. Qed.

(** Two links, just made; the initiator has randomness whose every key differs
    from the one it uses, whatever it draws before it makes the next. *)
Record fresh_links (nA : node) (lA : Link) (sA : ratchetSession) (nB : node) (lB : Link) (sB : ratchetSession) : Prop := {
  fk_A : session_of nA lA = Some sA;
  fk_B : session_of nB lB = Some sB;
  fk_lead : Lead (s_r sA) (s_r sB) [] [] [] [];
  fk_ns : ns (s_r sA) = 0 ∧ ns (s_r sB) = 0;
  fk_tapeA : ∀ j, (j ≤ 28)%nat → fresh (drop j (n_tape nA)) (s_r sA);
  fk_tapeB : fresh (n_tape nB) (s_r sB);
  fk_clocks : Forall wf_time (n_clock nA) ∧ Forall wf_time (n_clock nB);
}.

(** What two nodes start with, for that. *)
Record fresh_start (nA nB : node) : Prop := {
  st_lengths : (124 ≤ length (n_tape nA))%nat ∧ (32 ≤ length (n_tape nB))%nat;
  st_tapeA : ∀ j, (j ≤ 28)%nat →
    x25519_pub (take 32 (drop j (drop 64 (n_tape nA)))) ≠ x25519_pub (take 32 (drop 32 (n_tape nA)));
  st_tapeB : x25519_pub (take 32 (n_tape nB)) ≠ x25519_pub (signedPre (acc_PreKeys (n_Account nB)));
  st_clocks : Forall wf_time (n_clock nA) ∧ Forall wf_time (n_clock nB);
}.

Lemma established_fresh nA mA lA nB mB lB a b :
  established (n_sessions mA) (n_sessions mB) (l_session lA) (l_session lB) (acc_PreKeys (n_Account nB)) a b →
  n_clock mA = n_clock nA → n_clock mB = n_clock nB →
  n_tape mA = drop 32 (drop 32 (n_tape nA)) → n_tape mB = n_tape nB → dhs a = take 32 (drop 32 (n_tape nA)) →
  fresh_start nA nB → ∃ sA sB, fresh_links mA lA sA mB lB sB.
Proof.
  intros [] Hc1 Hc2 Ht1 Ht2 Hd [[HlA HlB] Hfa Hfb Hc]. eexists _, _.
  split; [exact es_A|exact es_B|exact es_lead|exact es_ns| | |by rewrite Hc1, Hc2]; cbn [s_r].
  - intros j Hj. replace (n_tape mA) with (drop 64 (n_tape nA)) by (by rewrite Ht1, drop_drop).
    split; [rewrite !length_drop; lia|]. rewrite Hd. by apply Hfa.
  - rewrite Ht2. split; [done|]. by rewrite es_key.
Qed.

Lemma handshake_fresh_links nA nB :
  node_ok nB → fresh_start nA nB →
  ∃ lA lB mA mB sA sB,
    rtc duo_step
      (Duo (handshakeInitiator (SigningPub (acc_Identity (n_Account nB))) nA) (handshakeResponder nB) [] [])
      (Duo (Halt (Ok lA) mA) (Halt (Ok lB) mB) [] []) ∧
    l_peerFP lA = Fingerprint (SigningPub (acc_Identity (n_Account nB))) ∧
    l_peerFP lB = Fingerprint (SigningPub (ms_local (n_sessions nA))) ∧
    fresh_links mA lA sA mB lB sB.
Proof.
  intros Hok Hst.
  destruct (handshake_forced nA nB Hok)
    as (lA & lB & mA & mB & a & b & Hf & He & _ & _ & E1 & _ & E2 & Hc1 & Hc2 & Ht1 & Ht2 & Hd).
  { destruct Hst as [[? _] _ _ _]. lia. }
  destruct (established_fresh _ _ _ _ _ _ _ _ He Hc1 Hc2 Ht1 Ht2 Hd Hst) as (sA & sB & Hl).
  exists lA, lB, mA, mB, sA, sB. split; [by destruct (forced_run _ _ _ _ Hf 0 _ (nsteps_O _ _))|done].
Qed.
End hops.

(** ** Instances *)

Import ToyCurves.

Module ToyHops.
(** An initiator whose randomness gives different keys. *)
Definition alice : node :=
  New (MkAccount ToyNodes.alice_id ToyNodes.alice_pre NewBook) None (map (λ i, bZ (Z.of_nat i)) (seq 0 124)) ToyNodes.clock.

Lemma alice_bob : fresh_start alice ToyNodes.bob.
Proof.
  split.
  - cbn [n_tape ToyNodes.bob New]. rewrite length_be_bytes. split; [by vm_compute|lia].
  - intros j Hj. do 29 (destruct j as [|j]; [vm_compute; discriminate|]). lia.
  - vm_compute. discriminate.
  - split; apply Forall_replicate, toy_time_wf.
Qed.
End ToyHops.
