(* ===== verification/LinkProc.v ===== *)
(** * The methods of a link, whatever happens between their steps ([pkg/node])

    Other goroutines may use the node and the link between two steps of a
    method.  [behaves] says what each step of a process does to the link's
    ratchet whatever it finds: a frame it writes is the next sealed message of
    the ratchet it finds, a frame it reads is opened with the one it finds.  A
    role [σ] says which plaintexts may be sent, and what the role is after
    sending and after reading one. *)

From S2P Require Import Prelude Bytes Gcm Json Codec GoTime Curve Identity X3dh Ratchet Conversation Session Filetransfer Messaging Contact Storage Account Proc Node NodeLink NodeFile.
Open Scope Z_scope.

Section behaves.
Context `{Curves} (l : Link).
Context {role : Type} (sends reads : role → bytes → role → Prop) (reader : role → Prop) (good : bytes → Prop).

Definition ratchet_at (n : node) : option ratchet := s_r <$> session_of n l.
Definition clock_ok (n : node) : Prop := Forall wf_time (n_clock n).

(** In role [σ], with the plaintexts [got] read and the ratchet [r] to be left
    to the others, [o] goes on as it should, and stops with [Φ]. *)
Fixpoint behaves {X} (Φ : role → list bytes → result X → Prop) (σ : role) (got : list bytes) (r : ratchet)
    (o : outcome node X) : Prop :=
  match o with
  | Halt x n => ratchet_at n = Some r ∧ clock_ok n ∧ Φ σ got x
  | Sending b n k =>
    clock_ok n ∧ got = [] ∧
    ∃ pt ct r' σ', encrypt pt r = (Ok ct, r') ∧ b = payload_frame ct ∧ ratchet_at n = Some r' ∧ sends σ pt σ' ∧
      ∀ n2 r2, ratchet_at n2 = Some r2 → clock_ok n2 → behaves Φ σ' [] r2 (k (Ok tt) n2)
  | Receiving n k =>
    ratchet_at n = Some r ∧ clock_ok n ∧ reader σ ∧
    ∀ ct pt n2 r2 r3 t3 σ', ct ≠ [] → good pt → reads σ pt σ' → ratchet_at n2 = Some r2 → clock_ok n2 →
      decrypt ct (r2, n_tape n2) = (Ok pt, (r3, t3)) → behaves Φ σ' [pt] r3 (k (Ok (payload_frame ct)) n2)
  | Closing _ _ => False
  end.

Definition plays {X} (Φ : role → list bytes → result X → Prop) (σ : role) (got : list bytes) (m : proc node X) : Prop :=
  ∀ n r, ratchet_at n = Some r → clock_ok n → behaves Φ σ got r (m n).

Lemma behaves_bind {X Y} (Φ : role → list bytes → result X → Prop) (Ψ : role → list bytes → result Y → Prop)
    (o : outcome node X) (k : result X → proc node Y) : ∀ σ g r,
  behaves Φ σ g r o → (∀ σ' g' x, Φ σ' g' x → plays Ψ σ' g' (k x)) → behaves Ψ σ g r (bindO o k).
Proof.
  induction o as [x n|b n f IH|n f IH|n f IH]; intros σ g r Ho Hk; cbn [behaves bindO] in *.
  - destruct Ho as (H1 & H2 & H3). by apply Hk.
  - destruct Ho as (H1 & H2 & pt & ct & r' & σ' & H4 & H5 & H6 & H7 & H8). split_and!; [done..|].
    exists pt, ct, r', σ'. split_and!; [done..|]. intros n2 r2 Hn Hc. by apply IH; [apply H8|].
  - destruct Ho as (H1 & H2 & H3 & H4). split_and!; [done..|]. intros ct pt n2 r2 r3 t3 σ' Hct Hg Hrd Hn Hc Hd.
    apply IH; [|done]. by eapply H4.
  - done.
Qed.

Lemma plays_bind {X Y} (Φ : role → list bytes → result X → Prop) (Ψ : role → list bytes → result Y → Prop) σ g
    (m : proc node X) (k : X → proc node Y) :
  plays Φ σ g m → (∀ σ' g' a, Φ σ' g' (Ok a) → plays Ψ σ' g' (k a)) → (∀ σ' g' e, Φ σ' g' (Err e) → Ψ σ' g' (Err e)) →
  plays Ψ σ g (bindP m k).
Proof.
  intros Hm Hk He n r Hn Hc. eapply behaves_bind; [by apply Hm|]. intros σ' g' [a|e] Hx; [by apply Hk|].
  intros n2 r2 Hn2 Hc2. split_and!; [done..|by apply He].
Qed.

Lemma behaves_mono {X} (Φ Ψ : role → list bytes → result X → Prop) (o : outcome node X) : ∀ σ g r,
  (∀ σ' g' x, Φ σ' g' x → Ψ σ' g' x) → behaves Φ σ g r o → behaves Ψ σ g r o.
Proof.
  induction o as [x n|b n f IH|n f IH|n f IH]; intros σ g r HΦ Ho; cbn [behaves] in *.
  - destruct Ho as (H1 & H2 & H3). auto.
  - destruct Ho as (H1 & H2 & pt & ct & r' & σ' & H4 & H5 & H6 & H7 & H8). split_and!; [done..|].
    exists pt, ct, r', σ'. split_and!; eauto.
  - destruct Ho as (H1 & H2 & H3 & H4). split_and!; eauto.
  - done.
Qed.

(** Code that leaves the link and the clock alone. *)
Definition local_to {X} (Q : result X → Prop) (m : M node X) : Prop := ∀ n r,
  ratchet_at n = Some r → clock_ok n → ratchet_at (m n).2 = Some r ∧ clock_ok (m n).2 ∧ Q (m n).1.

Lemma plays_local {X} (Q : result X → Prop) (Φ : role → list bytes → result X → Prop) σ g (m : M node X) :
  local_to Q m → (∀ x, Q x → Φ σ g x) → plays Φ σ g (localP m).
Proof.
  intros Hm HQ n r Hn Hc. unfold localP. destruct (m n) as [x n'] eqn:E. specialize (Hm n r Hn Hc). rewrite E in Hm.
  destruct Hm as (H1 & H2 & H3). cbn [behaves]. auto.
Qed.

Lemma plays_ret {X} (Φ : role → list bytes → result X → Prop) σ g (a : X) : Φ σ g (Ok a) → plays Φ σ g (retP a).
Proof. intros HΦ n r Hn Hc. by split_and!. Qed.

Lemma plays_fail {X} (Φ : role → list bytes → result X → Prop) σ g (e : error) :
  Φ σ g (@Err X e) → plays Φ σ g (failP e).
Proof. intros HΦ n r Hn Hc. by split_and!. Qed.

Lemma local_lift {X} (r : result X) : local_to (λ x, x = r) (liftM r).
Proof. by intros n r0 Hn Hc. Qed.

Lemma local_tape {X} (Q : result X → Prop) (m : M tape X) : (∀ t, Q (m t).1) → local_to Q (with_tape m).
Proof. intros HQ n r Hn Hc. unfold with_tape. specialize (HQ (n_tape n)). by destruct (m (n_tape n)). Qed.
End behaves.
Arguments plays_bind {_ l role sends reads reader good X Y} Φ {Ψ σ g m k}.

(** ** The methods *)

Section methods.
Context `{CurveLaws} (l : Link) {role : Type}.
Context (sends reads : role → bytes → role → Prop) (reader : role → Prop) (good : bytes → Prop).
Abbreviation plays := (plays l sends reads reader good).

(** Everything of type [ty] may be sent. *)
Definition sends_type (σ : role) (ty : bytes) (σ' : role) : Prop :=
  ∀ env pt, encodes env pt → e_Type env = ty → sends σ pt σ'.

Definition made (ty : bytes) (body : slice) (env : Envelope) : Prop :=
  wf_Envelope env ∧ e_Type env = ty ∧ e_Body env = body.

Lemma make_envelope_local ty conv body :
  valid_utf8 ty = true → valid_utf8 conv = true →
  local_to l (λ x, ∃ env, x = Ok env ∧ made ty body env) (make_envelope ty conv body).
Proof.
  intros Hty Hc n r Hn Hcl. destruct (make_envelope_spec ty conv body n Hty Hc Hcl) as (env & t & -> & Hw & Ht & _ & Hb & _).
  split_and!; [exact Hn| |by exists env]. unfold clock_ok in *. cbn [snd n_clock set_tape set_clock].
  destruct Hcl; [constructor|done].
Qed.

Lemma encryptSend_plays σ σ' env :
  wf_Envelope env → (∀ pt, encodes env pt → sends σ pt σ') →
  plays (λ σ1 got x, got = [] ∧ σ1 = σ' ∧ x = Ok tt) σ [] (encryptSendLocked l env).
Proof.
  intros Hw Hs n r Hn Hc. unfold ratchet_at in Hn. apply fmap_Some in Hn as (s & Hses & ->).
  destruct (Encode_DecodeEnvelope env Hw) as (pt & Hpt & _).
  pose proof (encrypt_spec pt (s_r s)) as He. rewrite (encryptSend_spec l env n s pt _ _ Hses Hpt He).
  cbn [behaves]. split_and!; [exact Hc|done|]. exists pt. eexists _, _, σ'. split_and!; [exact He|done| |by apply Hs|].
  - unfold ratchet_at. by rewrite (session_of_put _ _ _ _ Hses).
  - intros n2 r2 Hn2 Hc2. by split_and!.
Qed.

Lemma store_append_local env : local_to l (λ x, x = Ok tt) (store_append env).
Proof. intros n r Hn Hc. destruct (store_append_sessions env n) as (st & j & -> & _). by split_and!. Qed.

Lemma SendEnvelope_plays σ σ' env :
  wf_Envelope env → (∀ pt, encodes env pt → sends σ pt σ') →
  plays (λ σ1 got x, got = [] ∧ σ1 = σ' ∧ x = Ok tt) σ [] (SendEnvelope l env).
Proof.
  intros Hw Hs. eapply plays_bind; [by apply encryptSend_plays| |].
  - intros σ1 g a (-> & -> & _). by eapply plays_local; [apply store_append_local|].
  - by intros σ1 g e (_ & _ & ?).
Qed.

(** Made, then sent: a receipt, a typing indicator, a chunk. *)
Lemma made_plays {X} σ ty conv body (Φ : role → list bytes → result X → Prop) (k : Envelope → proc node X) :
  valid_utf8 ty = true → valid_utf8 conv = true →
  (∀ env, made ty body env → plays Φ σ [] (k env)) →
  plays Φ σ [] (let! env := localP (make_envelope ty conv body) in k env).
Proof.
  intros Hty Hc Hk. apply (plays_bind (λ σ1 g x, σ1 = σ ∧ g = [] ∧ ∃ env, x = Ok env ∧ made ty body env)).
  - eapply plays_local; [by apply make_envelope_local|]. intros x Hx. by split_and!.
  - intros σ1 g a (-> & -> & env & [= <-] & Hm). by apply Hk.
  - by intros σ1 g e (_ & _ & env & ? & _).
Qed.

(** The method ends as it began, whatever it answers. *)
Definition idle_in (σ : role) {X} (σ1 : role) (got : list bytes) (x : result X) : Prop := σ1 = σ ∧ got = [].

(** One envelope made and sent. *)
Lemma make_send_plays σ σ' ty conv body :
  valid_utf8 ty = true → valid_utf8 conv = true →
  (∀ env pt, encodes env pt → e_Type env = ty → e_Body env = body → sends σ pt σ') →
  plays (idle_in σ') σ [] (let! env := localP (make_envelope ty conv body) in encryptSendLocked l env).
Proof.
  intros Hty Hc Hs. apply made_plays; [done|done|]. intros env (Hw & Ht & Hb) n r Hn Hc'.
  eapply behaves_mono; [|by apply (encryptSend_plays σ σ' env Hw); [intros pt Hpt; by eapply Hs|..]].
  by intros ??? (-> & -> & _).
Qed.

Lemma SendTyping_plays σ conv :
  valid_utf8 conv = true → sends_type σ TypeTyping σ → plays (idle_in σ) σ [] (SendTyping l conv).
Proof. intros Hc Hs. unfold SendTyping. apply make_send_plays; [done..|]. intros env pt He Ht _. by eapply Hs. Qed.

(** The chunk an envelope carries. *)
Definition chunk_of (env : Envelope) : result Chunk :=
  unmarshal_ok (dec_struct Chunk_fields) zero_Chunk (sl (e_Body env)).

(** A file: the offer announces how many chunks to wait for, and the sender
    owes them.  [owes offer acc cs] has sent [offer] and the chunks [acc], and
    not yet [cs]. *)
Section file.
Context (name data : bytes) (start : role) (owes : Offer → list Chunk → list Chunk → role).
Hypothesis owes_offer : ∀ env pt offer cs,
  encodes env pt → ParseFileOffer env = Ok offer → split_of name data offer cs → sends start pt (owes offer [] cs).
Hypothesis owes_chunk : ∀ env pt offer acc c cs,
  encodes env pt → e_Type env = TypeFileChunk → chunk_of env = Ok c → split_of name data offer (acc ++ c :: cs) →
  sends (owes offer acc (c :: cs)) pt (owes offer (acc ++ [c]) cs).

Lemma send_chunks_plays conv offer cs : ∀ acc,
  valid_utf8 conv = true → split_of name data offer (acc ++ cs) →
  plays (λ σ1 got x, got = [] ∧ σ1 = owes offer (acc ++ cs) [] ∧ x = Ok tt) (owes offer acc cs) [] (send_chunks l conv cs).
Proof.
  induction cs as [|c cs IH]; intros acc Hc Hsp; cbn [send_chunks].
  { apply plays_ret. by rewrite app_nil_r. }
  assert (wf_Chunk c) as Hwf.
  { pose proof (sp_wf _ _ _ _ Hsp) as Hf. rewrite Forall_app, Forall_cons in Hf. apply Hf. }
  apply made_plays; [reflexivity|done|]. intros env (Hw & Ht & Hb).
  eapply plays_bind; [apply (SendEnvelope_plays _ (owes offer (acc ++ [c]) cs) env Hw); intros pt Hpt|..].
  - eapply owes_chunk; [done..| |done]. unfold chunk_of. rewrite Hb. by apply Chunk_roundtrip.
  - intros σ1 g a (-> & -> & _). rewrite cons_middle, app_assoc in Hsp |- *. by apply IH.
  - by intros σ1 g e (_ & _ & ?).
Qed.

Lemma SendFile_plays conv mime :
  valid_utf8 conv = true → file_fits data →
  plays (λ σ1 got x, got = [] ∧
    match x with Ok _ => ∃ offer cs, split_of name data offer cs ∧ σ1 = owes offer cs [] | Err _ => σ1 = start end)
    start [] (SendFile l conv name mime data).
Proof.
  intros Hc Hfit. unfold SendFile.
  set (Q := λ x : result (Offer * list Chunk), ∀ offer cs, x = Ok (offer, cs) →
    unmarshal_ok (dec_struct Offer_fields) zero_Offer (marshal (enc_Offer offer)) = Ok (clean_Offer offer) ∧
    split_of name data (clean_Offer offer) cs).
  apply (plays_bind (λ σ1 g x, σ1 = start ∧ g = [] ∧ Q x)).
  { eapply plays_local; [apply (local_tape l Q)|done]. intros t offer cs Ex.
    destruct (Split name mime data 0 t) as [x u] eqn:E. cbn in Ex. subst x. by eapply Split_received. }
  2: by intros σ1 g e (-> & -> & _).
  intros σ1 g [offer cs] (-> & -> & HQ). destruct (HQ _ _ eq_refl) as [Hdec Hsp]. cbn [fst snd].
  apply made_plays; [reflexivity|done|]. intros env (Hw & Ht & Hb).
  eapply plays_bind.
  - apply (SendEnvelope_plays start (owes (clean_Offer offer) [] cs) env Hw). intros pt Hpt.
    eapply owes_offer; [done| |done]. unfold ParseFileOffer. rewrite Ht, Hb, bool_decide_eq_true_2 by done. exact Hdec.
  - intros σ1 g a (-> & -> & _).
    eapply plays_bind; [by apply (send_chunks_plays conv (clean_Offer offer) cs [])| |by intros σ1 g e (_ & _ & ?)].
    intros σ1 g y (-> & -> & _). apply plays_ret. split; [done|]. by exists (clean_Offer offer), cs.
  - by intros σ1 g e (_ & _ & ?).
Qed.
End file.

Lemma Receive_plays σ got :
  reader σ →
  plays (λ σ1 got1 x, ∃ pt, got1 = [pt] ∧ good pt ∧ reads σ pt σ1 ∧ x = as_result (DecodeEnvelope pt)) σ got (Receive l).
Proof.
  intros Hr n r Hn Hc.
  (* what it does with a frame does not depend on the node it started from *)
  set (k := λ (x : result bytes) (s : node), bindO (Halt x s) (λ r, match r with
     | Ok raw =>
       let! frame := localP (liftM (DecodeFrame raw)) in
       let! pt := lift_sessions (session_Decrypt (l_session l) (sl (f_Payload frame))) in
       localP (liftM (as_result (DecodeEnvelope pt)))
     | Err e => failP e end)).
  change (Receive l n) with (Receiving n k). cbn [behaves]. split_and!; [done..|].
  intros ct pt n2 r2 r3 t3 σ' Hct Hg Hrd Hn2 Hc2 Hd. unfold ratchet_at in Hn2. apply fmap_Some in Hn2 as (s & Hs & ->).
  destruct (Receive_spec l n2 s ct (Ok pt) r3 t3 Hs Hct Hd) as (k' & E1 & E2).
  change (Receive l n2) with (Receiving n2 k) in E1. injection E1 as <-. rewrite E2. cbn [behaves bindR].
  split_and!; [|done|by exists pt].
  unfold ratchet_at. by rewrite session_of_set_tape, (session_of_put _ _ _ _ Hs).
Qed.

(** [due n acc] holds of a reader that has read the chunks [acc] and that
    [n] more are on the way to. *)
Section body.
Context (due : nat → list Chunk → role → Prop).
Hypothesis due_reader : ∀ n acc σ, due (S n) acc σ → reader σ.
Hypothesis due_reads : ∀ n acc σ pt σ', due (S n) acc σ → good pt → reads σ pt σ' →
  ∃ env c, as_result (DecodeEnvelope pt) = Ok env ∧ chunk_of env = Ok c ∧ due n (acc ++ [c]) σ'.

Lemma receive_chunks_plays num : ∀ acc σ got,
  due num acc σ → plays (λ σ1 _ x, ∃ cs, x = Ok cs ∧ due 0 (acc ++ cs) σ1) σ got (receive_chunks l num).
Proof.
  induction num as [|num IH]; intros acc σ got Hdue; cbn [receive_chunks].
  { apply plays_ret. exists []. by rewrite app_nil_r. }
  eapply plays_bind; [apply Receive_plays; by eapply due_reader| |].
  2: { intros σ1 g e (pt & _ & Hg & Hrd & He). destruct (due_reads _ _ _ _ _ Hdue Hg Hrd) as (env & c & Hd & _). by rewrite Hd in He. }
  intros σ1 g env' (pt & -> & Hg & Hrd & He). destruct (due_reads _ _ _ _ _ Hdue Hg Hrd) as (env & c & Hd & Hc & Hdue').
  rewrite Hd in He. apply Ok_inj in He as ->.
  apply (plays_bind (λ σ2 g2 x, σ2 = σ1 ∧ x = Ok c)); [| |by intros σ2 g2 e [_ ?]].
  { eapply plays_local; [apply local_lift|]. intros x ->. split; [done|exact Hc]. }
  intros σ2 g1 c' (-> & ->%Ok_inj). eapply plays_bind; [by apply IH| |by intros σ2 g2 e (cs & ? & _)].
  intros σ2 g2 cs' (cs & ->%Ok_inj & Hk). apply plays_ret. exists (c :: cs). split; [done|].
  by rewrite cons_middle, app_assoc.
Qed.

(** Either the chunks are too many to make room for, or they are all read. *)
Lemma ReceiveFileBody_plays σ got offer :
  due (count offer) [] σ →
  plays (λ σ1 _ x,
      if make_ok (num_chunks offer) then ∃ cs, due 0 cs σ1 ∧ x = Reassemble offer cs
      else is_ok x = false ∧ due (count offer) [] σ1)
    σ got (ReceiveFileBody l offer).
Proof.
  intros Hdue. unfold ReceiveFileBody. destruct (make_ok _); cbn [negb]; [|by apply plays_fail].
  eapply plays_bind; [by apply receive_chunks_plays| |by intros σ1 g e (cs & ? & _)].
  intros σ1 g cs' (cs & ->%Ok_inj & Hn). eapply plays_local; [apply local_lift|]. intros x ->. by exists cs.
Qed.
End body.
End methods.
