(* ===== verification/NodeOffline.v ===== *)
(** * Offline delivery ([pkg/node] over [pkg/mailbox])

    [Node.SendOffline] queues a message in the recipient's mailbox;
    [Node.FetchOffline] opens what is queued.  The relay is any that keeps the
    contract of [Mailbox]. *)

From S2P Require Import Prelude Bytes Json Codec GoTime Curve Identity X3dh Ratchet Conversation Session Filetransfer Messaging Mailbox Contact Storage Account Proc Node NodeLink.
Open Scope Z_scope.

Section offline.
Context `{CurveLaws} {B : Type} `{HM : Mailbox B} {HB : MailboxLaws B}.

(** A recipient with its prekeys, and randomness for [k] more DH steps. *)
Record can_fetch (pre : PreKeys) (k : nat) (n : node) : Prop := {
  cf_pre : ms_pre (n_sessions n) = Some pre;
  cf_local : ms_local (n_sessions n) = pk_id pre;
  cf_tape : ∀ i, (i < k)%nat → (32 * S i ≤ length (n_tape n))%nat ∧
    x25519_pub (take 32 (drop (32 * i) (n_tape n))) ≠ x25519_pub (signedPre pre);
}.

(** Any recipient that holds [pre] reads [env] out of [raw]. *)
Definition opens (pre : PreKeys) (raw : bytes) (env : Envelope) : Prop := ∀ k n raws out,
  can_fetch pre (S k) n →
  ∃ n', open_offline (raw :: raws) out n = open_offline raws (out ++ [env]) n' ∧ can_fetch pre k n'.

#[local] Opaque Initiate Accept DecodeFrame enc_Frame marshal encrypt decrypt DecodeEnvelope Encode.

Lemma can_fetch_next pre k n m :
  can_fetch pre (S k) n → ms_pre m = Some pre → ms_local m = pk_id pre →
  can_fetch pre k (set_tape (drop 32 (n_tape n)) (set_sessions m n)).
Proof.
  intros [_ _ Ht] Hp Hl. split; [done..|]. cbn [n_tape set_tape set_sessions]. intros i Hi.
  destruct (Ht (S i)) as [H1 H2]; [lia|]. split; [rewrite length_drop; lia|].
  rewrite drop_drop. by replace (32 + 32 * i)%nat with (32 * S i)%nat by lia.
Qed.

(** What [SendOffline] puts in the mailbox opens to the envelope. *)
Lemma SendOffline_spec pre env n mb :
  wf_prekeys pre → wf_Envelope env → (64 ≤ length (n_tape n))%nat → up mb →
  ∃ raw n' mb', SendOffline (Bundle pre) env (n, mb) = (Ok tt, (n', mb')) ∧ up mb' ∧
    (∀ fp, queue mb' fp = if decide (Fingerprint (SigningPub (pk_id pre)) = fp)
                          then queue mb (Fingerprint (SigningPub (pk_id pre))) ++ [raw] else queue mb fp) ∧
    opens pre raw env.
Proof.
  intros Hwf He Ht Hup.
  destruct (Initiate_accepted (n_sessions n) pre (n_tape n) Hwf Ht) as (p & hs & m' & a & b & Hi & _ & _ & HA).
  destruct (Encode_DecodeEnvelope env He) as (pt & Hpt & Hdec).
  assert (∃ s, ms_heap m' !! p = Some s ∧ s_r s = a) as (s & Hs & Hsr).
  { (* the session is there whoever accepts *)
    destruct (HA (NewMemStore (pk_id pre) (Some pre)) eq_refl eq_refl) as (? & ? & _ & [] & _).
    eexists. by split. }
  unfold SendOffline. run_M. erewrite (with_sessions_eq _ n) by exact Hi. cbn [fst snd].
  rewrite Hpt. unfold with_sessions, session_Encrypt, at_session.
  cbn [n_sessions n_tape set_tape set_sessions]. rewrite Hs. unfold on_fst.
  pose proof (encrypt_spec pt (s_r s)) as Henc. rewrite Henc.
  set (ct := message _ _ _ _ _ _) in *.
  edestruct (DecodeFrame_EncodeFrame (MkFrame None (Some hs) (Some ct))) as (raw & Hraw & Hfr).
  { cbn [f_Payload]. intros E. by apply (inj Some), message_ne in E. }
  rewrite Hraw. destruct (law_Put (Fingerprint (SigningPub (pk_id pre))) raw mb Hup) as (mb' & Eput & Hup' & Hq').
  change (b_IdentitySign (Bundle pre)) with (SigningPub (pk_id pre)). rewrite Eput.
  exists raw. eexists _, mb'. split; [reflexivity|]. split; [done|]. split; [exact Hq'|].
  intros k nB raws out Hcf. pose proof Hcf as [Hpre Hloc Htape].
  destruct (HA (n_sessions nB) Hpre Hloc) as (pB & mB & Hacc & [] & Hp' & Hl').
  cbn [open_offline]. unfold bindM, liftM. rewrite Hfr. cbv beta iota. cbn [f_Handshake f_Payload sl].
  erewrite (with_sessions_fst _ nB) by exact Hacc.
  unfold with_sessions, session_Decrypt, at_session.
  cbn [n_sessions n_tape set_tape set_sessions]. rewrite es_B. cbn [s_r].
  destruct (Htape 0%nat) as [Hlen Hfresh]; [lia|]. rewrite Nat.mul_0_r, drop_0 in Hfresh.
  assert (fresh (n_tape nB) b) as Hf by (split; [lia|by rewrite es_key]).
  rewrite Hsr in Henc. destruct (Lead_first _ _ _ pt ct _ es_lead Hf Henc) as (b' & -> & _).
  rewrite Hdec. cbn [as_result]. eexists. split; [reflexivity|].
  apply (can_fetch_next _ _ _ _ Hcf); cbn [ms_pre ms_local]; congruence.
Qed.

(** Each of several nodes, in turn, queues one envelope for the same recipient. *)
Fixpoint send_all (bundle : PreKeyBundle) (l : list (node * Envelope)) (mb : B) : result B :=
  match l with
  | [] => Ok mb
  | (n, env) :: l =>
    match SendOffline bundle env (n, mb) with
    | (Ok _, (_, mb)) => send_all bundle l mb
    | (Err e, _) => Err e
    end
  end.

Definition can_send (x : node * Envelope) : Prop := (64 ≤ length (n_tape x.1))%nat ∧ wf_Envelope x.2.

Lemma send_all_spec pre l : ∀ mb,
  wf_prekeys pre → Forall can_send l → up mb →
  ∃ raws mb', send_all (Bundle pre) l mb = Ok mb' ∧ up mb' ∧
    queue mb' (Fingerprint (SigningPub (pk_id pre))) = queue mb (Fingerprint (SigningPub (pk_id pre))) ++ raws ∧
    Forall2 (opens pre) raws (map snd l).
Proof.
  intros mb Hwf. revert mb. induction l as [|[n env] l IH]; intros mb Hl Hup.
  - exists [], mb. split_and!; [done|done|by rewrite app_nil_r|constructor].
  - apply Forall_cons in Hl as [[Ht He] Hl].
    destruct (SendOffline_spec pre env n mb Hwf He Ht Hup) as (raw & n' & mb1 & E & Hup1 & Hq1 & Ho).
    destruct (IH mb1 Hl Hup1) as (raws & mb' & E' & Hup' & Hq & Hos). exists (raw :: raws), mb'.
    split_and!; [cbn [send_all]; by rewrite E|done| |by constructor].
    by rewrite Hq, Hq1, decide_True, <-app_assoc by done.
Qed.

Lemma open_offline_spec pre raws envs : Forall2 (opens pre) raws envs → ∀ n out,
  can_fetch pre (length raws) n → ∃ n', open_offline raws out n = (Ok (out ++ envs), n').
Proof.
  induction 1 as [|raw env raws envs Ho _ IH]; intros n out Hn.
  - exists n. by rewrite app_nil_r.
  - destruct (Ho _ n raws out Hn) as (n1 & -> & Hn1). destruct (IH n1 (out ++ [env]) Hn1) as (n' & ->).
    exists n'. by rewrite <-app_assoc.
Qed.
End offline.

(** ** What offline delivery gets *)

Section properties.
Context `{CurveLaws} {B : Type} `{HM : Mailbox B} {HB : MailboxLaws B}.

(** C8: an offline recipient gets every message queued for it, once and in
    the order they were queued, from whoever sent them: each [SendOffline]
    succeeds, [FetchOffline] returns exactly the envelopes that were sent, and
    the queue is then empty. *)
Theorem offline_delivery nB l (mb : B) :
  node_ok nB → Forall can_send l →
  can_fetch (acc_PreKeys (n_Account nB)) (length l) nB →
  up mb → queue mb (acc_Fingerprint (n_Account nB)) = [] →
  ∃ mb1 nB' mb2,
    send_all (node_Bundle nB) l mb = Ok mb1 ∧
    mb_Pending mb1 (acc_Fingerprint (n_Account nB)) = length l ∧
    FetchOffline (nB, mb1) = (Ok (map snd l), (nB', mb2)) ∧
    mb_Pending mb2 (acc_Fingerprint (n_Account nB)) = 0%nat.
Proof.
  intros [Hp Hid _ _] Hl Hf Hup Hq. destruct (send_all_spec _ l mb Hp Hl Hup) as (raws & mb1 & E & Hup1 & Hq1 & Ho).
  rewrite Hid in Hq1. fold (acc_Fingerprint (n_Account nB)) in Hq1. rewrite Hq in Hq1. cbn [app] in Hq1.
  assert (length raws = length l) as Hlen by (rewrite <-(length_map snd l); by eapply Forall2_length).
  rewrite <-Hlen in *. destruct (open_offline_spec _ _ _ Ho nB [] Hf) as (nB' & Hopen).
  destruct (law_Fetch (acc_Fingerprint (n_Account nB)) mb1 Hup1) as (mb2 & Ef & Hup2 & Hq2).
  exists mb1, nB', mb2. split_and!; [done|by rewrite law_Pending, Hq1| |].
  - unfold FetchOffline. run_M. rewrite Ef, Hq1, Hopen. reflexivity.
  - by rewrite law_Pending, Hq2, decide_True.
Qed.

(** One bad message costs the recipient the whole queue.  [FetchOffline]
    takes the queue out of the mailbox before it opens anything; when a
    queued frame does not decode - anybody can put one - it returns an error
    and no envelope, and the messages queued with it are gone. *)
Theorem offline_poison n (mb : B) good bad rest e :
  up mb → queue mb (acc_Fingerprint (n_Account n)) = good ++ bad :: rest →
  DecodeFrame bad = Err e →
  ∃ e' n' mb', FetchOffline (n, mb) = (Err e', (n', mb')) ∧
    mb_Pending mb' (acc_Fingerprint (n_Account n)) = 0%nat.
Proof.
  intros Hup Hq Hbad.
  assert (∀ good n out, ∃ e' n', open_offline (good ++ bad :: rest) out n = (Err e', n')) as Hopen.
  { clear Hq n. induction good0 as [|raw good0 IH]; intros n out; cbn [app open_offline]; unfold bindM, liftM.
    - rewrite Hbad. eauto.
    - destruct (DecodeFrame raw) as [f|e0]; [|eauto]. destruct (f_Handshake f) as [hs|]; [|unfold failM; eauto].
      destruct (with_sessions (on_fst (Accept hs)) n) as [[p|e0] n1]; [|eauto].
      destruct (with_sessions _ n1) as [[pt|e0] n2]; [|eauto].
      destruct (as_result (DecodeEnvelope pt)) as [env|e0]; [|eauto]. apply IH. }
  destruct (Hopen good n []) as (e' & n' & E).
  destruct (law_Fetch (acc_Fingerprint (n_Account n)) mb Hup) as (mb2 & Ef & Hup2 & Hq2).
  unfold FetchOffline. run_M. rewrite Ef, Hq, E. exists e', n', mb2. split; [reflexivity|].
  by rewrite law_Pending, Hq2, decide_True.
Qed.
End properties.

(** ** Instances *)

Import ToyCurves.

Lemma toy_env_wf text : valid_utf8 text = true → wf_Envelope (MkEnvelope 1 TypeText (bs "0a") (bs "c") toy_time (Some text)).
Proof. intros. split; [cbn [e_Version]; lia|reflexivity..|exact toy_time_wf]. Qed.

Definition toy_mail : list (node * Envelope) :=
  [(ToyNodes.alice, MkEnvelope 1 TypeText (bs "0a") (bs "c") toy_time (Some (bs "you were offline")));
   (ToyNodes.bob, MkEnvelope 1 TypeText (bs "0a") (bs "c") toy_time (Some (bs "note to self")))].

Lemma offline_delivery_witness :
  ∃ mb1 nB' mb2,
    send_all (node_Bundle ToyNodes.bob) toy_mail NewMemory = Ok mb1 ∧
    mb_Pending mb1 (acc_Fingerprint (n_Account ToyNodes.bob)) = 2%nat ∧
    FetchOffline (ToyNodes.bob, mb1) = (Ok (map snd toy_mail), (nB', mb2)) ∧
    mb_Pending mb2 (acc_Fingerprint (n_Account ToyNodes.bob)) = 0%nat.
Proof.
  apply (offline_delivery ToyNodes.bob toy_mail NewMemory ToyNodes.bob_ok); [| |exact I|reflexivity].
  - repeat apply Forall_cons_2; [split|split|constructor]; cbn [fst snd n_tape ToyNodes.alice ToyNodes.bob New]; try (rewrite length_be_bytes; lia);
      apply toy_env_wf; reflexivity.
  - split; [reflexivity..|]. intros i Hi. cbn [n_tape ToyNodes.bob New].
    destruct i as [|[|i]]; [| |cbn in Hi; lia]; (split; [rewrite length_be_bytes; lia|vm_compute; discriminate]).
Defined.

Lemma offline_poison_witness :
  ∃ e' n' mb', FetchOffline (ToyNodes.bob,
      (Put (acc_Fingerprint (n_Account ToyNodes.bob)) (bs "junk") NewMemory).2) = (Err e', (n', mb')) ∧
    mb_Pending mb' (acc_Fingerprint (n_Account ToyNodes.bob)) = 0%nat.
Proof.
  eapply (offline_poison ToyNodes.bob _ [] (bs "junk") []); [exact I| |vm_compute; reflexivity].
  unfold Put. cbn [snd queue memory_MailboxLaws]. rewrite queued_insert. by rewrite decide_True.
Defined.
