(* ===== verification/Paths.v ===== *)
(** * File paths

    The part of Go's [path/filepath] (on Unix) the runtime uses: [Base],
    [Clean] and [Join], over slash-separated elements. *)

From S2P Require Import Prelude Bytes Strconv.
Open Scope Z_scope.

Definition slash : byte := "/"%byte.

(** [strings.Split(s, "/")]. *)
Fixpoint split_slash (s : bytes) : list bytes :=
  match s with
  | [] => [[]]
  | c :: s =>
    if decide (c = slash) then [] :: split_slash s
    else match split_slash s with e :: es => (c :: e) :: es | [] => [[c]] end
  end.

(** [strings.Join(es, "/")]. *)
Fixpoint join_slash (es : list bytes) : bytes :=
  match es with
  | [] => []
  | [e] => e
  | e :: es => e ++ slash :: join_slash es
  end.

Fixpoint trim_slashes (s : bytes) : bytes :=
  match s with c :: s' => if decide (c = slash) then trim_slashes s' else s | [] => [] end.

(** [filepath.Base]: the last element, trailing slashes removed. *)
Definition Base (path : bytes) : bytes :=
  if decide (path = []) then bs "." else
  let e := List.last (split_slash (rev (trim_slashes (rev path)))) [] in
  if decide (e = []) then bs "/" else e.

Definition rooted (path : bytes) : bool := match path with c :: _ => bool_decide (c = slash) | [] => false end.

(** One element of a path, given those kept so far, the last first. *)
Definition clean_elem (root : bool) (acc : list bytes) (e : bytes) : list bytes :=
  if bool_decide (e = []) || bool_decide (e = bs ".") then acc
  else if bool_decide (e = bs "..") then
    match acc with
    | [] => if root then [] else [e]
    | x :: acc' => if bool_decide (x = bs "..") then e :: acc else acc'
    end
  else e :: acc.

Definition clean_elems (path : bytes) : list bytes :=
  rev (fold_left (clean_elem (rooted path)) (split_slash path) []).

(** [filepath.Clean]. *)
Definition Clean (path : bytes) : bytes :=
  let es := clean_elems path in
  if rooted path then slash :: join_slash es
  else if decide (es = []) then bs "." else join_slash es.

(** [filepath.Join] of two elements. *)
Definition Join (a b : bytes) : bytes :=
  if decide (a = []) then (if decide (b = []) then [] else Clean b)
  else Clean (a ++ slash :: b).

(** [filepath.Ext]: from the last dot of the last element. *)
Fixpoint ext_rev (acc : bytes) (r : bytes) : bytes :=
  match r with
  | [] => []
  | c :: r => if decide (c = slash) then [] else if decide (c = "."%byte) then c :: acc else ext_rev (c :: acc) r
  end.
Definition Ext (path : bytes) : bytes := ext_rev [] (rev path).

(** ** Lemmas *)

Definition no_slash (e : bytes) : Prop := slash ∉ e.

#[global] Instance no_slash_dec e : Decision (no_slash e).
Proof. unfold no_slash. apply _. Defined.

Lemma split_slash_ne s : split_slash s ≠ [].
Proof. destruct s as [|c s]; cbn; [done|]. case_decide; [done|]. by destruct (split_slash s). Qed.

Lemma split_slash_no s : Forall no_slash (split_slash s).
Proof.
  induction s as [|c s IH]; cbn [split_slash]; [constructor; [intros []%not_elem_of_nil|constructor]|].
  case_decide; [constructor; [intros []%not_elem_of_nil|done]|].
  destruct (split_slash s) as [|e es]; [by constructor; [intros [?|[]%not_elem_of_nil]%elem_of_cons; congruence|constructor]|].
  apply Forall_cons in IH as [He Hes]. constructor; [|done]. intros [?|?]%elem_of_cons; [congruence|by apply He].
Qed.

Lemma split_slash_app a b : split_slash (a ++ slash :: b) = split_slash a ++ split_slash b.
Proof.
  induction a as [|c a IH]; cbn [app split_slash].
  - by rewrite decide_True.
  - case_decide; [by rewrite IH|]. rewrite IH. pose proof (split_slash_ne a). by destruct (split_slash a).
Qed.

Lemma split_slash_one e : no_slash e → split_slash e = [e].
Proof.
  induction e as [|c e IH]; intros Hn; cbn [split_slash]; [done|].
  apply not_elem_of_cons in Hn as [Hc Hn]. rewrite decide_False by done. by rewrite IH.
Qed.

(** A base is one element, and is there. *)
Lemma Base_elem path : Base path = bs "/" ∨ (no_slash (Base path) ∧ Base path ≠ []).
Proof.
  unfold Base. case_decide; [right; split; [|done]; cbn; intros [E|[]%not_elem_of_nil]%elem_of_cons; discriminate E|].
  case_decide as He; [by left|]. right. split; [|done].
  pose proof (split_slash_no (rev (trim_slashes (rev path)))) as Hf.
  set (es := split_slash _) in *. rewrite Forall_forall in Hf. apply Hf.
  destruct (exists_last (l := es)) as (l & x & E); [apply split_slash_ne|].
  rewrite E, last_last. apply elem_of_app. right. by constructor.
Qed.

Lemma join_slash_snoc es e : join_slash (es ++ [e]) = if decide (es = []) then e else join_slash es ++ slash :: e.
Proof.
  induction es as [|x es IH]; [done|]. rewrite decide_False by done.
  destruct es as [|y es]; [done|]. change ((x :: y :: es) ++ [e]) with (x :: (y :: es) ++ [e]).
  rewrite decide_False in IH by done.
  change (join_slash (x :: y :: es)) with (x ++ slash :: join_slash (y :: es)).
  rewrite <-app_assoc. cbn [app]. rewrite <-IH. done.
Qed.

(** What comes before the elements of a directory. *)
Definition dir_prefix (dir : bytes) : bytes :=
  if decide (clean_elems dir = []) then (if rooted dir then [slash] else []) else Clean dir ++ [slash].

(** Joining one plain element to a directory stays in the directory. *)
Lemma Join_elem dir e :
  dir ≠ [] → no_slash e → e ≠ [] → e ≠ bs "." → e ≠ bs ".." → Join dir e = dir_prefix dir ++ e.
Proof.
  intros Hd Hn H1 H2 H3. unfold Join. rewrite decide_False by done.
  assert (rooted (dir ++ slash :: e) = rooted dir) as Hr by (by destruct dir).
  assert (clean_elems (dir ++ slash :: e) = clean_elems dir ++ [e]) as Hc.
  { unfold clean_elems. rewrite Hr, split_slash_app, (split_slash_one e) by done.
    rewrite fold_left_app. cbn [fold_left]. unfold clean_elem at 1.
    rewrite !bool_decide_eq_false_2 by done. done. }
  unfold Clean, dir_prefix, Clean. rewrite Hr, Hc, join_slash_snoc.
  destruct (rooted dir); destruct (decide (clean_elems dir = [])); cbn [app]; try done.
  - by rewrite <-app_assoc.
  - rewrite decide_False by (by destruct (clean_elems dir)). done.
  - rewrite decide_False by (by destruct (clean_elems dir)). by rewrite <-app_assoc.
Qed.

Lemma clean_elem_ne root acc e : Forall (.≠ []) acc → Forall (.≠ []) (clean_elem root acc e).
Proof.
  intros Ha. unfold clean_elem. case_bool_decide as He; [done|]. cbn [orb].
  case_bool_decide; [done|]. case_bool_decide; [|by constructor].
  destruct Ha as [|x acc Hx Ha]; [by destruct root; repeat constructor|].
  case_bool_decide; repeat (constructor || done).
Qed.

Lemma clean_elems_ne root l : ∀ acc, Forall (.≠ []) acc → Forall (.≠ []) (fold_left (clean_elem root) l acc).
Proof. induction l as [|e l IH]; intros acc Ha; [done|]. cbn [fold_left]. by apply IH, clean_elem_ne. Qed.

Lemma join_slash_ne es : es ≠ [] → Forall (.≠ []) es → join_slash es ≠ [].
Proof. destruct es as [|e [|e' es]]; [done| |]; intros _ [He _]%Forall_cons; [done|]. by destruct e. Qed.

Lemma Clean_ne path : Clean path ≠ [].
Proof.
  unfold Clean. destruct (rooted path); [done|]. case_decide as Hes; [done|]. apply join_slash_ne; [done|].
  apply Forall_rev, clean_elems_ne. constructor.
Qed.

Lemma Join_ne a b : b ≠ [] → Join a b ≠ [].
Proof. intros Hb. unfold Join. rewrite (decide_False (P := b = [])) by done. case_decide; apply Clean_ne. Qed.

Lemma no_slash_app a b : no_slash a → no_slash b → no_slash (a ++ b).
Proof. unfold no_slash. rewrite not_elem_of_app. done. Qed.

Lemma no_slash_cons c e : c ≠ slash → no_slash e → no_slash (c :: e).
Proof. unfold no_slash. rewrite not_elem_of_cons. done. Qed.

Lemma fmt_digits_no_slash n z acc : no_slash acc → no_slash (fmt_digits n z acc).
Proof.
  revert z acc. induction n as [|n IH]; intros z acc Ha; [done|]. cbn [fmt_digits].
  assert (no_slash (bZ (48 + z mod 10) :: acc)) as Hb.
  { apply no_slash_cons; [|done]. intros E%(f_equal is_digit). rewrite is_digit_bZ in E by zlia.
    vm_compute in E. discriminate. }
  destruct (z <? 10); [done|by apply IH].
Qed.

Lemma fmt_int_no_slash z : no_slash (fmt_int z).
Proof.
  assert (∀ z, no_slash (fmt_uint z)) as H by (intros; by apply fmt_digits_no_slash, not_elem_of_nil).
  unfold fmt_int. destruct (z <? 0); [apply no_slash_cons; [discriminate|]|]; apply H.
Qed.

(** An element with a hyphen after its number is none of the special ones. *)
Lemma hyphen_elem a b : a ++ "-"%byte :: b ≠ [] ∧ a ++ "-"%byte :: b ≠ bs "." ∧ a ++ "-"%byte :: b ≠ bs "..".
Proof.
  split_and!; [by destruct a|..].
  - destruct a as [|? [|? a]]; discriminate.
  - destruct a as [|? [|? [|? a]]]; discriminate.
Qed.
