(* ===== verification/Demo.v ===== *)
(** * The demonstration program ([cmd/stunnerd])

    [run] wires the whole pipeline together: two accounts, a link over the
    in-process pipe, a text, a file, the safety number and a message left in
    the mailbox.  It is one goroutine, so an operation that would have to wait
    waits for ever: the model returns nothing then, and the theorem is that it
    returns, and what. *)

From S2P Require Import Prelude Bytes Gcm Json Codec GoTime Curve Identity SafetyNumber Vault X3dh Ratchet Conversation Session Filetransfer Messaging Mailbox Contact Storage Account Transport Proc Node NodeLink NodeFile NodeOffline Paths.
Open Scope Z_scope.

(** ** One goroutine on both ends of a pipe *)

(** A process on end [e] of the pipe goes as far as it can by itself: nobody
    makes room in a full channel, and nobody fills an empty one. *)
Fixpoint advance {S R} (e : Transport.side) (o : outcome S R) (p : pipe) : outcome S R * pipe :=
  match o with
  | Halt r s => (o, p)
  | Sending b s k =>
    if p_done p then advance e (k (Err ErrClosed) s) p
    else if decide (length (out e p) < capacity)%nat then advance e (k (Ok tt) s) (set_out e (out e p ++ [b]) p)
    else (o, p)
  | Receiving s k =>
    match in_ e p with
    | b :: q => advance e (k (Ok b) s) (set_out (other e) q p)
    | [] => if p_done p then advance e (k (Err ErrClosed) s) p else (o, p)
    end
  | Closing s k => advance e (k s) (pipe_Close p)
  end.

(** It returns, or it waits for ever. *)
Definition drive {S R} (e : Transport.side) (o : outcome S R) (p : pipe) : option (result R * S * pipe) :=
  match advance e o p with
  | (Halt r s, p) => Some (r, s, p)
  | _ => None
  end.

(** What the program holds. *)
Record world := MkWorld { w_alice : node; w_bob : node; w_conn : pipe; w_mb : mailbox }.

(** A stretch of it; [None]: it never comes back. *)
Definition D (A : Type) : Type := world → option (result A * world).
Definition retD {A} (a : A) : D A := λ w, Some (Ok a, w).
Definition bindD {A B} (m : D A) (k : A → D B) : D B := λ w,
  match m w with
  | Some (Ok a, w) => k a w
  | Some (Err e, w) => Some (Err e, w)
  | None => None
  end.
Notation "'let$' x ':=' m 'in' k" := (bindD m (λ x, k)) (at level 10, x binder, m at level 100, k at level 200) : go_scope.

Definition getD : D world := λ w, Some (Ok w, w).
Definition liftD {A} (r : result A) : D A := λ w, Some (r, w).
Definition alice_does {A} (m : proc node A) : D A := λ w,
  x ← drive Transport.A (m (w_alice w)) (w_conn w);
  Some (x.1.1, MkWorld x.1.2 (w_bob w) x.2 (w_mb w)).
Definition bob_does {A} (m : proc node A) : D A := λ w,
  x ← drive Transport.B (m (w_bob w)) (w_conn w);
  Some (x.1.1, MkWorld (w_alice w) x.1.2 x.2 (w_mb w)).
Definition alice_mails {A} (m : M (node * mailbox) A) : D A := λ w,
  let '(r, (n, mb)) := m (w_alice w, w_mb w) in Some (r, MkWorld n (w_bob w) (w_conn w) mb).
Definition bob_fetches {A} (m : M (node * mailbox) A) : D A := λ w,
  let '(r, (n, mb)) := m (w_bob w, w_mb w) in Some (r, MkWorld (w_alice w) n (w_conn w) mb).

(** ** The program *)

(** What the operating system answers to [makeNode]. *)
Record node_os := MkNodeOS {
  no_account : os_answers;
  no_mkdir : option error;
  no_read : result (option bytes);
  no_faults : faults;
}.

(** What [run] prints, in order: the fingerprints, the safety number, the
    text, the file - name, length, integrity -, and the offline text if any. *)
Record report := MkReport {
  rp_alice : bytes; rp_bob : bytes; rp_safety : bytes; rp_text : bytes;
  rp_file : bytes * nat * bool; rp_offline : option bytes;
}.

Definition hello : bytes := bs "hello bob 🎉🔒".
Definition while_away : bytes := bs "sent while you were offline 👋".

Section demo.
Context `{Curves}.

(** [makeNode]; the node goes on with the randomness that is left. *)
Definition makeNode (tmp name : bytes) (os : node_os) (clock : list gotime) : M tape node :=
  let key := concat (replicate 32 (take 1 (name ++ bs "-"))) in
  let dir := Join tmp name in
  let* acc := LoadOrCreate key (no_account os) in
  let* store := liftM (openFileStore (Join dir (bs "db.bin")) key (no_mkdir os) (no_read os) (no_faults os)) in
  let* t := getM in
  retM (Node.New acc.1 (Some store) t clock).

(** [messaging.NewText], whose error is dropped. *)
Definition offline_text : proc node Envelope := λ n,
  match make_text (bs "conv") while_away n with
  | (Ok env, n) => Halt (Ok env) n
  | (Err _, n) => Halt (Ok zero_Envelope) n
  end.

(** [run], after the nodes were made; [file] is what [rand.Read] gave. *)
Definition stages (now : gotime) (file : bytes) : D report :=
  let$ w := getD in
  let accA := n_Account (w_alice w) in
  let accB := n_Account (w_bob w) in
  let$ sn := liftD (SafetyNumber now (ContactURI accA (bs "alice")) (ContactURI accB (bs "bob"))) in
  let$ linkA := alice_does (Dial (Bundle (acc_PreKeys accB))) in
  let$ linkB := bob_does node_Accept in
  let$ _ := alice_does (SendText linkA (bs "conv") hello) in
  let$ env := bob_does (Receive linkB) in
  let$ _ := alice_does (SendFile linkA (bs "conv") (bs "secret.bin") (bs "application/octet-stream") file) in
  let$ got := bob_does (ReceiveFile linkB) in
  let$ offline := alice_does offline_text in
  let$ _ := alice_mails (SendOffline (Bundle (acc_PreKeys accB)) offline) in
  let$ fetched := bob_fetches FetchOffline in
  retD (MkReport (acc_Fingerprint accA) (acc_Fingerprint accB) sn (tb_Text (Text env).1)
          (o_Name got.1, length got.2, bool_decide (got.2 = file))
          (match fetched with [] => None | e :: _ => Some (tb_Text (Text e).1) end)).

(** [run]. *)
Definition run (mkdirTemp : result bytes) (osA osB : node_os) (clockA clockB : list gotime) (now : gotime)
    (tA tB file : bytes) : option (result report) :=
  match mkdirTemp with
  | Err e => Some (Err e)
  | Ok tmp =>
    match (makeNode tmp (bs "alice") osA clockA tA).1 with
    | Err e => Some (Err e)
    | Ok alice =>
      match (makeNode tmp (bs "bob") osB clockB tB).1 with
      | Err e => Some (Err e)
      | Ok bob => fst <$> stages now file (MkWorld alice bob Pipe NewMemory)
      end
    end
  end.
End demo.

(** ** One step of [drive] is one of the pipe's *)

Lemma drive_send {S R} e b s (k : result unit → proc S R) p x :
  drive e (Sending b s k) p = Some x → ∃ r p', pipe_Send e b p r p' ∧ drive e (k r s) p' = Some x.
Proof.
  unfold drive at 1. cbn [advance].
  destruct (p_done p) eqn:Ed; [intros E; eexists _, _; split; [by constructor|done]|].
  case_decide; [|done]. intros E. eexists _, _. split; [by constructor|done].
Qed.

Lemma drive_recv {S R} e s (k : result bytes → proc S R) p x :
  drive e (Receiving s k) p = Some x → ∃ r p', pipe_Recv e p r p' ∧ drive e (k r s) p' = Some x.
Proof.
  unfold drive at 1. cbn [advance]. destruct (in_ e p) as [|b q] eqn:Ei.
  - destruct (p_done p) eqn:Ed; [|done]. intros E. eexists _, _. split; [by apply recv_done_empty|done].
  - intros E. eexists _, _. split; [by eapply recv_message|done].
Qed.

(** ** Alice writes, then Bob reads *)

Lemma advance_sent {S R} e (o : outcome S R) ws o' : ∀ p,
  sent o = (ws, o') → p_done p = false → (length (out e p) + length ws ≤ capacity)%nat →
  advance e o p = advance e o' (set_out e (out e p ++ ws) p).
Proof.
  revert ws. induction o as [r0 s0|b s0 f IH|s0 f IH|s0 f IH]; intros ws p E Hd Hl; cbn [sent] in *.
  2:{ destruct (sent (f (Ok tt) s0)) as [ws' o1] eqn:Ef. injection E as <- ->. cbn [length advance] in *.
    rewrite Hd, decide_True by lia. rewrite (IH _ _ _ _ Ef).
    - destruct e, p as [qa qb d]; cbn [set_out out a2b b2a p_done]; by rewrite <-app_assoc.
    - by destruct e.
    - destruct e, p as [qa qb d]; cbn [set_out out a2b b2a p_done] in *; rewrite length_app; cbn [length]; lia. }
  all: injection E as <- <-; rewrite app_nil_r; by destruct e, p.
Qed.

Lemma drive_sent {S R} e (o : outcome S R) ws r s p :
  sent o = (ws, Halt r s) → p_done p = false → (length (out e p) + length ws ≤ capacity)%nat →
  drive e o p = Some (r, s, set_out e (out e p ++ ws) p).
Proof. intros E Hd Hl. unfold drive. by rewrite (advance_sent _ _ _ _ _ E). Qed.

Lemma advance_eats {S R} e (o : outcome S R) ws r s :
  eats o ws r s → ∀ p q, in_ e p = ws ++ q → advance e o p = (Halt r s, set_out (other e) q p).
Proof.
  induction 1 as [r s|s0 f b ws r s _ IH]; intros p q Hin; cbn [advance].
  - cbn [app] in Hin. subst q. by destruct e, p.
  - rewrite Hin. cbn [app]. rewrite (IH _ q); [by destruct e, p|]. by destruct e, p.
Qed.

Lemma drive_eats {S R} e (o : outcome S R) ws r s p q :
  eats o ws r s → in_ e p = ws ++ q → drive e o p = Some (r, s, set_out (other e) q p).
Proof. intros E Hin. unfold drive. by rewrite (advance_eats _ _ _ _ _ E _ _ Hin). Qed.

Section lemmas.
Context `{CurveLaws}.

Lemma alice_sends {R} (m : proc node R) ws a n nA nB mb :
  sent (m nA) = (ws, Halt (Ok a) n) → (length ws ≤ capacity)%nat →
  alice_does m (MkWorld nA nB Pipe mb) = Some (Ok a, MkWorld n nB (MkPipe ws [] false) mb).
Proof. intros E Hl. unfold alice_does. cbn [w_alice w_conn]. by rewrite (drive_sent _ _ _ _ _ _ E). Qed.

Lemma bob_reads {R} (m : proc node R) ws a n nA nB mb :
  eats (m nB) ws (Ok a) n →
  bob_does m (MkWorld nA nB (MkPipe ws [] false) mb) = Some (Ok a, MkWorld nA n Pipe mb).
Proof. intros E. unfold bob_does. cbn [w_bob w_conn]. by rewrite (drive_eats _ _ _ _ _ _ [] E) by by rewrite app_nil_r. Qed.

Lemma bindD_Ok {A B} (m : D A) (k : A → D B) w a w' : m w = Some (Ok a, w') → bindD m k w = k a w'.
Proof. intros E. unfold bindD. by rewrite E. Qed.

(** *** The link *)

Section handshake.
#[local] Opaque Initiate Accept DecodeFrame enc_Frame marshal.

Lemma dial_accept nA nB :
  node_ok nB → (64 ≤ length (n_tape nA))%nat →
  ∃ w lA lB mA mB a b,
    let nA' := set_tape (drop 32 (drop 32 (n_tape nA))) (set_sessions mA nA) in
    let nB' := set_tape (n_tape nB) (set_sessions mB nB) in
    sent (Dial (Bundle (acc_PreKeys (n_Account nB))) nA) = ([w], Halt (Ok lA) nA') ∧
    eats (node_Accept nB) [w] (Ok lB) nB' ∧
    established mA mB (l_session lA) (l_session lB) (acc_PreKeys (n_Account nB)) a b ∧
    ms_pre mB = Some (acc_PreKeys (n_Account nB)) ∧ ms_local mB = acc_Identity (n_Account nB).
Proof.
  intros [Hp Hid Hloc Hpre] Ht.
  destruct (Initiate_accepted (n_sessions nA) (acc_PreKeys (n_Account nB)) (n_tape nA) Hp Ht)
    as (pA & hs & mA & a & b & Hi & _ & _ & HB).
  destruct (HB (n_sessions nB) Hpre) as (pB & mB & Ha & He & Hp' & Hl'); [congruence|].
  exists (marshal (enc_Frame (MkFrame None (Some hs) None))),
    (MkLink pA (PeerFingerprint mA pA) (SigningPub (pk_id (acc_PreKeys (n_Account nB))))),
    (MkLink pB (PeerFingerprint mB pB) (sl (hs_IdentitySign hs))), mA, mB, a, b.
  split_and!; [| |exact He|congruence|congruence].
  - unfold Dial, lift_sessions. rewrite bindP_local. erewrite with_sessions_eq by exact Hi.
    cbn beta iota. rewrite bindP_local. reflexivity.
  - unfold node_Accept. constructor. cbn [bindO]. rewrite bindP_local. unfold liftM at 1.
    rewrite decode_handshake by done. cbn [f_Handshake].
    unfold lift_sessions. rewrite bindP_local. erewrite with_sessions_fst by exact Ha. constructor.
Qed.
End handshake.

Lemma Text_body env text :
  e_Body env = Some (marshal (enc_TextBody (MkTextBody text None))) → valid_utf8 text = true →
  (Text env).1 = MkTextBody text None.
Proof.
  intros Hb Hv. unfold Text. rewrite Hb. cbn [sl]. rewrite unmarshal_marshal by by apply wf_enc_TextBody.
  by rewrite dec_enc_TextBody.
Qed.

(** *** The stages *)

(** What is left of Alice's randomness and counter after the link is up. *)
Lemma link_flow nA nB lA lB mA mB a b :
  let nA' := set_tape (drop 32 (drop 32 (n_tape nA))) (set_sessions mA nA) in
  let nB' := set_tape (n_tape nB) (set_sessions mB nB) in
  established mA mB (l_session lA) (l_session lB) (acc_PreKeys (n_Account nB)) a b →
  can_fetch (acc_PreKeys (n_Account nB)) 3 nB → Forall wf_time (n_clock nA) →
  ∃ sB, session_of nB' lB = Some sB ∧
    flow nA' lA (s_r sB) (n_tape nB) (length (n_tape nA) - 64) [] [] ∧
    ∀ k, Z.of_nat k ≤ counter_limit → room nA' lA k.
Proof.
  intros nA' nB' [] [_ _ Hf] Hc. eexists. split; [exact es_B|]. cbn [s_r].
  destruct (Hf 0%nat) as [Hl Hd]; [lia|]. rewrite Nat.mul_0_r, drop_0 in Hd.
  split; [split|].
  - eexists. split; [exact es_A|]. left. split; [done|]. split; [lia|by rewrite es_key].
  - constructor.
  - done.
  - cbn [n_tape nA' set_tape length]. rewrite !length_drop. lia.
  - intros k Hk. eexists. split; [exact es_A|]. cbn [s_r]. destruct es_ns as [-> _]. lia.
Qed.

(** A file of forty kibibytes is three chunks. *)
Lemma demo_pieces file : length file = (40 * 1024)%nat → length (pieces DefaultChunkSize file) = 3%nat.
Proof. intros Hl. unfold pieces. rewrite length_chunks by (unfold DefaultChunkSize; lia). by rewrite Hl. Qed.

(** A bob that read from his links still holds his prekeys; what it cost him
    is at most one private key for each time the direction changed. *)
Lemma sink_origin o m l X : sink o m l X [] [] → n_tape m = n_tape o ∨ n_tape m = drop 32 (n_tape o).
Proof. intros [(s & _ & [(_ & _ & ?)|(_ & ?)]) _ _]; tauto. Qed.

(** The same two links, once everything sent was read. *)
Lemma flow_again nA lA Y t L cts pts sA o nB lB :
  flow nA lA Y t L cts pts → session_of nA lA = Some sA → sink o nB lB (s_r sA) [] [] →
  ∃ sB, session_of nB lB = Some sB ∧ flow nA lA (s_r sB) (n_tape nB) (L - length cts * envelope_cost) [] [].
Proof.
  intros [_ _ Hc Ht] HsA [(sB & HsB & Hr) _ _]. exists sB. split; [done|].
  split; [|constructor|done|cbn [length]; lia]. exists sA. split; [done|by eapply reading_readable].
Qed.

(** Reading from a link spends at most one of the keys a recipient needs. *)
Lemma sink_can_fetch pre k o m l X : sink o m l X [] [] → can_fetch pre (S k) o → can_fetch pre k m.
Proof.
  intros Hs [Hp Hl Hf]. pose proof (sink_origin _ _ _ _ Hs) as Ht. destruct Hs as [_ _ (_ & E1 & E2 & _)].
  split; [congruence..|]. intros i Hi. destruct Ht as [->| ->]; [apply Hf; lia|].
  rewrite length_drop, drop_drop. destruct (Hf (S i)) as [H1 H2]; [lia|].
  replace (32 * S i)%nat with (32 + 32 * i)%nat in H2 by lia. split; [lia|done].
Qed.

(** The text and the file. *)
Lemma text_and_file pre nA lA nB lB sB L conv text name mime file :
  session_of nB lB = Some sB → flow nA lA (s_r sB) (n_tape nB) L [] [] → (60 ≤ L)%nat →
  can_fetch pre 3 nB → room nA lA (S (S (length (pieces DefaultChunkSize file)))) →
  valid_utf8 conv = true → valid_utf8 text = true → valid_utf8 name = true → valid_utf8 mime = true →
  ∃ w env nA1 nB1 ws offer nA2 nB2,
    sent (SendText lA conv text nA) = ([w], Halt (Ok env) nA1) ∧
    eats (Receive lB nB) [w] (Ok env) nB1 ∧ tb_Text (Text env).1 = text ∧
    sent (SendFile lA conv name mime file nA1) = (ws, Halt (Ok offer) nA2) ∧
    eats (ReceiveFile lB nB1) ws (Ok (offer, file)) nB2 ∧
    length ws = S (length (pieces DefaultChunkSize file)) ∧ o_Name offer = name ∧
    Forall wf_time (n_clock nA2) ∧ (L - 72 ≤ length (n_tape nA2) + length ws * envelope_cost)%nat ∧
    n_Account nB2 = n_Account nB ∧ can_fetch pre 1 nB2.
Proof.
  intros HsB Hfl HL Hcf Hroom Hc Hx Hn Hm.
  destruct (SendText_flow lA conv text nA (s_r sB) (n_tape nB) L _ Hfl Hroom Hc)
    as (ct & pt & env & nA1 & E1 & Hen & Hb & Hfl1 & Hroom1).
  destruct (flow_sink _ _ _ _ _ _ _ _ HsB Hfl1) as (sA1 & HsA1 & Hsi).
  destruct (Receive_sink _ _ _ _ _ _ _ _ _ Hsi Hen) as (nB1 & E2 & Hsi1).
  destruct (flow_again _ _ _ _ _ _ _ _ _ _ _ Hfl1 HsA1 Hsi1) as (sB1 & HsB1 & Hfl1').
  pose proof (fl_tape _ _ _ _ _ _ _ Hfl1') as Ht1. cbn [length] in Ht1. unfold envelope_cost in Ht1.
  destruct (file_flow nA1 lA nB1 lB sB1 conv name mime file 0)
    as (cts & pts & offer & nA2 & nB2 & sA2 & E3 & E4 & Hlen & Hname & _ & _ & Hfl2 & _ & _ & Hsi2); try done.
  { eapply flow_le; [exact Hfl1'|lia]. }
  { lia. }
  { by rewrite Nat.add_0_r. }
  exists (payload_frame ct), env, nA1, nB1, (map payload_frame cts), offer, nA2, nB2.
  rewrite (Text_body env text Hb Hx), length_map. split_and!; try done.
  - exact (fl_clock _ _ _ _ _ _ _ Hfl2).
  - pose proof (fl_tape _ _ _ _ _ _ _ Hfl2). lia.
  - destruct (si_origin _ _ _ _ _ _ Hsi1) as (? & _), (si_origin _ _ _ _ _ _ Hsi2) as (? & _). congruence.
  - by eapply sink_can_fetch; [|eapply sink_can_fetch].
Qed.

(** The message in the mailbox. *)
Lemma mailbox_stage nA nB :
  let pre := acc_PreKeys (n_Account nB) in
  wf_prekeys pre → pk_id pre = acc_Identity (n_Account nB) → can_fetch pre 1 nB →
  Forall wf_time (n_clock nA) → (80 ≤ length (n_tape nA))%nat →
  ∃ env nA1 nA2 mb nB' mb',
    offline_text nA = Halt (Ok env) nA1 ∧ tb_Text (Text env).1 = while_away ∧
    SendOffline (Bundle pre) env (nA1, NewMemory) = (Ok tt, (nA2, mb)) ∧
    FetchOffline (nB, mb) = (Ok [env], (nB', mb')).
Proof.
  intros pre Hpre Hid Hcf Hc Ht.
  destruct (make_envelope_spec TypeText (bs "conv") (Some (marshal (enc_TextBody (MkTextBody while_away None)))) nA)
    as (env & t & E & Hwf & _ & _ & Hb & ->); [reflexivity..|done|].
  edestruct (SendOffline_spec pre env (set_tape (drop 16 (n_tape nA)) (set_clock (List.tl (n_clock nA)) nA)) NewMemory)
    as (raw & nA2 & mb & E2 & Hup & Hq & Ho); [done|done|cbn [n_tape set_tape]; rewrite length_drop; lia|exact I|].
  destruct (open_offline_spec pre [raw] [env] ltac:(by constructor) nB [] Hcf) as (nB' & E3).
  destruct (law_Fetch (acc_Fingerprint (n_Account nB)) mb Hup) as (mb' & Ef & _).
  eexists env, _, nA2, _, nB', _. split_and!; [| |exact E2|].
  - unfold offline_text. change (make_text (bs "conv") while_away nA) with
      (make_envelope TypeText (bs "conv") (Some (marshal (enc_TextBody (MkTextBody while_away None)))) nA).
    rewrite E. reflexivity.
  - by rewrite (Text_body env while_away Hb).
  - unfold FetchOffline. run_M. rewrite Ef, Hq. unfold acc_Fingerprint. rewrite <-Hid. fold pre.
    rewrite decide_True by done. change (queue NewMemory _) with (@nil bytes). cbn [app]. rewrite E3. reflexivity.
Qed.
Lemma node_ok_key n : node_ok n → length (SigningPub (acc_Identity (n_Account n))) = PublicKeySize.
Proof. intros [Hp Hid _ _]. apply length_SigningPub. rewrite <-Hid. apply Hp. Qed.

Lemma safety_shown nA nB now ha hb :
  node_ok nA → node_ok nB →
  SafetyNumber now (ContactURI (n_Account nA) ha) (ContactURI (n_Account nB) hb)
  = Ok (Compute (SigningPub (acc_Identity (n_Account nA))) (SigningPub (acc_Identity (n_Account nB)))).
Proof. intros HA HB. unfold SafetyNumber, ContactURI. by rewrite !ParseURI_URI by by apply node_ok_key. Qed.

(** All of it, between two nodes. *)
Lemma stages_ok nA nB now file :
  node_ok nA → node_ok nB → Forall wf_time (n_clock nA) → (328 ≤ length (n_tape nA))%nat →
  can_fetch (acc_PreKeys (n_Account nB)) 3 nB → length file = (40 * 1024)%nat →
  ∃ rep w, stages now file (MkWorld nA nB Pipe NewMemory) = Some (Ok rep, w) ∧
    length (rp_safety rep) = 71%nat ∧ rp_text rep = hello ∧
    rp_file rep = (bs "secret.bin", (40 * 1024)%nat, true) ∧ rp_offline rep = Some while_away.
Proof.
  intros HokA HokB Hc Ht Hcf Hl. pose proof (demo_pieces file Hl) as Hp.
  destruct (dial_accept nA nB HokB) as (w & lA & lB & mA & mB & a & b & E1 & E2 & He & Hp1 & Hp2); [lia|].
  set (nA1 := set_tape _ _) in E1. set (nB1 := set_tape _ _) in E2.
  destruct (link_flow nA nB lA lB mA mB a b He Hcf Hc) as (sB & HsB & Hfl & Hroom).
  assert (can_fetch (acc_PreKeys (n_Account nB)) 3 nB1) as Hcf1.
  { destruct HokB, Hcf. split; [done|cbn; congruence|done]. }
  destruct (text_and_file (acc_PreKeys (n_Account nB)) nA1 lA nB1 lB sB _ (bs "conv") hello (bs "secret.bin")
    (bs "application/octet-stream") file HsB Hfl)
    as (w1 & env & nA2 & nB2 & ws & offer & nA3 & nB3 & E3 & E4 & Htext & E5 & E6 & Hlw & Hname & Hc3 & Ht3 & Hacc & Hcf3);
    [lia|done|apply Hroom; by rewrite Hp|reflexivity..|].
  rewrite Hp in Hlw. rewrite Hlw in Ht3. change (n_Account nB1) with (n_Account nB) in Hacc.
  destruct (mailbox_stage nA3 nB3) as (off & nA4 & nA5 & mb & nB4 & mb' & E7 & Hoff & E8 & E9).
  { rewrite Hacc. by destruct HokB. }
  { rewrite Hacc. by destruct HokB. }
  { by rewrite Hacc. }
  { done. }
  { unfold envelope_cost in Ht3. lia. }
  eexists _, _. split.
  - unfold stages. erewrite bindD_Ok by reflexivity. cbn [w_alice w_bob].
    erewrite bindD_Ok by (unfold liftD; by rewrite safety_shown).
    erewrite bindD_Ok by (by apply (alice_sends _ _ _ _ _ _ _ E1); cbn; unfold capacity; lia).
    erewrite bindD_Ok by (exact (bob_reads _ _ _ _ _ _ _ E2)).
    erewrite bindD_Ok by (by apply (alice_sends _ _ _ _ _ _ _ E3); cbn; unfold capacity; lia).
    erewrite bindD_Ok by (exact (bob_reads _ _ _ _ _ _ _ E4)).
    erewrite bindD_Ok by (apply (alice_sends _ _ _ _ _ _ _ E5); unfold capacity; lia).
    erewrite bindD_Ok by (exact (bob_reads _ _ _ _ _ _ _ E6)).
    erewrite bindD_Ok by (apply (alice_sends _ [] _ _ _ _ _ ltac:(rewrite E7; reflexivity)); cbn; lia).
    erewrite bindD_Ok by (unfold alice_mails; cbn [w_alice w_mb]; rewrite <-Hacc, E8; reflexivity).
    erewrite bindD_Ok by (unfold bob_fetches; cbn [w_bob w_mb]; rewrite E9; reflexivity).
    reflexivity.
  - cbn [rp_safety rp_text rp_file rp_offline fst snd]. rewrite Htext, Hname, Hl, Hoff, bool_decide_eq_true_2 by done.
    split_and!; [apply length_Compute|done..].
Qed.
End lemmas.
(** ** The program comes back *)

(** An empty directory, on a disk that works. *)
Record fresh_os (os : node_os) : Prop := {
  fo_mkdir : os_mkdir (no_account os) = None;
  fo_read : os_read (no_account os) = Ok None;
  fo_write : os_write (no_account os) = None;
  fo_store : no_mkdir os = None ∧ no_read os = Ok None;
}.

Section properties.
Context `{CurveLaws}.

Lemma makeNode_fresh tmp name os clock t :
  fresh_os os → (140 ≤ length t)%nat →
  ∃ n, (makeNode tmp name os clock t).1 = Ok n ∧ node_ok n ∧ n_tape n = drop 140 t ∧ n_clock n = clock ∧
    signedPre (acc_PreKeys (n_Account n)) = take 32 (drop 76 t).
Proof.
  intros [Hm Hr Hw [Hsm Hsr]] Ht. unfold makeNode. set (key := concat _).
  assert (length key = KeySize) as Hk.
  { unfold key. by destruct name. }
  destruct (LoadOrCreate_fresh key (no_account os) t) as (acc & file & E & H1 & H2 & H3); [done..|].
  run_M. rewrite E. unfold openFileStore.
  rewrite decide_False by (by rewrite Hk; intros []). rewrite decide_False by (by apply Join_ne). rewrite Hsm, Hsr.
  eexists. split; [reflexivity|]. split_and!; [by split|done..].
Qed.

(** C9: the demonstration succeeds.  In an empty directory, with enough
    randomness in which Bob's new keys are not his signed prekey, [run] comes
    back - no channel of the pipe fills up, no call waits for what never comes
    - without an error; and it has shown a safety number, the text Alice sent,
    the file she sent with its integrity intact, and the text she left in the
    mailbox. *)
Theorem demo_succeeds tmp osA osB clockA clockB now tA tB file :
  fresh_os osA → fresh_os osB → Forall wf_time clockA →
  (468 ≤ length tA)%nat → (236 ≤ length tB)%nat → length file = (40 * 1024)%nat →
  (∀ i, (i < 3)%nat →
     x25519_pub (take 32 (drop (32 * i) (drop 140 tB))) ≠ x25519_pub (take 32 (drop 76 tB))) →
  ∃ rep, run (Ok tmp) osA osB clockA clockB now tA tB file = Some (Ok rep) ∧
    length (rp_safety rep) = 71%nat ∧ rp_text rep = hello ∧
    rp_file rep = (bs "secret.bin", (40 * 1024)%nat, true) ∧ rp_offline rep = Some while_away.
Proof.
  intros HoA HoB Hc HtA HtB Hl Hfr.
  destruct (makeNode_fresh tmp (bs "alice") osA clockA tA HoA) as (nA & EA & HokA & HA1 & HA2 & _); [lia|].
  destruct (makeNode_fresh tmp (bs "bob") osB clockB tB HoB) as (nB & EB & HokB & HB1 & _ & HB3); [lia|].
  unfold run. rewrite EA, EB.
  assert (length (n_tape nA) = (length tA - 140)%nat) as HlA by (by rewrite HA1, length_drop).
  assert (can_fetch (acc_PreKeys (n_Account nB)) 3 nB) as Hcf.
  { destruct HokB. split; [done|congruence|]. intros i Hi. rewrite HB1, HB3, length_drop. split; [lia|by apply Hfr]. }
  rewrite <-HA2 in Hc. destruct (stages_ok nA nB now file) as (rep & w & E & H1); try done; [lia|].
  exists rep. by rewrite E.
Qed.
End properties.

Import ToyCurves.

Definition demo_os : node_os := MkNodeOS toy_os None (Ok None) [].
Definition demo_tape (n : nat) : tape := map (λ i, bZ (Z.of_nat i)) (seq 0 n).

Lemma demo_succeeds_witness :
  ∃ rep, run (Ok (bs "/tmp/stunnerd-1")) demo_os demo_os [toy_time] [] toy_time (demo_tape 468) (demo_tape 236)
           (zeros (40 * 1024)) = Some (Ok rep) ∧
    length (rp_safety rep) = 71%nat ∧ rp_text rep = hello ∧
    rp_file rep = (bs "secret.bin", (40 * 1024)%nat, true) ∧ rp_offline rep = Some while_away.
Proof.
  apply (demo_succeeds (bs "/tmp/stunnerd-1") demo_os demo_os [toy_time] [] toy_time (demo_tape 468) (demo_tape 236)).
  - by split.
  - by split.
  - repeat constructor; apply toy_time_wf.
  - unfold demo_tape. rewrite length_map, length_seq. lia.
  - unfold demo_tape. rewrite length_map, length_seq. lia.
  - apply length_replicate.
  - intros i Hi. destruct i as [|[|[|i]]]; [vm_compute; discriminate..|lia].
Defined.
