(* ===== verification/Live.v ===== *)
(** * The live demonstration ([cmd/stunnerd -live])

    [runLive]: two nodes find each other through the in-process registry, meet
    over a connection, run the interactive handshake and exchange a text each
    way.  The WebRTC transport answers what it likes when it dials and accepts;
    the data channel it then gives is a reliable one, here the pipe. *)

From S2P Require Import Prelude Bytes Json Codec GoTime Curve Identity X3dh Ratchet Conversation Session Filetransfer Messaging Mailbox Contact Storage Account Transport Signaling Proc Node NodeLink NodeFile NodeHop NodeOffline Paths Demo.
Open Scope Z_scope.

(** What [transport.New], [Dial] and [Accept] answer. *)
Record live_os := MkLiveOS {
  lo_newA : option error;
  lo_newB : option error;
  lo_dial : bytes → result unit;
  lo_accept : result unit;
}.

Definition live_salt : bytes := bs "stunnerd-live".
Definition hello_live : bytes := bs "hello bob over webrtc 🎉🔒".
Definition got_it : bytes := bs "got it, fully P2P 👍".

(** Two goroutines on the two ends of a connection, in turns. *)
Fixpoint meet {S R} (n : nat) (oA oB : outcome S R) (p : pipe) : outcome S R * outcome S R * pipe :=
  match n with
  | O => (oA, oB, p)
  | S n =>
    let '(oB, p) := advance Transport.B oB p in
    let '(oA, p) := advance Transport.A oA p in
    meet n oA oB p
  end.

Section live.
Context `{Curves} (os : live_os).

(** [bobDiscoveryKey]. *)
Definition bobDiscoveryKey (n : node) : bytes := DiscoveryKey (SigningPub (acc_Identity (n_Account n))) live_salt.

(** Both join, Bob is advertised - by [runLive], and again by [Listen] -, and
    the two handshakes run. *)
Definition live_connect (nA nB : node) : outcome node Link * outcome node Link * pipe :=
  let '(reg, _) := Signaling.Join NewRegistry (acc_Fingerprint (n_Account nA)) in
  let '(reg, sigB) := Signaling.Join reg (acc_Fingerprint (n_Account nB)) in
  let reg := Advertise reg sigB (bobDiscoveryKey nB) in
  let reg := Advertise reg sigB (bobDiscoveryKey nB) in
  let peer := Find reg (bobDiscoveryKey nB) in
  meet 2 (Connect (let? _ := peer in Ok tt) (let? i := peer in lo_dial os (pi_PeerID i))
            (SigningPub (acc_Identity (n_Account nB))) nA)
         (Listen (Ok tt) (lo_accept os) nB) Pipe.

(** The two texts, as they were read. *)
Definition live_chat (linkA linkB : Link) : D (bytes * bytes) :=
  let$ _ := alice_does (SendText linkA (bs "conv") hello_live) in
  let$ env := bob_does (Receive linkB) in
  let$ _ := bob_does (SendText linkB (bs "conv") got_it) in
  let$ env' := alice_does (Receive linkA) in
  retD (tb_Text (Text env).1, tb_Text (Text env').1).

(** [runLive], after the nodes were made; what it prints, and the connection. *)
Definition live_stages (nA nB : node) : option (result (bytes * bytes) * pipe) :=
  match lo_newA os, lo_newB os with
  | Some e, _ | None, Some e => Some (Err e, Pipe)
  | None, None =>
    match live_connect nA nB with
    | (Halt (Err e) _, _, p) => Some (Err (bs "alice connect: " ++ e), p)
    | (Halt (Ok linkA) nA, oB, p) =>
      match oB with
      | Halt (Ok linkB) nB =>
        x ← live_chat linkA linkB (MkWorld nA nB p NewMemory);
        Some (x.1, pipe_Close (pipe_Close (w_conn x.2)))
      | Halt (Err e) _ => Some (Err (bs "bob listen: " ++ e), pipe_Close p)
      | _ => Some (Err (bs "bob listen timed out"), pipe_Close p)
      end
    | _ => None
    end
  end.

Definition runLive (mkdirTemp : result bytes) (osA osB : node_os) (clockA clockB : list gotime) (tA tB : bytes)
    : option (result (bytes * bytes) * pipe) :=
  match mkdirTemp with
  | Err e => Some (Err e, Pipe)
  | Ok tmp =>
    match (makeNode tmp (bs "alice") osA clockA tA).1 with
    | Err e => Some (Err e, Pipe)
    | Ok alice =>
      match (makeNode tmp (bs "bob") osB clockB tB).1 with
      | Err e => Some (Err e, Pipe)
      | Ok bob => live_stages alice bob
      end
    end
  end.
End live.

Section lemmas.
Context `{CurveLaws}.

(** What is advertised is found. *)
Lemma Find_Advertise r s k : Find (Advertise r s k) k = Ok (MkPeerInfo (s_peerID s) [bs "inproc://" ++ s_peerID s]).
Proof. unfold Find, Advertise. cbn [advert]. by rewrite lookup_insert_eq. Qed.

Lemma sent_waiting {S A B} (o : outcome S A) (k : result A → proc S B) ws s f :
  sent o = (ws, Receiving s f) → sent (bindO o k) = (ws, Receiving s (λ r s, bindO (f r s) k)).
Proof.
  revert ws. induction o as [r0 s0|b s0 g IH|s0 g IH|s0 g IH]; intros ws E; cbn [sent bindO] in *.
  - discriminate E.
  - destruct (sent (g (Ok tt) s0)) as [ws' o'] eqn:Eg. injection E as <- ->. by rewrite (IH _ _ _ Eg).
  - by injection E as <- <- <-.
  - discriminate E.
Qed.

(** *** The handshake, frame by frame *)

Section handshake.
#[local] Opaque Initiate Accept DecodeFrame enc_Frame marshal.

Lemma handshake_frames nA nB :
  node_ok nB → fresh_start nA nB →
  ∃ f1 f2 k k' lA lB mA mB sA sB,
    sent (handshakeResponder nB) = ([f1], Receiving nB k) ∧ k (Ok f2) nB = Halt (Ok lB) mB ∧
    handshakeInitiator (SigningPub (acc_Identity (n_Account nB))) nA = Receiving nA k' ∧
    sent (k' (Ok f1) nA) = ([f2], Halt (Ok lA) mA) ∧ fresh_links mA lA sA mB lB sB.
Proof.
  intros [Hp Hid Hloc Hpre] Hst.
  destruct (Initiate_Accept (n_sessions nA) (n_sessions nB) (acc_PreKeys (n_Account nB)) (n_tape nA))
    as (pA & hs & mA & pB & mB & a & b & Hi & Ha & Hl & Hd & Hest); [done|done|by rewrite Hloc| |].
  { destruct Hst as [[? _] _ _ _]. lia. }
  set (nA' := set_tape (drop 32 (drop 32 (n_tape nA))) (set_sessions mA nA)).
  set (nB' := set_tape (n_tape nB) (set_sessions mB nB)).
  set (lA := MkLink pA (PeerFingerprint mA pA) (SigningPub (acc_Identity (n_Account nB)))).
  set (lB := MkLink pB (PeerFingerprint mB pB) (sl (hs_IdentitySign hs))).
  destruct (established_fresh nA nA' lA nB nB' lB a b) as (sA & sB & Hf); [done..|].
  exists (marshal (enc_Frame (MkFrame (Some (node_Bundle nB)) None None))), (marshal (enc_Frame (MkFrame None (Some hs) None))).
  eexists _, _, lA, lB, nA', nB', sA, sB. split; [reflexivity|]. split_and!; [|reflexivity| |exact Hf].
  - cbn [bindO]. rewrite bindP_local. unfold liftM at 1. rewrite decode_handshake by done. cbn [f_Handshake].
    unfold lift_sessions at 1. rewrite bindP_local. erewrite with_sessions_fst by exact Ha. reflexivity.
  - cbn [bindO]. rewrite bindP_local. unfold liftM at 1. rewrite decode_bundle. cbn [f_Bundle].
    rewrite bool_decide_eq_true_2 by (cbn; by rewrite Hid). cbn [negb].
    unfold lift_sessions at 1. rewrite bindP_local. erewrite with_sessions_eq by exact Hi.
    cbn beta iota. rewrite bindP_local. reflexivity.
Qed.
End handshake.

Lemma live_meets os nA nB :
  node_ok nB → fresh_start nA nB → (∀ p, lo_dial os p = Ok tt) → lo_accept os = Ok tt →
  ∃ lA lB mA mB sA sB, live_connect os nA nB = (Halt (Ok lA) mA, Halt (Ok lB) mB, Pipe) ∧
    fresh_links mA lA sA mB lB sB.
Proof.
  intros Hok Hst Hdial Hacc.
  destruct (handshake_frames nA nB Hok Hst) as (f1 & f2 & k & k' & lA & lB & mA & mB & sA & sB & E1 & E2 & E3 & E4 & Hf).
  exists lA, lB, mA, mB, sA, sB. split; [|exact Hf].
  unfold live_connect. destruct (Signaling.Join NewRegistry _) as [r0 s0]. destruct (Signaling.Join r0 _) as [r1 s1].
  rewrite Find_Advertise. cbn [bindR]. rewrite Hdial, Hacc.
  unfold Connect, Listen. rewrite !bindP_local. unfold liftM. cbn iota beta. rewrite !bindP_local. cbn iota beta.
  unfold catchP. rewrite E3. cbn [meet bindO].
  rewrite (advance_sent Transport.B _ _ _ Pipe (sent_waiting _ _ _ _ _ E1)) by (done || (cbn; unfold capacity; lia)).
  cbn [advance in_ out set_out other Pipe a2b b2a p_done app].
  rewrite (advance_sent Transport.A _ _ _ _ (sent_bind _ _ _ _ _ E4)) by (done || (cbn; unfold capacity; lia)).
  cbn [sent retP fst snd app advance in_ out set_out other Pipe a2b b2a p_done].
  rewrite E2. reflexivity.
Qed.

(** *** A text each way *)

Lemma bob_sends {R} (m : proc node R) ws a n nA nB mb :
  sent (m nB) = (ws, Halt (Ok a) n) → (length ws ≤ capacity)%nat →
  bob_does m (MkWorld nA nB Pipe mb) = Some (Ok a, MkWorld nA n (MkPipe [] ws false) mb).
Proof. intros E Hl. unfold bob_does. cbn [w_bob w_conn]. by rewrite (drive_sent _ _ _ _ _ _ E). Qed.

Lemma alice_reads {R} (m : proc node R) ws a n nA nB mb :
  eats (m nA) ws (Ok a) n →
  alice_does m (MkWorld nA nB (MkPipe [] ws false) mb) = Some (Ok a, MkWorld n nB Pipe mb).
Proof. intros E. unfold alice_does. cbn [w_alice w_conn]. by rewrite (drive_eats _ _ _ _ _ _ [] E) by by rewrite app_nil_r. Qed.

Lemma live_chat_ok nA lA sA nB lB sB :
  fresh_links nA lA sA nB lB sB →
  ∃ nA' nB', live_chat lA lB (MkWorld nA nB Pipe NewMemory) = Some (Ok (hello_live, got_it), MkWorld nA' nB' Pipe NewMemory).
Proof.
  intros [HsA HsB HL [HnA HnB] HfA HfB [HcA HcB]].
  destruct (SendText_hops lA (bs "conv") hello_live nA sA HsA HcA eq_refl)
    as (env & pt & ct & r & j & n1 & Hen & Hb & He & Hj & E1 & Hct & Hs1 & Ht1).
  apply fmap_Some in Hs1 as (s1 & Hs1 & ->). destruct (encrypt_keeps _ _ _ _ He) as [Hd1 _].
  destruct (hop_read nB lB sB (s_r sA) ct (s_r s1) env pt) as (mB & sB1 & E2 & HsB1 & HL2 & Hn2 & Hc2);
    [done|by left|by rewrite HnA|done..|].
  destruct (SendText_hops lB (bs "conv") got_it mB sB1 HsB1 ltac:(by rewrite Hc2) eq_refl)
    as (env2 & pt2 & ct2 & r2 & j2 & n2 & Hen2 & Hb2 & He2 & _ & E3 & Hct2 & Hs2 & _).
  destruct (hop_read n1 lA s1 (s_r sB1) ct2 r2 env2 pt2) as (mA & sA1 & E4 & _); [done| | |done..|].
  { left. split; [done|]. rewrite Ht1. unfold fresh. rewrite Hd1. by apply HfA. }
  { replace (ns (s_r sB1)) with 0 by (destruct Hn2; congruence). done. }
  exists mA, n2. unfold live_chat.
  erewrite bindD_Ok by (apply (alice_sends _ _ _ _ _ _ _ E1); cbn; unfold capacity; lia).
  erewrite bindD_Ok by exact (bob_reads _ _ _ _ _ _ _ E2).
  erewrite bindD_Ok by (apply (bob_sends _ _ _ _ _ _ _ E3); cbn; unfold capacity; lia).
  erewrite bindD_Ok by exact (alice_reads _ _ _ _ _ _ _ E4).
  by rewrite (Text_body env hello_live Hb), (Text_body env2 got_it Hb2).
Qed.
End lemmas.

Section properties.
Context `{CurveLaws}.

(** The live demonstration succeeds.  In an empty directory, with
    randomness whose keys differ, when the transport can be made, dials and
    accepts, [runLive] comes back: Bob was found under his discovery key, the
    two handshakes met, each side read exactly the text the other sent, and the
    connection is closed. *)
Theorem live_succeeds os tmp osA osB clockA clockB tA tB :
  fresh_os osA → fresh_os osB → Forall wf_time clockA → Forall wf_time clockB →
  lo_newA os = None → lo_newB os = None → (∀ p, lo_dial os p = Ok tt) → lo_accept os = Ok tt →
  (264 ≤ length tA)%nat → (172 ≤ length tB)%nat →
  (∀ j, (j ≤ 28)%nat → x25519_pub (take 32 (drop j (drop 204 tA))) ≠ x25519_pub (take 32 (drop 172 tA))) →
  x25519_pub (take 32 (drop 140 tB)) ≠ x25519_pub (take 32 (drop 76 tB)) →
  ∃ p, runLive os (Ok tmp) osA osB clockA clockB tA tB = Some (Ok (hello_live, got_it), p) ∧ p_done p = true.
Proof.
  intros HoA HoB HcA HcB HnA HnB Hd Ha HtA HtB HfA HfB.
  destruct (makeNode_fresh tmp (bs "alice") osA clockA tA HoA) as (nA & EA & HokA & HA1 & HA2 & _); [lia|].
  destruct (makeNode_fresh tmp (bs "bob") osB clockB tB HoB) as (nB & EB & HokB & HB1 & HB2 & HB3); [lia|].
  assert (fresh_start nA nB) as Hst.
  { split; rewrite ?HA1, ?HB1, ?HA2, ?HB2, ?HB3; [rewrite !length_drop; lia| |done|done].
    intros j Hj. rewrite !drop_drop. specialize (HfA j Hj). by rewrite drop_drop in HfA. }
  destruct (live_meets os nA nB HokB Hst Hd Ha) as (lA & lB & mA & mB & sA & sB & E & Hf).
  destruct (live_chat_ok _ _ _ _ _ _ Hf) as (nA' & nB' & Ec).
  unfold runLive. rewrite EA, EB. unfold live_stages. rewrite HnA, HnB, E, Ec. by eexists.
Qed.
End properties.

Import ToyCurves.

Lemma live_succeeds_witness :
  ∃ p, runLive (MkLiveOS None None (λ _, Ok tt) (Ok tt)) (Ok (bs "/tmp/stunnerd-live-1")) demo_os demo_os
         ToyNodes.clock ToyNodes.clock (demo_tape 264) (demo_tape 172) = Some (Ok (hello_live, got_it), p) ∧ p_done p = true.
Proof.
  apply (live_succeeds (MkLiveOS None None (λ _, Ok tt) (Ok tt))); [by split|by split| | |done..| | | |].
  - apply Forall_replicate, toy_time_wf.
  - apply Forall_replicate, toy_time_wf.
  - unfold demo_tape. rewrite length_map, length_seq. lia.
  - unfold demo_tape. rewrite length_map, length_seq. lia.
  - intros j Hj. do 29 (destruct j as [|j]; [vm_compute; discriminate|]). lia.
  - vm_compute. discriminate.
Defined.
