(* ===== verification/Prog.v ===== *)
(** * Programs of operations

    A goroutine whose steps another one can come between is a program: a tree
    of operations - critical sections, channel operations, calls into a library
    or the system - each with the continuation of its answer.  This file has
    the programs, what can be said of one program whatever it is answered, the
    pool that runs several in any interleaving on a shared state, and the
    discipline of obligations: an operation may oblige the program to perform
    another one later, as taking a link out of a table obliges to close it. *)

From S2P Require Import Prelude.

Inductive prog {O : Type} (R : O → Type) (A : Type) : Type :=
  | Ret (a : A)
  | Op (o : O) (k : R o → prog R A).
Arguments Ret {O R A} a.
Arguments Op {O R A} o k.

Fixpoint bindG {O} {R : O → Type} {A B} (p : prog R A) (f : A → prog R B) : prog R B :=
  match p with
  | Ret a => f a
  | Op o k => Op o (λ a, bindG (k a) f)
  end.

Definition perform {O} (R : O → Type) (o : O) : prog R (R o) := Op o Ret.

Notation "'let^' x ':=' m 'in' k" := (bindG m (λ x, k))
  (at level 10, x binder, m at level 100, k at level 200) : go_scope.

(** ** One program, whatever it is answered *)

Section runs_of.
Context {O : Type} {R : O → Type}.
(** [note] is what an observer keeps of an operation and its answer. *)
Context {Σ : Type} (note : ∀ o, R o → Σ → Σ).

Fixpoint all_runs {A} (p : prog R A) (φ : Σ → A → Prop) (σ : Σ) : Prop :=
  match p with
  | Ret a => φ σ a
  | Op o k => ∀ a, all_runs (k a) φ (note o a σ)
  end.

Lemma all_runs_bind {A B} (p : prog R A) (f : A → prog R B) φ σ :
  all_runs p (λ σ x, all_runs (f x) φ σ) σ → all_runs (bindG p f) φ σ.
Proof. revert σ. induction p as [a|o k IH]; intros σ; cbn [all_runs bindG]; [done|auto]. Qed.

Lemma all_runs_mono {A} (p : prog R A) (φ ψ : Σ → A → Prop) σ :
  (∀ σ x, φ σ x → ψ σ x) → all_runs p φ σ → all_runs p ψ σ.
Proof. intros H. revert σ. induction p as [a|o k IH]; intros σ; cbn [all_runs]; [apply H|auto]. Qed.
End runs_of.

(** ** Protocols *)

Section follows.
Context {O : Type} {R : O → Type} {Σ : Type}.
(** What a program may do in a state of the protocol, what it can count on in
    the answer, and the state then. *)
Context (may : O → Σ → Prop) (answers : ∀ o, R o → Prop) (next : ∀ o, R o → Σ → Σ).

Fixpoint follows {A} (p : prog R A) (φ : Σ → A → Prop) (σ : Σ) : Prop :=
  match p with
  | Ret a => φ σ a
  | Op o k => may o σ ∧ ∀ a, answers o a → follows (k a) φ (next o a σ)
  end.

Lemma follows_bind {A B} (p : prog R A) (f : A → prog R B) φ σ :
  follows p (λ σ x, follows (f x) φ σ) σ → follows (bindG p f) φ σ.
Proof.
  revert σ. induction p as [a|o k IH]; intros σ; cbn [follows bindG]; [done|].
  intros [Hm Hk]. split; [done|]. auto.
Qed.

Lemma follows_mono {A} (p : prog R A) (φ ψ : Σ → A → Prop) σ :
  (∀ σ x, φ σ x → ψ σ x) → follows p φ σ → follows p ψ σ.
Proof.
  intros H. revert σ. induction p as [a|o k IH]; intros σ; cbn [follows]; [apply H|].
  intros [Hm Hk]. split; [done|]. auto.
Qed.

Lemma follows_perform (o : O) φ σ :
  may o σ → (∀ a, answers o a → φ (next o a σ) a) → follows (perform R o) φ σ.
Proof. by split. Qed.
End follows.

(** ** Obligations *)

Section duties.
Context {O : Type} {R : O → Type}.
(** The operations that never wait, and what an operation, given its answer,
    obliges its program to perform. *)
Context (free : O → Prop) (duty : ∀ o, R o → O → Prop).

(** Whatever it is answered, [p] performs [q], and does not wait before. *)
Fixpoint owes {A} (q : O) (p : prog R A) : Prop :=
  match p with
  | Ret _ => False
  | Op o k => o = q ∨ free o ∧ ∀ a, owes q (k a)
  end.

(** [p] meets every obligation it takes on. *)
Fixpoint tidy {A} (p : prog R A) : Prop :=
  match p with
  | Ret _ => True
  | Op o k => (∀ a q, duty o a q → owes q (k a)) ∧ ∀ a, tidy (k a)
  end.

Lemma owes_bind {A B} q (p : prog R A) (f : A → prog R B) : owes q p → owes q (bindG p f).
Proof.
  induction p as [a|o k IH]; [done|]. cbn [owes bindG]. intros [->|[Hf H]]; [by left|right; auto].
Qed.

Lemma tidy_bind {A B} (p : prog R A) (f : A → prog R B) : tidy p → (∀ x, tidy (f x)) → tidy (bindG p f).
Proof.
  intros Hp Hf. induction p as [a|o k IH]; [apply Hf|]. cbn [tidy bindG] in *. destruct Hp as [Ho Hk].
  split; [|auto]. intros a q Hq. by apply owes_bind, Ho.
Qed.

Lemma tidy_if {A} (b : bool) (p q : prog R A) : tidy p → tidy q → tidy (if b then p else q).
Proof. by destruct b. Qed.

(** An operation that obliges to nothing. *)
Lemma tidy_perform o : (∀ a q, ¬ duty o a q) → tidy (perform R o).
Proof. intros H. split; [by intros a q ?%H|done]. Qed.
End duties.

(** ** Pools *)

Record pool {O} (R : O → Type) (S : Type) := MkPool { state : S; threads : list (prog R unit) }.
Arguments MkPool {O R S}. Arguments state {O R S}. Arguments threads {O R S}.

Section pool.
Context {O : Type} {R : O → Type} {S : Type}.
(** What an operation does to the shared state; the goroutines it starts; the
    calls that can come from outside at any time. *)
Context (step : ∀ o, R o → S → S → Prop) (spawned : O → list (prog R unit) → Prop) (api : prog R unit → Prop).
Abbreviation pool := (pool R S).

Inductive pool_step : pool → pool → Prop :=
  | step_thread s ts1 o k ts2 a s' new :
      step o a s s' → spawned o new →
      pool_step (MkPool s (ts1 ++ Op o k :: ts2)) (MkPool s' (ts1 ++ k a :: ts2 ++ new))
  | step_call s ts p : api p → pool_step (MkPool s ts) (MkPool s (ts ++ [p])).

Lemma thread_step (i : nat) o (k : R o → prog R unit) a s s' ts new :
  ts !! i = Some (Op o k) → step o a s s' → spawned o new →
  pool_step (MkPool s ts) (MkPool s' (<[i := k a]> ts ++ new)).
Proof.
  intros Hi Ho Hn. apply list_elem_of_split_length in Hi as (ts1 & ts2 & -> & ->).
  rewrite insert_app_r_alt by lia. rewrite Nat.sub_diag. cbn [insert list_insert].
  rewrite <-app_assoc. cbn [app]. by apply step_thread.
Qed.

(** An invariant of the state alone. *)
Lemma pool_state_inv (I : S → Prop) c c' :
  (∀ o a s s', step o a s s' → I s → I s') → rtc pool_step c c' → I (state c) → I (state c').
Proof. intros H. induction 1 as [|c c1 c' Hs _ IH]; [done|]. intros Hi. apply IH. destruct Hs; cbn in *; eauto. Qed.

(** *** Every thread is tidy, always *)

Section tidy.
Context (free : O → Prop) (duty : ∀ o, R o → O → Prop).
Abbreviation tidy := (tidy free duty).
Hypothesis spawned_tidy : ∀ o new, spawned o new → Forall tidy new.
Hypothesis api_tidy : ∀ p, api p → tidy p.

Definition all_tidy (c : pool) : Prop := Forall tidy (threads c).

Lemma pool_step_tidy c c' : all_tidy c → pool_step c c' → all_tidy c'.
Proof.
  unfold all_tidy. intros Ht Hs. destruct Hs as [s ts1 o k ts2 a s' new Ho Hn|s ts p Hp]; cbn [threads] in *.
  - apply Forall_app in Ht as [H1 H2]. apply Forall_cons in H2 as [[_ Hk] H2].
    rewrite Forall_app, Forall_cons, Forall_app. split_and!; [done|apply Hk|done|by eapply spawned_tidy].
  - apply Forall_app. split; [done|]. constructor; [by apply api_tidy|constructor].
Qed.

Lemma pool_steps_tidy c c' : all_tidy c → rtc pool_step c c' → all_tidy c'.
Proof. intros Ht Hr. induction Hr; [done|]. eauto using pool_step_tidy. Qed.

(** *** Nothing is dropped

    A resource is [held] by the shared state until an operation obliges its
    program to perform [q], which releases it. *)
Context (held released : S → Prop) (q : O).
Hypothesis held_step : ∀ o a s s', step o a s s' → held s → held s' ∨ released s' ∨ duty o a q.
Hypothesis released_step : ∀ o a s s', step o a s s' → released s → released s'.
Hypothesis release : ∀ a s s', step q a s s' → released s'.

Definition kept (c : pool) : Prop := held (state c) ∨ released (state c) ∨ Exists (owes free q) (threads c).

Lemma owes_step o (k : R o → prog R unit) a s s' :
  step o a s s' → owes free q (Op o k) → released s' ∨ owes free q (k a).
Proof. intros Ho [->|[_ H]]; [left; by eapply release|right; apply H]. Qed.

Lemma pool_step_kept c c' : all_tidy c → kept c → pool_step c c' → kept c'.
Proof.
  unfold all_tidy, kept. intros Ht Hk Hs.
  destruct Hs as [s ts1 o k ts2 a s' new Ho Hn|s ts p Hp]; cbn [threads state] in *.
  - apply Forall_app in Ht as [_ Ht]. apply Forall_cons in Ht as [[Ht _] _].
    rewrite !Exists_app, !Exists_cons, Exists_app in *.
    destruct Hk as [Hk|[Hk|[Hk|[Hk|Hk]]]]; try tauto.
    + destruct (held_step _ _ _ _ Ho Hk) as [?|[?|Hd]]; [tauto..|]. apply Ht in Hd. tauto.
    + pose proof (released_step _ _ _ _ Ho Hk). tauto.
    + destruct (owes_step _ _ _ _ _ Ho Hk); tauto.
  - rewrite Exists_app. tauto.
Qed.

Lemma pool_steps_kept c c' : all_tidy c → kept c → rtc pool_step c c' → kept c'.
Proof.
  intros Ht Hk Hr. induction Hr as [|c c1 c' Hs _ IH]; [done|].
  apply IH; [by eapply pool_step_tidy|by eapply pool_step_kept].
Qed.
End tidy.

(** *** Progress of one thread *)

(** Thread [i] alone, whatever it is answered, gets to a pool with [P]; no
    step on the way has to wait. *)
Inductive alone (i : nat) (P : pool → Prop) (c : pool) : Prop :=
  | alone_done : P c → alone i P c
  | alone_step o k :
      threads c !! i = Some (Op o k) → (∃ a s', step o a (state c) s') → (∃ new, spawned o new) →
      (∀ a s' new, step o a (state c) s' → spawned o new →
         alone i P (MkPool s' (<[i := k a]> (threads c) ++ new))) →
      alone i P c.

(** What a thread owes, it can do alone. *)
Lemma owes_alone (free : O → Prop) (released : S → Prop) (q : O) i p c :
  (∀ o s, o = q ∨ free o → (∃ a s', step o a s s') ∧ ∃ new, spawned o new) →
  (∀ a s s', step q a s s' → released s') →
  threads c !! i = Some p → owes free q p → alone i (λ c, released (state c)) c.
Proof.
  intros Hfree Hrel. revert c. induction p as [|o k IH]; intros c Hi Ho; [done|].
  destruct (Hfree o (state c)) as [He Hn]; [cbn in Ho; naive_solver|].
  apply (alone_step _ _ _ o k); [done..|]. intros a s' new Hs Hw. destruct Ho as [->|[_ Ho]].
  - apply alone_done. by eapply Hrel.
  - apply (IH a); [|apply Ho]. cbn [threads]. rewrite lookup_app_l.
    + apply list_lookup_insert_eq. by eapply lookup_lt_Some.
    + rewrite length_insert. by eapply lookup_lt_Some.
Qed.
End pool.
