(* ===== verification/Libsignal.v ===== *)
(** * The libsignal adapter ([pkg/crypto/libsignal])

    The stores the adapter gives the library, the account and the sessions it
    makes of it, and the wire form of a bundle.  The library itself is a class:
    its types, its constructors and accessors, and what their documentation
    promises.  The stores' keys are [*protocol.SignalAddress]: pointers, which
    are what the model compares, not the names behind them. *)

From S2P Require Import Prelude Bytes Strconv Json Codec Messaging.
Open Scope Z_scope.

(** ** The library *)

Class LibSignal := {
  Point : Type;                         (** [ecc.ECPublicKeyable], also inside an [identity.Key] *)
  KeyPair : Type;
  PreKey : Type;                        (** [record.PreKey] *)
  SignedPreKey : Type;                  (** [record.SignedPreKey] *)
  SessionRecord : Type;                 (** [record.Session] *)
  Bundle : Type;                        (** [prekey.Bundle] *)
  Serialize : Point → bytes;
  DecodePoint : bytes → result Point;   (** [ecc.DecodePoint(b, 0)] *)
  key_Fingerprint : Point → bytes;
  PublicKey : KeyPair → Point;
  pk_ID : PreKey → Z;
  pk_KeyPair : PreKey → KeyPair;
  NewPreKey : Z → KeyPair → PreKey;
  spk_ID : SignedPreKey → Z;
  spk_Timestamp : SignedPreKey → Z;
  spk_KeyPair : SignedPreKey → KeyPair;
  spk_Signature : SignedPreKey → bytes;
  NewSignedPreKey : Z → Z → KeyPair → bytes → SignedPreKey;
  (** An [optional.Uint32] is [None] when it is nil or empty. *)
  NewBundle : Z → Z → option Z → Z → Point → Point → bytes → Point → Bundle;
  RegistrationID : Bundle → Z;
  DeviceID : Bundle → Z;
  PreKeyID : Bundle → option Z;
  SignedPreKeyID : Bundle → Z;
  b_PreKey : Bundle → Point;
  b_SignedPreKey : Bundle → Point;
  SignedPreKeySignature : Bundle → bytes;
  IdentityKey : Bundle → Point;
}.

Definition uint32 (z : Z) : Prop := 0 ≤ z < 2 ^ 32.

(** Points survive their encoding; the accessors give what the constructors
    were given, in the ranges of their Go types. *)
Class LibSignalLaws `{LibSignal} := {
  decode_serialize p : DecodePoint (Serialize p) = Ok p;
  pk_range k : uint32 (pk_ID k);
  spk_range k : uint32 (spk_ID k) ∧ length (spk_Signature k) = 64%nat;
  bundle_new r d i s p sp sig k :
    uint32 r → uint32 d → (∀ x, i = Some x → uint32 x) → uint32 s → length sig = 64%nat →
    let b := NewBundle r d i s p sp sig k in
    RegistrationID b = r ∧ DeviceID b = d ∧ PreKeyID b = i ∧ SignedPreKeyID b = s ∧ b_PreKey b = p ∧
    b_SignedPreKey b = sp ∧ SignedPreKeySignature b = sig ∧ IdentityKey b = k;
  bundle_ranges b :
    uint32 (RegistrationID b) ∧ uint32 (DeviceID b) ∧ (∀ i, PreKeyID b = Some i → uint32 i) ∧
    uint32 (SignedPreKeyID b) ∧ length (SignedPreKeySignature b) = 64%nat;
}.

(** ** The wire form ([bundle_wire.go]) *)

Record wireBundle := MkWire {
  wb_RegistrationID : Z; wb_DeviceID : Z; wb_PreKeyID : option Z; wb_PreKeyPub : slice;
  wb_SignedPreKeyID : Z; wb_SignedPreKeyPub : slice; wb_SignedPreKeySig : slice; wb_IdentityKey : slice;
}.

Definition enc_ptr_uint (o : option Z) : json := match o with None => JNull | Some z => enc_uint z end.

Definition enc_wire (w : wireBundle) : json := enc_struct [
  field_of "registrationId" (enc_uint (wb_RegistrationID w));
  field_of "deviceId" (enc_uint (wb_DeviceID w));
  omitempty (match wb_PreKeyID w with None => true | Some _ => false end) "preKeyId" (enc_ptr_uint (wb_PreKeyID w));
  field_of "preKeyPub" (enc_slice (wb_PreKeyPub w));
  field_of "signedPreKeyId" (enc_uint (wb_SignedPreKeyID w));
  field_of "signedPreKeyPub" (enc_slice (wb_SignedPreKeyPub w));
  field_of "signedPreKeySig" (enc_slice (wb_SignedPreKeySig w));
  field_of "identityKey" (enc_slice (wb_IdentityKey w))].

Definition zero_wire : wireBundle := MkWire 0 0 None None 0 None None None.

Definition wire_fields : list (field wireBundle) := [
  fld "registrationId" wb_RegistrationID (λ v w, MkWire v (wb_DeviceID w) (wb_PreKeyID w) (wb_PreKeyPub w) (wb_SignedPreKeyID w) (wb_SignedPreKeyPub w) (wb_SignedPreKeySig w) (wb_IdentityKey w)) (dec_uint 32);
  fld "deviceId" wb_DeviceID (λ v w, MkWire (wb_RegistrationID w) v (wb_PreKeyID w) (wb_PreKeyPub w) (wb_SignedPreKeyID w) (wb_SignedPreKeyPub w) (wb_SignedPreKeySig w) (wb_IdentityKey w)) (dec_uint 32);
  fld "preKeyId" wb_PreKeyID (λ v w, MkWire (wb_RegistrationID w) (wb_DeviceID w) v (wb_PreKeyPub w) (wb_SignedPreKeyID w) (wb_SignedPreKeyPub w) (wb_SignedPreKeySig w) (wb_IdentityKey w)) (dec_ptr 0 (dec_uint 32));
  fld "preKeyPub" wb_PreKeyPub (λ v w, MkWire (wb_RegistrationID w) (wb_DeviceID w) (wb_PreKeyID w) v (wb_SignedPreKeyID w) (wb_SignedPreKeyPub w) (wb_SignedPreKeySig w) (wb_IdentityKey w)) dec_slice;
  fld "signedPreKeyId" wb_SignedPreKeyID (λ v w, MkWire (wb_RegistrationID w) (wb_DeviceID w) (wb_PreKeyID w) (wb_PreKeyPub w) v (wb_SignedPreKeyPub w) (wb_SignedPreKeySig w) (wb_IdentityKey w)) (dec_uint 32);
  fld "signedPreKeyPub" wb_SignedPreKeyPub (λ v w, MkWire (wb_RegistrationID w) (wb_DeviceID w) (wb_PreKeyID w) (wb_PreKeyPub w) (wb_SignedPreKeyID w) v (wb_SignedPreKeySig w) (wb_IdentityKey w)) dec_slice;
  fld "signedPreKeySig" wb_SignedPreKeySig (λ v w, MkWire (wb_RegistrationID w) (wb_DeviceID w) (wb_PreKeyID w) (wb_PreKeyPub w) (wb_SignedPreKeyID w) (wb_SignedPreKeyPub w) v (wb_IdentityKey w)) dec_slice;
  fld "identityKey" wb_IdentityKey (λ v w, MkWire (wb_RegistrationID w) (wb_DeviceID w) (wb_PreKeyID w) (wb_PreKeyPub w) (wb_SignedPreKeyID w) (wb_SignedPreKeyPub w) (wb_SignedPreKeySig w) v) dec_slice].

(** ** Addresses *)

(** A [*protocol.SignalAddress]: where it is, and what is there. *)
Record SignalAddress := MkAddr { sa_Name : bytes; sa_DeviceID : Z }.
Abbreviation ptr := nat.
Abbreviation heap := (list SignalAddress).

(** [protocol.NewSignalAddress]: a new pointer every time. *)
Definition NewSignalAddress (name : bytes) (deviceID : Z) (h : heap) : ptr * heap :=
  (length h, h ++ [MkAddr name deviceID]).

Section adapter.
Context `{LibSignal}.

(** [SerializeBundle]; the argument is nil or a bundle. *)
Definition SerializeBundle (b : option Bundle) : result bytes :=
  match b with
  | None => Err (bs "libsignal: nil bundle")
  | Some b =>
    Ok (marshal (enc_wire (MkWire (RegistrationID b) (DeviceID b) (PreKeyID b) (Some (Serialize (b_PreKey b)))
                             (SignedPreKeyID b) (Some (Serialize (b_SignedPreKey b)))
                             (Some (SignedPreKeySignature b)) (Some (Serialize (IdentityKey b))))))
  end.

(** [DeserializeBundle]. *)
Definition DeserializeBundle (data : bytes) : result Bundle :=
  let? w := unmarshal_ok (dec_struct wire_fields) zero_wire data in
  if decide (length (sl (wb_SignedPreKeySig w)) ≠ 64%nat)
  then Err (bs "libsignal: bad signed-prekey signature length") else
  let? preKeyPub := DecodePoint (sl (wb_PreKeyPub w)) in
  let? signedPreKeyPub := DecodePoint (sl (wb_SignedPreKeyPub w)) in
  let? idPub := DecodePoint (sl (wb_IdentityKey w)) in
  Ok (NewBundle (wb_RegistrationID w) (wb_DeviceID w) (wb_PreKeyID w) (wb_SignedPreKeyID w)
                preKeyPub signedPreKeyPub (sl (wb_SignedPreKeySig w)) idPub).

(** ** [stores.go] *)

Record identityStore := MkIdStore { trusted : gmap ptr Point; is_keyPair : KeyPair; is_regID : Z }.

Definition SaveIdentity (address : ptr) (key : Point) (s : identityStore) : identityStore :=
  MkIdStore (<[address := key]> (trusted s)) (is_keyPair s) (is_regID s).

Definition IsTrustedIdentity (address : ptr) (key : Point) (s : identityStore) : bool :=
  match trusted s !! address with
  | None => true
  | Some t => bool_decide (key_Fingerprint t = key_Fingerprint key)
  end.

(** [preKeyStore] and [signedPreKeyStore]: a nil record when there is none. *)
Abbreviation preKeyStore := (gmap Z PreKey).
Definition LoadPreKey (id : Z) (s : preKeyStore) : option PreKey := s !! id.
Definition StorePreKey (id : Z) (r : PreKey) (s : preKeyStore) : preKeyStore := <[id := r]> s.
Definition ContainsPreKey (id : Z) (s : preKeyStore) : bool := bool_decide (is_Some (s !! id)).
Definition RemovePreKey (id : Z) (s : preKeyStore) : preKeyStore := delete id s.

Abbreviation signedPreKeyStore := (gmap Z SignedPreKey).
Definition LoadSignedPreKey (id : Z) (s : signedPreKeyStore) : option SignedPreKey := s !! id.
Definition LoadSignedPreKeys (s : signedPreKeyStore) : list SignedPreKey := (map_to_list s).*2.
Definition StoreSignedPreKey (id : Z) (r : SignedPreKey) (s : signedPreKeyStore) : signedPreKeyStore := <[id := r]> s.
Definition ContainsSignedPreKey (id : Z) (s : signedPreKeyStore) : bool := bool_decide (is_Some (s !! id)).
Definition RemoveSignedPreKey (id : Z) (s : signedPreKeyStore) : signedPreKeyStore := delete id s.

Abbreviation sessionStore := (gmap ptr SessionRecord).

(** [LoadSession]: what is there, or the [fresh] record, which stays there. *)
Definition LoadSession (fresh : SessionRecord) (address : ptr) (s : sessionStore) : SessionRecord * sessionStore :=
  match s !! address with
  | Some r => (r, s)
  | None => (fresh, <[address := fresh]> s)
  end.
Definition StoreSession (address : ptr) (r : SessionRecord) (s : sessionStore) : sessionStore := <[address := r]> s.
Definition ContainsSession (address : ptr) (s : sessionStore) : bool := bool_decide (is_Some (s !! address)).
Definition DeleteSession (address : ptr) (s : sessionStore) : sessionStore := delete address s.
Definition DeleteAllSessions (_ : sessionStore) : sessionStore := ∅.

(** [GetSubDeviceSessions]: the other devices of a name, in map order. *)
Definition GetSubDeviceSessions (h : heap) (name : bytes) (s : sessionStore) : list Z :=
  omap (λ kv, match h !! kv.1 with
              | Some a => if bool_decide (sa_Name a = name) && negb (sa_DeviceID a =? 1)
                          then Some (sa_DeviceID a) else None
              | None => None
              end) (map_to_list s).

(** ** [libsignal.go] *)

Record Participant := MkPart {
  p_name : bytes; p_deviceID : Z; p_address : ptr;
  p_identity : KeyPair; p_regID : Z; p_preKeys : list PreKey; p_signed : SignedPreKey;
  p_sessions : sessionStore; p_preStore : preKeyStore; p_signedStore : signedPreKeyStore; p_idStore : identityStore;
}.

(** What [keyhelper] generates. *)
Record keyhelper := MkKH {
  kh_identity : result KeyPair;
  kh_regID : Z;
  kh_preKeys : result (list PreKey);
  kh_signed : KeyPair → result SignedPreKey;
}.

Definition NewParticipant (kh : keyhelper) (name : bytes) (deviceID : Z) : M heap Participant := λ h,
  match kh_identity kh with
  | Err e => (Err e, h)
  | Ok kp =>
    match kh_preKeys kh with
    | Err e => (Err e, h)
    | Ok pre =>
      match kh_signed kh kp with
      | Err e => (Err e, h)
      | Ok spk =>
        let '(addr, h) := NewSignalAddress name deviceID h in
        let stored := fold_left (λ s k, StorePreKey (pk_ID k) (NewPreKey (pk_ID k) (pk_KeyPair k)) s) pre ∅ in
        let signed := StoreSignedPreKey (spk_ID spk)
                        (NewSignedPreKey (spk_ID spk) (spk_Timestamp spk) (spk_KeyPair spk) (spk_Signature spk)) ∅ in
        (Ok (MkPart name deviceID addr kp (kh_regID kh) pre spk ∅ stored signed
                    (MkIdStore ∅ kp (kh_regID kh))), h)
      end
    end
  end.

Definition p_Fingerprint (p : Participant) : bytes := key_Fingerprint (PublicKey (p_identity p)).

(** [Participant.Bundle]; without prekeys [preKeys[0]] panics. *)
Definition p_Bundle (p : Participant) : option Bundle :=
  match p_preKeys p with
  | [] => None
  | k :: _ =>
    Some (NewBundle (p_regID p) (p_deviceID p) (Some (pk_ID k)) (spk_ID (p_signed p))
                    (PublicKey (pk_KeyPair k)) (PublicKey (spk_KeyPair (p_signed p)))
                    (spk_Signature (p_signed p)) (PublicKey (p_identity p)))
  end.

(** [Session]: its cipher works on the account's stores, at its own address. *)
Record LSession := MkLS { ls_remote : ptr; ls_peerFP : bytes }.

(** [NewOutboundSession], given what [ProcessBundle] does to the account. *)
Definition NewOutboundSession (process : ptr → Bundle → Participant → result unit * Participant)
    (name : bytes) (deviceID : Z) (b : Bundle) : M (heap * Participant) LSession := λ '(h, p),
  let '(remote, h) := NewSignalAddress name deviceID h in
  let '(r, p) := process remote b p in
  (match r with Err e => Err e | Ok _ => Ok (MkLS remote (key_Fingerprint (IdentityKey b))) end, (h, p)).

(** [NewInboundSession]. *)
Definition NewInboundSession (name : bytes) (deviceID : Z) : M (heap * Participant) LSession := λ '(h, p),
  let '(remote, h) := NewSignalAddress name deviceID h in (Ok (MkLS remote []), (h, p)).
End adapter.

(** ** Sessions on the wire *)

Definition tagPreKey : byte := "p".
Definition tagSignal : byte := "s".

Section session.
(** The library's [session.Cipher]: the messages it makes and takes. *)
Context {C PM SM : Type} (cipher_Encrypt : bytes → M C (bool * bytes))
  (parse_prekey : bytes → result PM) (parse_signal : bytes → result SM)
  (cipher_DecryptMessage : PM → M C bytes) (cipher_Decrypt : SM → M C bytes).

(** [Session.Encrypt]: the boolean says whether the type is [PREKEY_TYPE]. *)
Definition ls_Encrypt (plaintext : bytes) : M C bytes :=
  let* m := cipher_Encrypt plaintext in
  retM ((if m.1 : bool then tagPreKey else tagSignal) :: m.2).

(** [Session.Decrypt]. *)
Definition ls_Decrypt (ciphertext : bytes) : M C bytes :=
  match ciphertext with
  | [] => failM (bs "libsignal: empty ciphertext")
  | tag :: body =>
    if Byte.eqb tag tagPreKey then let* m := liftM (parse_prekey body) in cipher_DecryptMessage m
    else if Byte.eqb tag tagSignal then let* m := liftM (parse_signal body) in cipher_Decrypt m
    else failM (bs "libsignal: unknown message tag")
  end.
End session.

(** ** [store.go] *)

(** [Enabled], from the environment variable. *)
Definition Enabled (getenv : bytes → bytes) : bool := bool_decide (getenv (bs "STUNNER_CRYPTO_LIBSIGNAL") = bs "1").

Section store.
Context `{LibSignal}.

(** [NewStore]: a [Store] is its account. *)
Definition NewStore (kh : keyhelper) (name : bytes) (deviceID : Z) : M heap Participant := NewParticipant kh name deviceID.

(** [PublishBundle] ([None]: it panics), [Initiate], [Accept]. *)
Definition PublishBundle (p : Participant) : option (result bytes) := b ← p_Bundle p; Some (SerializeBundle (Some b)).

Definition ls_Initiate (process : ptr → Bundle → Participant → result unit * Participant)
    (name : bytes) (deviceID : Z) (peerBundle : bytes) : M (heap * Participant) LSession :=
  let* b := liftM (DeserializeBundle peerBundle) in NewOutboundSession process name deviceID b.

Definition ls_Accept (name : bytes) (deviceID : Z) : M (heap * Participant) LSession := NewInboundSession name deviceID.
End store.

(** ** Lemmas *)

Section lemmas.
Context `{LibSignalLaws}.

Definition wf_wire (w : wireBundle) : Prop :=
  uint32 (wb_RegistrationID w) ∧ uint32 (wb_DeviceID w) ∧ (∀ i, wb_PreKeyID w = Some i → uint32 i) ∧ uint32 (wb_SignedPreKeyID w).

Lemma wf_enc_wire w : wf_wire w → wf_json (enc_wire w).
Proof.
  intros (H1 & H2 & H3 & H4). unfold uint32 in *. unfold enc_wire.
  wf_struct; auto with stunner; try (by apply wf_fmt_uint, lt_32_64).
  intros _. destruct (wb_PreKeyID w) as [i|]; [|exact I]. by apply wf_fmt_uint, lt_32_64, H3.
Qed.

(** One field of the struct, present or left out. *)
Ltac wire_field :=
  first [erewrite fold_field; [|reflexivity|unfold fld; cbn [snd];
           first [rewrite dec_enc_uint by (done || lia)|rewrite dec_enc_slice]; reflexivity]
        |erewrite fold_omitted; [|reflexivity|unfold fld; cbn [snd wb_PreKeyID];
           match goal with E : dec_ptr _ _ _ _ = _ |- _ => rewrite E end; reflexivity|
           match goal with |- match ?i with _ => _ end = _ → _ => by destruct i end]];
  cbn [wb_RegistrationID wb_DeviceID wb_PreKeyID wb_PreKeyPub wb_SignedPreKeyID wb_SignedPreKeyPub wb_SignedPreKeySig wb_IdentityKey].

Lemma dec_enc_wire w : wf_wire w → dec_struct wire_fields (enc_wire w) zero_wire = (w, None).
Proof.
  destruct w as [r d i p s sp sg k]. intros (H1 & H2 & H3 & H4). cbn in H1, H2, H3, H4. unfold uint32 in *.
  unfold enc_wire, enc_struct. rewrite dec_struct_obj. unfold zero_wire.
  cbn [wb_RegistrationID wb_DeviceID wb_PreKeyID wb_PreKeyPub wb_SignedPreKeyID wb_SignedPreKeyPub wb_SignedPreKeySig wb_IdentityKey].
  assert (dec_ptr 0 (dec_uint 32) (enc_ptr_uint i) None = (i, None)) as Hi.
  { destruct i as [i|]; [|done].
    change (dec_ptr 0 (dec_uint 32) (enc_ptr_uint (Some i)) None)
      with (let '(v, e) := dec_uint 32 (enc_uint i) 0 in (Some v, e)).
    by rewrite dec_enc_uint by (by apply H3 || lia). }
  do 8 wire_field. reflexivity.
Qed.

Lemma stored_prekeys pre k :
  NoDup (map pk_ID pre) → k ∈ pre →
  fold_left (λ s k, StorePreKey (pk_ID k) (NewPreKey (pk_ID k) (pk_KeyPair k)) s) pre ∅ !! pk_ID k
  = Some (NewPreKey (pk_ID k) (pk_KeyPair k)).
Proof.
  intros Hn Hk. generalize (∅ : gmap Z PreKey) as s. revert Hn Hk.
  induction pre as [|x pre IH]; [by intros _ ?%not_elem_of_nil|].
  intros [Hx Hn]%NoDup_cons Hk s. cbn [fold_left]. apply elem_of_cons in Hk as [->|Hk]; [|by apply IH].
  clear IH. assert (∀ s, pk_ID x ∉ map pk_ID pre →
    fold_left (λ s k, StorePreKey (pk_ID k) (NewPreKey (pk_ID k) (pk_KeyPair k)) s) pre s !! pk_ID x = s !! pk_ID x) as Hkeep.
  { clear. induction pre as [|y pre IH]; intros s Hx; [done|]. cbn [map fold_left] in *.
    apply not_elem_of_cons in Hx as [Hne Hx]. rewrite IH by done. unfold StorePreKey. by rewrite lookup_insert_ne. }
  rewrite Hkeep by done. apply lookup_insert_eq.
Qed.

(** *** What an account goes through

    Sessions make addresses; the library works on the stores, under addresses
    that were made. *)
Definition set_idStore v p := MkPart (p_name p) (p_deviceID p) (p_address p) (p_identity p) (p_regID p) (p_preKeys p)
  (p_signed p) (p_sessions p) (p_preStore p) (p_signedStore p) v.
Definition set_sessions v p := MkPart (p_name p) (p_deviceID p) (p_address p) (p_identity p) (p_regID p) (p_preKeys p)
  (p_signed p) v (p_preStore p) (p_signedStore p) (p_idStore p).
Definition set_preStore v p := MkPart (p_name p) (p_deviceID p) (p_address p) (p_identity p) (p_regID p) (p_preKeys p)
  (p_signed p) (p_sessions p) v (p_signedStore p) (p_idStore p).

Inductive account_step : heap * Participant → heap * Participant → Prop :=
  | as_address h p name dev : account_step (h, p) ((NewSignalAddress name dev h).2, p)
  | as_identity h p a k :
      (a < length h)%nat → account_step (h, p) (h, set_idStore (SaveIdentity a k (p_idStore p)) p)
  | as_load h p a fresh :
      (a < length h)%nat → account_step (h, p) (h, set_sessions (LoadSession fresh a (p_sessions p)).2 p)
  | as_store h p a r :
      (a < length h)%nat → account_step (h, p) (h, set_sessions (StoreSession a r (p_sessions p)) p)
  | as_delete h p a : account_step (h, p) (h, set_sessions (DeleteSession a (p_sessions p)) p)
  | as_delete_all h p : account_step (h, p) (h, set_sessions (DeleteAllSessions (p_sessions p)) p)
  | as_prekey h p s : account_step (h, p) (h, set_preStore s p).

(** The stores only know addresses that were made. *)
Definition known (c : heap * Participant) : Prop :=
  (∀ a, is_Some (trusted (p_idStore c.2) !! a) → (a < length c.1)%nat) ∧
  (∀ a, is_Some (p_sessions c.2 !! a) → (a < length c.1)%nat).

Lemma known_insert {A} (m : gmap ptr A) a x n :
  (a < n)%nat → (∀ b, is_Some (m !! b) → (b < n)%nat) → ∀ b, is_Some (<[a := x]> m !! b) → (b < n)%nat.
Proof. intros Ha Hm b Hb. apply lookup_insert_is_Some in Hb as [<-|[_ Hb]]; [done|by apply Hm]. Qed.

Lemma account_step_known c c' : account_step c c' → known c → known c'.
Proof.
  unfold known. intros Hs [Ht Hse]. destruct Hs as [h p n d|h p a k Ha|h p a f Ha|h p a r Ha|h p a|h p|h p s]; cbn in *.
  - rewrite length_app. cbn [length]. split; intros a Ha; [apply Ht in Ha|apply Hse in Ha]; lia.
  - split; [|done]. by apply known_insert.
  - split; [done|]. unfold LoadSession. destruct (p_sessions p !! a) eqn:E; cbn; [done|]. by apply known_insert.
  - split; [done|]. by apply known_insert.
  - split; [done|]. intros b Hb. apply Hse. unfold DeleteSession in Hb.
    apply lookup_delete_is_Some in Hb. tauto.
  - split; [done|]. intros b [? Hb]. unfold DeleteAllSessions in Hb. by rewrite lookup_empty in Hb.
  - done.
Qed.

Lemma NewParticipant_known kh name dev h p h' : NewParticipant kh name dev h = (Ok p, h') → known (h', p).
Proof.
  unfold NewParticipant. destruct (kh_identity kh) as [kp|]; [|done]. destruct (kh_preKeys kh) as [pre|]; [|done].
  destruct (kh_signed kh kp) as [spk|]; [|done]. cbn [NewSignalAddress].
  intros [E <-]%pair_equal_spec. apply Ok_inj in E as <-. split; cbn; intros a [? Ha]; by rewrite lookup_empty in Ha.
Qed.

Section properties.
(** A published bundle arrives as it is: what [SerializeBundle] writes,
    [DeserializeBundle] reads back with the same eight parts; no bundle is
    read whose signature has another length than 64. *)
Theorem bundle_roundtrip b :
  ∃ data b', SerializeBundle (Some b) = Ok data ∧ DeserializeBundle data = Ok b' ∧
    RegistrationID b' = RegistrationID b ∧ DeviceID b' = DeviceID b ∧ PreKeyID b' = PreKeyID b ∧
    SignedPreKeyID b' = SignedPreKeyID b ∧ b_PreKey b' = b_PreKey b ∧ b_SignedPreKey b' = b_SignedPreKey b ∧
    SignedPreKeySignature b' = SignedPreKeySignature b ∧ IdentityKey b' = IdentityKey b.
Proof.
  eexists. eexists. split; [reflexivity|]. destruct (bundle_ranges b) as (Hr & Hd & Hp & Hs & Hl). split.
  - unfold DeserializeBundle. erewrite unmarshal_ok_marshal; [|apply wf_enc_wire|apply dec_enc_wire]; [|by split_and!..].
    cbn [bindR sl wb_SignedPreKeySig wb_PreKeyPub wb_SignedPreKeyPub wb_IdentityKey].
    rewrite decide_False by (rewrite Hl; auto). rewrite !decode_serialize. cbn [bindR]. reflexivity.
  - destruct (bundle_new (RegistrationID b) (DeviceID b) (PreKeyID b) (SignedPreKeyID b) (b_PreKey b)
                (b_SignedPreKey b) (SignedPreKeySignature b) (IdentityKey b) Hr Hd Hp Hs Hl) as (?&?&?&?&?&?&?&?).
    by split_and!.
Qed.

(** C38: a changed identity is never noticed.  The stores are keyed by the
    address objects, and every session makes a new one: whatever an account
    has gone through - whatever identities it saved for a name and device -
    the address of its next session with that name and device has no session
    and no saved identity, so every identity key is trusted there. *)
Theorem new_session_trusts_any_key kh name dev h0 p0 h1 h p peer peerDev key :
  NewParticipant kh name dev h0 = (Ok p0, h1) →
  rtc account_step (h1, p0) (h, p) →
  let a := (NewSignalAddress peer peerDev h).1 in
  IsTrustedIdentity a key (p_idStore p) = true ∧ ContainsSession a (p_sessions p) = false.
Proof.
  intros Hn Hr a. assert (known (h, p)) as [Ht Hs].
  { assert (∀ c c', rtc account_step c c' → known c → known c') as H'.
    { induction 1; eauto using account_step_known. }
    apply (H' _ _ Hr). by eapply NewParticipant_known. }
  change a with (length h). clear a. cbn in Ht, Hs. unfold IsTrustedIdentity, ContainsSession. split.
  - destruct (trusted (p_idStore p) !! length h) eqn:E; [|done]. specialize (Ht _ (mk_is_Some _ _ E)). lia.
  - apply bool_decide_eq_false. intros E. specialize (Hs _ E). lia.
Qed.

(** An account offers the same one-time prekey for ever.  A new account
    can load every prekey it generated and the two its bundle names; but the
    bundle is made from the list, not from the store: when a peer's first
    message consumed the prekey, the bundle still names it and the store has
    it no more, while the other prekeys are never offered. *)
Theorem bundle_offers_consumed_prekey kh name dev h0 p h1 k pre :
  NewParticipant kh name dev h0 = (Ok p, h1) →
  kh_preKeys kh = Ok (k :: pre) → NoDup (map pk_ID (k :: pre)) → uint32 (kh_regID kh) → uint32 dev →
  let p' := set_preStore (RemovePreKey (pk_ID k) (p_preStore p)) p in
  ∃ b, p_Bundle p = Some b ∧ PreKeyID b = Some (pk_ID k) ∧
    (∀ x, x ∈ k :: pre → LoadPreKey (pk_ID x) (p_preStore p) = Some (NewPreKey (pk_ID x) (pk_KeyPair x))) ∧
    is_Some (LoadSignedPreKey (SignedPreKeyID b) (p_signedStore p)) ∧
    p_Bundle p' = Some b ∧ LoadPreKey (pk_ID k) (p_preStore p') = None ∧
    (∀ x, x ∈ pre → is_Some (LoadPreKey (pk_ID x) (p_preStore p'))).
Proof.
  intros Hp Hk Hn Hreg Hdev p'. unfold NewParticipant in Hp. destruct (kh_identity kh) as [kp|]; [|done]. rewrite Hk in Hp.
  destruct (kh_signed kh kp) as [spk|]; [|done]. cbn [NewSignalAddress] in Hp.
  apply pair_equal_spec in Hp as [E <-]. apply Ok_inj in E as <-.
  eexists. split; [reflexivity|]. cbn [p_regID p_deviceID p_signed p_identity p_preStore p_signedStore].
  destruct (bundle_new (kh_regID kh) dev (Some (pk_ID k)) (spk_ID spk) (PublicKey (pk_KeyPair k))
              (PublicKey (spk_KeyPair spk)) (spk_Signature spk) (PublicKey kp) Hreg Hdev) as (?&?&E1&E2&?&?&?&?);
    [by intros x [= <-]; apply pk_range|apply spk_range..|].
  split_and!; [exact E1| | |reflexivity| |].
  - intros x Hx. by apply stored_prekeys.
  - rewrite E2. unfold LoadSignedPreKey, StoreSignedPreKey. rewrite lookup_insert_eq. eauto.
  - apply lookup_delete_eq.
  - intros x Hx. unfold p', LoadPreKey, RemovePreKey. cbn [set_preStore p_preStore].
    apply NoDup_cons in Hn as [Hni Hn].
    rewrite lookup_delete_ne by (intros E; apply Hni; rewrite E; by apply list_elem_of_fmap_2).
    rewrite stored_prekeys; [eauto|by constructor|by right].
Qed.

(** The tag decides who decrypts.  What [Encrypt] returns goes, at the
    other end, to the decoder and the cipher function for the type the library
    gave the message, octet for octet; the empty message and other tags are
    refused without touching the cipher. *)
Theorem tagged_dispatch {C PM SM} (enc : bytes → M C (bool * bytes)) (pp : bytes → result PM) (ps : bytes → result SM)
    (dm : PM → M C bytes) (d : SM → M C bytes) (c : C) pt w c1 c' :
  ls_Encrypt enc pt c = (Ok w, c1) →
  ∃ isPre body, enc pt c = (Ok (isPre, body), c1) ∧ length w = S (length body) ∧
    ls_Decrypt pp ps dm d w c' =
      (if isPre : bool then match pp body with Ok m => dm m c' | Err e => (Err e, c') end
       else match ps body with Ok m => d m c' | Err e => (Err e, c') end) ∧
    (∀ t rest, t ≠ tagPreKey → t ≠ tagSignal → ∃ e, ls_Decrypt pp ps dm d (t :: rest) c' = (Err e, c')) ∧
    (∃ e, ls_Decrypt pp ps dm d [] c' = (Err e, c')).
Proof.
  intros E. cbv delta [ls_Encrypt bindM retM] beta in E. destruct (enc pt c) as [[[isPre body]|e] c2]; [|done].
  apply pair_equal_spec in E as [E <-]. apply Ok_inj in E as <-. exists isPre, body. split_and!; [done|done| | |by eexists].
  - destruct isPre.
    + transitivity (bindM (liftM (pp body)) dm c'); [reflexivity|]. unfold bindM, liftM. by destruct (pp body).
    + transitivity (bindM (liftM (ps body)) d c'); [reflexivity|]. unfold bindM, liftM. by destruct (ps body).
  - intros t rest Hp Hs. cbv delta [ls_Decrypt] beta iota. destruct (Byte.eqb t tagPreKey) eqn:E1; [by destruct (Hp (Byte.byte_dec_bl _ _ E1))|].
    destruct (Byte.eqb t tagSignal) eqn:E2; [by destruct (Hs (Byte.byte_dec_bl _ _ E2))|]. by eexists.
Qed.
End properties.
End lemmas.

(** ** Instances *)

(** A library whose points are their encodings. *)
Module ToySignal.
Record toy_bundle := MkTB { t_r : Z; t_d : Z; t_i : option Z; t_s : Z; t_p : bytes; t_sp : bytes; t_sig : bytes; t_k : bytes }.

Definition sig64 (s : bytes) : bytes := take 64 s ++ replicate (64 - length s) "000"%byte.

Lemma length_sig64 s : length (sig64 s) = 64%nat.
Proof. unfold sig64. rewrite length_app, length_take, length_replicate. lia. Qed.

Lemma sig64_id s : length s = 64%nat → sig64 s = s.
Proof. intros H. unfold sig64. rewrite take_ge, H by lia. apply app_nil_r. Qed.

Instance toy : LibSignal := {|
  Point := bytes; KeyPair := bytes; PreKey := Z * bytes; SignedPreKey := Z * bytes; SessionRecord := unit;
  Bundle := toy_bundle;
  Serialize p := p; DecodePoint b := Ok b; key_Fingerprint p := p; PublicKey k := k;
  pk_ID k := w32 k.1; pk_KeyPair := snd; NewPreKey i k := (i, k);
  spk_ID k := w32 k.1; spk_Timestamp _ := 0; spk_KeyPair := snd; spk_Signature k := sig64 k.2;
  NewSignedPreKey i _ k _ := (i, k);
  NewBundle := MkTB;
  RegistrationID b := w32 (t_r b); DeviceID b := w32 (t_d b); PreKeyID b := w32 <$> t_i b;
  SignedPreKeyID b := w32 (t_s b); b_PreKey := t_p; b_SignedPreKey := t_sp;
  SignedPreKeySignature b := sig64 (t_sig b); IdentityKey := t_k |}.

Instance toy_laws : LibSignalLaws.
Proof.
  split; cbn.
  - done.
  - intros. apply w32_range.
  - intros. split; [apply w32_range|apply length_sig64].
  - intros r d i s p sp sig k Hr Hd Hi Hs Hl. split_and!; try done; try (by apply w32_small); [|by apply sig64_id].
    destruct i as [i|]; [|done]. cbn. by rewrite w32_small by (by apply Hi).
  - intros b. split_and!; try apply w32_range; [|apply length_sig64].
    intros i. destruct (t_i b); [|done]. intros [= <-]. apply w32_range.
Qed.

Definition key (s : string) : @Point toy := bs s.

Definition bundle : @Bundle toy := MkTB 7 1 (Some 1) 0 (bs "p") (bs "sp") [] (bs "k").

Definition kh : @keyhelper toy :=
  MkKH (Ok (bs "identity")) 7 (Ok [(1, bs "one"); (2, bs "two")]) (λ kp, Ok (0, kp)).
End ToySignal.
Import ToySignal.

Lemma bundle_roundtrip_witness :
  ∃ data b', SerializeBundle (Some bundle) = Ok data ∧ DeserializeBundle data = Ok b' ∧ IdentityKey b' = key "k".
Proof.
  destruct (bundle_roundtrip bundle) as (data & b' & H1 & H2 & _ & _ & _ & _ & _ & _ & _ & Hk).
  exists data, b'. split; [exact H1|]. split; [exact H2|exact Hk].
Defined.

(** Alice saved one key for Bob; in her next session with Bob another is trusted. *)
Lemma new_session_trusts_any_key_witness :
  ∃ p h, trusted (p_idStore p) !! 1%nat = Some (key "bob's key") ∧ h !! 1%nat = Some (MkAddr (bs "bob") 1) ∧
    IsTrustedIdentity (NewSignalAddress (bs "bob") 1 h).1 (key "another key") (p_idStore p) = true.
Proof.
  destruct (NewParticipant kh (bs "alice") 1 []) as [[p0|] h1] eqn:E; [|discriminate E].
  set (h := (NewSignalAddress (bs "bob") 1 h1).2).
  set (p := set_idStore (SaveIdentity 1%nat (key "bob's key") (p_idStore p0)) p0).
  assert (h1 = [MkAddr (bs "alice") 1]) as Eh by (cbn in E; by apply pair_equal_spec in E as [_ <-]).
  exists p, h. split_and!; [apply lookup_insert_eq|unfold h; rewrite Eh; reflexivity|].
  apply (new_session_trusts_any_key kh (bs "alice") 1 [] p0 h1 h p (bs "bob") 1 (key "another key") E).
  eapply rtc_l; [apply (as_address h1 p0 (bs "bob") 1)|]. fold h.
  eapply rtc_l; [apply (as_identity h p0 1%nat (key "bob's key"))|apply rtc_refl].
  unfold h. rewrite Eh. cbn. lia.
Defined.

Lemma bundle_offers_consumed_prekey_witness :
  ∃ p b, p_Bundle p = Some b ∧
    p_Bundle (set_preStore (RemovePreKey 1 (p_preStore p)) p) = Some b ∧ PreKeyID b = Some 1 ∧
    LoadPreKey 1 (p_preStore (set_preStore (RemovePreKey 1 (p_preStore p)) p)) = None.
Proof.
  destruct (NewParticipant kh (bs "alice") 1 []) as [[p|] h1] eqn:E; [|discriminate E].
  destruct (bundle_offers_consumed_prekey kh (bs "alice") 1 [] p h1 ((1, bs "one") : @PreKey toy) [(2, bs "two")] E eq_refl)
    as (b & Hb & Hi & _ & _ & Hb' & Hn & _); [apply (bool_decide_unpack _); vm_compute; exact I|unfold uint32; cbn; lia..|].
  exists p, b. split; [exact Hb|]. split; [exact Hb'|]. split; [exact Hi|exact Hn].
Defined.

Lemma tagged_dispatch_witness :
  let enc pt (c : unit) := (Ok (true, pt), c) in
  ls_Encrypt enc (bs "hi") tt = (Ok (bs "phi"), tt) ∧
  ls_Decrypt (PM := bytes) (SM := bytes) Ok Ok (λ m c, (Ok m, c)) (λ _, failM []) (bs "phi") tt = (Ok (bs "hi"), tt).
Proof.
  intros enc. split; [reflexivity|].
  destruct (tagged_dispatch (PM := bytes) (SM := bytes) enc Ok Ok (λ m c, (Ok m, c)) (λ _, failM [])
              tt (bs "hi") (bs "phi") tt tt eq_refl) as (isPre & body & He & _ & Hd & _).
  rewrite Hd. injection He as <- <-. reflexivity.
Defined.
