(* ===== verification/Webrtc.v ===== *)
(** * Establishing connections ([pkg/transport/pion.go], [pkg/netcheck])

    [Dial], [Accept] and the STUN probe as programs over the WebRTC library
    and the signaling exchange: what they ask for, in which order, and what
    they give back on every path.  The library answers as it likes. *)

From S2P Require Import Prelude Bytes Settings Transport Account Prog.
Open Scope Z_scope.

(** ** Operations *)

(** [D] is the library's session description. *)
Inductive rtc_op (D : Type) :=
  | ONewPeerConnection (servers : list ICEServer)
  | OCreateDataChannel (label : bytes)
  | OOnDataChannel
  | OCreateOffer
  | OCreateAnswer
  | OSetLocalDescription (d : D)
  | OSetRemoteDescription (d : D)
  | OGatheringComplete
  | OLocalDescription
  | OSendSDP (peerID sdp : bytes)
  | ORecvSDP (peerID : bytes)
  | OAwaitChannel
  | OWaitOpen
  | OCandidates
  | OClosePC.
Arguments ONewPeerConnection {D}. Arguments OCreateDataChannel {D}. Arguments OOnDataChannel {D}.
Arguments OCreateOffer {D}. Arguments OCreateAnswer {D}. Arguments OSetLocalDescription {D}.
Arguments OSetRemoteDescription {D}. Arguments OGatheringComplete {D}. Arguments OLocalDescription {D}.
Arguments OSendSDP {D}. Arguments ORecvSDP {D}. Arguments OAwaitChannel {D}. Arguments OWaitOpen {D}.
Arguments OCandidates {D}. Arguments OClosePC {D}.

(** [OAwaitChannel]: whether the data channel came before [connectTimeout].
    [OCandidates]: what [OnICECandidate] was called with before the end of
    gathering or the timeout. *)
Definition rtc_res {D : Type} (o : rtc_op D) : Type :=
  match o with
  | ONewPeerConnection _ | OCreateDataChannel _ | OSetLocalDescription _ | OSetRemoteDescription _
  | OSendSDP _ _ | OWaitOpen => result unit
  | OCreateOffer | OCreateAnswer => result D
  | OLocalDescription => D
  | ORecvSDP _ => result bytes
  | OAwaitChannel => bool
  | OCandidates => list candidate
  | OOnDataChannel | OGatheringComplete | OClosePC => unit
  end.

(** ** The code *)

Section rtc.
Context {D : Type}.
(** The JSON of a session description, which the library defines; the error of
    [json.Marshal] is dropped. *)
Context (marshalSDP : D → bytes) (unmarshalSDP : bytes → result D).

Abbreviation prog := (Prog.prog (@rtc_res D)).
Abbreviation call := (perform (@rtc_res D)).

(** [pc.Close] and [return err]. *)
Definition close_with {A} (e : error) : prog (result A) := let^ _ := call OClosePC in Ret (Err e).

(** One step of a function that closes the connection when the step fails. *)
Definition or_close {A B} (m : prog (result A)) (k : A → prog (result B)) : prog (result B) :=
  let^ r := m in match r with Ok a => k a | Err e => close_with e end.

(** [setLocalAndGather]. *)
Definition setLocalAndGather (d : D) : prog (result unit) :=
  let^ r := call (OSetLocalDescription d) in
  match r with
  | Err e => Ret (Err e)
  | Ok _ => let^ _ := call OGatheringComplete in Ret (Ok tt)
  end.

Section transport.
Context (servers : list ICEServer).

(** [pionTransport.Dial]. *)
Definition Dial (peerID : bytes) : prog (result unit) :=
  let^ pc := call (ONewPeerConnection (toICEServers servers)) in
  match pc with
  | Err e => Ret (Err e)
  | Ok _ =>
    or_close (call (OCreateDataChannel (bs "stunner"))) (λ _,
    or_close (call OCreateOffer) (λ offer,
    or_close (setLocalAndGather offer) (λ _,
    let^ local := call OLocalDescription in
    or_close (call (OSendSDP peerID (marshalSDP local))) (λ _,
    or_close (call (ORecvSDP peerID)) (λ answerRaw,
    or_close (Ret (unmarshalSDP answerRaw)) (λ answer,
    or_close (call (OSetRemoteDescription answer)) (λ _,
    or_close (call OWaitOpen) (λ _, Ret (Ok tt)))))))))
  end.

(** [pionTransport.Accept]. *)
Definition Accept : prog (result unit) :=
  let^ pc := call (ONewPeerConnection (toICEServers servers)) in
  match pc with
  | Err e => Ret (Err e)
  | Ok _ =>
    let^ _ := call OOnDataChannel in
    or_close (call (ORecvSDP [])) (λ offerRaw,
    or_close (Ret (unmarshalSDP offerRaw)) (λ offer,
    or_close (call (OSetRemoteDescription offer)) (λ _,
    or_close (call OCreateAnswer) (λ answer,
    or_close (setLocalAndGather answer) (λ _,
    let^ local := call OLocalDescription in
    or_close (call (OSendSDP [] (marshalSDP local))) (λ _,
    let^ came := call OAwaitChannel in
    if (came : bool) then or_close (call OWaitOpen) (λ _, Ret (Ok tt))
    else close_with (bs "transport: timed out waiting for data channel")))))))
  end.
End transport.

(** [netcheck.STUN]: the connection is closed on every path by a [defer]. *)
Definition probe (servers : list ICEServer) : prog (result Result) :=
  let^ pc := call (ONewPeerConnection (toICEServers servers)) in
  match pc with
  | Err e => Ret (Err e)
  | Ok _ =>
    let^ r :=
      let^ dc := call (OCreateDataChannel (bs "probe")) in
      match dc with
      | Err e => Ret (Err e)
      | Ok _ =>
        let^ offer := call OCreateOffer in
        match offer with
        | Err e => Ret (Err e)
        | Ok offer =>
          let^ s := call (OSetLocalDescription offer) in
          match s with
          | Err e => Ret (Err e)
          | Ok _ => let^ cands := call OCandidates in Ret (STUN (Ok cands))
          end
        end
      end in
    let^ _ := call OClosePC in Ret r
  end.

(** ** What was done *)

Definition step_done : Type := { o : rtc_op D & rtc_res o }.

Definition note_all (o : rtc_op D) (a : rtc_res o) (tr : list step_done) : list step_done := tr ++ [existT o a].

Abbreviation runs := (all_runs note_all).

(** The connections made and closed. *)
Definition is_made (x : step_done) : bool :=
  (match projT1 x as o return rtc_res o → bool with
   | ONewPeerConnection _ => λ r, is_ok r
   | _ => λ _, false
   end) (projT2 x).
Definition is_close (x : step_done) : bool := match projT1 x with OClosePC => true | _ => false end.
Definition made (tr : list step_done) : nat := length (List.filter is_made tr).
Definition closes (tr : list step_done) : nat := length (List.filter is_close tr).

Definition sdps (tr : list step_done) : list (bytes * bytes) :=
  omap (λ x, match projT1 x with OSendSDP p s => Some (p, s) | _ => None end) tr.

(** What an attempt leaves behind: a connection that is open if and only if it
    succeeded, which it closes last of all otherwise; and at most one
    description sent, to the given peer. *)
Definition settled {A} (to : bytes) (tr : list step_done) (r : result A) : Prop :=
  match r with
  | Ok _ => made tr = 1%nat ∧ closes tr = 0%nat ∧ ∃ s, sdps tr = [(to, s)]
  | Err _ =>
    closes tr = made tr ∧ (made tr ≤ 1)%nat ∧ (length (sdps tr) ≤ 1)%nat ∧ (∀ x, x ∈ sdps tr → x.1 = to) ∧
    (made tr = 1%nat → last tr = Some (existT OClosePC tt))
  end.

(** The one way to succeed, on each side. *)
Definition done_ok (o : rtc_op D) (a : rtc_res o) : step_done := existT o a.

Definition dialled (servers : list ICEServer) (peerID : bytes) (offer local answer : D) (raw : bytes) : list step_done :=
  [done_ok (ONewPeerConnection (toICEServers servers)) (Ok tt); done_ok (OCreateDataChannel (bs "stunner")) (Ok tt);
   done_ok OCreateOffer (Ok offer); done_ok (OSetLocalDescription offer) (Ok tt); done_ok OGatheringComplete tt;
   done_ok OLocalDescription local; done_ok (OSendSDP peerID (marshalSDP local)) (Ok tt);
   done_ok (ORecvSDP peerID) (Ok raw); done_ok (OSetRemoteDescription answer) (Ok tt); done_ok OWaitOpen (Ok tt)].

Definition accepted (servers : list ICEServer) (raw : bytes) (offer answer local : D) : list step_done :=
  [done_ok (ONewPeerConnection (toICEServers servers)) (Ok tt); done_ok OOnDataChannel tt;
   done_ok (ORecvSDP []) (Ok raw); done_ok (OSetRemoteDescription offer) (Ok tt); done_ok OCreateAnswer (Ok answer);
   done_ok (OSetLocalDescription answer) (Ok tt); done_ok OGatheringComplete tt; done_ok OLocalDescription local;
   done_ok (OSendSDP [] (marshalSDP local)) (Ok tt); done_ok OAwaitChannel true; done_ok OWaitOpen (Ok tt)].
End rtc.

(** Every answer of a program, one operation after the other. *)
Ltac all_answers tac :=
  cbn [all_runs bindG perform rtc_res];
  first
    [ match goal with |- ∀ _ : result _, _ => intros [?|?]; all_answers tac end
    | match goal with |- ∀ _ : bool, _ => intros [|]; all_answers tac end
    | match goal with |- ∀ _, _ => intros ?; all_answers tac end
    | match goal with |- context [match ?u ?raw with Ok _ => _ | Err _ => _ end] =>
        destruct (u raw) eqn:?; all_answers tac end
    | tac ].

(** The end of a path: everything is known, but for unit answers. *)
Ltac settle :=
  repeat match goal with a : unit |- _ => destruct a end;
  unfold note_all; cbn [app]; split; [|first [discriminate|intros _; by eauto 10]];
  unfold settled, made, closes, sdps; cbn [List.filter is_made is_close omap list_omap length last is_ok projT1 projT2];
  split_and?; try done; try lia; try (by eexists);
  try (by intros x [->|[]%not_elem_of_nil]%elem_of_cons);
  try (by intros x []%not_elem_of_nil).

Section properties.
Context {D : Type} (marshalSDP : D → bytes) (unmarshalSDP : bytes → result D).
Abbreviation runs := (all_runs note_all).

(** C33: [Dial] leaves nothing behind.  Whatever the WebRTC library and the
    signaling answer, a [Dial] that fails has closed the connection it made,
    once and as its last act; one that succeeds has not closed it, and has
    done exactly this, in this order: offered, gathered all candidates, sent
    the description to the peer it was asked to dial and to no other, applied
    that peer's answer, and seen the channel open. *)
Theorem dial_settles servers peerID :
  runs (Dial marshalSDP unmarshalSDP servers peerID)
    (λ tr r, settled peerID tr r ∧
       (r = Ok tt → ∃ offer local answer raw, unmarshalSDP raw = Ok answer ∧
                    tr = dialled marshalSDP servers peerID offer local answer raw)) [].
Proof.
  unfold Dial, or_close, setLocalAndGather, close_with. all_answers settle.
Qed.

(** [Accept] leaves nothing behind either, and succeeds in one way: it
    took an offer, applied it, sent the description of its answer - gathered
    completely - to whom the offer came from, and saw the peer's channel come
    and open in time. *)
Theorem accept_settles servers :
  runs (Accept marshalSDP unmarshalSDP servers)
    (λ tr r, settled [] tr r ∧
       (r = Ok tt → ∃ raw offer answer local, unmarshalSDP raw = Ok offer ∧
                    tr = accepted marshalSDP servers raw offer answer local)) [].
Proof. unfold Accept, or_close, setLocalAndGather, close_with. all_answers settle. Qed.

(** The STUN probe sends nothing to anybody, closes the connection it
    made on every path, and reports what the candidates it saw say. *)
Theorem probe_settles servers :
  runs (probe (D := D) servers)
    (λ tr r, closes tr = made tr ∧ sdps tr = [] ∧
       (∀ res, r = Ok res → ∃ cands, existT OCandidates cands ∈ tr ∧ STUN (Ok cands) = Ok res)) [].
Proof.
  unfold probe. all_answers ltac:(unfold note_all; cbn [app]; split_and!;
    [done|done|first [discriminate|intros res Hr; eexists; split; [|exact Hr]; set_solver]]).
Qed.
End properties.
