(* ===== verification/Dht.v ===== *)
(** * The DHT node ([pkg/signaling/libp2p.go])

    Making and closing the libp2p host and the DHT, the relay candidates, and
    the calls that only ask the host.  The queues, frames and streams of the
    signaler are in [Signaling]. *)

From S2P Require Import Prelude Bytes Signaling Prog.
Open Scope Z_scope.

(** ** [NewDHT] and [Close] *)

(** [ONewHost]: [libp2p.New] begins, and says whether it calls the [Routing]
    option before it returns (it makes one host, and calls it at most once);
    [ODhtNew]: [dht.New], in the option; [OHostMade]: what [libp2p.New] returns,
    which may be an error whether the option was called or not. *)
Inductive dht_op :=
  | OWithCancel
  | ONewHost (listenAddrs : list bytes)
  | ODhtNew
  | OHostMade
  | OBootstrap
  | OSetStreamHandler
  | OCloseKad
  | OCloseHost
  | OCancel.

Definition dht_res (o : dht_op) : Type :=
  match o with
  | ONewHost _ => bool
  | ODhtNew | OHostMade | OBootstrap | OCloseHost | OCloseKad => result unit
  | OWithCancel | OSetStreamHandler | OCancel => unit
  end.

Abbreviation prog := (Prog.prog dht_res).
Abbreviation call := (perform dht_res).

Definition default_addrs : list bytes :=
  [bs "/ip4/0.0.0.0/tcp/0"; bs "/ip4/0.0.0.0/udp/0/quic-v1"; bs "/ip6/::/tcp/0"; bs "/ip6/::/udp/0/quic-v1"].

(** The [Routing] option: it assigns the variable [kad] that [NewDHT] reads;
    the result says whether that is a DHT, and not [nil]. *)
Definition routing : prog bool := let^ d := call ODhtNew in Ret (is_ok d).

(** The call of [libp2p.New]: its error, and [kad] when it returns. *)
Definition new_host (addrs : list bytes) : prog (result unit * bool) :=
  let^ called := call (ONewHost addrs) in
  let^ kad := (if called : bool then routing else Ret false) in
  let^ h := call OHostMade in Ret (h, kad).

(** [NewDHT]; the signaler it returns starts as [Signaling.NewDHT]. *)
Definition new_dht (listenAddrs : list bytes) : prog (result DHTSignaler) :=
  let^ _ := call OWithCancel in
  let addrs := match listenAddrs with [] => default_addrs | _ => listenAddrs end in
  let^ made := new_host addrs in
  let '(h, kad) := made in
  match h with
  | Err e => let^ _ := call OCancel in Ret (Err e)
  | Ok _ =>
    if negb kad then
      let^ _ := call OCloseHost in
      let^ _ := call OCancel in Ret (Err (bs "signaling: DHT routing not initialized"))
    else
      let^ b := call OBootstrap in
      match b with
      | Err e =>
        let^ _ := call OCloseKad in
        let^ _ := call OCloseHost in
        let^ _ := call OCancel in Ret (Err e)
      | Ok _ => let^ _ := call OSetStreamHandler in Ret (Ok NewDHT)
      end
  end.

(** [DHTSignaler.Close]: what closing the DHT says is dropped. *)
Definition dht_Close : prog (result unit) :=
  let^ _ := call OCancel in
  let^ _ := call OCloseKad in
  call OCloseHost.

(** ** Relay candidates *)

(** [relaySource]: what it puts in the channel it returns, a buffer of [num]
    ([None]: a negative size panics), if nobody cancels: of the peers of the
    routing table, with what the peer store knows of each, those with an
    address, until [num] is used up.  [ready]: both host and DHT are there. *)
Fixpoint relay_loop (num : Z) (peers : list PeerInfo) : list PeerInfo :=
  match peers with
  | [] => []
  | ai :: peers =>
    if num <=? 0 then []
    else if bool_decide (pi_Addresses ai = []) then relay_loop num peers
    else ai :: relay_loop (num - 1) peers
  end.

Definition relaySource (num : Z) (ready : bool) (peers : list PeerInfo) : option (list PeerInfo) :=
  if num <? 0 then None else Some (if ready then relay_loop num peers else []).

(** ** Asking the host *)

Section host.
(** [peer.Decode] and [Connectedness]. *)
Context (decode : bytes → result bytes) (connected : bytes → bool).

(** [DHTSignaler.Presence]. *)
Definition dht_Presence (peerID : bytes) : result bool := let? pid := decode peerID in Ok (connected pid).
End host.

Section connect.
(** libp2p's peer store, and what the host answers to [Connect]. *)
Context {P : Type} (AddAddrs : PeerInfo → P → P) (host_Connect : PeerInfo → P → result unit).

(** [DHTSignaler.Connect]. *)
Definition dht_Connect (info : PeerInfo) : M P unit := λ ps,
  let ps := AddAddrs info ps in (host_Connect info ps, ps).
End connect.

(** [BootstrapPublic]: every bootstrap peer is tried, whatever the others answer. *)
Definition BootstrapPublic (host_Connect : PeerInfo → result unit) (defaults : list PeerInfo) : list (PeerInfo * result unit) :=
  map (λ ai, (ai, host_Connect ai)) defaults.

(** [AddrInfo]. *)
Definition AddrInfo (self : bytes) (addrs : list bytes) : PeerInfo := MkPeerInfo self addrs.

(** [RecvSDP] and [RecvCandidate] with the context: what is ready is returned;
    once the context is done its error may be too - but not instead of the
    error of a peer id that does not decode, which comes before the [select]. *)
Inductive recv_or_done {A} (done : option error) (ready : option (result A * DHTSignaler)) (d : DHTSignaler)
    : result A → DHTSignaler → Prop :=
  | recv_ready r d' : ready = Some (r, d') → recv_or_done done ready d r d'
  | recv_done e : done = Some e → (∀ r d', ready = Some (r, d') → is_ok r) → recv_or_done done ready d (Err e) d.

(** [RecvCandidate]. *)
Definition dht_RecvCandidate (d : DHTSignaler) : option (result bytes * DHTSignaler) :=
  match h_candIn d with
  | [] => None
  | c :: rest => Some (Ok c, MkDHT (h_lastRemote d) (h_answers d) (h_advertised d) (h_offerIn d) rest (h_loops d))
  end.

(** ** What is left behind *)

Definition step_done : Type := { o : dht_op & dht_res o }.
Definition note_all (o : dht_op) (a : dht_res o) (tr : list step_done) : list step_done := tr ++ [existT o a].

(** What was made, and not released: the context, the host that [libp2p.New]
    returned, the DHT that [dht.New] returned, and the stream handlers set. *)
Record resources := MkRes { live_ctx : bool; live_host : bool; live_kad : bool; handlers : nat }.

Definition res_step (s : resources) (x : step_done) : resources :=
  let 'MkRes ctx h kad n := s in
  match x with
  | existT OWithCancel _ => MkRes true h kad n
  | existT ODhtNew r => MkRes ctx h (is_ok r || kad) n
  | existT OHostMade r => MkRes ctx (is_ok r || h) kad n
  | existT OSetStreamHandler _ => MkRes ctx h kad (S n)
  | existT OCloseKad _ => MkRes ctx h false n
  | existT OCloseHost _ => MkRes ctx false kad n
  | existT OCancel _ => MkRes false h kad n
  | _ => s
  end.

Definition left (tr : list step_done) : resources := fold_left res_step tr (MkRes false false false 0).

(** A DHT was made; [libp2p.New] failed. *)
Definition made_dht (x : step_done) : bool := match x with existT ODhtNew r => is_ok r | _ => false end.
Definition host_failed (x : step_done) : bool := match x with existT OHostMade r => negb (is_ok r) | _ => false end.

Section properties.
Abbreviation runs := (all_runs note_all).

(** C34: what a node that does not start leaves behind.  Whatever libp2p and
    the DHT answer, [NewDHT] either ends with context, host and DHT alive and
    the stream handler set once, and then [Close] releases all three whatever it
    is answered; or it ends with an error, the host closed and, last, the
    context cancelled - but the DHT is left, never closed, exactly when
    [libp2p.New] fails after its [Routing] option has made it. *)
Theorem new_dht_settles addrs :
  runs (new_dht addrs)
    (λ tr r, match r with
             | Ok d => left tr = MkRes true true true 1 ∧ d = NewDHT ∧
                 runs dht_Close (λ tr _, left tr = MkRes false false false 1) tr
             | Err _ => left tr = MkRes false false (existsb made_dht tr && existsb host_failed tr) 0 ∧
                 last tr = Some (existT OCancel tt)
             end) [].
Proof.
  unfold new_dht, new_host, routing, dht_Close.
  repeat (cbn [bindG perform all_runs dht_res negb is_ok];
    match goal with
    | |- ∀ _ : result _, _ => intros [[]|?]
    | |- ∀ _ : bool, _ => intros [|]
    | |- ∀ _ : unit, _ => intros []
    | |- _ ∧ _ => split
    | |- _ => reflexivity
    end).
Qed.

(** That happens. *)
Lemma failed_host_leaves_dht addrs e :
  ¬ runs (new_dht addrs) (λ tr r, r = Err e → live_kad (left tr) = false) [].
Proof. intros Hr. discriminate (Hr tt true (Ok tt) (Err e) tt eq_refl). Qed.

Lemma relay_loop_spec num peers :
  relay_loop num peers = take (Z.to_nat num) (filter (λ ai, pi_Addresses ai ≠ []) peers).
Proof.
  revert num. induction peers as [|ai peers IH]; intros num; cbn [relay_loop]; [by rewrite filter_nil, take_nil|].
  destruct (num <=? 0) eqn:E; [by replace (Z.to_nat num) with 0%nat by lia|].
  case_bool_decide as Ha; [by rewrite filter_cons_False, IH by (intros ?; done)|].
  rewrite filter_cons_True, IH by done. replace (Z.to_nat num) with (S (Z.to_nat (num - 1))) by lia. done.
Qed.

(** The relay source offers what AutoRelay may use: the first [num] peers of
    the routing table that have an address, in its order, and nothing before
    host and DHT are there; the channel's buffer holds them all, so the
    goroutine that fills it never waits. *)
Theorem relay_source_spec num ready peers :
  0 ≤ num →
  ∃ l, relaySource num ready peers = Some l ∧ (Z.of_nat (length l) ≤ num) ∧
    l = (if ready then take (Z.to_nat num) (filter (λ ai, pi_Addresses ai ≠ []) peers) else []).
Proof.
  intros Hn. unfold relaySource. rewrite (proj2 (Z.ltb_ge _ _)) by done. eexists. split; [done|].
  destruct ready; [|by split]. rewrite relay_loop_spec. split; [|done]. rewrite length_take. lia.
Qed.
End properties.

Lemma relay_source_spec_witness :
  let p n a := MkPeerInfo (bs n) a in
  let peers := [p "a" [bs "x"]; p "b" []; p "c" [bs "y"]; p "d" [bs "z"]] in
  ∃ l, relaySource 2 true peers = Some l ∧ (Z.of_nat (length l) ≤ 2) ∧
    l = take 2 (filter (λ ai, pi_Addresses ai ≠ []) peers).
Proof. intros p peers. apply (relay_source_spec 2 true peers). lia. Defined.
