(* ===== verification/Runtime.v ===== *)
(** * The engine ([pkg/runtime])

    [Runtime]: its loops and API calls as programs whose operations are the
    critical sections of [mu], the channels, goroutines and calls into the
    network, and a pool of such programs that runs them in any interleaving.

    Links are opaque here: what a link answers is up to the environment, which
    covers every behaviour of [Node]'s links. *)

From S2P Require Import Prelude Bytes Strconv Json Codec GoTime Sha2 Identity Filetransfer Messaging Contact Settings Node Paths Prog.
Open Scope Z_scope.

(** ** State *)

Record Event := MkEvent {
  ev_Kind : bytes;
  ev_PeerFP : bytes;
  ev_PeerURI : bytes;
  ev_Text : bytes;
  ev_Name : bytes;
  ev_Path : bytes;
  ev_MsgID : bytes;
  ev_Online : bool;
  ev_Detail : bytes;
  ev_Time : Z;
}.

Record outReq := MkReq { rq_peerURI : bytes; rq_text : bytes; rq_msgID : bytes; rq_filePath : bytes }.

(** A [*node.Link]: which one it is, and what its accessors return. *)
Record link := MkLnk { lk_id : Z; lk_fp : bytes; lk_key : bytes }.

#[global] Instance link_eq_dec : EqDecision link.
Proof. solve_decision. Defined.

(** The fields under [mu] and the channels; [dead] is not a field but the
    links whose [Close] was called. *)
Record runtime := MkRT {
  links : gmap bytes link;
  lastIn : gmap bytes bytes;
  events : list Event;
  closed : bool;
  outbox : list outReq;
  dead : list link;
}.

Definition set_links v r := MkRT v (lastIn r) (events r) (closed r) (outbox r) (dead r).
Definition set_lastIn v r := MkRT (links r) v (events r) (closed r) (outbox r) (dead r).
Definition set_events v r := MkRT (links r) (lastIn r) v (closed r) (outbox r) (dead r).
Definition set_closed v r := MkRT (links r) (lastIn r) (events r) v (outbox r) (dead r).
Definition set_outbox v r := MkRT (links r) (lastIn r) (events r) (closed r) v (dead r).
Definition set_dead v r := MkRT (links r) (lastIn r) (events r) (closed r) (outbox r) v.

(** [StartWith]. *)
Definition new_runtime : runtime := MkRT ∅ ∅ [] false [] [].

(** ** Operations *)

Inductive op :=
  (* critical sections, channels, goroutines *)
  | OGetLink (fp : bytes)
  | OSetLink (l : link)
  | ODelLink (fp : bytes) (l : link)
  | OPush (e : Event)
  | OPoll
  | OStop
  | OSetLast (fp id : bytes)
  | OLast (fp : bytes)
  | OEnqueue (req : outReq)
  | ODequeue
  | OIsClosed
  | OWait
  | OGo (l : link)
  | OClose (l : link)
  (* links *)
  | OReceive (l : link)
  | OFileBody (l : link) (offer : Offer)
  | OSendEnvelope (l : link) (env : Envelope)
  | OSendFile (l : link) (fp name mime data : bytes)
  | OSendReceipt (l : link) (fp id state : bytes)
  | OSendTyping (l : link) (fp : bytes)
  (* network, clock, randomness, files *)
  | OConnect (key : bytes)
  | OListen
  | OFind (key : bytes)
  | OAdvertise (key : bytes)
  | OSigClose
  | OTrClose
  | OClock
  | OUnix
  | OUnixNano
  | ORand
  | OTypeByExtension (ext : bytes)
  | OMkdirAll (dir : bytes)
  | OReadFile (path : bytes)
  | OWriteFile (path data : bytes).

Definition res (o : op) : Type :=
  match o with
  | OGetLink _ => option link
  | OPoll => list Event
  | OStop => option (list link)
  | OLast _ => bytes
  | ODequeue => option outReq
  | OIsClosed | OWait => bool
  | OReceive _ => result Envelope
  | OFileBody _ _ | OReadFile _ => result bytes
  | OConnect _ | OListen => result link
  | OSendEnvelope _ _ | OSendFile _ _ _ _ _ | OSendReceipt _ _ _ _ | OSendTyping _ _
  | OFind _ | OAdvertise _ | OMkdirAll _ | OWriteFile _ _ => result unit
  | OClock => gotime
  | OUnix | OUnixNano => Z
  | ORand => tape
  | OTypeByExtension _ => bytes
  | OSetLink _ | ODelLink _ _ | OPush _ | OSetLast _ _ | OEnqueue _ | OGo _ | OClose _
  | OSigClose | OTrClose => unit
  end.

(** The critical section of [adopt]. *)
Definition put_link (l : link) (r : runtime) : runtime :=
  let r := match links r !! lk_fp l with
    | Some old => if decide (old = l) then r else set_dead (old :: dead r) r
    | None => r
    end in
  set_links (<[lk_fp l := l]> (links r)) r.

(** That of [dropLink]. *)
Definition del_link (fp : bytes) (l : link) (r : runtime) : runtime :=
  if decide (links r !! fp = Some l) then set_links (delete fp (links r)) r else r.

(** The channel's capacity. *)
Definition outbox_cap : nat := 64.

(** One operation: its answer, and the state before and after.  Where the
    environment answers, any answer is possible. *)
Definition op_step (o : op) : res o → runtime → runtime → Prop :=
  match o return res o → runtime → runtime → Prop with
  | OGetLink fp => λ a r r', a = links r !! fp ∧ r' = r
  | OSetLink l => λ _ r r', r' = put_link l r
  | ODelLink fp l => λ _ r r', r' = del_link fp l r
  | OPush e => λ _ r r', r' = set_events (events r ++ [e]) r
  | OPoll => λ a r r', a = events r ∧ r' = set_events [] r
  | OStop => λ a r r',
      if closed r then a = None ∧ r' = r
      else ∃ ls, a = Some ls ∧ ls ≡ₚ (map_to_list (links r)).*2 ∧ r' = set_links ∅ (set_closed true r)
  | OSetLast fp id => λ _ r r', r' = set_lastIn (<[fp := id]> (lastIn r)) r
  | OLast fp => λ a r r', a = default [] (lastIn r !! fp) ∧ r' = r
  | OEnqueue req => λ _ r r',
      (length (outbox r) < outbox_cap)%nat ∧ r' = set_outbox (outbox r ++ [req]) r
      ∨ closed r = true ∧ r' = r
  | ODequeue => λ a r r',
      (∃ req q, outbox r = req :: q ∧ a = Some req ∧ r' = set_outbox q r)
      ∨ closed r = true ∧ a = None ∧ r' = r
  | OIsClosed => λ a r r', a = closed r ∧ r' = r
  | OWait => λ a r r', (a = true → closed r = true) ∧ r' = r
  | OClose l => λ _ r r', r' = set_dead (l :: dead r) r
  | _ => λ _ r r', r' = r
  end.

(** ** Programs *)

Abbreviation prog := (Prog.prog res).
Abbreviation call := (perform res).

(** [push]: the time is read before [mu] is taken. *)
Definition set_time (t : Z) (e : Event) : Event :=
  MkEvent (ev_Kind e) (ev_PeerFP e) (ev_PeerURI e) (ev_Text e) (ev_Name e) (ev_Path e) (ev_MsgID e)
          (ev_Online e) (ev_Detail e) t.
Definition push (e : Event) : prog unit :=
  let^ t := call OUnix in call (OPush (set_time t e)).

(** Composite literals of [Event]. *)
Definition ev_error (detail : bytes) : Event := MkEvent (bs "error") [] [] [] [] [] [] false detail 0.
Definition ev_presence (fp uri : bytes) (online : bool) : Event :=
  MkEvent (bs "presence") fp uri [] [] [] [] online [] 0.
Definition ev_sent (fp msgID : bytes) : Event := MkEvent (bs "sent") fp [] [] [] [] msgID false [] 0.
Definition ev_sendFailed (fp msgID detail : bytes) : Event :=
  MkEvent (bs "sendFailed") fp [] [] [] [] msgID false detail 0.

(** [peerURI]. *)
Definition peerURI (l : link) : bytes := match lk_key l with [] => [] | key => URI [] key end.

(** [contact.ParseURI], which reads the clock for a new contact. *)
Definition parse_uri (uri : bytes) : prog (result Contact) :=
  let^ now := call OClock in Ret (ParseURI now uri).

(** [adopt]. *)
Definition adopt (l : link) : prog unit :=
  let^ _ := call (OSetLink l) in
  let^ _ := push (ev_presence (lk_fp l) (peerURI l) true) in
  call (OGo l).

(** [dropLink]. *)
Definition dropLink (fp : bytes) (l : link) : prog unit :=
  let^ _ := call (ODelLink fp l) in call (OClose l).

(** [mimeOf]. *)
Definition mimeOf (name : bytes) : prog bytes :=
  let^ t := call (OTypeByExtension (Ext name)) in
  Ret (if bool_decide (t = []) then bs "application/octet-stream" else t).

(** [env.MsgID = req.msgID] unless it is empty. *)
Definition with_msgID (id : bytes) (env : Envelope) : Envelope :=
  if bool_decide (id = []) then env else set_MsgID id env.

Definition connectAttempts : nat := 12.

(** The connection loop of [deliver]; nothing when the engine was stopped. *)
Fixpoint connect_loop (n : nat) (key : bytes) (err : error) : prog (option (result link)) :=
  match n with
  | O => Ret (Some (Err err))
  | S n =>
    let^ c := call OIsClosed in
    if (c : bool) then Ret None else
    let^ r := call (OConnect key) in
    match r with
    | Ok l => Ret (Some (Ok l))
    | Err e =>
      let^ c := call OWait in
      if (c : bool) then Ret None else connect_loop n key e
    end
  end.

(** The part of [deliver] that sends over a link. *)
Definition deliver_file (fp : bytes) (l : link) (req : outReq) : prog unit :=
  let^ d := call (OReadFile (rq_filePath req)) in
  match d with
  | Err e => push (ev_sendFailed fp (rq_msgID req) e)
  | Ok data =>
    let name := Base (rq_filePath req) in
    let^ mime := mimeOf name in
    let^ r := call (OSendFile l fp name mime data) in
    match r with
    | Err e =>
      let^ _ := dropLink fp l in push (ev_sendFailed fp (rq_msgID req) e)
    | Ok _ => push (ev_sent fp (rq_msgID req))
    end
  end.

Definition deliver_text (fp : bytes) (l : link) (req : outReq) : prog unit :=
  let^ now := call OClock in
  let^ t := call ORand in
  match (NewText now fp (rq_text req) None t).1 with
  | Err e => push (ev_sendFailed fp (rq_msgID req) e)
  | Ok env =>
    let^ r := call (OSendEnvelope l (with_msgID (rq_msgID req) env)) in
    match r with
    | Err e =>
      let^ _ := dropLink fp l in push (ev_sendFailed fp (rq_msgID req) e)
    | Ok _ => push (ev_sent fp (rq_msgID req))
    end
  end.

Definition deliver_over (fp : bytes) (l : link) (req : outReq) : prog unit :=
  if bool_decide (rq_filePath req = []) then deliver_text fp l req else deliver_file fp l req.

(** [deliver]. *)
Definition deliver (req : outReq) : prog unit :=
  let^ c := parse_uri (rq_peerURI req) in
  match c with
  | Err _ => push (ev_sendFailed [] (rq_msgID req) (bs "invalid contact URI"))
  | Ok c =>
    let fp := Fingerprint (Contact.c_IdentityKey c) in
    let^ l := call (OGetLink fp) in
    match l with
    | Some l => deliver_over fp l req
    | None =>
      let^ r := connect_loop connectAttempts (Contact.c_IdentityKey c) [] in
      match r with
      | None => Ret tt
      | Some (Err e) => push (ev_sendFailed fp (rq_msgID req) e)
      | Some (Ok l) => let^ _ := adopt l in deliver_over fp l req
      end
    end
  end.

(** The loops run for ever; [n] bounds the turns that are looked at. *)
Fixpoint sendWorker (n : nat) : prog unit :=
  match n with
  | O => Ret tt
  | S n =>
    let^ req := call ODequeue in
    match req with
    | None => Ret tt
    | Some req => let^ _ := deliver req in sendWorker n
    end
  end.

Fixpoint listenLoop (n : nat) : prog unit :=
  match n with
  | O => Ret tt
  | S n =>
    let^ c := call OIsClosed in
    if (c : bool) then Ret tt else
    let^ r := call OListen in
    match r with
    | Ok l => let^ _ := adopt l in listenLoop n
    | Err e =>
      let^ c := call OIsClosed in
      if (c : bool) then Ret tt else
      let^ _ := push (ev_error (bs "listen: " ++ e)) in
      let^ c := call OWait in
      if (c : bool) then Ret tt else listenLoop n
    end
  end.

(** What the engine was started with: its key, the rendezvous salt, the
    directory of received files. *)
Section engine.
Context (signingPub salt filesDir : bytes).

Definition RendezvousSalt : bytes := bs "stunner/rendezvous/1".

Fixpoint readvertiseLoop (n : nat) : prog unit :=
  match n with
  | O => Ret tt
  | S n =>
    let^ c := call OWait in
    if (c : bool) then Ret tt else
    let^ _ := call (OAdvertise (DiscoveryKey signingPub salt)) in readvertiseLoop n
  end.

(** The name under which [saveFile] puts a file. *)
Definition file_base (name : bytes) : bytes :=
  let base := Base name in
  if bool_decide (base = bs ".") || bool_decide (base = bs "/") || bool_decide (base = [])
  then bs "file" else base.

(** [saveFile]. *)
Definition saveFile (name data : bytes) : prog (result bytes) :=
  let^ r := call (OMkdirAll filesDir) in
  match r with
  | Err e => Ret (Err e)
  | Ok _ =>
    let^ now := call OUnixNano in
    let p := Join filesDir (fmt_int now ++ "-"%byte :: file_base name) in
    let^ r := call (OWriteFile p data) in
    Ret (match r with Err e => Err e | Ok _ => Ok p end)
  end.

(** A file offer in [recvLoop]. *)
Definition on_file (l : link) (env : Envelope) (offer : Offer) : prog unit :=
  let^ d := call (OFileBody l offer) in
  match d with
  | Err e => push (ev_error (bs "file recv: " ++ e))
  | Ok data =>
    let^ p := saveFile (o_Name offer) data in
    match p with
    | Err e => push (ev_error (bs "file save: " ++ e))
    | Ok path =>
      let^ _ := call (OSetLast (lk_fp l) (e_MsgID env)) in
      let^ _ := push (MkEvent (bs "file") (lk_fp l) (peerURI l) [] (o_Name offer) path (e_MsgID env) false
                        (o_MIME offer) 0) in
      let^ _ := call (OSendReceipt l (lk_fp l) (e_MsgID env) StateDelivered) in Ret tt
    end
  end.

(** One envelope in [recvLoop]. *)
Definition on_envelope (l : link) (env : Envelope) : prog unit :=
  if bool_decide (e_Type env = TypeText) then
    let^ _ := call (OSetLast (lk_fp l) (e_MsgID env)) in
    let^ _ := push (MkEvent (bs "message") (lk_fp l) (peerURI l) (tb_Text (Text env).1) [] [] (e_MsgID env) false [] 0) in
    let^ _ := call (OSendReceipt l (lk_fp l) (e_MsgID env) StateDelivered) in Ret tt
  else if bool_decide (e_Type env = TypeFileOffer) then
    match ParseFileOffer env with
    | Err e => push (ev_error (bs "file offer: " ++ e))
    | Ok offer => on_file l env offer
    end
  else if bool_decide (e_Type env = TypeTyping) then
    push (MkEvent (bs "typing") (lk_fp l) (peerURI l) [] [] [] [] false [] 0)
  else if bool_decide (e_Type env = TypeReceipt) then
    match Receipt env with
    | (rb, None) => push (MkEvent (bs "receipt") (lk_fp l) [] [] [] [] (rb_RefMsgID rb) false (rb_State rb) 0)
    | (_, Some _) => Ret tt
    end
  else Ret tt.

(** [recvLoop]. *)
Fixpoint recvLoop (n : nat) (l : link) : prog unit :=
  match n with
  | O => Ret tt
  | S n =>
    let^ r := call (OReceive l) in
    match r with
    | Err _ =>
      let^ _ := dropLink (lk_fp l) l in push (ev_presence (lk_fp l) (peerURI l) false)
    | Ok env => let^ _ := on_envelope l env in recvLoop n l
    end
  end.

(** *** The API *)

Definition Send (uri text msgID : bytes) : prog unit := call (OEnqueue (MkReq uri text msgID [])).
Definition rt_SendFile (uri path msgID : bytes) : prog unit := call (OEnqueue (MkReq uri [] msgID path)).

Definition rt_SendTyping (uri : bytes) : prog unit :=
  let^ c := parse_uri uri in
  match c with
  | Err _ => Ret tt
  | Ok c =>
    let fp := Fingerprint (Contact.c_IdentityKey c) in
    let^ l := call (OGetLink fp) in
    match l with
    | None => Ret tt
    | Some l => let^ _ := call (OSendTyping l fp) in Ret tt
    end
  end.

Definition pushDiag (uri fp : bytes) (ok : bool) (detail : bytes) : prog unit :=
  push (MkEvent (bs "diagnostic") fp uri [] [] [] [] ok detail 0).

Definition msg_invalid : bytes :=
  bs "Invalid contact ID " ++ map bZ [226; 128; 148] ++ bs " re-add the contact from their shared code.".
Definition msg_linked : bytes :=
  bs "Connected " ++ map bZ [226; 128; 148] ++ bs " a live end-to-end-encrypted link is open.".
Definition msg_not_found : bytes :=
  bs "Not found on the network yet. The peer may be offline, may have just come online (discovery records take ~30s to propagate), or their network blocks peer discovery. Make sure both devices are online and try again.".
Definition msg_unreachable (e : error) : bytes :=
  bs "Found the peer but couldn't establish a direct connection: " ++ e ++
  bs ". This is usually a strict NAT/firewall. Add a TURN server in Network settings (and have the peer do the same) to relay the connection.".
Definition msg_connected : bytes :=
  bs "Connected " ++ map bZ [226; 128; 148] ++ bs " direct encrypted link established.".

(** [runDiagnose], which [Diagnose] runs on a goroutine of its own. *)
Definition runDiagnose (uri : bytes) : prog unit :=
  let^ c := parse_uri uri in
  match c with
  | Err _ => pushDiag uri [] false msg_invalid
  | Ok c =>
    let fp := Fingerprint (Contact.c_IdentityKey c) in
    let^ l := call (OGetLink fp) in
    match l with
    | Some _ => pushDiag uri fp true msg_linked
    | None =>
      let^ f := call (OFind (DiscoveryKey (Contact.c_IdentityKey c) salt)) in
      match f with
      | Err _ => pushDiag uri fp false msg_not_found
      | Ok _ =>
        let^ r := call (OConnect (Contact.c_IdentityKey c)) in
        match r with
        | Err e => pushDiag uri fp false (msg_unreachable e)
        | Ok l => let^ _ := adopt l in pushDiag uri fp true msg_connected
        end
      end
    end
  end.

Definition MarkRead (uri : bytes) : prog unit :=
  let^ c := parse_uri uri in
  match c with
  | Err _ => Ret tt
  | Ok c =>
    let fp := Fingerprint (Contact.c_IdentityKey c) in
    let^ l := call (OGetLink fp) in
    let^ msgID := call (OLast fp) in
    match l with
    | Some l =>
      if bool_decide (msgID = []) then Ret tt else
      let^ _ := call (OSendReceipt l fp msgID StateRead) in Ret tt
    | None => Ret tt
    end
  end.

Definition Poll : prog (list Event) := call OPoll.

Fixpoint close_all (ls : list link) : prog unit :=
  match ls with
  | [] => Ret tt
  | l :: ls => let^ _ := call (OClose l) in close_all ls
  end.

(** [Stop]. *)
Definition Stop : prog unit :=
  let^ r := call OStop in
  match r with
  | None => Ret tt
  | Some ls =>
    let^ _ := close_all ls in
    let^ _ := call OSigClose in
    call OTrClose
  end.

(** ** The pool *)

(** The API calls an application makes, and the goroutines it starts. *)
Inductive api : prog unit → Prop :=
  | api_Send uri text id : api (Send uri text id)
  | api_SendFile uri path id : api (rt_SendFile uri path id)
  | api_SendTyping uri : api (rt_SendTyping uri)
  | api_Diagnose uri : api (runDiagnose uri)
  | api_MarkRead uri : api (MarkRead uri)
  | api_Poll : api (let^ _ := Poll in Ret tt)
  | api_Stop : api Stop.

(** The goroutine an operation starts. *)
Inductive spawned : op → list (prog unit) → Prop :=
  | spawn_recv l n : spawned (OGo l) [recvLoop n l]
  | spawn_none o : (∀ l, o ≠ OGo l) → spawned o [].

Definition rt_step : pool res runtime → pool res runtime → Prop := pool_step op_step spawned api.

(** [StartWith]'s three goroutines. *)
Definition start_pool (n : nat) : pool res runtime :=
  MkPool new_runtime [listenLoop n; sendWorker n; readvertiseLoop n].
End engine.

(** ** Who closes a link *)

(** Closing never waits, and every link taken out of the table is to be
    closed by the one who took it. *)
Definition closing (o : op) : Prop := ∃ l, o = OClose l.

Definition duty (o : op) : res o → op → Prop :=
  match o return res o → op → Prop with
  | ODelLink _ l => λ _ q, q = OClose l
  | OStop => λ a q, ∃ ls l, a = Some ls ∧ l ∈ ls ∧ q = OClose l
  | _ => λ _ _, False
  end.

Abbreviation owes := (Prog.owes (R := res) closing).
Abbreviation tidy := (Prog.tidy (R := res) closing duty).

Create HintDb tidy.
(** Walks through the branches of a program. *)
Ltac tidy_step :=
  first
    [ progress intros | progress cbv zeta | solve [auto with tidy nocore] | apply tidy_bind | apply tidy_if
    | match goal with
      | |- tidy (match ?x with _ => _ end) => destruct x
      | |- tidy ?p => match p with call ?o => solve [apply (tidy_perform closing duty o); intros ? ? []] end
      | |- tidy (Ret _) => exact I
      end ].
Ltac tidy := repeat tidy_step.

Lemma tidy_push e : tidy (push e).
Proof. unfold push. tidy. Qed.
#[export] Hint Resolve tidy_push : tidy.

Lemma tidy_dropLink fp l : tidy (dropLink fp l).
Proof. split; [intros [] q ->; by left|]. intros []. split; [by intros|exact (λ _, I)]. Qed.
Lemma tidy_adopt l : tidy (adopt l).
Proof. unfold adopt. tidy. Qed.
#[export] Hint Resolve tidy_dropLink tidy_adopt : tidy.

Lemma tidy_connect_loop n key e : tidy (connect_loop n key e).
Proof. revert e. induction n as [|n IH]; intros e; cbn [connect_loop]; tidy. Qed.
#[export] Hint Resolve tidy_connect_loop : tidy.

Lemma tidy_deliver req : tidy (deliver req).
Proof. unfold deliver, parse_uri, deliver_over, deliver_text, deliver_file, mimeOf. tidy. Qed.
#[export] Hint Resolve tidy_deliver : tidy.

Lemma tidy_sendWorker n : tidy (sendWorker n).
Proof. induction n as [|n IH]; cbn [sendWorker]; tidy. Qed.
Lemma tidy_listenLoop n : tidy (listenLoop n).
Proof. induction n as [|n IH]; cbn [listenLoop]; tidy. Qed.
Lemma tidy_readvertiseLoop pub salt n : tidy (readvertiseLoop pub salt n).
Proof. induction n as [|n IH]; cbn [readvertiseLoop]; tidy. Qed.
Lemma tidy_on_envelope dir l env : tidy (on_envelope dir l env).
Proof. unfold on_envelope, on_file, saveFile. tidy. Qed.
#[export] Hint Resolve tidy_sendWorker tidy_listenLoop tidy_readvertiseLoop tidy_on_envelope : tidy.
Lemma tidy_recvLoop dir n l : tidy (recvLoop dir n l).
Proof. induction n as [|n IH]; cbn [recvLoop]; tidy. Qed.
#[export] Hint Resolve tidy_recvLoop : tidy.

Lemma owes_close_all l ls : l ∈ ls → owes (OClose l) (close_all ls).
Proof.
  induction ls as [|x ls IH]; [by intros ?%not_elem_of_nil|].
  intros [->|Hl]%elem_of_cons; cbn; [by left|]. right. split; [by exists x|auto].
Qed.

Lemma tidy_close_all ls : tidy (close_all ls).
Proof. induction ls; cbn [close_all]; tidy. Qed.
#[export] Hint Resolve tidy_close_all : tidy.

Lemma tidy_Stop : tidy Stop.
Proof.
  split.
  - intros a q (ls & l & -> & Hl & ->). cbn [bindG]. by apply owes_bind, owes_close_all.
  - intros [ls|]; cbn [bindG]; tidy.
Qed.

#[export] Hint Resolve tidy_Stop : tidy.

Lemma tidy_api salt p : api salt p → tidy p.
Proof.
  destruct 1; unfold Send, rt_SendFile, rt_SendTyping, runDiagnose, MarkRead, parse_uri, pushDiag, Poll; tidy.
Qed.

(** *** Every interleaving *)

Section runs.
Context (pub salt dir : bytes).

Lemma spawned_tidy o new : spawned dir o new → Forall tidy new.
Proof. destruct 1; [|constructor]. constructor; [auto with tidy|constructor]. Qed.

Lemma start_tidy n : all_tidy closing duty (start_pool pub salt n).
Proof. unfold all_tidy, start_pool. cbn [threads]. repeat constructor; auto with tidy. Qed.

(** An operation keeps a registered link, closes it, or leaves that to its thread. *)
Lemma op_step_links l o a r r' :
  op_step o a r r' → links r !! lk_fp l = Some l →
  links r' !! lk_fp l = Some l ∨ l ∈ dead r' ∨ duty o a (OClose l).
Proof.
  intros Ho Hl. destruct o; cbn in Ho; try (left; destruct_and?; subst; done).
  - (* adopt *) subst r'. unfold put_link. destruct (decide (lk_fp l0 = lk_fp l)) as [E|E].
    + rewrite E, Hl. destruct (decide (l = l0)) as [->|Hne]; cbn.
      * left. by rewrite lookup_insert_eq.
      * right. left. by constructor.
    + left. cbn [links set_links]. rewrite lookup_insert_ne by done.
      destruct (links r !! lk_fp l0) as [old|]; [case_decide|]; done.
  - (* dropLink *) subst r'. unfold del_link. case_decide as E; [|by left].
    destruct (decide (fp = lk_fp l)) as [->|Hne].
    + right. right. cbn. congruence.
    + left. cbn [links set_links]. by rewrite lookup_delete_ne.
  - (* Stop *) destruct (closed r); [left; destruct Ho as [_ ->]; done|].
    destruct Ho as (ls & -> & Hls & ->). right. right. exists ls, l. split_and!; [done| |done].
    rewrite Hls. apply list_elem_of_fmap. exists (lk_fp l, l). split; [done|]. by apply elem_of_map_to_list.
  - (* Send *) left. destruct Ho as [[_ ->]|[_ ->]]; done.
  - (* the worker *) left. destruct Ho as [(? & ? & _ & _ & ->)|(_ & _ & ->)]; done.
Qed.

Lemma op_step_dead l o a r r' : op_step o a r r' → l ∈ dead r → l ∈ dead r'.
Proof.
  intros Ho Hl. destruct o; cbn in Ho; try (destruct_and?; subst; done).
  - subst r'. unfold put_link. destruct (links r !! lk_fp l0); [case_decide|]; cbn; auto using list_elem_of_further.
  - subst r'. unfold del_link. by case_decide.
  - destruct (closed r); [by destruct Ho as [_ ->]|]. by destruct Ho as (? & _ & _ & ->).
  - destruct Ho as [[_ ->]|[_ ->]]; done.
  - destruct Ho as [(? & ? & _ & _ & ->)|(_ & _ & ->)]; done.
  - subst r'. cbn. by apply list_elem_of_further.
Qed.

Lemma close_step l a r r' : op_step (OClose l) a r r' → l ∈ dead r'.
Proof. intros ->. by constructor. Qed.

(** A registered link stays registered until it is closed, or to be closed. *)
Lemma links_kept n c c' l :
  rtc (rt_step salt dir) (start_pool pub salt n) c → links (state c) !! lk_fp l = Some l →
  rtc (rt_step salt dir) c c' →
  links (state c') !! lk_fp l = Some l ∨ l ∈ dead (state c') ∨ Exists (owes (OClose l)) (threads c').
Proof.
  intros H1 Hl H2.
  apply (pool_steps_kept op_step (spawned dir) (api salt) closing duty spawned_tidy (tidy_api salt)
           (λ r, links r !! lk_fp l = Some l) (λ r, l ∈ dead r) (OClose l)
           (op_step_links l) (op_step_dead l) (close_step l) c); [|by left|done].
  eapply pool_steps_tidy; [apply spawned_tidy|apply tidy_api|apply start_tidy|done].
Qed.
End runs.

(** *** Given runs *)

Lemma put_link_new l r : links r !! lk_fp l = None → put_link l r = set_links (<[lk_fp l := l]> (links r)) r.
Proof. intros E. unfold put_link. by rewrite E. Qed.

Lemma put_link_over l r old :
  links r !! lk_fp l = Some old → old ≠ l →
  put_link l r = set_links (<[lk_fp l := l]> (links r)) (set_dead (old :: dead r) r).
Proof. intros E Hne. unfold put_link. by rewrite E, decide_False. Qed.

Lemma del_link_other fp l r : links r !! fp ≠ Some l → del_link fp l r = r.
Proof. intros E. unfold del_link. by rewrite decide_False. Qed.

(** Thread [i] does [o] and is answered [a]. *)
Ltac run i o a :=
  eapply rtc_l;
  [ eapply (thread_step op_step _ _ i o _ a);
    [ reflexivity
    | first [reflexivity | cbn; reflexivity | split; reflexivity | split; [done|reflexivity] | right; split_and!; reflexivity
                 | eexists; split_and!; [reflexivity|reflexivity|reflexivity]]
    | first [apply spawn_recv with (n := 1%nat) | apply spawn_none; discriminate] ]
  | cbn [app insert list_insert] ].

(** ** What one program does, whatever it is answered *)

(** What the sender of a request sees: the events about it, whether the engine
    was found stopped, and what was handed to a link without error. *)
Record outcome_log := MkLog { l_outs : list Event; l_stopped : bool; l_handed : list (option Envelope) }.

Definition is_outcome (e : Event) : bool :=
  bool_decide (ev_Kind e = bs "sent") || bool_decide (ev_Kind e = bs "sendFailed").

Definition note_outcome (o : op) : res o → outcome_log → outcome_log :=
  match o return res o → outcome_log → outcome_log with
  | OPush e => λ _ σ, if is_outcome e then MkLog (l_outs σ ++ [e]) (l_stopped σ) (l_handed σ) else σ
  | OIsClosed | OWait => λ b σ, MkLog (l_outs σ) (l_stopped σ || b) (l_handed σ)
  | OSendEnvelope _ env => λ r σ, if is_ok r then MkLog (l_outs σ) (l_stopped σ) (l_handed σ ++ [Some env]) else σ
  | OSendFile _ _ _ _ _ => λ r σ, if is_ok r then MkLog (l_outs σ) (l_stopped σ) (l_handed σ ++ [None]) else σ
  | _ => λ _ σ, σ
  end.

Abbreviation outcome_runs := (all_runs note_outcome).

(** The verdict on a request: one event about it, [sent] exactly when its
    message (or file) was handed over. *)
Definition reported (req : outReq) (σ : outcome_log) : Prop :=
  ∃ e, l_outs σ = [e] ∧ ev_MsgID e = rq_msgID req ∧
    (ev_Kind e = bs "sent" ∧ (∃ h, l_handed σ = [h] ∧
       (∀ env, h = Some env → e_ConvID env = ev_PeerFP e ∧ (rq_msgID req ≠ [] → e_MsgID env = rq_msgID req)))
     ∨ ev_Kind e = bs "sendFailed" ∧ l_handed σ = []).

Definition verdict (req : outReq) (σ : outcome_log) : Prop :=
  l_stopped σ = true ∧ l_outs σ = [] ∧ l_handed σ = [] ∨ l_stopped σ = false ∧ reported req σ.

Lemma push_failed req fp d :
  outcome_runs (push (ev_sendFailed fp (rq_msgID req) d)) (λ σ _, verdict req σ) (MkLog [] false []).
Proof.
  intros t a. right. split; [done|]. eexists. split; [done|]. split; [done|]. right. done.
Qed.

Lemma deliver_over_verdict fp l req :
  outcome_runs (deliver_over fp l req) (λ σ _, verdict req σ) (MkLog [] false []).
Proof.
  unfold deliver_over. case_bool_decide.
  - unfold deliver_text, call. cbn [bindG all_runs note_outcome res]. intros now t.
    destruct (NewEnvelope now TypeText fp (Some (marshal (enc_TextBody (MkTextBody (rq_text req) None)))) t) as [r u] eqn:E.
    unfold NewText. rewrite E. cbn [fst].
    unfold NewEnvelope, newID, rand_fill, bindM, retM in E. injection E as <- <-.
    cbn [bindG all_runs note_outcome res]. intros [[]|e]; cbn [is_ok].
    + intros s a. right. split; [done|]. eexists. split; [done|]. split; [done|]. left. split; [done|].
      eexists. split; [done|]. intros env [= <-]. unfold with_msgID. case_bool_decide; [by split|]. by split.
    + unfold dropLink, call. cbn [bindG all_runs note_outcome res]. intros _ _. apply push_failed.
  - unfold deliver_file, call, mimeOf. cbn [bindG all_runs note_outcome res]. intros [data|e]; [|apply push_failed].
    cbn [bindG all_runs note_outcome res]. intros t [[]|e]; cbn [is_ok].
    + intros s a. right. split; [done|]. eexists. split; [done|]. split; [done|]. left. split; [done|].
      eexists. split; [done|]. discriminate.
    + unfold dropLink, call. cbn [bindG all_runs note_outcome res]. intros _ _. apply push_failed.
Qed.

Lemma connect_loop_log n key e :
  outcome_runs (connect_loop n key e)
    (λ σ r, match r with None => σ = MkLog [] true [] | Some _ => σ = MkLog [] false [] end) (MkLog [] false []).
Proof.
  revert e. induction n as [|n IH]; intros e; cbn [connect_loop call bindG all_runs note_outcome res]; [done|].
  intros [|]; [done|]. cbn [bindG all_runs note_outcome res]. intros [l|e']; [done|].
  cbn [bindG all_runs note_outcome res]. intros [|]; [done|]. apply IH.
Qed.

(** The files written, and the announcements and receipts made. *)
Definition note_writes (o : op) : res o → list bytes → list bytes :=
  match o return res o → list bytes → list bytes with
  | OWriteFile p _ => λ _ σ, σ ++ [p]
  | _ => λ _ σ, σ
  end.

Definition inbound_log : Type := list Event * list (link * bytes * bytes * bytes).
Definition note_inbound (o : op) : res o → inbound_log → inbound_log :=
  match o return res o → inbound_log → inbound_log with
  | OPush e => λ _ σ, (σ.1 ++ [e], σ.2)
  | OSendReceipt l fp id st => λ _ σ, (σ.1, σ.2 ++ [(l, fp, id, st)])
  | _ => λ _ σ, σ
  end.

Lemma file_base_no_slash name : no_slash (file_base name).
Proof.
  unfold file_base. destruct (Base_elem name) as [E|[Hn _]].
  - rewrite E. by apply (bool_decide_unpack _).
  - destruct (_ || _); [by apply (bool_decide_unpack _)|done].
Qed.

Section properties.

(** C15: no connection is leaked.  Whatever the application calls, however the
    goroutines interleave and whatever the network answers, a link that is
    registered at some point is, at every later point, still registered under
    its own fingerprint, or closed, or some goroutine is bound to close it
    next to whatever else it does. *)
Theorem no_link_leaks pub salt dir n c c' l :
  rtc (rt_step salt dir) (start_pool pub salt n) c →
  links (state c) !! lk_fp l = Some l →
  rtc (rt_step salt dir) c c' →
  links (state c') !! lk_fp l = Some l ∨ l ∈ dead (state c') ∨ Exists (owes (OClose l)) (threads c').
Proof. apply links_kept. Qed.

(** C16: a link that left the table is closed without anybody's help.  In every
    reachable state, for a link that was registered before and is not any
    more, there is a goroutine that, running alone and whatever it is answered,
    closes the link after finitely many steps none of which has to wait. *)
Theorem unregistered_link_closes pub salt dir n c c' l :
  rtc (rt_step salt dir) (start_pool pub salt n) c →
  links (state c) !! lk_fp l = Some l →
  rtc (rt_step salt dir) c c' →
  links (state c') !! lk_fp l ≠ Some l →
  ∃ i, alone op_step (spawned dir) i (λ c, l ∈ dead (state c)) c'.
Proof.
  intros H1 Hl H2 Hn. destruct (links_kept _ _ _ _ _ _ _ H1 Hl H2) as [?|[Hd|Ho]]; [done| |].
  - exists 0%nat. by apply alone_done.
  - apply Exists_exists in Ho as (p & (i & Hi)%list_elem_of_lookup & Ho). exists i.
    apply (owes_alone op_step (spawned dir) closing (λ r, l ∈ dead r) (OClose l) i p); [|apply close_step|done|done].
    intros o r Hor. assert (∃ l', o = OClose l') as [l' ->] by (destruct Hor as [->|[l' ->]]; eauto).
    split; [exists tt; eexists; reflexivity|]. exists []. by apply spawn_none.
Qed.

(** C17: every request gets one answer.  Whatever the network, the files and
    the other goroutines do, [deliver] pushes exactly one [sent] or
    [sendFailed] event, with the id of the request - unless it found the
    engine stopped while connecting; [sent] is pushed exactly when one
    message was handed to a link, and a text message then carries the id of
    the request, by which receipts will refer to it. *)
Theorem deliver_verdict req :
  outcome_runs (deliver req) (λ σ _, verdict req σ) (MkLog [] false []).
Proof.
  unfold deliver, parse_uri, call. cbn [bindG all_runs note_outcome res]. intros now.
  destruct (ParseURI now (rq_peerURI req)) as [c|e]; [|apply push_failed].
  cbn [bindG all_runs note_outcome res]. intros [l|]; [apply deliver_over_verdict|].
  apply all_runs_bind. eapply all_runs_mono; [|apply connect_loop_log].
  intros σ [[l|e]|]; intros ->; [|apply push_failed|by left].
  unfold adopt, push, call. cbn [bindG all_runs note_outcome res]. intros _ t _ _. apply deliver_over_verdict.
Qed.

(** C19: a received file stays in its directory.  Whatever name the peer gave
    the file - with slashes, dots or nothing at all - everything [saveFile]
    writes is a plain file directly in the directory of received files, and
    the path it returns is the one it wrote. *)
Theorem saved_file_stays_inside dir name data :
  dir ≠ [] →
  all_runs note_writes (saveFile dir name data)
    (λ ws r, (∀ p, p ∈ ws → ∃ e, p = dir_prefix dir ++ e ∧ no_slash e ∧ e ≠ [] ∧ e ≠ bs "." ∧ e ≠ bs "..") ∧
             (∀ p, r = Ok p → ws = [p])) [].
Proof.
  intros Hd. unfold saveFile, call. cbn [bindG all_runs note_writes res]. intros [[]|e].
  2: { split; [by intros p ?%not_elem_of_nil|discriminate]. }
  cbn [bindG all_runs note_writes res]. intros now r.
  pose proof (hyphen_elem (fmt_int now) (file_base name)) as (H1 & H2 & H3).
  rewrite Join_elem; [|done| |done..].
  2: { apply no_slash_app, no_slash_cons; [apply fmt_int_no_slash|discriminate|apply file_base_no_slash]. }
  split.
  - intros p [->|[]%not_elem_of_nil]%elem_of_cons. eexists. split; [done|]. split_and!; try done.
    apply no_slash_app, no_slash_cons; [apply fmt_int_no_slash|discriminate|apply file_base_no_slash].
  - intros p. destruct r; [by intros <-%Ok_inj|discriminate].
Qed.

(** C18: what arrives over a link is acknowledged once and announced once.  A
    text gives one [message] event and one DELIVERED receipt, both with its
    id; a file the same with a [file] event, or one [error] event and no
    receipt; receipts and typing indicators are never acknowledged; any other
    type is ignored. *)
Theorem inbound_effects dir l env :
  all_runs note_inbound (on_envelope dir l env)
    (λ σ _,
      match σ with
      | ([], receipts) => receipts = [] ∧ e_Type env ≠ TypeText ∧ e_Type env ≠ TypeFileOffer
      | ([e], receipts) =>
        (e_Type env = TypeText ∧ ev_Kind e = bs "message" ∧ ev_Text e = tb_Text (Text env).1 ∨
         e_Type env = TypeFileOffer ∧ ev_Kind e = bs "file") ∧
          ev_PeerFP e = lk_fp l ∧ ev_MsgID e = e_MsgID env ∧
          receipts = [(l, lk_fp l, e_MsgID env, StateDelivered)] ∨
        e_Type env = TypeFileOffer ∧ ev_Kind e = bs "error" ∧ receipts = [] ∨
        e_Type env = TypeTyping ∧ ev_Kind e = bs "typing" ∧ receipts = [] ∨
        e_Type env = TypeReceipt ∧ ev_Kind e = bs "receipt" ∧ receipts = []
      | _ => False
      end) ([], []).
Proof.
  unfold on_envelope.
  case_bool_decide as H1; [|case_bool_decide as H2; [|case_bool_decide as H3; [|case_bool_decide as H4]]].
  - unfold push, call. cbn [bindG all_runs note_inbound res]. intros _ t _ r. left. by split; [left|].
  - destruct (ParseFileOffer env) as [offer|e]; [|intros t a; right; by left].
    unfold on_file, saveFile, call. cbn [bindG all_runs note_inbound res].
    intros [data|e]; [|intros t a; right; by left]. cbn [bindG all_runs note_inbound res].
    intros [[]|e]; [|intros t a; right; by left]. cbn [bindG all_runs note_inbound res].
    intros now [[]|e]; [|intros t a; right; by left]. unfold push, call. cbn [bindG all_runs note_inbound res].
    intros _ t _ r. left. by split; [right|].
  - intros t a. right. right. by left.
  - destruct (Receipt env) as [rb [e|]]; cbn [all_runs]; [done|]. intros t a. by do 3 right.
  - done.
Qed.

(** [Stop] does not stop a handshake.  A link whose handshake finishes
    just after [Stop] is registered in the emptied table by [adopt], which
    does not look at [closed]; then the loops end, and the link stays open,
    its goroutine reading. *)
Theorem late_link_survives_stop pub salt dir l n :
  ∃ c, rtc (rt_step salt dir) (start_pool pub salt (S (S n))) c ∧
    closed (state c) = true ∧ links (state c) !! lk_fp l = Some l ∧ l ∉ dead (state c) ∧
    threads c = [Ret tt; Ret tt; Ret tt; Ret tt; recvLoop dir 1 l].
Proof.
  eexists. split.
  { unfold start_pool, new_runtime.
    eapply rtc_l; [apply (step_call _ _ _ _ _ _ (api_Stop _))|]. cbn [app].
    run 0%nat OIsClosed false. run 3%nat OStop (Some ([] : list link)).
    run 3%nat OSigClose tt. run 3%nat OTrClose tt.
    run 0%nat OListen (Ok l). run 0%nat (OSetLink l) tt. run 0%nat OUnix 0.
    run 0%nat (OPush (set_time 0 (ev_presence (lk_fp l) (peerURI l) true))) tt.
    run 0%nat (OGo l) tt. run 0%nat OIsClosed true.
    run 1%nat ODequeue (None : option outReq). run 2%nat OWait true.
    apply rtc_refl. }
  cbn [state threads closed links dead put_link set_links set_dead set_closed set_events].
  split_and!; [done|by rewrite lookup_insert_eq|by apply not_elem_of_nil|done].
Qed.

(** A peer that reconnects is shown as gone.  When a second link to the
    same peer replaces the first, closing the first ends its [recvLoop],
    whose last event says that the peer is offline - after the event of the
    new link, which is registered and open. *)
Theorem relink_shows_offline pub salt dir l1 l2 n :
  l1 ≠ l2 → lk_fp l1 = lk_fp l2 →
  ∃ c, rtc (rt_step salt dir) (start_pool pub salt (S (S n))) c ∧
    links (state c) !! lk_fp l2 = Some l2 ∧ l2 ∉ dead (state c) ∧
    events (state c) = [ev_presence (lk_fp l1) (peerURI l1) true;
                        ev_presence (lk_fp l2) (peerURI l2) true;
                        ev_presence (lk_fp l1) (peerURI l1) false].
Proof.
  intros Hne Hfp. eexists. split.
  { unfold start_pool, new_runtime.
    run 0%nat OIsClosed false. run 0%nat OListen (Ok l1). run 0%nat (OSetLink l1) tt. run 0%nat OUnix 0.
    run 0%nat (OPush (set_time 0 (ev_presence (lk_fp l1) (peerURI l1) true))) tt. run 0%nat (OGo l1) tt.
    run 0%nat OIsClosed false. run 0%nat OListen (Ok l2). run 0%nat (OSetLink l2) tt. run 0%nat OUnix 0.
    run 0%nat (OPush (set_time 0 (ev_presence (lk_fp l2) (peerURI l2) true))) tt. run 0%nat (OGo l2) tt.
    run 3%nat (OReceive l1) (@Err Envelope (bs "EOF")). run 3%nat (ODelLink (lk_fp l1) l1) tt. run 3%nat (OClose l1) tt.
    run 3%nat OUnix 0. run 3%nat (OPush (set_time 0 (ev_presence (lk_fp l1) (peerURI l1) false))) tt.
    apply rtc_refl. }
  rewrite (put_link_new l1) by done.
  rewrite (put_link_over l2 _ l1) by (done || (cbn; by rewrite <-Hfp, lookup_insert_eq)).
  rewrite (del_link_other (lk_fp l1)) by (cbn; rewrite Hfp, lookup_insert_eq; congruence).
  cbn [state links dead events set_events set_dead set_links].
  split_and!; [by rewrite lookup_insert_eq| |done].
  intros [?|[?|[]%not_elem_of_nil]%elem_of_cons]%elem_of_cons; congruence.
Qed.
End properties.

(** ** The event queue *)

Definition answer : Type := { o : op & res o }.

(** A sequence of operations with their answers, by whichever goroutines. *)
Inductive history : list answer → runtime → runtime → Prop :=
  | history_nil r : history [] r r
  | history_cons o a h r r1 r' : op_step o a r r1 → history h r1 r' → history (existT o a :: h) r r'.

Definition pushed (h : list answer) : list Event :=
  flat_map (λ x, match projT1 x with OPush e => [e] | _ => [] end) h.

Definition polled (h : list answer) : list Event :=
  flat_map (λ x, (match projT1 x as o return res o → list Event with OPoll => λ a, a | _ => λ _, [] end) (projT2 x)) h.

Lemma op_step_events o a r r' :
  op_step o a r r' →
  polled [existT o a] ++ events r' = events r ++ pushed [existT o a].
Proof.
  intros Ho. destruct o; cbn in *; rewrite ?app_nil_r; destruct_and?; subst; cbn; rewrite ?app_nil_r; try done.
  - unfold put_link. destruct (links r !! _); [by case_decide|done].
  - unfold del_link. by case_decide.
  - destruct (closed r); [by destruct Ho as [_ ->]|]. by destruct Ho as (? & _ & _ & ->).
  - by destruct Ho as [[_ ->]|[_ ->]].
  - by destruct Ho as [(? & ? & _ & _ & ->)|(_ & _ & ->)].
Qed.

Section queue.
(** C20: no event is lost, duplicated or reordered.  After any sequence of
    operations of any goroutines, what the calls of [Poll] returned, followed
    by what is waiting, is exactly what was pushed, in that order. *)
Theorem events_delivered_once h r :
  history h new_runtime r → polled h ++ events r = pushed h.
Proof.
  assert (∀ r0, history h r0 r → polled h ++ events r = events r0 ++ pushed h) as H.
  { intros r0. induction 1 as [r0|o a h r0 r1 r' Ho _ IH]; [by rewrite app_nil_r|].
    apply op_step_events in Ho. unfold polled, pushed in *. cbn [flat_map] in *. rewrite app_nil_r in Ho.
    rewrite <-app_assoc, IH, app_assoc, Ho, <-!app_assoc. done. }
  apply H.
Qed.
End queue.

(** ** Instances *)

Definition toy_link (i : Z) : link := MkLnk i (bs "fp") [].

Lemma no_link_leaks_witness :
  ∃ c, links (state c) !! bs "fp" = Some (toy_link 1) ∧
    (links (state c) !! bs "fp" = Some (toy_link 1) ∨ toy_link 1 ∈ dead (state c) ∨
     Exists (owes (OClose (toy_link 1))) (threads c)).
Proof.
  assert (∃ c, rtc (rt_step [] (bs "/d")) (start_pool [] [] 1) c ∧ links (state c) !! bs "fp" = Some (toy_link 1))
    as (c & Hr & Hl).
  { eexists. split.
    - unfold start_pool, new_runtime. run 0%nat OIsClosed false. run 0%nat OListen (Ok (toy_link 1)).
      run 0%nat (OSetLink (toy_link 1)) tt. apply rtc_refl.
    - reflexivity. }
  exists c. split; [exact Hl|]. exact (no_link_leaks [] [] (bs "/d") 1 c c (toy_link 1) Hr Hl (rtc_refl _ _)).
Defined.

(** A link whose connection broke. *)
Lemma unregistered_link_closes_witness :
  ∃ c', links (state c') !! bs "fp" ≠ Some (toy_link 1) ∧
    ∃ i, alone op_step (spawned (bs "/d")) i (λ c, toy_link 1 ∈ dead (state c)) c'.
Proof.
  assert (∃ c c', rtc (rt_step [] (bs "/d")) (start_pool [] [] 2) c ∧ links (state c) !! bs "fp" = Some (toy_link 1) ∧
                  rtc (rt_step [] (bs "/d")) c c' ∧ links (state c') !! bs "fp" ≠ Some (toy_link 1)) as (c & c' & H1 & Hl & H2 & Hn).
  { do 2 eexists. split_and!.
    - unfold start_pool, new_runtime. run 0%nat OIsClosed false. run 0%nat OListen (Ok (toy_link 1)).
      run 0%nat (OSetLink (toy_link 1)) tt. run 0%nat OUnix 0.
      run 0%nat (OPush (set_time 0 (ev_presence (bs "fp") [] true))) tt. run 0%nat (OGo (toy_link 1)) tt. apply rtc_refl.
    - reflexivity.
    - run 3%nat (OReceive (toy_link 1)) (@Err Envelope (bs "EOF")). run 3%nat (ODelLink (bs "fp") (toy_link 1)) tt.
      apply rtc_refl.
    - discriminate. }
  exists c'. split; [exact Hn|].
  exact (unregistered_link_closes [] [] (bs "/d") 2 c c' (toy_link 1) H1 Hl H2 Hn).
Defined.

Lemma saved_file_stays_inside_witness :
  bs "/d/files" ≠ [] ∧
  all_runs note_writes (saveFile (bs "/d/files") (bs "../../etc/passwd") (bs "x"))
    (λ ws r, (∀ p, p ∈ ws → ∃ e, p = dir_prefix (bs "/d/files") ++ e ∧ no_slash e ∧ e ≠ [] ∧ e ≠ bs "." ∧ e ≠ bs "..") ∧
             (∀ p, r = Ok p → ws = [p])) [].
Proof. split; [discriminate|]. apply saved_file_stays_inside. discriminate. Defined.

Lemma relink_shows_offline_witness :
  ∃ c, rtc (rt_step [] (bs "/d")) (start_pool [] [] 2) c ∧
    links (state c) !! bs "fp" = Some (toy_link 2) ∧ toy_link 2 ∉ dead (state c) ∧
    events (state c) = [ev_presence (bs "fp") [] true; ev_presence (bs "fp") [] true; ev_presence (bs "fp") [] false].
Proof. apply (relink_shows_offline [] [] (bs "/d") (toy_link 1) (toy_link 2) 0); [discriminate|reflexivity]. Defined.

Lemma events_delivered_once_witness :
  let e := ev_error (bs "x") in
  let h := [existT (OPush e) tt; existT OPoll [e]; existT (OPush e) tt] : list answer in
  polled h ++ [e] = pushed h.
Proof.
  intros e h. apply (events_delivered_once h (set_events [e] new_runtime)).
  eapply history_cons; [reflexivity|]. eapply history_cons; [split; reflexivity|].
  eapply history_cons; [reflexivity|]. constructor.
Defined.
