(* ===== verification/Events.v ===== *)
(** * Events on the wire to the app ([Event] of [pkg/runtime])

    The JSON of the events [Poll] hands out, and why a NUL-terminated C string
    can carry it: printed JSON has no control bytes. *)

From S2P Require Import Prelude Bytes Strconv Json Codec GoTime Sha2 Identity Filetransfer Messaging Url Contact Settings Node Paths Prog Runtime.
Open Scope Z_scope.

(** ** The struct tags *)

Definition enc_Event (e : Event) : json := enc_struct [
  field_of "kind" (enc_str (ev_Kind e));
  omitempty (bool_decide (ev_PeerFP e = [])) "peerFp" (enc_str (ev_PeerFP e));
  omitempty (bool_decide (ev_PeerURI e = [])) "peerUri" (enc_str (ev_PeerURI e));
  omitempty (bool_decide (ev_Text e = [])) "text" (enc_str (ev_Text e));
  omitempty (bool_decide (ev_Name e = [])) "name" (enc_str (ev_Name e));
  omitempty (bool_decide (ev_Path e = [])) "path" (enc_str (ev_Path e));
  omitempty (bool_decide (ev_MsgID e = [])) "msgId" (enc_str (ev_MsgID e));
  omitempty (negb (ev_Online e)) "online" (JBool (ev_Online e));
  omitempty (bool_decide (ev_Detail e = [])) "detail" (enc_str (ev_Detail e));
  field_of "time" (enc_int (ev_Time e))].

Definition zero_Event : Event := MkEvent [] [] [] [] [] [] [] false [] 0.

Definition Event_fields : list (field Event) := [
  fld "kind" ev_Kind (λ v e, MkEvent v (ev_PeerFP e) (ev_PeerURI e) (ev_Text e) (ev_Name e) (ev_Path e) (ev_MsgID e) (ev_Online e) (ev_Detail e) (ev_Time e)) dec_str;
  fld "peerFp" ev_PeerFP (λ v e, MkEvent (ev_Kind e) v (ev_PeerURI e) (ev_Text e) (ev_Name e) (ev_Path e) (ev_MsgID e) (ev_Online e) (ev_Detail e) (ev_Time e)) dec_str;
  fld "peerUri" ev_PeerURI (λ v e, MkEvent (ev_Kind e) (ev_PeerFP e) v (ev_Text e) (ev_Name e) (ev_Path e) (ev_MsgID e) (ev_Online e) (ev_Detail e) (ev_Time e)) dec_str;
  fld "text" ev_Text (λ v e, MkEvent (ev_Kind e) (ev_PeerFP e) (ev_PeerURI e) v (ev_Name e) (ev_Path e) (ev_MsgID e) (ev_Online e) (ev_Detail e) (ev_Time e)) dec_str;
  fld "name" ev_Name (λ v e, MkEvent (ev_Kind e) (ev_PeerFP e) (ev_PeerURI e) (ev_Text e) v (ev_Path e) (ev_MsgID e) (ev_Online e) (ev_Detail e) (ev_Time e)) dec_str;
  fld "path" ev_Path (λ v e, MkEvent (ev_Kind e) (ev_PeerFP e) (ev_PeerURI e) (ev_Text e) (ev_Name e) v (ev_MsgID e) (ev_Online e) (ev_Detail e) (ev_Time e)) dec_str;
  fld "msgId" ev_MsgID (λ v e, MkEvent (ev_Kind e) (ev_PeerFP e) (ev_PeerURI e) (ev_Text e) (ev_Name e) (ev_Path e) v (ev_Online e) (ev_Detail e) (ev_Time e)) dec_str;
  fld "online" ev_Online (λ v e, MkEvent (ev_Kind e) (ev_PeerFP e) (ev_PeerURI e) (ev_Text e) (ev_Name e) (ev_Path e) (ev_MsgID e) v (ev_Detail e) (ev_Time e)) dec_bool;
  fld "detail" ev_Detail (λ v e, MkEvent (ev_Kind e) (ev_PeerFP e) (ev_PeerURI e) (ev_Text e) (ev_Name e) (ev_Path e) (ev_MsgID e) (ev_Online e) v (ev_Time e)) dec_str;
  fld "time" ev_Time (λ v e, MkEvent (ev_Kind e) (ev_PeerFP e) (ev_PeerURI e) (ev_Text e) (ev_Name e) (ev_Path e) (ev_MsgID e) (ev_Online e) (ev_Detail e) v) (dec_int 64)].

(** [json.Marshal(r.Poll())]: [Poll] returns a nil slice when nothing waits. *)
Definition enc_events (l : list Event) : json :=
  match l with [] => JNull | _ => JArr (map enc_Event l) end.

Definition events_json (l : list Event) : bytes := marshal (enc_events l).

(** What a reader of the array finds. *)
Definition read_events (b : bytes) : result (option (list Event)) :=
  unmarshal_ok (dec_list zero_Event (dec_struct Event_fields)) None b.

(** ** Round trip *)

Definition wf_Event (e : Event) : Prop :=
  Forall (λ s, valid_utf8 s = true)
    [ev_Kind e; ev_PeerFP e; ev_PeerURI e; ev_Text e; ev_Name e; ev_Path e; ev_MsgID e; ev_Detail e] ∧
  0 ≤ ev_Time e < 2 ^ 63.

Lemma wf_enc_Event e : wf_Event e → wf_json (enc_Event e).
Proof.
  intros [Hs Ht]. do 8 (apply Forall_cons in Hs as [? Hs]). unfold enc_Event.
  wf_struct; auto with stunner; try (intros _; done).
Qed.

(** One member of the printed struct. *)
Ltac member :=
  first [erewrite fold_field; [|reflexivity|unfold fld; cbn [snd]; first [rewrite dec_enc_int by done; reflexivity|cbn; reflexivity]]
        |erewrite fold_omitted; [|reflexivity|unfold fld; cbn; reflexivity|
           intros E; first [apply bool_decide_eq_true in E|apply negb_true_iff in E]; subst; reflexivity]];
  cbn [ev_Kind ev_PeerFP ev_PeerURI ev_Text ev_Name ev_Path ev_MsgID ev_Online ev_Detail ev_Time].

Lemma dec_enc_Event e : 0 ≤ ev_Time e < 2 ^ 63 → dec_struct Event_fields (enc_Event e) zero_Event = (e, None).
Proof.
  destruct e as [k fp uri t n p id o d tm]. cbn [ev_Time]. intros Ht. unfold enc_Event, enc_struct.
  cbn [ev_Kind ev_PeerFP ev_PeerURI ev_Text ev_Name ev_Path ev_MsgID ev_Online ev_Detail ev_Time].
  rewrite dec_struct_obj. unfold zero_Event. do 10 member. reflexivity.
Qed.

Lemma wf_enc_events l : Forall wf_Event l → wf_json (enc_events l).
Proof.
  intros Hl. destruct Hl as [|e l He Hl]; [exact I|]. apply wf_json_arr.
  change (map enc_Event (e :: l)) with (enc_Event e :: map enc_Event l). constructor; [by apply wf_enc_Event|].
  induction Hl; cbn [map]; [constructor|]. constructor; [by apply wf_enc_Event|done].
Qed.

Lemma dec_elems_events l :
  Forall wf_Event l → dec_elems zero_Event (dec_struct Event_fields) (map enc_Event l) = (l, None).
Proof.
  intros Hl. induction Hl as [|e l He Hl IH]; [done|]. cbn [map dec_elems].
  rewrite IH, dec_enc_Event by apply He. done.
Qed.

Lemma read_events_json l :
  Forall wf_Event l → read_events (events_json l) = Ok (match l with [] => None | _ => Some l end).
Proof.
  intros Hl. apply unmarshal_ok_marshal; [by apply wf_enc_events|].
  destruct l as [|e l]; [done|]. unfold enc_events, dec_list. by rewrite dec_elems_events.
Qed.

(** ** No control bytes *)

Definition printable (b : byte) : Prop := 32 ≤ Zb b.

Definition chunk_ok (c : rchunk) : Prop :=
  match c with Rune [b] => True | Rune e => Forall (λ b, 128 ≤ Zb b) e | Bad => True end.

Lemma in_range_iff lo hi b : in_range lo hi b = true ↔ lo ≤ Zb b ≤ hi.
Proof. unfold in_range. rewrite andb_true_iff, !Z.leb_le. done. Qed.

Lemma runes_ok s : Forall chunk_ok (runes s).
Proof.
  induction s as [s IH] using list_len_ind. destruct s as [|b0 t0]; [constructor|].
  cbn [runes]. destruct (Zb b0 <? 128) eqn:E0; [constructor; [done|apply IH; cbn; lia]|].
  destruct t0 as [|b1 t1]; [by repeat constructor|].
  destruct (rune_ok2 b0 b1) eqn:E2.
  { constructor; [|apply IH; cbn; lia]. unfold rune_ok2 in E2. rewrite andb_true_iff, !in_range_iff in E2.
    repeat constructor; lia. }
  destruct t1 as [|b2 t2]; [constructor; [done|apply IH; cbn; lia]|].
  destruct (rune_ok3 b0 b1 b2) eqn:E3.
  { constructor; [|apply IH; cbn; lia]. unfold rune_ok3 in E3.
    rewrite !andb_true_iff, !orb_true_iff, !andb_true_iff, !in_range_iff, !Z.eqb_eq in E3. repeat constructor; lia. }
  destruct t2 as [|b3 t3]; [constructor; [done|apply IH; cbn; lia]|].
  destruct (rune_ok4 b0 b1 b2 b3) eqn:E4; (constructor; [|apply IH; cbn; lia]); [|done].
  unfold rune_ok4 in E4.
  rewrite !andb_true_iff, !orb_true_iff, !andb_true_iff, !in_range_iff, !Z.eqb_eq in E4. repeat constructor; lia.
Qed.

(** [Forall printable], decided by evaluation. *)
Lemma printable_lit s : forallb (λ b, 32 <=? Zb b) s = true → Forall printable s.
Proof.
  intros H. apply Forall_forall. intros b Hb. rewrite forallb_forall in H.
  by apply list_elem_of_In, H, Z.leb_le in Hb.
Qed.

Lemma escape_chunk_printable c : chunk_ok c → Forall printable (escape_chunk c).
Proof.
  assert (∀ b, forallb (λ b, 32 <=? Zb b) (escape_ascii b) = true) as Ha.
  { apply forall_bytes. vm_compute. reflexivity. }
  assert (∀ e, Forall (λ b, 128 ≤ Zb b) e → Forall printable e) as Hh.
  { intros e He. eapply Forall_impl; [exact He|]. unfold printable. cbn. lia. }
  intros Hc. destruct c as [e|]; [|unfold escape_chunk; by apply printable_lit].
  unfold escape_chunk. destruct e as [|b [|b' e]]; [by repeat case_decide|..].
  - by apply printable_lit.
  - case_decide; [by apply printable_lit|]. case_decide; [by apply printable_lit|]. by apply Hh.
Qed.

Lemma print_str_printable s : Forall printable (print_str s).
Proof.
  unfold print_str. constructor; [done|]. apply Forall_app. split; [|by constructor].
  induction (runes_ok s) as [|c l Hc _ IH]; cbn [flat_map]; [constructor|].
  apply Forall_app. split; [by apply escape_chunk_printable|done].
Qed.

Lemma join_printable sep l : printable sep → Forall (Forall printable) l → Forall printable (join sep l).
Proof.
  intros Hs Hl. induction Hl as [|x l Hx Hl IH]; [constructor|]. destruct l as [|y l]; [done|].
  change (join sep (x :: y :: l)) with (x ++ sep :: join sep (y :: l)).
  apply Forall_app. split; [done|]. by constructor.
Qed.

(** Printed JSON is one line of text without control bytes. *)
Lemma print_printable v : wf_json v → Forall printable (print v).
Proof.
  induction v as [|[]|lit|s|l IH|l IH] using json_nested_ind; intros Hwf; cbn [print].
  - by apply printable_lit.
  - by apply printable_lit.
  - by apply printable_lit.
  - destruct Hwf as (_ & Hd & _). apply Forall_forall. intros b Hb. rewrite forallb_forall in Hd.
    apply list_elem_of_In, Hd in Hb. unfold is_digit in Hb. apply in_range_iff in Hb. unfold printable. lia.
  - apply print_str_printable.
  - constructor; [done|]. apply Forall_app. split; [|by constructor]. apply join_printable; [done|].
    apply wf_json_arr in Hwf. induction IH as [|x l Hx _ IHl]; cbn [map]; [constructor|].
    apply Forall_cons in Hwf as [? ?]. constructor; auto.
  - constructor; [done|]. apply Forall_app. split; [|by constructor]. apply join_printable; [done|].
    apply wf_json_obj in Hwf. induction IH as [|x l Hx _ IHl]; cbn [map]; [constructor|].
    apply Forall_cons in Hwf as [[_ ?] ?]. constructor; [|auto].
    apply Forall_app. split; [apply print_str_printable|]. constructor; [done|auto].
Qed.
