(* ===== verification/Roles.v ===== *)
(** * What each goroutine does with one link ([pkg/runtime])

    Of the goroutines of an engine, one worker sends the requests of the
    application, one loop reads a given link, and the others do neither.  A
    role is what one of them is about to do with the link [a]; [may] says what
    a goroutine in a role does, and every program of [Runtime] follows it. *)

From S2P Require Import Prelude Bytes Encoding Json Codec GoTime Curve Identity Filetransfer Messaging Paths Url Contact Node NodeFile Demo Prog Runtime.
Open Scope Z_scope.

(** ** Messages *)

(** What the application of the receiver hears of an envelope. *)
Inductive item :=
  | IText (id text : bytes)
  | IReceipt (id state : bytes).

#[global] Instance item_eq_dec : EqDecision item.
Proof. solve_decision. Defined.

Definition items_of (env : Envelope) : list item :=
  if bool_decide (e_Type env = TypeText) then [IText (e_MsgID env) (tb_Text (Text env).1)]
  else if bool_decide (e_Type env = TypeReceipt) then
    match Receipt env with (rb, None) => [IReceipt (rb_RefMsgID rb) (rb_State rb)] | _ => [] end
  else [].

(** The file an envelope announces. *)
Definition offer_of (env : Envelope) : option Offer :=
  match ParseFileOffer env with Ok offer => Some offer | Err _ => None end.

Lemma offer_of_type env : e_Type env ≠ TypeFileOffer → offer_of env = None.
Proof. intros Ht. unfold offer_of, ParseFileOffer. by rewrite bool_decide_eq_false_2. Qed.

Definition option_list {A} (x : option A) : list A := match x with Some y => [y] | None => [] end.

(** A request an application makes: texts are UTF-8, and have an id. *)
Definition valid_req (req : outReq) : Prop :=
  rq_filePath req = [] → valid_utf8 (rq_text req) = true ∧ valid_utf8 (rq_msgID req) = true ∧ rq_msgID req ≠ [].

(** ** Roles *)

(** The file a reader is busy with: just offered, received, or saved. *)
Inductive hand :=
  | Nothing
  | Offered (offer : Offer)
  | Arrived (name data : bytes)
  | Saved (name data path : bytes).

Inductive role :=
  | Other
  | Reader (xs : list item) (seen : list bytes) (file : hand)
      (** read but not shown; the ids shown; the file not announced *)
  | Worker (req : option outReq) (data : option bytes) (done : list outReq).
      (** taken but not sent; the octets read for it; sent *)

Definition is_reader (σ : role) : Prop := match σ with Reader _ _ _ => True | _ => False end.
Definition is_worker (σ : role) : Prop := match σ with Worker _ _ _ => True | _ => False end.

Section roles.
(** The engine's name of the link. *)
Context (a : link).

(** What an event tells of the peer's messages, and the ids it announces. *)
Definition shows (e : Event) : list item :=
  if bool_decide (ev_PeerFP e = lk_fp a) then
    if bool_decide (ev_Kind e = bs "message") then [IText (ev_MsgID e) (ev_Text e)]
    else if bool_decide (ev_Kind e = bs "receipt") then [IReceipt (ev_MsgID e) (ev_Detail e)]
    else []
  else [].

Definition announces (e : Event) : list bytes :=
  if bool_decide (ev_PeerFP e = lk_fp a) && (bool_decide (ev_Kind e = bs "message") || bool_decide (ev_Kind e = bs "file"))
  then [ev_MsgID e] else [].

(** The files of the peer it announces: their names, and where they are. *)
Definition files (e : Event) : list (bytes * bytes) :=
  if bool_decide (ev_PeerFP e = lk_fp a) && bool_decide (ev_Kind e = bs "file") then [(ev_Name e, ev_Path e)] else [].

(** The ids it says were sent to the peer. *)
Definition confirms (e : Event) : list bytes :=
  if bool_decide (ev_PeerFP e = lk_fp a) && bool_decide (ev_Kind e = bs "sent") then [ev_MsgID e] else [].

(** The text of a request for the peer. *)
Definition addressed (req : outReq) : bool :=
  match ParseURI zero_time (rq_peerURI req) with
  | Ok c => bool_decide (Fingerprint (c_IdentityKey c) = lk_fp a)
  | Err _ => false
  end.

Definition asks (req : outReq) : list item :=
  if addressed req && bool_decide (rq_filePath req = []) then [IText (rq_msgID req) (rq_text req)] else [].

(** A request to send a file to the peer. *)
Definition file_asked (req : outReq) : bool := addressed req && negb (bool_decide (rq_filePath req = [])).

Definition may (o : op) (σ : role) : Prop :=
  match o with
  | ODequeue => is_worker σ
  | OPush e =>
      (shows e = [] ∨ ∃ seen f, σ = Reader (shows e) seen f) ∧
      (files e = [] ∨ ∃ xs seen name data path, σ = Reader xs seen (Saved name data path) ∧ files e = [(name, path)]) ∧
      ∀ id, id ∈ confirms e → ∃ w f done req, σ = Worker w f done ∧ req ∈ done ∧ addressed req = true ∧ rq_msgID req = id
  | OSetLast fp id => fp = lk_fp a → valid_utf8 id = true
  | OGo l | OSetLink l => lk_fp l ≠ lk_fp a
  | OReceive l => l = a → ∃ seen, σ = Reader [] seen Nothing
  | OFileBody l offer => l = a → ∃ seen, σ = Reader [] seen (Offered offer)
  | OSendEnvelope l env => l = a →
      wf_Envelope env ∧ offer_of env = None ∧
      ∃ req f done, σ = Worker (Some req) f done ∧ file_asked req = false ∧ items_of env = asks req
  | OSendFile l fp name _ data => l = a →
      valid_utf8 fp = true ∧ file_fits data ∧
      ∃ req done, σ = Worker (Some req) (Some data) done ∧ file_asked req = true ∧ name = Base (rq_filePath req)
  | OSendReceipt l fp id st => l = a →
      valid_utf8 fp = true ∧ valid_utf8 id = true ∧ valid_utf8 st = true ∧
      (st = StateDelivered → ∃ xs seen f, σ = Reader xs seen f ∧ id ∈ seen)
  | OSendTyping l fp => l = a → valid_utf8 fp = true
  | _ => True
  end.

(** A message of the worker was handed to the link, or not. *)
Definition handed {A} (r : result A) (σ : role) : role :=
  match σ, r with
  | Worker w _ done, Ok _ => Worker None None (option_list w ++ done)
  | Worker _ _ done, Err _ => Worker None None done
  | _, _ => σ
  end.

Definition next (o : op) : res o → role → role :=
  match o return res o → role → role with
  | ODequeue => λ r σ, match σ, r with Worker _ _ done, Some req => Worker (Some req) None done | _, _ => σ end
  | OReadFile path => λ r σ,
      match σ, r with
      | Worker (Some req) f done, Ok data => Worker (Some req) (if decide (path = rq_filePath req) then Some data else f) done
      | _, _ => σ
      end
  | OMkdirAll _ => λ r σ, match σ, r with Reader xs seen (Arrived _ _), Err _ => Reader xs seen Nothing | _, _ => σ end
  | OWriteFile path data => λ r σ,
      match σ, r with
      | Reader xs seen (Arrived name data'), Ok _ =>
        Reader xs seen (if decide (data = data') then Saved name data path else Arrived name data')
      | Reader xs seen (Arrived _ _), Err _ => Reader xs seen Nothing
      | _, _ => σ
      end
  | OPush e => λ _ σ,
      match σ with
      | Reader xs seen f =>
        Reader (if decide (shows e = []) then xs else []) (announces e ++ seen) (if decide (files e = []) then f else Nothing)
      | _ => σ
      end
  | OReceive l => λ r σ,
      if decide (l = a) then
        match σ with
        | Reader _ seen _ =>
          match r with
          | Ok env => Reader (items_of env) seen (from_option Offered Nothing (offer_of env))
          | Err _ => Reader [] seen Nothing
          end
        | _ => σ
        end
      else σ
  | OFileBody l offer => λ r σ,
      if decide (l = a) then
        match σ with
        | Reader _ seen _ => Reader [] seen (match r with Ok data => Arrived (o_Name offer) data | Err _ => Nothing end)
        | _ => σ
        end
      else σ
  | OSendEnvelope l _ => λ r σ, if decide (l = a) then handed r σ else σ
  | OSendFile l _ _ _ _ => λ r σ, if decide (l = a) then handed r σ else σ
  | _ => λ _ σ, σ
  end.

(** What a goroutine can count on: no other link is to the same peer. *)
Definition knows (o : op) : res o → Prop :=
  match o return res o → Prop with
  | OGetLink fp => λ r, ∀ l, r = Some l → lk_fp l = fp ∧ (fp = lk_fp a → l = a)
  | OListen => λ r, ∀ l, r = Ok l → lk_fp l ≠ lk_fp a
  | OConnect key => λ r, ∀ l, r = Ok l → lk_fp l = Fingerprint key ∧ lk_fp l ≠ lk_fp a
  | OClock => wf_time
  | ODequeue => λ r, ∀ req, r = Some req → valid_req req
  | OReceive l => λ r, l = a → ∀ env, r = Ok env → wf_Envelope env
  | OLast fp => λ r, fp = lk_fp a → valid_utf8 r = true
  | OReadFile _ => λ r, ∀ data, r = Ok data → file_fits data
  | _ => λ _, True
  end.

Abbreviation follows := (Prog.follows (R := res) may knows next).

(** *** Programs in a role *)

(** Operations that mean nothing to any role. *)
Definition quiet (o : op) : Prop := ∀ σ, may o σ ∧ ∀ r, next o r σ = σ.

Lemma follows_call {A} o (k : res o → prog A) φ σ :
  may o σ → (∀ r, knows o r → follows (k r) φ (next o r σ)) → follows (bindG (call o) k) φ σ.
Proof. by split. Qed.

Lemma follows_quiet {A} o (k : res o → prog A) φ σ :
  quiet o → (∀ r, knows o r → follows (k r) φ σ) → follows (bindG (call o) k) φ σ.
Proof. intros Hq Hk. destruct (Hq σ) as [Hm Hn]. split; [done|]. intros r Hr. cbn [bindG]. rewrite Hn. by apply Hk. Qed.

Lemma confirms_kind e : ev_Kind e ≠ bs "sent" → confirms e = [].
Proof. intros Hk. unfold confirms. by rewrite (bool_decide_eq_false_2 (ev_Kind e = _)), andb_false_r. Qed.

Lemma no_confirms {P : bytes → Prop} e : confirms e = [] → ∀ id, id ∈ confirms e → P id.
Proof. intros -> id Hid. by apply not_elem_of_nil in Hid. Qed.

(** What a reader has in hand when it announces [e]. *)
Definition announced_from (e : Event) (f : hand) : Prop :=
  f = Nothing ∧ files e = [] ∨ ∃ name data path, f = Saved name data path ∧ files e = [(name, path)].

Lemma push_shown e φ xs seen f :
  ev_Kind e ≠ bs "sent" → xs = shows e → announced_from e f → φ (Reader [] (announces e ++ seen) Nothing) tt →
  follows (push e) φ (Reader xs seen f).
Proof.
  intros Hk -> Hf Hφ. split; [done|]. intros t _. split.
  { split; [right; by exists seen, f|]. split; [|apply no_confirms; by apply confirms_kind].
    destruct Hf as [[_ ?]|(name & data & path & -> & ?)]; [by left|right; by eexists _, _, _, _, _]. }
  intros [] _. cbn [bindG follows next]. change (shows (set_time t e)) with (shows e).
  change (announces (set_time t e)) with (announces e). change (files (set_time t e)) with (files e).
  assert ((if decide (shows e = []) then shows e else []) = []) as -> by by case_decide.
  assert ((if decide (files e = []) then f else Nothing) = Nothing) as ->; [|done].
  destruct Hf as [[-> _]|(name & data & path & _ & ->)]; [by case_decide|done].
Qed.

Lemma push_ok e φ σ :
  shows e = [] → announces e = [] → files e = [] →
  (∀ id, id ∈ confirms e → ∃ w f done req, σ = Worker w f done ∧ req ∈ done ∧ addressed req = true ∧ rq_msgID req = id) →
  φ σ tt → follows (push e) φ σ.
Proof.
  intros Hs Ha Hf Hc Hφ. split; [done|]. intros t _. split; [split; [by left|split; [by left|exact Hc]]|].
  intros [] _. cbn [bindG follows next].
  destruct σ as [|xs seen f|]; [done| |done]. rewrite !decide_True by done.
  change (announces (set_time t e)) with (announces e). by rewrite Ha.
Qed.

Lemma push_quiet e φ σ :
  shows e = [] → announces e = [] → files e = [] → confirms e = [] → φ σ tt → follows (push e) φ σ.
Proof. intros Hs Ha Hf Hc. apply push_ok; [done..|by apply no_confirms]. Qed.

Lemma files_kind e : ev_Kind e ≠ bs "file" → files e = [].
Proof. intros Hk. unfold files. by rewrite (bool_decide_eq_false_2 (ev_Kind e = _)), andb_false_r. Qed.

Lemma push_plain e φ σ :
  ev_Kind e ≠ bs "message" → ev_Kind e ≠ bs "receipt" → ev_Kind e ≠ bs "file" → ev_Kind e ≠ bs "sent" →
  φ σ tt → follows (push e) φ σ.
Proof.
  intros H1 H2 H3 H4. apply push_quiet; [unfold shows|unfold announces|by apply files_kind|by apply confirms_kind];
    case_bool_decide; try done; by rewrite !bool_decide_eq_false_2 by done.
Qed.

(** The event that a request was sent. *)
Lemma push_sent fp req φ w f done :
  (fp = lk_fp a → req ∈ done ∧ addressed req = true) → φ (Worker w f done) tt →
  follows (push (ev_sent fp (rq_msgID req))) φ (Worker w f done).
Proof.
  intros Hs. apply push_ok; try (unfold shows, announces; by case_bool_decide); [by apply files_kind|].
  unfold confirms, ev_sent. cbn [ev_PeerFP ev_Kind ev_MsgID].
  case_bool_decide as E; [|by intros id ?%not_elem_of_nil]. rewrite bool_decide_eq_true_2 by done.
  cbn [andb]. intros id ->%list_elem_of_singleton. destruct (Hs E). by exists w, f, done, req.
Qed.

(** The next operation, when it is a quiet one. *)
Ltac quiet := apply follows_quiet; [by intros ?|].
Ltac plain := apply push_plain; [discriminate..|].

Definition stays (σ : role) {A} (σ1 : role) (x : A) : Prop := σ1 = σ.

Lemma adopt_follows l σ : lk_fp l ≠ lk_fp a → follows (adopt l) (stays σ) σ.
Proof. intros Hl. unfold adopt. apply follows_call; [done|]. intros r _. apply follows_bind. plain. by split. Qed.

Lemma dropLink_follows fp l φ σ : φ σ tt → follows (dropLink fp l) φ σ.
Proof. intros Hφ. unfold dropLink. quiet. intros _ _. split; [done|]. by intros [] _. Qed.

Lemma connect_loop_follows n key e σ :
  follows (connect_loop n key e)
    (λ σ1 r, σ1 = σ ∧ ∀ l, r = Some (Ok l) → lk_fp l = Fingerprint key ∧ lk_fp l ≠ lk_fp a) σ.
Proof.
  revert e. induction n as [|n IH]; intros e; cbn [connect_loop]; [done|].
  quiet. intros [] _; [done|]. quiet. intros [l|e'] Hl; [split; [done|]; intros l' [= <-]; by apply Hl|].
  quiet. intros [] _; [done|apply IH].
Qed.

(** *** The worker *)

Lemma ParseURI_key now s c :
  ParseURI now s = Ok c → ∃ c0, ParseURI zero_time s = Ok c0 ∧ c_IdentityKey c0 = c_IdentityKey c.
Proof.
  unfold ParseURI. destruct (url_parse s) as [u|]; [|done]. cbn [bindR].
  destruct (_ || _); [done|]. destruct (b64_decode _ _ _) as [raw|]; [|done].
  case_decide; [done|]. intros <-%Ok_inj. by eexists.
Qed.

Lemma addressed_key now req c :
  ParseURI now (rq_peerURI req) = Ok c → Fingerprint (c_IdentityKey c) = lk_fp a → addressed req = true.
Proof.
  intros (c0 & E & Hk)%ParseURI_key Hfp. unfold addressed. rewrite E, Hk. by rewrite bool_decide_eq_true_2.
Qed.

Lemma asks_addressed req :
  addressed req = true → rq_filePath req = [] → asks req = [IText (rq_msgID req) (rq_text req)].
Proof. intros Ha Hf. unfold asks. by rewrite Ha, bool_decide_eq_true_2. Qed.

Lemma NewText_item now conv text t id env :
  wf_time now → valid_utf8 conv = true → valid_utf8 text = true → valid_utf8 id = true → id ≠ [] →
  (NewText now conv text None t).1 = Ok env →
  wf_Envelope (with_msgID id env) ∧ offer_of (with_msgID id env) = None ∧ items_of (with_msgID id env) = [IText id text].
Proof.
  intros Hn Hc Hx Hi Hne. unfold NewText.
  destruct (NewEnvelope_Ok now TypeText conv (Some (marshal (enc_TextBody (MkTextBody text None)))) t) as (mid & -> & Hm);
    [done..|].
  intros <-%Ok_inj. unfold with_msgID. rewrite bool_decide_eq_false_2 by done. split; [by split|]. split; [done|].
  unfold items_of. cbn [e_Type set_MsgID e_MsgID]. rewrite bool_decide_eq_true_2 by done.
  by rewrite (Text_body _ text).
Qed.

Lemma deliver_over_follows fp l req f done :
  (l = a ↔ fp = lk_fp a) → (fp = lk_fp a → addressed req = true) →
  valid_utf8 fp = true → valid_req req →
  follows (deliver_over fp l req) (λ σ _, is_worker σ) (Worker (Some req) f done).
Proof.
  intros Hl Ha Hfp Hv. unfold deliver_over. case_bool_decide as Hf.
  - destruct (Hv Hf) as (Hx & Hi & Hne). unfold deliver_text. quiet. intros now Hnow. quiet. intros t _.
    destruct (NewText _ _ _ _ _).1 as [env|e] eqn:E; [|by plain].
    destruct (NewText_item _ _ _ _ _ _ Hnow Hfp Hx Hi Hne E) as (Hw & Hof & Hit).
    apply follows_call.
    { intros El. split; [done|]. split; [done|]. exists req, f, done. split; [done|]. split.
      - unfold file_asked. by rewrite bool_decide_eq_true_2, andb_false_r.
      - rewrite asks_addressed; [done|by apply Ha, Hl|done]. }
    intros [[]|e] _; cbn [next]; case_decide as El; cbn [handed option_list app].
    + apply push_sent; [|done]. intros Efp. split; [by left|by apply Ha].
    + apply push_sent; [|done]. intros Efp. by destruct El; apply Hl.
    + apply follows_bind, dropLink_follows. by plain.
    + apply follows_bind, dropLink_follows. by plain.
  - unfold deliver_file, mimeOf. apply follows_call; [done|]. intros [data|e] Hd; cbn [next]; [|by plain].
    rewrite decide_True by done. apply follows_bind. quiet. intros mime _. cbn [Prog.follows].
    apply follows_call.
    { intros El. split; [done|]. split; [by apply Hd|]. exists req, done. split_and!; [done| |done].
      unfold file_asked. rewrite (Ha (proj1 Hl El)). by rewrite bool_decide_eq_false_2. }
    intros [[]|e] _; cbn [next]; case_decide as El; cbn [handed option_list app].
    + apply push_sent; [|done]. intros Efp. split; [by left|by apply Ha].
    + apply push_sent; [|done]. intros Efp. by destruct El; apply Hl.
    + apply follows_bind, dropLink_follows. by plain.
    + apply follows_bind, dropLink_follows. by plain.
Qed.

Lemma deliver_follows req f done :
  valid_req req → follows (deliver req) (λ σ _, is_worker σ) (Worker (Some req) f done).
Proof.
  intros Hv. unfold deliver, parse_uri. apply follows_bind. quiet. intros now Hnow. cbn [Prog.follows].
  destruct (ParseURI now (rq_peerURI req)) as [c|e] eqn:Ec; [|by plain].
  pose proof (valid_utf8_Fingerprint (c_IdentityKey c)) as Hfp.
  pose proof (addressed_key _ _ _ Ec) as Had.
  quiet. intros [l|] Hl.
  - destruct (Hl l eq_refl) as [H1 H2]. apply deliver_over_follows; [|done..]. split; [by intros ->|done].
  - apply follows_bind. eapply follows_mono; [|apply connect_loop_follows].
    intros σ [[l|e]|] [-> Hr]; [|by plain|done]. destruct (Hr l eq_refl) as [H1 H2].
    apply follows_bind. eapply follows_mono; [|by apply adopt_follows]. intros σ [] ->.
    apply deliver_over_follows; [|done..]. split; congruence.
Qed.

Lemma sendWorker_follows n σ : is_worker σ → follows (sendWorker n) (λ _ _, True) σ.
Proof.
  revert σ. induction n as [|n IH]; intros σ Hσ; cbn [sendWorker]; [done|].
  apply follows_call; [done|]. intros [req|] Hr; [|done].
  destruct σ as [|xs seen|w f done']; [done..|]. cbn [next]. apply follows_bind.
  eapply follows_mono; [|apply deliver_follows; by apply Hr]. intros σ [] Hσ'. by apply IH.
Qed.

(** *** The loop that reads the link *)

Section loops.
Context (dir : bytes) (Hfp : valid_utf8 (lk_fp a) = true).

(** A reader saves the file it has received. *)
Lemma saveFile_follows name data xs seen :
  follows (saveFile dir name data)
    (λ σ r, σ = Reader xs seen (match r with Ok path => Saved name data path | Err _ => Nothing end))
    (Reader xs seen (Arrived name data)).
Proof.
  unfold saveFile. apply follows_call; [done|]. intros [[]|e] _; [|done]. cbn [next]. quiet. intros now _.
  apply follows_call; [done|]. intros [[]|e] _; cbn [next]; [by rewrite decide_True|done].
Qed.

Lemma saveFile_other name data : follows (saveFile dir name data) (stays Other) Other.
Proof.
  unfold saveFile. apply follows_call; [done|]. intros [[]|e] _; [|done]. cbn [next]. quiet. intros now _.
  apply follows_call; [done|]. by intros r _.
Qed.

(** Announced, then acknowledged. *)
Lemma acknowledge_follows e id seen f φ :
  ev_Kind e ≠ bs "sent" → announces e = [id] → valid_utf8 id = true → announced_from e f →
  φ (Reader [] (id :: seen) Nothing) tt →
  follows (let^ _ := push e in let^ _ := call (OSendReceipt a (lk_fp a) id StateDelivered) in Ret tt) φ
    (Reader (shows e) seen f).
Proof.
  intros Hk Ha Hid Hf Hφ. apply follows_bind. apply push_shown; [done..|]. rewrite Ha. cbn [app].
  apply follows_call; [|by intros r _]. intros _. split_and!; [done..|]. intros _. exists [], (id :: seen), Nothing.
  split; [done|]. by left.
Qed.

(** A reader that has shown all it read. *)
Definition caught_up (σ : role) : Prop := ∃ seen, σ = Reader [] seen Nothing.

Lemma on_file_follows env offer seen :
  wf_Envelope env → follows (on_file dir a env offer) (λ σ _, caught_up σ) (Reader [] seen (Offered offer)).
Proof.
  intros Hw. unfold on_file. apply follows_call; [intros _; by exists seen|].
  intros [data|e] _; cbn [next]; rewrite decide_True by done; [|plain; by eexists].
  apply follows_bind. eapply follows_mono; [|apply saveFile_follows].
  intros σ [path|e] ->; [|plain; by eexists].
  apply follows_call; [intros _; apply we_id, Hw|]. intros r _. cbn [next].
  set (e := MkEvent (bs "file") _ _ _ _ _ _ _ _ _).
  assert (shows e = []) as <- by (unfold shows; by rewrite bool_decide_eq_true_2).
  apply acknowledge_follows; [discriminate| |apply we_id, Hw| |by eexists].
  - unfold announces. by rewrite bool_decide_eq_true_2.
  - right. exists (o_Name offer), data, path. split; [done|]. unfold files. by rewrite bool_decide_eq_true_2.
Qed.

Lemma on_envelope_follows env seen :
  wf_Envelope env →
  follows (on_envelope dir a env) (λ σ _, caught_up σ)
    (Reader (items_of env) seen (from_option Offered Nothing (offer_of env))).
Proof.
  intros Hw. unfold on_envelope, items_of. case_bool_decide as H1; [|case_bool_decide as H2].
  - rewrite offer_of_type by by rewrite H1.
    apply follows_call; [intros _; apply we_id, Hw|]. intros r _. cbn [next from_option].
    set (e := MkEvent (bs "message") _ _ _ _ _ _ _ _ _).
    assert (shows e = [IText (e_MsgID env) (tb_Text (Text env).1)]) as <-
      by (unfold shows; by rewrite bool_decide_eq_true_2).
    apply acknowledge_follows; [discriminate| |apply we_id, Hw|left; split; [done|by apply files_kind]|by eexists].
    unfold announces. by rewrite bool_decide_eq_true_2.
  - rewrite H2, bool_decide_eq_false_2 by done. unfold offer_of.
    destruct (ParseFileOffer env); [by apply on_file_follows|plain; by eexists].
  - rewrite offer_of_type by done. cbn [from_option].
    case_bool_decide as H3; [rewrite H3; plain; by eexists|]. case_bool_decide as H4; [|by eexists].
    destruct (Receipt env) as [rb [e|]]; [by eexists|].
    apply push_shown; [discriminate| |left; split; [done|by apply files_kind]|by eexists].
    unfold shows. by rewrite bool_decide_eq_true_2.
Qed.

Lemma recvLoop_follows n σ : caught_up σ → follows (recvLoop dir n a) (λ _ _, True) σ.
Proof.
  revert σ. induction n as [|n IH]; intros σ (seen & ->); cbn [recvLoop]; [done|].
  apply follows_call; [intros _; by eexists|]. intros r Hr. cbn [next].
  rewrite decide_True by done. destruct r as [env|e].
  - apply follows_bind. eapply follows_mono; [|apply on_envelope_follows; by apply Hr]. intros σ [] Hσ'. by apply IH.
  - apply follows_bind, dropLink_follows. by plain.
Qed.

(** *** The others *)

(** Events about another peer. *)
Lemma push_elsewhere e φ σ : ev_PeerFP e ≠ lk_fp a → φ σ tt → follows (push e) φ σ.
Proof. intros Hne. apply push_quiet; unfold shows, announces, files, confirms; by rewrite bool_decide_eq_false_2. Qed.

Section elsewhere.
Context (l : link) (Hl : lk_fp l ≠ lk_fp a).

Lemma not_a {P : Prop} : l = a → P.
Proof. by intros ->. Qed.

Lemma acknowledge_elsewhere e id φ :
  ev_PeerFP e = lk_fp l → φ Other tt →
  follows (let^ _ := push e in let^ _ := call (OSendReceipt l (lk_fp l) id StateDelivered) in Ret tt) φ Other.
Proof.
  intros He Hφ. apply follows_bind. apply push_elsewhere; [by rewrite He|].
  apply follows_call; [intros ?; by apply not_a|by intros r _].
Qed.

Lemma on_envelope_elsewhere env : follows (on_envelope dir l env) (stays Other) Other.
Proof.
  unfold on_envelope. repeat case_bool_decide.
  - apply follows_call; [by intros ?|]. intros r _. by apply acknowledge_elsewhere.
  - destruct (ParseFileOffer env) as [offer|e]; [|by plain]. unfold on_file.
    apply follows_call; [intros ?; by apply not_a|]. intros [data|e] _; cbn [next]; rewrite decide_False by (intros ->; done).
    2: by plain.
    apply follows_bind. eapply follows_mono; [|apply saveFile_other]. intros σ [path|e] ->; [|by plain].
    apply follows_call; [by intros ?|]. intros r _. by apply acknowledge_elsewhere.
  - by plain.
  - destruct (Receipt env) as [rb [e|]]; [done|]. by apply push_elsewhere.
  - done.
Qed.

Lemma recvLoop_elsewhere n : follows (recvLoop dir n l) (λ _ _, True) Other.
Proof.
  induction n as [|n IH]; cbn [recvLoop]; [done|].
  apply follows_call; [intros ?; by apply not_a|]. intros r _. cbn [next]. rewrite decide_False by (intros ->; done).
  destruct r as [env|e].
  - apply follows_bind. eapply follows_mono; [|apply on_envelope_elsewhere]. by intros σ [] ->.
  - apply follows_bind, dropLink_follows. by plain.
Qed.
End elsewhere.

Lemma listenLoop_follows n : follows (listenLoop n) (λ _ _, True) Other.
Proof.
  induction n as [|n IH]; cbn [listenLoop]; [done|]. quiet. intros [] _; [done|].
  quiet. intros [l|e] Hl.
  - apply follows_bind. eapply follows_mono; [|apply adopt_follows; by apply Hl]. by intros σ [] ->.
  - quiet. intros [] _; [done|]. apply follows_bind. plain. quiet. by intros [] _.
Qed.

Lemma readvertiseLoop_follows pub salt n : follows (readvertiseLoop pub salt n) (λ _ _, True) Other.
Proof. induction n as [|n IH]; cbn [readvertiseLoop]; [done|]. quiet. intros [] _; [done|]. quiet. by intros r _. Qed.

Lemma close_all_follows ls φ σ : φ σ tt → follows (close_all ls) φ σ.
Proof. intros Hφ. induction ls as [|l ls IH]; cbn [close_all]; [done|]. quiet. by intros _ _. Qed.

Lemma api_follows salt p : api salt p → follows p (λ _ _, True) Other.
Proof.
  destruct 1 as [uri text id|uri path id|uri|uri|uri| |]; try by (split; [done|]; intros ? _).
  - unfold rt_SendTyping, parse_uri. apply follows_bind. quiet. intros now _. cbn [Prog.follows].
    destruct (ParseURI now uri) as [c|]; [|done]. quiet. intros [l|] _; [|done].
    apply follows_call; [intros _; apply valid_utf8_Fingerprint|by intros r _].
  - unfold runDiagnose, parse_uri, pushDiag. apply follows_bind. quiet. intros now _. cbn [Prog.follows].
    destruct (ParseURI now uri) as [c|]; [|by plain]. quiet. intros [l|] _; [by plain|].
    quiet. intros [[]|] _; [|by plain]. quiet. intros [l|] Hl; [|by plain].
    apply follows_bind. eapply follows_mono; [|apply adopt_follows; by apply Hl]. intros σ [] ->. by plain.
  - unfold MarkRead, parse_uri. apply follows_bind. quiet. intros now _. cbn [Prog.follows].
    destruct (ParseURI now uri) as [c|]; [|done].
    quiet. intros l Hl. quiet. intros id Hid. destruct l as [l|]; [|done]. case_bool_decide; [done|].
    apply follows_call; [|by intros r _]. intros ->. destruct (Hl a eq_refl) as [Hfp' _].
    split_and!; [apply valid_utf8_Fingerprint|by apply Hid; rewrite Hfp'|done|discriminate].
  - unfold Stop. quiet. intros [ls|] _; [|done]. apply follows_bind, close_all_follows. quiet. intros _ _.
    split; [done|]. by intros [] _.
Qed.

Lemma spawned_follows o new σ : spawned dir o new → may o σ → Forall (λ p, follows p (λ _ _, True) Other) new.
Proof. destruct 1; intros Hm; constructor; [|constructor]. by apply recvLoop_elsewhere. Qed.
End loops.
End roles.
