(* ===== verification/Stream.v ===== *)
(** * The stream of plaintexts on a link

    What a sequence of plaintexts says to an engine that reads it: the texts
    and receipts of each, and the files that offers and chunks make up, by one
    automaton that both ends of a link go through. *)

From S2P Require Import Prelude Bytes Json Codec GoTime Curve Identity X3dh Ratchet Session Filetransfer Messaging Contact Account Proc Node NodeLink NodeFile LinkProc Prog Runtime Roles.
Open Scope Z_scope.

(** ** Plaintexts *)

(** A plaintext an engine sends. *)
Definition good (pt : bytes) : Prop := ∃ env, encodes env pt.

Definition envelope_in (pt : bytes) : option Envelope :=
  match as_result (DecodeEnvelope pt) with Ok env => Some env | Err _ => None end.

Definition items_in (pt : bytes) : list item := from_option items_of [] (envelope_in pt).
Definition offer_in (pt : bytes) : option Offer := envelope_in pt ≫= offer_of.
Definition chunk_in (pt : bytes) : option Chunk :=
  envelope_in pt ≫= λ env, match chunk_of env with Ok c => Some c | Err _ => None end.

Lemma encodes_decoded env pt : encodes env pt → as_result (DecodeEnvelope pt) = Ok env.
Proof. intros He%encodes_received. exact He. Qed.

Lemma encodes_in env pt : encodes env pt → envelope_in pt = Some env.
Proof. intros He. unfold envelope_in. by rewrite (encodes_decoded _ _ He). Qed.

Lemma items_in_encodes env pt : encodes env pt → items_in pt = items_of env.
Proof. intros He. unfold items_in. by rewrite (encodes_in _ _ He). Qed.

Lemma offer_in_encodes env pt : encodes env pt → offer_in pt = offer_of env.
Proof. intros He. unfold offer_in. by rewrite (encodes_in _ _ He). Qed.

Lemma chunk_in_encodes env pt c : encodes env pt → chunk_in pt = Some c ↔ chunk_of env = Ok c.
Proof. intros He. unfold chunk_in. rewrite (encodes_in _ _ He). cbn. destruct (chunk_of env); split; congruence. Qed.

Lemma offer_of_Some env offer : ParseFileOffer env = Ok offer → offer_of env = Some offer ∧ items_of env = [].
Proof.
  intros E. split; [unfold offer_of; by rewrite E|]. unfold ParseFileOffer in E.
  destruct (decide (e_Type env = TypeFileOffer)) as [Ht|Ht]; [|by rewrite bool_decide_eq_false_2 in E].
  unfold items_of. by rewrite Ht, !bool_decide_eq_false_2.
Qed.

Definition texts (l : list item) : list (bytes * bytes) :=
  flat_map (λ x, match x with IText id text => [(id, text)] | IReceipt _ _ => [] end) l.

Lemma texts_app l l' : texts (l ++ l') = texts l ++ texts l'.
Proof. apply flat_map_app. Qed.

(** ** Files *)

(** Between files, or after an offer and some of its chunks, when [n] more are
    to come after the next. *)
Inductive stream :=
  | Idle
  | Within (offer : Offer) (acc : list Chunk) (n : nat).

(** The file, with its name, that an offer and its chunks are, if there is room
    for as many. *)
Definition whole (offer : Offer) (cs : list Chunk) : list (bytes * bytes) :=
  if make_ok (num_chunks offer)
  then match Reassemble offer cs with Ok data => [(o_Name offer, data)] | Err _ => [] end else [].

Definition advance (offer : Offer) (acc : list Chunk) (n : nat) : stream * list (bytes * bytes) :=
  match n with O => (Idle, whole offer acc) | S n => (Within offer acc n, []) end.

(** One plaintext: the state after it, and the file it completes.  An offer is
    followed by its chunks, and nothing else comes in between. *)
Definition step_in (s : stream) (pt : bytes) : option (stream * list (bytes * bytes)) :=
  match s with
  | Idle => Some (match offer_in pt with Some offer => advance offer [] (count offer) | None => (Idle, []) end)
  | Within offer acc n =>
    if decide (items_in pt = [] ∧ offer_in pt = None)
    then (λ c, advance offer (acc ++ [c]) n) <$> chunk_in pt else None
  end.

Definition scan (l : list bytes) : option (stream * list (bytes * bytes)) :=
  fold_left (λ o pt, o ≫= λ x, (λ y, (y.1, x.2 ++ y.2)) <$> step_in x.1 pt) l (Some (Idle, [])).

(** The state after a sequence of plaintexts, and the files in it. *)
Definition due (l : list bytes) : option stream := fst <$> scan l.
Definition files_in (l : list bytes) : list (bytes * bytes) := from_option snd [] (scan l).

Lemma scan_snoc l pt : scan (l ++ [pt]) = scan l ≫= λ x, (λ y, (y.1, x.2 ++ y.2)) <$> step_in x.1 pt.
Proof. unfold scan. by rewrite fold_left_app. Qed.

Lemma due_snoc l pt : due (l ++ [pt]) = due l ≫= λ s, fst <$> step_in s pt.
Proof.
  unfold due. rewrite scan_snoc. destruct (scan l) as [[s fs]|]; [|done]. cbn. by destruct (step_in s pt) as [[]|].
Qed.

Lemma files_snoc l pt s s' new :
  due l = Some s → step_in s pt = Some (s', new) → files_in (l ++ [pt]) = files_in l ++ new.
Proof.
  unfold due, files_in. rewrite scan_snoc. destruct (scan l) as [[s0 fs]|]; [|done]. cbn. by intros [= ->] ->.
Qed.

Lemma due_prefix l k : is_Some (due (l ++ k)) → is_Some (due l).
Proof.
  induction k as [|pt k IH] using rev_ind; [by rewrite app_nil_r|]. rewrite app_assoc, due_snoc.
  intros [n Hn]. apply IH. destruct (due (l ++ k)); [done|discriminate Hn].
Qed.

Lemma files_prefix l k : is_Some (due (l ++ k)) → files_in l `prefix_of` files_in (l ++ k).
Proof.
  induction k as [|pt k IH] using rev_ind; [by rewrite app_nil_r|]. rewrite app_assoc, due_snoc.
  intros Hs. destruct (due (l ++ k)) as [s|] eqn:E; [|by destruct Hs]. cbn in Hs.
  destruct (step_in s pt) as [[s' new]|] eqn:E'; [|by destruct Hs]. rewrite (files_snoc _ _ _ _ _ E E').
  etrans; [by apply IH|]. by apply prefix_app_r.
Qed.

(** *** What each envelope does *)

Lemma step_plain env pt : encodes env pt → offer_of env = None → step_in Idle pt = Some (Idle, []).
Proof. intros He Ho. cbn. by rewrite (offer_in_encodes _ _ He), Ho. Qed.

Lemma step_offer env pt offer :
  encodes env pt → offer_of env = Some offer → step_in Idle pt = Some (advance offer [] (count offer)).
Proof. intros He Ho. cbn. by rewrite (offer_in_encodes _ _ He), Ho. Qed.

Lemma step_chunk env pt offer acc c n :
  encodes env pt → e_Type env = TypeFileChunk → chunk_of env = Ok c →
  step_in (Within offer acc n) pt = Some (advance offer (acc ++ [c]) n) ∧ items_of env = [].
Proof.
  intros He Ht Hc. assert (items_of env = []) as Hi by (unfold items_of; by rewrite Ht, !bool_decide_eq_false_2).
  split; [|done]. cbn [step_in]. rewrite decide_True.
  - by rewrite (proj2 (chunk_in_encodes _ _ c He) Hc).
  - rewrite (items_in_encodes _ _ He), (offer_in_encodes _ _ He). split; [done|]. apply offer_of_type. by rewrite Ht.
Qed.

(** A file that was split is taken for itself. *)
Lemma whole_split name data offer cs :
  split_of name data offer cs → whole offer cs `sublist_of` [(to_valid_utf8 name, data)].
Proof.
  intros Hsp. unfold whole. destruct (make_ok _); [|apply sublist_nil_l].
  destruct (Reassemble offer cs) as [out|] eqn:E; [|apply sublist_nil_l].
  by rewrite (sp_name _ _ _ _ Hsp), (sp_only _ _ _ _ Hsp out E).
Qed.

Lemma whole_small name data offer cs :
  split_of name data offer cs → file_small data → whole offer cs = [(to_valid_utf8 name, data)].
Proof.
  intros Hsp Hsm. unfold whole. destruct (sp_whole _ _ _ _ Hsp Hsm) as [-> ->]. by rewrite (sp_name _ _ _ _ Hsp).
Qed.
