(* ===== verification/Host.v ===== *)
(** * An engine and all its goroutines, on a node ([pkg/runtime] on [pkg/node])

    [Runtime] interleaves the goroutines of an engine but leaves the links to
    the environment; [Engines] has one real link but one goroutine at a time.
    Here the goroutines interleave and one link [a] is real: a call of one of
    its methods is a process on the node, which other goroutines use between
    its steps; [sendMu] serialises the methods that send. *)

From S2P Require Import Prelude Bytes Json Codec GoTime Curve Identity X3dh Ratchet Conversation Session Filetransfer Messaging Contact Transport Conn Account Proc Node NodeLink NodeFile LinkProc Prog Runtime Roles.
Open Scope Z_scope.

(** ** State *)

(** A goroutine: between two operations of its program; in a method of the
    link, about to go on; in [Conn.Send]; in [Conn.Recv]. *)
Inductive task :=
  | Run (p : prog unit)
  | Doing (m : proc node (prog unit))
  | Writing (b : bytes) (k : result unit → proc node (prog unit))
  | Awaiting (k : result bytes → proc node (prog unit)).

(** One operation and its answer, in a history. *)
Definition did (o : op) (r : res o) : list answer := [existT o r].

(** A node, its engine, the goroutines, the one that holds the link's
    [sendMu], and what was done to the engine's state so far. *)
Record host := MkHost {
  h_node : node;
  h_rt : runtime;
  h_tasks : list task;
  h_sendMu : option nat;
  h_hist : list answer;
}.

(** The engine's name of the link, the link, and how the engine was started. *)
Record config := Config { cf_link : link; cf_Link : Link; cf_side : Transport.side; cf_pub : bytes; cf_salt : bytes; cf_dir : bytes }.

(** ** Steps *)

Definition void {A} (r : result A) : result unit := match r with Ok _ => Ok tt | Err e => Err e end.

(** The operations that are calls of the link. *)
Definition on_link (a : link) (o : op) : Prop :=
  match o with
  | OReceive l | OFileBody l _ | OSendEnvelope l _ | OSendFile l _ _ _ _ | OSendReceipt l _ _ _ | OSendTyping l _ => l = a
  | _ => False
  end.

(** What closes the link. *)
Definition closes (a : link) (o : op) (r : runtime) : Prop :=
  match o with
  | OClose l => l = a
  | OSetLink l => links r !! lk_fp l = Some a ∧ l ≠ a
  | _ => False
  end.

(** What the environment answers: [Connect] returns a link to the peer it was
    asked for (theorem [connect_rejects_impostor]), no other link is to the
    same peer; requests and clock readings are valid, and a file that is read
    fits in a slice. *)
Definition env_ok (a : link) (o : op) : res o → Prop :=
  match o return res o → Prop with
  | OListen => λ r, ∀ l, r = Ok l → lk_fp l ≠ lk_fp a
  | OConnect key => λ r, ∀ l, r = Ok l → lk_fp l = Fingerprint key ∧ lk_fp l ≠ lk_fp a
  | OClock => wf_time
  | OEnqueue req => λ _, valid_req req
  | OReadFile _ => λ r, ∀ data, r = Ok data → file_fits data
  | _ => λ _, True
  end.

Section steps.
Context `{Curves} {C : Type} `{Conn C} (cf : config).
Abbreviation a := (cf_link cf).
Abbreviation L := (cf_Link cf).

(** The answer of a method, for the program that called it. *)
Definition answered {X R} (f : result X → R) (m : proc node X) (k : R → prog unit) : proc node (prog unit) :=
  λ n, bindO (m n) (λ r, retP (k (f r))).

(** The method an operation calls, and whether it takes [sendMu]. *)
Inductive calls : ∀ o, ((res o → prog unit) → proc node (prog unit)) → bool → Prop :=
  | calls_Receive : calls (OReceive a) (answered id (Receive L)) false
  | calls_FileBody offer : calls (OFileBody a offer) (answered id (ReceiveFileBody L offer)) false
  | calls_SendEnvelope env : calls (OSendEnvelope a env) (answered id (SendEnvelope L env)) true
  | calls_SendFile fp name mime data : calls (OSendFile a fp name mime data) (answered void (SendFile L fp name mime data)) true
  | calls_SendReceipt fp id st : calls (OSendReceipt a fp id st) (answered Datatypes.id (SendReceipt L fp id st)) true
  | calls_SendTyping fp : calls (OSendTyping a fp) (answered id (SendTyping L fp)) true.

(** Where a method stops. *)
Inductive stops : outcome node (prog unit) → node → task → Prop :=
  | stops_halt p n : stops (Halt (Ok p) n) n (Run p)
  | stops_send b n k : stops (Sending b n k) n (Writing b k)
  | stops_recv n k : stops (Receiving n k) n (Awaiting k).

(** The counter and the randomness of the node are not at their end. *)
Definition ready (n : node) : Prop :=
  ∀ r, ratchet_at L n = Some r → ns r < counter_limit ∧ fresh (n_tape n) r.

(** [sendMu], when goroutine [i] gets to [t]. *)
Definition unlock (i : nat) (t : task) (mu : option nat) : option nat :=
  match t with Run _ => if decide (mu = Some i) then None else mu | _ => mu end.

Inductive host_step (c : C) : host → C → host → Prop :=
  | hs_op nd rt ts mu hist i o k r rt' new c' :
      ts !! i = Some (Run (Op o k)) → ¬ on_link a o → op_step o r rt rt' → env_ok a o r → spawned (cf_dir cf) o new →
      (closes a o rt → conn_Close (cf_side cf) c c') → (¬ closes a o rt → c' = c) →
      host_step c (MkHost nd rt ts mu hist) c'
        (MkHost nd rt' (<[i := Run (k r)]> ts ++ map Run new) mu (hist ++ did o r))
  | hs_api nd rt ts mu hist p :
      api (cf_salt cf) p →
      host_step c (MkHost nd rt ts mu hist) c (MkHost nd rt (ts ++ [Run p]) mu hist)
  | hs_call nd rt ts mu hist i o k M lk :
      ts !! i = Some (Run (Op o k)) → calls o M lk → (lk = true → mu = None) →
      host_step c (MkHost nd rt ts mu hist) c
        (MkHost nd rt (<[i := Doing (M k)]> ts) (if lk then Some i else mu) hist)
  | hs_local nd rt ts mu hist i m nd' t :
      ts !! i = Some (Doing m) → ready nd → stops (m nd) nd' t →
      host_step c (MkHost nd rt ts mu hist) c (MkHost nd' rt (<[i := t]> ts) (unlock i t mu) hist)
  | hs_send nd rt ts mu hist i b k r c' :
      ts !! i = Some (Writing b k) → conn_Send (cf_side cf) b c r c' →
      host_step c (MkHost nd rt ts mu hist) c' (MkHost nd rt (<[i := Doing (k r)]> ts) mu hist)
  | hs_recv nd rt ts mu hist i k r c' :
      ts !! i = Some (Awaiting k) → conn_Recv (cf_side cf) c r c' →
      host_step c (MkHost nd rt ts mu hist) c' (MkHost nd rt (<[i := Doing (k r)]> ts) mu hist).

(** The engine once it has adopted the link. *)
Definition host_start (n : nat) (nd : node) : host :=
  MkHost nd (put_link a new_runtime)
    (map Run [recvLoop (cf_dir cf) n a; sendWorker n; listenLoop n; readvertiseLoop (cf_pub cf) (cf_salt cf) n]) None [].
End steps.

(** ** What was done *)

(** The requests of the application, those the worker took, and the events the
    application has got or can get. *)
Definition asked (h : list answer) : list outReq :=
  flat_map (λ x, match projT1 x with OEnqueue req => [req] | _ => [] end) h.

Definition taken (h : list answer) : list outReq :=
  flat_map (λ x, (match projT1 x as o return res o → list outReq with
                  | ODequeue => λ r, match r with Some req => [req] | None => [] end
                  | _ => λ _, []
                  end) (projT2 x)) h.

Definition heard (h : host) : list Event := polled (h_hist h) ++ events (h_rt h).

(** What holds of the engine's state between any two operations. *)
Record rt_inv (a : link) (r : runtime) (h : list answer) : Prop := {
  ri_keys : ∀ fp l, links r !! fp = Some l → lk_fp l = fp;
  ri_mine : ∀ l, links r !! lk_fp a = Some l → l = a;
  ri_last : ∀ id, lastIn r !! lk_fp a = Some id → valid_utf8 id = true;
  ri_valid : Forall valid_req (outbox r);
  ri_outbox : taken h ++ outbox r `sublist_of` asked h;
  ri_events : polled h ++ events r = pushed h;
}.

Lemma asked_app h h' : asked (h ++ h') = asked h ++ asked h'.
Proof. apply flat_map_app. Qed.
Lemma taken_app h h' : taken (h ++ h') = taken h ++ taken h'.
Proof. apply flat_map_app. Qed.
Lemma pushed_app h h' : pushed (h ++ h') = pushed h ++ pushed h'.
Proof. apply flat_map_app. Qed.
Lemma polled_app h h' : polled (h ++ h') = polled h ++ polled h'.
Proof. apply flat_map_app. Qed.

Section runtime.
Context (a : link).

Lemma put_link_others l r :
  lastIn (put_link l r) = lastIn r ∧ outbox (put_link l r) = outbox r ∧ events (put_link l r) = events r ∧
  links (put_link l r) = <[lk_fp l := l]> (links r).
Proof. unfold put_link. destruct (links r !! lk_fp l); [case_decide|]; done. Qed.

Lemma del_link_others fp l r :
  lastIn (del_link fp l r) = lastIn r ∧ outbox (del_link fp l r) = outbox r ∧
  (links (del_link fp l r) = links r ∨ links (del_link fp l r) = delete fp (links r)).
Proof. unfold del_link. case_decide; auto. Qed.

Lemma op_step_keys o x r r' :
  op_step o x r r' → (∀ fp l, links r !! fp = Some l → lk_fp l = fp) → ∀ fp l, links r' !! fp = Some l → lk_fp l = fp.
Proof.
  intros Ho Hk. destruct o; cbn in Ho; destruct_and?; subst; try exact Hk.
  - destruct (put_link_others l r) as (_ & _ & _ & ->). intros fp l'.
    destruct (decide (lk_fp l = fp)) as [<-|Hne]; [rewrite lookup_insert_eq; by intros [= <-]|].
    rewrite lookup_insert_ne by done. apply Hk.
  - destruct (del_link_others fp l r) as (_ & _ & [->|Hd]); [exact Hk|]. rewrite Hd. intros fp' l'.
    intros [_ ?]%lookup_delete_Some. by apply Hk.
  - destruct (closed r); [by destruct Ho as [_ ->]|]. destruct Ho as (? & _ & _ & ->). intros fp l. cbn.
    by rewrite lookup_empty.
  - by destruct Ho as [[_ ->]|[_ ->]].
  - by destruct Ho as [(? & ? & _ & _ & ->)|(_ & _ & ->)].
Qed.

Lemma op_step_mine o x r r' σ :
  op_step o x r r' → may a o σ → (∀ l, links r !! lk_fp a = Some l → l = a) → ∀ l, links r' !! lk_fp a = Some l → l = a.
Proof.
  intros Ho Hm Hk. destruct o; cbn in Ho; destruct_and?; subst; try exact Hk.
  - destruct (put_link_others l r) as (_ & _ & _ & ->). intros l'. rewrite lookup_insert_ne by done. apply Hk.
  - destruct (del_link_others fp l r) as (_ & _ & [->|Hd]); [exact Hk|]. rewrite Hd. intros l'.
    intros [_ ?]%lookup_delete_Some. by apply Hk.
  - destruct (closed r); [by destruct Ho as [_ ->]|]. destruct Ho as (? & _ & _ & ->). intros l. cbn.
    by rewrite lookup_empty.
  - by destruct Ho as [[_ ->]|[_ ->]].
  - by destruct Ho as [(? & ? & _ & _ & ->)|(_ & _ & ->)].
Qed.

Lemma op_step_last o x r r' σ :
  op_step o x r r' → may a o σ → (∀ id, lastIn r !! lk_fp a = Some id → valid_utf8 id = true) →
  ∀ id, lastIn r' !! lk_fp a = Some id → valid_utf8 id = true.
Proof.
  intros Ho Hm Hl. destruct o; cbn in Ho; destruct_and?; subst; try exact Hl.
  - by destruct (put_link_others l r) as (-> & _).
  - by destruct (del_link_others fp l r) as (-> & _).
  - destruct (closed r); [by destruct Ho as [_ ->]|]. by destruct Ho as (? & _ & _ & ->).
  - intros id'. cbn in *. destruct (decide (fp = lk_fp a)) as [->|Hne].
    + rewrite lookup_insert_eq. intros [= <-]. by apply Hm.
    + rewrite lookup_insert_ne by done. apply Hl.
  - by destruct Ho as [[_ ->]|[_ ->]].
  - by destruct Ho as [(? & ? & _ & _ & ->)|(_ & _ & ->)].
Qed.

(** The channel: what is put in comes out, in order, at most once. *)
Lemma op_step_outbox o x r r' :
  op_step o x r r' →
  taken (did o x) ++ outbox r' `sublist_of` outbox r ++ asked (did o x) ∧
  (env_ok a o x → Forall valid_req (outbox r) → Forall valid_req (outbox r')).
Proof.
  intros Ho. destruct o; cbn in *; rewrite ?app_nil_r; destruct_and?; subst; try done.
  - by destruct (put_link_others l r) as (_ & -> & _).
  - by destruct (del_link_others fp l r) as (_ & -> & _).
  - destruct (closed r); [by destruct Ho as [_ ->]|]. by destruct Ho as (? & _ & _ & ->).
  - destruct Ho as [[_ ->]|[_ ->]]; cbn.
    + split; [done|]. intros Hv Hf. apply Forall_app. split; [done|]. by constructor.
    + split; [by apply sublist_inserts_r|done].
  - destruct Ho as [(req & q & E & -> & ->)|(_ & -> & ->)]; cbn; [|done]. rewrite E. split; [done|].
    by intros _ [_ ?]%Forall_cons.
Qed.

Lemma rt_inv_step r h o x r' σ :
  rt_inv a r h → op_step o x r r' → env_ok a o x → may a o σ → rt_inv a r' (h ++ did o x).
Proof.
  intros [H1 H0 H2 H3 H4 H5] Ho He Hm. destruct (op_step_outbox _ _ _ _ Ho) as [H6 H7]. split.
  - by eapply op_step_keys.
  - by eapply op_step_mine.
  - by eapply op_step_last.
  - by apply H7.
  - rewrite taken_app, asked_app, <-app_assoc. etrans; [by apply sublist_app|]. rewrite app_assoc.
    by apply sublist_app.
  - rewrite polled_app, pushed_app, <-H5, <-!app_assoc. f_equal. by apply op_step_events in Ho.
Qed.

(** What the goroutines count on. *)
Lemma rt_inv_knows r h o x r' :
  rt_inv a r h → op_step o x r r' → env_ok a o x → ¬ on_link a o → knows a o x.
Proof.
  intros [H1 H0 H2 H3 _ _] Ho He Hl. destruct o; cbn in *; try done.
  - destruct Ho as [-> _]. intros l Hfp. split; [by apply H1|]. intros ->. by apply H0.
  - destruct Ho as [-> _]. intros ->. destruct (lastIn r !! lk_fp a) as [id|] eqn:E; [by apply H2|done].
  - destruct Ho as [(req & q & E & -> & _)|(_ & -> & _)]; [|done]. rewrite E in H3.
    apply Forall_cons in H3 as [? _]. by intros ? [= <-].
Qed.

Lemma rt_inv_start : rt_inv a (put_link a new_runtime) [].
Proof.
  destruct (put_link_others a new_runtime) as (E1 & E2 & E3 & E4). split.
  - intros fp l'. rewrite E4. cbn. intros [[<- <-]|[_ ?]]%lookup_insert_Some; [done|]. done.
  - intros l'. rewrite E4, lookup_insert_eq. by intros [= <-].
  - intros id. by rewrite E1.
  - by rewrite E2.
  - by rewrite E2.
  - by rewrite E3.
Qed.
End runtime.
