(* ===== verification/Moves.v ===== *)
(** * What a goroutine may do in a method of the link

    Where a goroutine is: its role, the stream of plaintexts it reads and the
    one it writes.  Which plaintexts it may seal there, where reading one takes
    it, and that every call of the link keeps to that ([LinkProc.plays]). *)

From stdpp Require Import functions.
From S2P Require Import Prelude Bytes Json Codec GoTime Curve Identity X3dh Ratchet Conversation Session Filetransfer Messaging Paths Contact Transport Conn Account Proc Node NodeLink NodeFile NodeHop LinkProc Prog Runtime Roles Stream Host.
Open Scope Z_scope.

(** ** Positions *)

(** What a role has yet to show, the ids it showed, the file it has received,
    the requests it sent, and what it has yet to send. *)
Definition to_show (σ : role) : list item := match σ with Reader xs _ _ => xs | _ => [] end.
Definition shown_ids (σ : role) : list bytes := match σ with Reader _ seen _ => seen | _ => [] end.
Definition done_by (σ : role) : list outReq := match σ with Worker _ _ done => done | _ => [] end.
Definition at_hand (σ : role) : list outReq := match σ with Worker (Some req) _ _ => [req] | _ => [] end.
Definition in_hand (σ : role) : list (bytes * bytes) :=
  match σ with Reader _ _ (Arrived name data) | Reader _ _ (Saved name data _) => [(name, data)] | _ => [] end.

(** A goroutine in a method: its role, where it is in the stream it reads, the
    files that arrived since, and where it is in the stream it writes. *)
Record pos := Pos { po_role : role; po_due : stream; po_new : list (bytes * bytes); po_owe : stream }.

Definition arriving (p : pos) : list (bytes * bytes) := in_hand (po_role p) ++ po_new p.

(** No file can arrive before the next offer. *)
Definition between (d : stream) : Prop := match d with Idle => True | Within offer _ _ => make_ok (num_chunks offer) = false end.

(** The offer just read is the one the chunks belong to; without one, no file
    arrives. *)
Definition pos_ok (p : pos) : Prop :=
  match po_role p with
  | Reader _ _ (Offered offer) => (po_due p, po_new p) = advance offer [] (count offer)
  | Reader _ _ _ => po_new p = [] ∧ between (po_due p)
  | _ => True
  end.

Definition is_saved (f : hand) : Prop := match f with Saved _ _ _ => True | _ => False end.

(** [σ'] is what is left of [σ] at the end of a method. *)
Definition settles (σ' σ : role) : Prop :=
  match σ, σ' with
  | Reader xs seen f, Reader xs' seen' f' => xs' = xs ∧ seen' = seen ∧ (f' = f ∨ ¬ is_saved f')
  | Worker w f done, Worker w' f' done' => done' = done ∧ (w' = w ∧ f' = f ∨ w' = None ∧ f' = None)
  | _, _ => σ' = σ
  end.

Lemma settles_refl σ : settles σ σ.
Proof. destruct σ; cbn; auto. Qed.

Record settled (p' p : pos) : Prop := {
  se_role : settles (po_role p') (po_role p);
  se_due : po_due p' = po_due p;
  se_new : arriving p' = arriving p;
  se_owe : po_owe p' = po_owe p;
}.

Lemma settled_refl p : settled p p.
Proof. split; [apply settles_refl|done..]. Qed.

Section moves.
Context `{CurveLaws} (cf : config).
Abbreviation a := (cf_link cf).
Abbreviation L := (cf_Link cf).
Abbreviation follows := (Prog.follows (R := res) (may a) (knows a) (next a)).

(** The file the peer gets for a request, once it was read. *)
Definition gives (req : outReq) (f : option bytes) : list (bytes * bytes) :=
  match f with
  | Some data => if file_asked a req then [(to_valid_utf8 (Base (rq_filePath req)), data)] else []
  | None => []
  end.

Lemma file_asked_asks req : file_asked a req = true → asks a req = [].
Proof. unfold file_asked, asks. intros [-> Hn]%andb_true_iff. by destruct (bool_decide _). Qed.

(** The plaintexts the holder of [sendMu] seals. *)
Inductive may_send (lk : bool) : pos → bytes → pos → Prop :=
  | ms_part σ d new s s' env pt :
      lk = true → encodes env pt → items_of env = [] → step_in s pt = Some (s', []) →
      may_send lk (Pos σ d new s) pt (Pos σ d new s')
  | ms_receipt σ d new env pt id st :
      lk = true → encodes env pt → items_of env = [IReceipt id st] → step_in Idle pt = Some (Idle, []) →
      (st = StateDelivered → id ∈ shown_ids σ) → may_send lk (Pos σ d new Idle) pt (Pos σ d new Idle)
  | ms_request d new s s' given env pt req f done :
      lk = true → encodes env pt → items_of env = asks a req →
      step_in s pt = Some (s', given) → given `sublist_of` gives req f →
      (file_asked a req = true → ∃ data, f = Some data ∧ (file_small data → given = gives req f)) →
      may_send lk (Pos (Worker (Some req) f done) d new s) pt (Pos (Worker None None (req :: done)) d new s').

(** What a reader has after reading one. *)
Inductive reads : pos → bytes → pos → Prop :=
  | reads_one xs seen f d d' old new n pt :
      step_in d pt = Some (d', new) →
      reads (Pos (Reader xs seen f) d old n) pt (Pos (Reader (xs ++ items_in pt) seen f) d' (old ++ new) n).

Definition reader (p : pos) : Prop := arriving p = [] ∧ ∃ seen f, po_role p = Reader [] seen f.

(** Where a method leaves its goroutine. *)
Definition goes_on (p : pos) (got : list bytes) (x : result (prog unit)) : Prop :=
  ∃ q p', x = Ok q ∧ follows q (λ _ _, True) (po_role p') ∧ settled p' p ∧ pos_ok p' ∧ po_owe p = Idle.

Abbreviation plays lk := (LinkProc.plays L (may_send lk) reads reader good goes_on).
Abbreviation behaves lk := (LinkProc.behaves L (may_send lk) reads reader good goes_on).

Lemma plays_answered {X R} lk (f : result X → R) (m : proc node X) (k : R → prog unit) Φ p got :
  LinkProc.plays L (may_send lk) reads reader good Φ p got m →
  (∀ p' got' x, Φ p' got' x → goes_on p' got' (Ok (k (f x)))) →
  plays lk p got (answered f m k).
Proof.
  intros Hm Hk n r Hn Hc. eapply behaves_bind; [by apply Hm|]. intros σ' got' x Hx. apply plays_ret. by apply Hk.
Qed.

Lemma goes_on_same p q got :
  po_owe p = Idle → pos_ok p → follows q (λ _ _, True) (po_role p) → goes_on p got (Ok q).
Proof. intros Ho Hp Hq. exists q, p. split_and!; [done|done|apply settled_refl|done|done]. Qed.

(** ** The methods *)

Lemma sends_plain σ d new ty :
  ty ≠ TypeText → ty ≠ TypeReceipt → ty ≠ TypeFileOffer →
  sends_type (may_send true) (Pos σ d new Idle) ty (Pos σ d new Idle).
Proof.
  intros H1 H2 H3 env pt He Ht. eapply ms_part; [done|exact He| |].
  - unfold items_of. by rewrite Ht, !bool_decide_eq_false_2.
  - eapply step_plain; [done|]. apply offer_of_type. by rewrite Ht.
Qed.

(** A receipt is one of those the role may send. *)
Lemma receipt_plays σ d new fp id st :
  valid_utf8 fp = true → valid_utf8 id = true → valid_utf8 st = true →
  (st = StateDelivered → id ∈ shown_ids σ) →
  LinkProc.plays L (may_send true) reads reader good (idle_in (Pos σ d new Idle)) (Pos σ d new Idle) [] (SendReceipt L fp id st).
Proof.
  intros Hfp' Hid Hst Hs.
  change (SendReceipt L fp id st) with
    (let! env := localP (make_envelope TypeReceipt fp (Some (marshal (enc_ReceiptBody (MkReceiptBody id st))))) in
     encryptSendLocked L env).
  apply make_send_plays; [reflexivity|done|]. intros env pt He Ht Hb.
  eapply ms_receipt; [done|exact He| | |exact Hs].
  - unfold items_of. rewrite Ht, bool_decide_eq_false_2, bool_decide_eq_true_2 by done.
    unfold Receipt. rewrite Hb. cbn [sl]. rewrite unmarshal_marshal by by apply wf_enc_ReceiptBody.
    by rewrite dec_enc_ReceiptBody.
  - eapply step_plain; [done|]. apply offer_of_type. by rewrite Ht.
Qed.

(** *** Receiving *)

Lemma receive_goes_on seen d p' pt x k :
  between d → good pt → reads (Pos (Reader [] seen Nothing) d [] Idle) pt p' → x = as_result (DecodeEnvelope pt) →
  (∀ r, knows a (OReceive a) r → follows (k r) (λ _ _, True) (next a (OReceive a) r (Reader [] seen Nothing))) →
  goes_on p' [pt] (Ok (k x)).
Proof.
  intros Hq [env He] Hrd -> Hk. inversion Hrd as [xs sn f0 d0 d' old new n pt0 Hst]; subst.
  rewrite (encodes_decoded _ _ He). specialize (Hk (Ok env)). cbn [knows next] in Hk. rewrite decide_True in Hk by done.
  eexists _, (Pos (Reader (items_of env) seen (from_option Offered Nothing (offer_of env))) d' new Idle).
  split; [done|]. split; [apply Hk; intros _ env' <-%Ok_inj; apply He|]. split; [|split; [|done]].
  - split; cbn [po_role po_due po_owe app]; try done.
    + rewrite (items_in_encodes _ _ He). cbn. split_and!; [done..|]. right. destruct (offer_of env); intros [].
    + unfold arriving. cbn. by destruct (offer_of env).
  - unfold pos_ok. cbn. destruct d as [|o acc m].
    + destruct (offer_of env) as [offer|] eqn:Eo; cbn.
      * rewrite (step_offer _ _ _ He Eo) in Hst. by injection Hst.
      * rewrite (step_plain _ _ He Eo) in Hst. by injection Hst as <- <-.
    + cbn in Hst. destruct (decide _) as [[_ Ho]|]; [|done]. rewrite (offer_in_encodes _ _ He) in Ho. rewrite Ho. cbn.
      destruct (chunk_in pt) as [c|]; [|done]. injection Hst as Hst. cbn in Hq. destruct m; injection Hst as <- <-; [|done].
      unfold whole. by rewrite Hq.
Qed.

(** The chunks of an offer, as its reader has them. *)
Definition chunks_due (seen : list bytes) (offer : Offer) (n : nat) (acc : list Chunk) (p : pos) : Prop :=
  ∃ d new, p = Pos (Reader [] seen (Offered offer)) d new Idle ∧ (d, new) = advance offer acc n.

Lemma body_plays seen offer d new :
  (d, new) = advance offer [] (count offer) →
  LinkProc.plays L (may_send false) reads reader good
    (λ p' _ x, if make_ok (num_chunks offer) then ∃ cs, chunks_due seen offer 0 cs p' ∧ x = Reassemble offer cs
       else is_ok x = false ∧ chunks_due seen offer (count offer) [] p')
    (Pos (Reader [] seen (Offered offer)) d new Idle) [] (ReceiveFileBody L offer).
Proof.
  intros Hp. apply (ReceiveFileBody_plays L (may_send false) reads reader good (chunks_due seen offer)).
  - intros n acc p (d' & new' & -> & [= -> ->]). split; [done|]. by eexists _, _.
  - intros n acc p pt p' (d' & new' & -> & [= -> ->]) [env He] Hrd. inversion Hrd as [xs sn f d0 d2 old nw m pt0 Hst]; subst.
    cbn [step_in] in Hst. destruct (decide _) as [[Hi Ho]|]; [|done]. destruct (chunk_in pt) as [c|] eqn:Ec; [|done].
    injection Hst as Hst. exists env, c. split; [by apply encodes_decoded|]. split; [by eapply chunk_in_encodes|].
    rewrite Hi. exists d2, nw. by split.
  - by exists d, new.
Qed.

(** What the reader has after that. *)
Lemma body_goes_on seen offer p' x q :
  (if make_ok (num_chunks offer) then ∃ cs, chunks_due seen offer 0 cs p' ∧ x = Reassemble offer cs
   else is_ok x = false ∧ chunks_due seen offer (count offer) [] p') →
  follows q (λ _ _, True) (Reader [] seen (match x with Ok data => Arrived (o_Name offer) data | Err _ => Nothing end)) →
  goes_on p' [] (Ok q).
Proof.
  intros Hx Hq. destruct (make_ok (num_chunks offer)) eqn:Em.
  - destruct Hx as (cs & (d & new & -> & [= -> ->]) & ->).
    exists q, (Pos (Reader [] seen (match Reassemble offer cs with Ok data => Arrived (o_Name offer) data | Err _ => Nothing end)) Idle [] Idle).
    split; [done|]. split; [exact Hq|]. split; [|by split; [unfold pos_ok; cbn; destruct (Reassemble _ _)|]].
    split; cbn; try done.
    + split_and!; [done..|]. right. destruct (Reassemble _ _); intros [].
    + unfold arriving, whole. cbn. rewrite Em. by destruct (Reassemble _ _).
  - destruct Hx as (Hx & d & new & -> & Hadv). destruct x as [|e]; [done|].
    exists q, (Pos (Reader [] seen Nothing) d [] Idle). split; [done|]. split; [exact Hq|].
    assert (new = [] ∧ between d) as [-> Hb].
    { destruct (count offer); injection Hadv as -> ->; [unfold whole; by rewrite Em|done]. }
    split; [|by split]. split; cbn; auto.
Qed.

(** *** Sending a file *)

(** The sender of [data], with [acc] sent and [cs] to send. *)
Definition sends_file (req : outReq) (data : bytes) (done : list outReq) (d : stream) (new : list (bytes * bytes))
    (offer : Offer) (acc cs : list Chunk) : pos :=
  match cs with
  | [] => Pos (Worker None None (req :: done)) d new Idle
  | _ :: cs => Pos (Worker (Some req) (Some data) done) d new (Within offer acc (length cs))
  end.

Lemma sends_file_step req data dn d new s env pt offer acc cs :
  file_asked a req = true → encodes env pt → items_of env = [] →
  step_in s pt = Some (advance offer acc (length cs)) → split_of (Base (rq_filePath req)) data offer (acc ++ cs) →
  may_send true (Pos (Worker (Some req) (Some data) dn) d new s) pt (sends_file req data dn d new offer acc cs).
Proof.
  intros Hf He Hi Hst Hsp. destruct cs as [|c cs]; cbn [length advance] in Hst.
  - rewrite app_nil_r in Hsp. eapply ms_request; [done|exact He|by rewrite file_asked_asks|exact Hst|..]; unfold gives; rewrite Hf.
    + by apply whole_split.
    + intros _. exists data. split; [done|]. by apply whole_small.
  - by eapply ms_part.
Qed.

Lemma file_plays req data dn d new fp mime :
  valid_utf8 fp = true → file_fits data → file_asked a req = true →
  LinkProc.plays L (may_send true) reads reader good
    (λ p' got x, got = [] ∧ match x with
       | Ok _ => p' = Pos (Worker None None (req :: dn)) d new Idle
       | Err _ => p' = Pos (Worker (Some req) (Some data) dn) d new Idle
       end)
    (Pos (Worker (Some req) (Some data) dn) d new Idle) [] (SendFile L fp (Base (rq_filePath req)) mime data).
Proof.
  intros Hfp Hfit Hf n r Hn Hc. eapply behaves_mono; [|apply (SendFile_plays L (may_send true) reads reader good
    (Base (rq_filePath req)) data _ (sends_file req data dn d new)); [| |done|done|done|done]].
  - intros p' got [offer|e] [-> Hx]; [|by split]. by destruct Hx as (offer' & cs & _ & ->).
  - intros env pt offer cs He [Ho Hi]%offer_of_Some Hsp. eapply sends_file_step; [done..| |exact Hsp].
    rewrite (step_offer _ _ _ He Ho). by rewrite (sp_count _ _ _ _ Hsp).
  - intros env pt offer acc c cs He Ht Hch Hsp. cbn [sends_file].
    destruct (step_chunk _ _ offer acc c (length cs) He Ht Hch) as [Hst Hi].
    eapply sends_file_step; [done..|]. by rewrite <-app_assoc.
Qed.

(** Every call of the link behaves as its role says. *)
Lemma calls_plays o M lk k p :
  calls cf o M lk → may a o (po_role p) → pos_ok p → po_owe p = Idle →
  (∀ r, knows a o r → follows (k r) (λ _ _, True) (next a o r (po_role p))) →
  plays lk p [] (M k).
Proof.
  intros Hc Hm Hp Ho Hk. destruct Hc as [|offer|env|fp name mime data|fp id st|fp]; cbn [may] in Hm; specialize (Hm eq_refl).
  - destruct p as [σ d new s]. cbn [po_role po_owe] in *. destruct Hm as (seen & ->). subst s. destruct Hp as [Hn Hq].
    cbn in Hn, Hq. subst new. eapply plays_answered; [by apply Receive_plays; split; [|by eexists _, _]|].
    intros p' got x (pt & -> & Hg & Hrd & ->). by eapply receive_goes_on.
  - destruct p as [σ d new s]. cbn [po_role po_owe] in *. destruct Hm as (seen & ->). subst s.
    eapply plays_answered; [by apply (body_plays seen offer d new)|].
    intros p' got x Hx. eapply body_goes_on; [exact Hx|]. specialize (Hk x I). cbn [next] in Hk. by rewrite decide_True in Hk.
  - destruct p as [σ d new s]. cbn [po_role po_owe] in *. destruct Hm as (Hw & Hof & req & f & dn & -> & Hnf & Hit). subst s.
    eapply plays_answered.
    + apply (SendEnvelope_plays L (may_send true) reads reader good _ (Pos (Worker None None (req :: dn)) d new Idle) env Hw).
      intros pt Hpt. eapply ms_request; [done..|by eapply step_plain|apply sublist_nil_l|].
      by rewrite Hnf.
    + intros p' got x (-> & -> & ->). apply goes_on_same; [done|done|].
      specialize (Hk (Ok tt) I). cbn [next] in Hk. by rewrite decide_True in Hk.
  - destruct p as [σ d new s]. cbn [po_role po_owe] in *. destruct Hm as (Hv & Hfit & req & dn & -> & Hf & ->). subst s.
    eapply plays_answered; [by apply file_plays|].
    intros p' got x [-> Hx]. specialize (Hk (void x) I). cbn [next] in Hk. rewrite decide_True in Hk by done.
    destruct x as [o|e]; subst p'; cbn [void handed option_list app] in Hk; [by apply goes_on_same|].
    eexists _, (Pos (Worker None None dn) d new Idle). split; [done|]. split; [exact Hk|]. split; [|by split].
    split; cbn; auto.
  - destruct p as [σ d new s]. cbn [po_role po_owe] in *. destruct Hm as (H1 & H2 & H3 & H4). subst s.
    eapply plays_answered; [apply receipt_plays; try done|].
    + intros Hst. by destruct (H4 Hst) as (xs & seen & f & -> & Hin).
    + intros p' got x [-> ->]. apply goes_on_same; [done|exact Hp|]. by apply (Hk x I).
  - destruct p as [σ d new s]. cbn [po_role po_owe] in *. subst s.
    eapply plays_answered; [apply SendTyping_plays; [done|by apply sends_plain]|].
    intros p' got x [-> ->]. apply goes_on_same; [done|exact Hp|]. by apply (Hk x I).
Qed.
End moves.
