(* ===== verification/Ledger.v ===== *)
(** * What was shown and sent, and what it was made from

    The account of a host: every event its application got comes from a
    plaintext that was read, every plaintext it sealed from a request, every
    request it reported sent was sent whole, every file announced is on disk,
    and only the disk keeps a file from being announced.  Each kind of step - an operation on the engine's
    state, reading, sealing, writing - keeps it. *)

From stdpp Require Import functions.
From S2P Require Import Prelude Bytes Json Codec GoTime Curve Identity X3dh Ratchet Conversation Session Filetransfer Messaging Paths Contact Transport Conn Account Proc Node NodeLink NodeFile NodeHop LinkProc Prog Runtime Roles Stream Host Moves.
Open Scope Z_scope.

(** ** What each goroutine has in hand *)

(** Where it is, the sealed message it has read and not opened, the one it has
    sealed and not written, and whether it holds [sendMu]. *)
Record local := Loc { lo_pos : pos; lo_in : list bytes; lo_out : list bytes; lo_lk : bool }.

Definition lo_role (lo : local) : role := po_role (lo_pos lo).

(** Goroutine 0 reads the link, goroutine 1 is the worker. *)
Definition role_fits (i : nat) (σ : role) : Prop :=
  match i with 0%nat => is_reader σ | 1%nat => is_worker σ | _ => σ = Other end.

Lemma role_fits_same i σ σ' :
  (is_reader σ ↔ is_reader σ') → (is_worker σ ↔ is_worker σ') → role_fits i σ → role_fits i σ'.
Proof. intros H1 H2. destruct i as [|[|i]]; cbn; [tauto..|]. intros ->. destruct σ'; cbn in *; tauto. Qed.

Section ledger.
Context `{CurveLaws} (cf : config).
Abbreviation a := (cf_link cf).

Definition to_send (σ : role) : list item := flat_map (asks a) (at_hand σ).

(** ** The account *)

(** What an engine read from, and wrote to, its disk. *)
Definition read_from (h : list answer) (path data : bytes) : Prop := did (OReadFile path) (Ok data) ⊆ h.
Definition wrote_to (h : list answer) (path data : bytes) : Prop := did (OWriteFile path data) (Ok tt) ⊆ h.

(** What was sent for a request: the text, or the file that was read for it. *)
Definition accounted (h : list answer) (l : list bytes) (req : outReq) : Prop :=
  asks a req ⊆ flat_map items_in l ∧
  (file_asked a req = true → ∃ data, read_from h (rq_filePath req) data ∧
     (file_small data → (to_valid_utf8 (Base (rq_filePath req)), data) ∈ files_in l)).

Lemma accounted_grow h h' l k req : is_Some (due (l ++ k)) → accounted h l req → accounted (h ++ h') (l ++ k) req.
Proof.
  intros Hd [H1 H2]. split; [rewrite flat_map_app; clear -H1; set_solver|]. intros Hf.
  destruct (H2 Hf) as (data & Hr & Hin). exists data. split; [unfold read_from in *; clear -Hr; set_solver|].
  intros Hsm. destruct (files_prefix _ _ Hd) as [k' ->]. apply elem_of_app. left. by apply Hin.
Qed.

Lemma accounted_more h h' l req : is_Some (due l) → accounted h l req → accounted (h ++ h') l req.
Proof. intros Hd. rewrite <-(app_nil_r l) in Hd. rewrite <-(app_nil_r l) at 2. by apply accounted_grow. Qed.

(** What the application heard was read, and what was sent it asked for; what
    was acknowledged, it heard of; what it was told was sent, was.  [ρ] reads,
    [ω] is the worker and [out] what it has sealed and not written; of the
    plaintexts [sent], [wrote] were written. *)
Record account (ρ ω : role) (out : list bytes) (h : list answer) (sent wrote got : list bytes) : Prop := {
  ac_shown : flat_map (shows a) (pushed h) ++ to_show ρ = flat_map items_in got;
  ac_ids : shown_ids ρ ⊆ flat_map (announces a) (pushed h);
  ac_sent : texts (flat_map items_in sent) ++ texts (to_send ω) `sublist_of` texts (flat_map (asks a) (taken h));
  ac_receipts id : IReceipt id StateDelivered ∈ flat_map items_in sent → id ∈ flat_map (announces a) (pushed h);
  ac_taken : at_hand ω ++ done_by ω ⊆ taken h;
  ac_due : is_Some (due sent);
  ac_wrote : wrote `prefix_of` sent;
  ac_done req : req ∈ done_by ω → accounted h sent req ∧ (out = [] → accounted h wrote req);
  ac_confirmed id : id ∈ flat_map (confirms a) (pushed h) → ∃ req, req ∈ taken h ∧ addressed a req = true ∧
    rq_msgID req = id ∧ accounted h wrote req;
}.

Definition account_of (G : nat → local) : list answer → list bytes → list bytes → list bytes → Prop :=
  account (lo_role (G 0%nat)) (lo_role (G 1%nat)) (lo_out (G 1%nat)).

(** An operation, as the roles see it. *)
Lemma op_shows o r σ :
  may a o σ → ¬ on_link a o → flat_map (shows a) (pushed (did o r)) ++ to_show (next a o r σ) = to_show σ.
Proof.
  intros Hm Hl. destruct o; cbn in *; rewrite ?app_nil_r; try done; try (rewrite decide_False by done; done).
  - destruct Hm as [[Hs|(seen & f & ->)] _].
    + rewrite Hs. destruct σ; cbn; [done| |done]. by rewrite decide_True.
    + cbn. by case_decide as Hs; [rewrite ?Hs|rewrite app_nil_r].
  - destruct σ; try done. by destruct r.
  - destruct σ as [|? ? []|]; try done. by destruct r.
  - destruct σ as [| |[] ?]; try done. by destruct r.
  - destruct σ as [|? ? []|]; try done. by destruct r.
Qed.

Lemma op_ids o r σ :
  may a o σ → ¬ on_link a o →
  shown_ids (next a o r σ) ⊆ flat_map (announces a) (pushed (did o r)) ++ shown_ids σ.
Proof.
  intros Hm Hl. destruct o; cbn in *; try (rewrite decide_False by done); try set_solver.
  - destruct σ; cbn; set_solver.
  - destruct σ; cbn; [set_solver..|]. by destruct r.
  - destruct σ as [|? ? []|]; cbn; try set_solver. destruct r; cbn; set_solver.
  - destruct σ as [| |[] ?]; cbn; [set_solver..| |set_solver]. by destruct r.
  - destruct σ as [|? ? []|]; cbn; try set_solver. destruct r; cbn; set_solver.
Qed.

(** What the worker has at hand. *)
Lemma op_hands o r σ :
  may a o σ → ¬ on_link a o → done_by (next a o r σ) = done_by σ ∧
  (at_hand (next a o r σ) = at_hand σ ∧ taken (did o r) = [] ∨ at_hand (next a o r σ) = taken (did o r)).
Proof.
  intros Hm Hl. destruct o; cbn in *; try (rewrite decide_False by done); try (split; [done|by left]).
  - split; [|left]; by destruct σ.
  - destruct σ as [| |w f dn]; [done..|]. destruct r as [req|]; (split; [done|]); [by right|by left].
  - destruct σ as [|? ? []|]; try (split; [done|by left]). destruct r; (split; [done|by left]).
  - destruct σ as [| |[] ?]; try (split; [done|by left]). destruct r; (split; [done|by left]).
  - destruct σ as [|? ? []|]; try (split; [done|by left]). destruct r; (split; [done|by left]).
Qed.

(** What the application is told was sent, the worker vouches for. *)
Lemma op_confirms o r σ id :
  may a o σ → id ∈ flat_map (confirms a) (pushed (did o r)) →
  ∃ w f done req, σ = Worker w f done ∧ req ∈ done ∧ addressed a req = true ∧ rq_msgID req = id.
Proof.
  intros Hm. destruct o; cbn; try by intros ?%not_elem_of_nil. cbn in Hm. rewrite app_nil_r. apply Hm.
Qed.

(** A role stays what it is. *)
Lemma op_kind o r σ :
  (is_reader (next a o r σ) ↔ is_reader σ) ∧ (is_worker (next a o r σ) ↔ is_worker σ).
Proof.
  destruct o; cbn; try done; try (case_decide; [|done]);
    destruct σ as [|? ? []|[] ?]; try done; by destruct r.
Qed.

(** Only the reader shows, only the worker takes requests. *)
Lemma fits_others i σ : role_fits i σ → i ≠ 0%nat → i ≠ 1%nat → σ = Other.
Proof. destruct i as [|[|i]]; done. Qed.

(** *** Operations on the engine's state *)

(** What was accounted for stays so. *)
Lemma account_grow ρ ω out h h' sent wrote got :
  account ρ ω out h sent wrote got →
  (∀ req, req ∈ done_by ω → accounted (h ++ h') sent req ∧ (out = [] → accounted (h ++ h') wrote req)) ∧
  (∀ id, id ∈ flat_map (confirms a) (pushed h) → ∃ req, req ∈ taken (h ++ h') ∧ addressed a req = true ∧
     rq_msgID req = id ∧ accounted (h ++ h') wrote req).
Proof.
  intros [_ _ _ _ _ Hd [k ->] H6 H7]. pose proof (due_prefix _ _ Hd) as Hd'. split.
  - intros req [? Hw]%H6. split; [by apply accounted_more|]. intros Ho. by apply accounted_more, Hw.
  - intros id (req & ? & ? & ? & ?)%H7. exists req. rewrite taken_app, elem_of_app.
    split_and!; [by left|done|done|by apply accounted_more].
Qed.

Lemma account_op_reader ρ ω out h sent wrote got o r :
  account ρ ω out h sent wrote got → is_reader ρ → may a o ρ → ¬ on_link a o →
  account (next a o r ρ) ω out (h ++ did o r) sent wrote got.
Proof.
  intros Ha Hρ Hm Hl. destruct (account_grow _ _ _ _ (did o r) _ _ _ Ha) as [G1 G2].
  destruct Ha as [H1 H2 H3 H4 H5 Hd Hw _ _]. pose proof (op_shows o r _ Hm Hl) as Hs.
  split; rewrite ?pushed_app, ?flat_map_app; try done.
  - by rewrite <-app_assoc, Hs.
  - pose proof (op_ids o r _ Hm Hl) as Hids. clear -H2 Hids. set_solver.
  - rewrite taken_app, flat_map_app, texts_app. by apply sublist_inserts_r.
  - intros id Hid. apply elem_of_app. left. by apply H4.
  - rewrite taken_app. clear -H5. set_solver.
  - intros id [Hid|Hid]%elem_of_app; [by apply G2|].
    by destruct (op_confirms o r _ _ Hm Hid) as (w & f & dn & req & -> & _).
Qed.

Lemma account_op_worker ρ ω h sent wrote got o r :
  account ρ ω [] h sent wrote got → is_worker ω → may a o ω → ¬ on_link a o →
  account ρ (next a o r ω) [] (h ++ did o r) sent wrote got.
Proof.
  intros Ha Hω Hm Hl. destruct (account_grow _ _ _ _ (did o r) _ _ _ Ha) as [G1 G2].
  destruct Ha as [H1 H2 H3 H4 H5 Hd Hw _ _]. pose proof (op_shows o r _ Hm Hl) as Hs.
  destruct (op_hands o r _ Hm Hl) as [Hdn Ht].
  assert (to_show ω = []) as Ew by by destruct ω. rewrite Ew in Hs. apply app_nil in Hs as [Hs _].
  split; rewrite ?pushed_app, ?flat_map_app, ?Hdn; try done.
  - by rewrite Hs, app_nil_r.
  - clear -H2. set_solver.
  - rewrite taken_app, flat_map_app, texts_app. unfold to_send in *. destruct Ht as [[-> ->]| ->].
    + by rewrite app_nil_r.
    + apply sublist_app; [|done]. etrans; [|exact H3]. by apply sublist_inserts_r.
  - intros id Hid. apply elem_of_app. left. by apply H4.
  - rewrite taken_app. destruct Ht as [[-> ->]| ->]; [by rewrite app_nil_r|]. clear -H5. set_solver.
  - intros id [Hid|Hid]%elem_of_app; [by apply G2|].
    destruct (op_confirms o r _ _ Hm Hid) as (w & f & dn & req & -> & Hb & Hadd & <-). exists req.
    cbn [done_by] in *. split_and!; [|done|done|by apply (G1 req Hb)].
    rewrite taken_app, elem_of_app. left. apply H5. clear -Hb. set_solver.
Qed.

Lemma account_op_other ρ ω out h sent wrote got o r :
  account ρ ω out h sent wrote got → may a o Other → ¬ on_link a o → account ρ ω out (h ++ did o r) sent wrote got.
Proof.
  intros Ha Hm Hl. destruct (account_grow _ _ _ _ (did o r) _ _ _ Ha) as [G1 G2].
  destruct Ha as [H1 H2 H3 H4 H5 Hd Hw _ _]. pose proof (op_shows o r _ Hm Hl) as Hs. apply app_nil in Hs as [Hs _].
  split; rewrite ?pushed_app, ?flat_map_app; try done.
  - by rewrite Hs, app_nil_r.
  - clear -H2. set_solver.
  - rewrite taken_app, flat_map_app, texts_app. by apply sublist_inserts_r.
  - intros id Hid. apply elem_of_app. left. by apply H4.
  - rewrite taken_app. clear -H5. set_solver.
  - intros id [Hid|Hid]%elem_of_app; [by apply G2|].
    by destruct (op_confirms o r _ _ Hm Hid) as (w & f & dn & req & ? & _).
Qed.

Lemma account_op G h sent wrote got i lo o r :
  account_of G h sent wrote got → role_fits i (lo_role (G i)) → may a o (lo_role (G i)) → ¬ on_link a o →
  lo_role lo = next a o r (lo_role (G i)) → lo_out (G i) = [] → lo_out lo = [] →
  account_of (<[i := lo]> G) (h ++ did o r) sent wrote got.
Proof.
  unfold account_of. intros Ha Hf Hm Hl Hr Ho Ho'. destruct i as [|[|i]].
  - rewrite fn_lookup_insert, fn_lookup_insert_ne by done. rewrite Hr. by apply account_op_reader.
  - rewrite fn_lookup_insert, fn_lookup_insert_ne by done. rewrite Hr, Ho'. rewrite Ho in Ha. by apply account_op_worker.
  - rewrite !fn_lookup_insert_ne by done. cbn in Hf. rewrite Hf in Hm. by apply account_op_other.
Qed.

(** *** In a method *)

Lemma settles_shown σ' σ : settles σ' σ → to_show σ' = to_show σ ∧ shown_ids σ' = shown_ids σ.
Proof. destruct σ, σ'; cbn; naive_solver. Qed.

Lemma settles_worker σ' σ : settles σ' σ → at_hand σ' `sublist_of` at_hand σ ∧ done_by σ' = done_by σ.
Proof.
  destruct σ as [| |w f dn], σ' as [| |w' f' dn']; cbn; try done.
  intros (-> & [[-> ->]|[-> ->]]); (split; [|done]); [done|apply sublist_nil_l].
Qed.

Lemma account_settles ρ ω ρ' ω' out h sent wrote got :
  account ρ ω out h sent wrote got → settles ρ' ρ → settles ω' ω → account ρ' ω' out h sent wrote got.
Proof.
  intros [H1 H2 H3 H4 H5 Hd Hw H6 H7] [E1 E2]%settles_shown [E3 E4]%settles_worker.
  split; rewrite ?E1, ?E2, ?E4; try done.
  - etrans; [|exact H3]. apply sublist_app; [done|]. by do 2 apply sublist_flat_map.
  - intros req [Hr|Hr]%elem_of_app; apply H5, elem_of_app; [left; by eapply sublist_subseteq|by right].
Qed.

(** Goroutine [i] goes on in a method. *)
Lemma account_local G h sent wrote got i lo :
  account_of G h sent wrote got → settles (lo_role lo) (lo_role (G i)) → lo_out lo = lo_out (G i) →
  account_of (<[i := lo]> G) h sent wrote got.
Proof.
  unfold account_of. intros Ha Hs Ho. destruct i as [|[|i]].
  - rewrite fn_lookup_insert, fn_lookup_insert_ne by done. eapply account_settles; [done..|apply settles_refl].
  - rewrite fn_lookup_insert, fn_lookup_insert_ne by done. rewrite Ho. eapply account_settles; [done|apply settles_refl|done].
  - by rewrite !fn_lookup_insert_ne by done.
Qed.

(** The reader reads. *)
Lemma account_reads G h sent wrote got lo pt :
  account_of G h sent wrote got → reads (lo_pos (G 0%nat)) pt (lo_pos lo) → account_of (<[0%nat := lo]> G) h sent wrote (got ++ [pt]).
Proof.
  unfold account_of, lo_role. rewrite fn_lookup_insert, fn_lookup_insert_ne by done.
  intros [H1 H2 H3 H4 H5 Hd Hw H6 H7] Hr. destruct Hr as [xs seen f d d' old new n pt _]. cbn [po_role to_show shown_ids] in *.
  split; try done. cbn [to_show]. rewrite flat_map_app, app_assoc, H1. cbn [flat_map]. by rewrite app_nil_r.
Qed.

(** Goroutine [i] seals [pt]: what it says is its own to say. *)
Lemma send_texts lk p pt p' :
  may_send cf lk p pt p' →
  (∃ s' new, step_in (po_owe p) pt = Some (s', new)) ∧
  (texts (items_in pt) = [] ∧ at_hand (po_role p') = at_hand (po_role p) ∧ done_by (po_role p') = done_by (po_role p) ∨
   ∃ req f done, po_role p = Worker (Some req) f done ∧ items_in pt = asks a req ∧ po_role p' = Worker None None (req :: done) ∧
     (file_asked a req = true → ∃ data, f = Some data ∧ (file_small data →
        ∃ s', step_in (po_owe p) pt = Some (s', [(to_valid_utf8 (Base (rq_filePath req)), data)])))).
Proof.
  destruct 1 as [σ d new s s' env pt _ He Hi Hst|σ d new env pt id st _ He Hi Hst _
    |d new s s' given env pt req f dn _ He Hi Hst _ Hf];
    rewrite (items_in_encodes _ _ He), Hi; (split; [by eexists _, _|]); [by left..|right].
  exists req, f, dn. split_and!; [done..|]. intros Hfa. destruct (Hf Hfa) as (data & -> & Hg).
  exists data. split; [done|]. intros ->%Hg. exists s'. cbn [po_owe]. rewrite Hst. unfold gives. by rewrite Hfa.
Qed.

Lemma send_receipt lk p pt p' id :
  may_send cf lk p pt p' → IReceipt id StateDelivered ∈ items_in pt → id ∈ shown_ids (po_role p).
Proof.
  destruct 1 as [σ d new s s' env pt _ He Hi _|σ d new env pt id' st _ He Hi _ Hst|d new s s' given env pt req f dn _ He Hi _ _ _];
    rewrite (items_in_encodes _ _ He), Hi; intros Hin.
  - by apply not_elem_of_nil in Hin.
  - apply list_elem_of_singleton in Hin as [= <- <-]. by apply Hst.
  - unfold asks in Hin. destruct (_ && _); [by apply list_elem_of_singleton in Hin|by apply not_elem_of_nil in Hin].
Qed.

Lemma may_send_shown lk p pt p' :
  may_send cf lk p pt p' → to_show (po_role p') = to_show (po_role p) ∧ shown_ids (po_role p') = shown_ids (po_role p).
Proof. by destruct 1. Qed.

Lemma seals_sent h sent new ω ω' :
  texts (flat_map items_in sent) ++ texts (to_send ω) `sublist_of` texts (flat_map (asks a) (taken h)) →
  (texts (items_in new) = [] ∧ at_hand ω' = at_hand ω ∨
   ∃ req, at_hand ω = [req] ∧ items_in new = asks a req ∧ at_hand ω' = []) →
  texts (flat_map items_in (sent ++ [new])) ++ texts (to_send ω') `sublist_of` texts (flat_map (asks a) (taken h)).
Proof.
  unfold to_send. intros Hs Hw. rewrite flat_map_app, texts_app. cbn [flat_map]. rewrite app_nil_r.
  destruct Hw as [[-> ->]|(req & E & -> & ->)]; [by rewrite app_nil_r|]. rewrite E in Hs. cbn in *. by rewrite !app_nil_r in *.
Qed.

(** What the worker seals, it has accounted for. *)
Lemma seals_done h sent lk p pt p' :
  may_send cf lk p pt p' → due sent = Some (po_owe p) →
  (∀ req data done, po_role p = Worker (Some req) (Some data) done → read_from h (rq_filePath req) data) →
  (∀ req, req ∈ done_by (po_role p) → accounted h sent req) →
  is_Some (due (sent ++ [pt])) ∧ ∀ req, req ∈ done_by (po_role p') → accounted h (sent ++ [pt]) req.
Proof.
  intros Hs Hd Hrd Hdn. destruct (send_texts _ _ _ _ Hs) as [(s' & new & Hst) Ht].
  assert (is_Some (due (sent ++ [pt]))) as Hd' by (rewrite due_snoc, Hd; cbn; by rewrite Hst).
  assert (∀ req, req ∈ done_by (po_role p) → accounted h (sent ++ [pt]) req) as Hold.
  { intros req Hr%Hdn. rewrite <-(app_nil_r h). by apply accounted_grow. }
  split; [done|]. destruct Ht as [(_ & _ & ->)|(req & f & dn & E & Hi & -> & Hf)]; [done|]. rewrite E in Hold.
  intros req' [->|Hr]%elem_of_cons; [|by apply Hold]. split.
  - rewrite flat_map_app. cbn [flat_map]. rewrite Hi. clear. set_solver.
  - intros Hfa. destruct (Hf Hfa) as (data & -> & Hg). exists data. split; [by eapply Hrd|]. intros Hsm.
    destruct (Hg Hsm) as (s2 & Hst'). rewrite (files_snoc _ _ _ _ _ Hd Hst'). apply elem_of_app. right. by left.
Qed.

Lemma account_seals ρ ω ρ' ω' out out' lk p pt p' h sent wrote got :
  account ρ ω out h sent wrote got → may_send cf lk p pt p' → shown_ids (po_role p) ⊆ flat_map (announces a) (pushed h) →
  due sent = Some (po_owe p) →
  (∀ req data done, po_role p = Worker (Some req) (Some data) done → read_from h (rq_filePath req) data) →
  to_show ρ' = to_show ρ → shown_ids ρ' = shown_ids ρ →
  (po_role p = ω ∧ po_role p' = ω' ∧ out' ≠ [] ∨
   texts (items_in pt) = [] ∧ at_hand ω' = at_hand ω ∧ done_by ω' = done_by ω ∧ done_by (po_role p) = [] ∧ out' = out) →
  account ρ' ω' out' h (sent ++ [pt]) wrote got.
Proof.
  intros [H1 H2 H3 H4 H5 _ Hw H6 H7] Hs Hids Hd Hrd E1 E2 Hc.
  destruct (send_texts _ _ _ _ Hs) as [_ Ht].
  destruct (seals_done h sent _ _ _ _ Hs Hd Hrd) as [Hd' Hdn].
  { intros req. destruct Hc as [(<- & _)|(_ & _ & _ & -> & _)]; [apply H6|by intros ?%not_elem_of_nil]. }
  split; try done.
  - by rewrite E1.
  - by rewrite E2.
  - eapply seals_sent; [exact H3|]. destruct Hc as [(<- & <- & _)|(? & ? & _)]; [|by left].
    destruct Ht as [(? & ? & _)|(req & f & dn & -> & ? & -> & _)]; [by left|right; by exists req].
  - intros id. rewrite flat_map_app. cbn [flat_map]. rewrite app_nil_r. intros [Hin|Hin]%elem_of_app; [by apply H4|].
    apply Hids. by eapply send_receipt.
  - destruct Hc as [(<- & <- & _)|(_ & -> & -> & _)]; [|done].
    destruct Ht as [(_ & -> & ->)|(req & f & dn & E & _ & -> & _)]; [done|]. by rewrite E in H5.
  - by apply prefix_app_r.
  - intros req Hreq. destruct Hc as [(_ & <- & Ho)|(_ & _ & E & _ & ->)]; [by split; [apply Hdn|]|].
    rewrite E in Hreq. destruct (H6 req Hreq) as [Hq ?]. split; [|done]. rewrite <-(app_nil_r h). by apply accounted_grow.
Qed.

Lemma account_send G h sent wrote got i lo lk pt :
  account_of G h sent wrote got → role_fits i (lo_role (G i)) → due sent = Some (po_owe (lo_pos (G i))) →
  (∀ req data done, lo_role (G 1%nat) = Worker (Some req) (Some data) done → read_from h (rq_filePath req) data) →
  may_send cf lk (lo_pos (G i)) pt (lo_pos lo) → lo_out lo ≠ [] →
  account_of (<[i := lo]> G) h (sent ++ [pt]) wrote got.
Proof.
  unfold account_of. intros Ha Hf Hd Hrd Hs Ho. destruct (may_send_shown _ _ _ _ Hs) as [E1 E2].
  destruct (send_texts _ _ _ _ Hs) as [_ Ht]. fold (lo_role (G i)) (lo_role lo) in E1, E2, Ht.
  assert (∀ req data dn, lo_role (G i) = Worker (Some req) (Some data) dn → read_from h (rq_filePath req) data) as Hrd'.
  { intros req data dn E. rewrite E in Hf. destruct i as [|[|i]]; [done| |done]. by eapply Hrd. }
  assert (i ≠ 1%nat → texts (items_in pt) = [] ∧ done_by (lo_role (G i)) = []) as Hn.
  { intros Hi. assert (¬ is_worker (lo_role (G i))) as Hnw.
    { destruct i as [|[|i]]; cbn in Hf; [|done|rewrite Hf; by intros []]. destruct (lo_role (G 0%nat)); by intros []. }
    destruct Ht as [[? _]|(req & f & dn & E & _)]; [|by rewrite E in Hnw; destruct Hnw].
    split; [done|]. by destruct (lo_role (G i)); [..|destruct Hnw]. }
  destruct i as [|[|i]].
  - rewrite fn_lookup_insert, fn_lookup_insert_ne by done.
    eapply account_seals; [exact Ha|exact Hs|apply (ac_ids _ _ _ _ _ _ _ Ha)|exact Hd|exact Hrd'|done|done|].
    right. by destruct Hn.
  - rewrite fn_lookup_insert, fn_lookup_insert_ne by done.
    eapply account_seals; [exact Ha|exact Hs| |exact Hd|exact Hrd'|done|done|by left].
    fold (lo_role (G 1%nat)). cbn in Hf. destruct (lo_role (G 1%nat)); [done..|]. clear. set_solver.
  - rewrite !fn_lookup_insert_ne by done.
    eapply account_seals; [exact Ha|exact Hs| |exact Hd|exact Hrd'|done|done|right; by destruct Hn].
    fold (lo_role (G (S (S i)))). cbn in Hf. rewrite Hf. clear. set_solver.
Qed.

(** What was sealed is written. *)
Lemma account_write G h sent wrote got i lo :
  account_of G h sent wrote got → lo_pos lo = lo_pos (G i) → lo_out lo = [] →
  account_of (<[i := lo]> G) h sent sent got.
Proof.
  unfold account_of. intros Ha Hp Ho.
  assert (∀ ρ ω out', ρ = lo_role (G 0%nat) → ω = lo_role (G 1%nat) → account ρ ω out' h sent sent got) as Hd.
  { intros ρ ω out' -> ->. destruct Ha as [H1 H2 H3 H4 H5 Hdu [k ->] H6 H7]. split; try done.
    - intros req Hreq. by destruct (H6 req Hreq).
    - intros id Hid. destruct (H7 id Hid) as (req & ? & ? & ? & Hin). exists req. split_and!; [done..|].
      rewrite <-(app_nil_r h). by apply accounted_grow. }
  apply Hd.
  - destruct (decide (0 = i)%nat) as [<-|?]; [by rewrite fn_lookup_insert; unfold lo_role; rewrite Hp|by rewrite fn_lookup_insert_ne].
  - destruct (decide (1 = i)%nat) as [<-|?]; [by rewrite fn_lookup_insert; unfold lo_role; rewrite Hp|by rewrite fn_lookup_insert_ne].
Qed.

(** ** The account of files *)

(** A file that was received is announced under its name, and is where the
    event says. *)
Definition saved_as (h : list answer) (f e : bytes * bytes) : Prop := f.1 = e.1 ∧ wrote_to h e.2 f.2.

(** A file that was sent is the one a request names. *)
Definition given (h : list answer) (req : outReq) (f : bytes * bytes) : Prop :=
  f.1 = to_valid_utf8 (Base (rq_filePath req)) ∧ read_from h (rq_filePath req) f.2.

Definition file_reqs (l : list outReq) : list outReq := flat_map (λ req, if file_asked a req then [req] else []) l.

(** The disk refused a directory or a file. *)
Definition disk_failed (x : answer) : bool :=
  match x with
  | existT (OMkdirAll _) r => negb (is_ok r)
  | existT (OWriteFile _ _) r => negb (is_ok r)
  | _ => false
  end.

Definition disk_ok (h : list answer) : Prop := Forall (λ x, disk_failed x = false) h.

Lemma disk_ok_app h h' : disk_ok (h ++ h') → disk_ok h ∧ disk_ok h'.
Proof. apply Forall_app. Qed.

Lemma disk_ok_did o r : disk_ok (did o r) ↔ disk_failed (existT o r) = false.
Proof. unfold disk_ok, did. by rewrite Forall_singleton. Qed.

(** The reader has [file] in hand, and [new] arrived since; the worker is [ω].
    Only the disk can keep a file from being announced. *)
Record filed (ρ : role) (new : list (bytes * bytes)) (ω : role) (h : list answer) (sent got : list bytes) : Prop := {
  fi_files : ∃ l, Forall2 (saved_as h) l (flat_map (files a) (pushed h)) ∧
    l ++ in_hand ρ ++ new `sublist_of` files_in got ∧ (disk_ok h → l ++ in_hand ρ ++ new = files_in got);
  fi_saved xs seen name data path : ρ = Reader xs seen (Saved name data path) → wrote_to h path data;
  fi_given : ∃ reqs, Forall2 (given h) reqs (files_in sent) ∧
    reqs ++ file_reqs (at_hand ω) `sublist_of` file_reqs (taken h);
  fi_read req data done : ω = Worker (Some req) (Some data) done → read_from h (rq_filePath req) data;
}.

Definition filed_of (G : nat → local) : list answer → list bytes → list bytes → Prop :=
  filed (lo_role (G 0%nat)) (po_new (lo_pos (G 0%nat))) (lo_role (G 1%nat)).

Lemma saved_as_app h h' l k : Forall2 (saved_as h) l k → Forall2 (saved_as (h ++ h')) l k.
Proof. intros Hf. eapply Forall2_impl; [exact Hf|]. intros f e [? ?]. split; [done|]. unfold wrote_to in *. set_solver. Qed.

Lemma given_app h h' l k : Forall2 (given h) l k → Forall2 (given (h ++ h')) l k.
Proof. intros Hf. eapply Forall2_impl; [exact Hf|]. intros req f [? ?]. split; [done|]. unfold read_from in *. set_solver. Qed.

(** An operation, as the files see it. *)
Lemma op_files o r σ :
  may a o σ → ¬ on_link a o →
  flat_map (files a) (pushed (did o r)) = [] ∧
    (in_hand (next a o r σ) = in_hand σ ∨ in_hand (next a o r σ) = [] ∧ ¬ disk_ok (did o r)) ∨
  ∃ xs seen name data path, σ = Reader xs seen (Saved name data path) ∧
    flat_map (files a) (pushed (did o r)) = [(name, path)] ∧ in_hand (next a o r σ) = [].
Proof.
  intros Hm Hl. destruct o; cbn in *; try (rewrite decide_False by done); try (left; split; [done|by left]).
  - rewrite app_nil_r. destruct Hm as (_ & [Hf|(xs & seen & name & data & path & -> & Hf)] & _).
    + left. rewrite Hf. split; [done|]. left. by destruct σ.
    + right. exists xs, seen, name, data, path. by rewrite Hf.
  - left. split; [done|]. left. destruct σ; try done. by destruct r.
  - left. split; [done|]. destruct σ as [|? ? []|]; try by left. destruct r; [by left|right].
    split; [done|]. by intros ?%disk_ok_did.
  - left. split; [done|]. left. destruct σ as [| |[] ?]; try done. by destruct r.
  - left. split; [done|]. destruct σ as [|? ? []|]; try by left. destruct r; [left; case_decide; [by subst|done]|right].
    split; [done|]. by intros ?%disk_ok_did.
Qed.

Lemma op_saved o r σ xs seen name data path :
  ¬ on_link a o → next a o r σ = Reader xs seen (Saved name data path) →
  (∃ xs' seen', σ = Reader xs' seen' (Saved name data path)) ∨ wrote_to (did o r) path data.
Proof.
  intros Hl. destruct o; cbn in *; try (rewrite decide_False by done); try (intros ->; left; by eexists _, _).
  - destruct σ; try done. intros [= _ _ Hf]. revert Hf. case_decide; [intros ->; left; by eexists _, _|done].
  - destruct σ; try done; [intros ->; left; by eexists _, _|by destruct r].
  - destruct σ as [|? ? []|]; try done; try (intros ->; left; by eexists _, _). by destruct r.
  - destruct σ as [| |[] ?]; try done; [|by destruct r]. intros ->. left. by eexists _, _.
  - destruct σ as [|? ? []|]; try done; try (intros ->; left; by eexists _, _).
    destruct r as [[]|]; [|done]. case_decide; [subst|done]. intros [= _ _ -> -> ->]. right. unfold wrote_to. reflexivity.
Qed.

Lemma op_read o r σ req data dn :
  ¬ on_link a o → next a o r σ = Worker (Some req) (Some data) dn →
  (∃ dn', σ = Worker (Some req) (Some data) dn') ∨ read_from (did o r) (rq_filePath req) data.
Proof.
  intros Hl. destruct o; cbn in *; try (rewrite decide_False by done); try (intros ->; left; by eexists).
  - destruct σ; try done. intros ->. left. by eexists.
  - destruct σ; try done. destruct r; [done|]. intros ->. left. by eexists.
  - destruct σ as [|? ? []|]; try done; try (intros ->; left; by eexists). by destruct r.
  - destruct σ as [| |[] ?]; try done.
    destruct r as [d|]; [|intros ->; left; by eexists]. case_decide; [subst|].
    + intros [= -> -> _]. right. unfold read_from. reflexivity.
    + intros [= -> -> _]. left. by eexists.
  - destruct σ as [|? ? []|]; try done; try (intros ->; left; by eexists). by destruct r.
Qed.

(** *** Every step keeps it *)

Lemma filed_grow ρ new ω h h' sent got :
  filed ρ new ω h sent got → flat_map (files a) (pushed h') = [] → filed ρ new ω (h ++ h') sent got.
Proof.
  intros [(l & H1 & H2 & Heq) H3 (reqs & H4 & H5) H6] Hf. split.
  - exists l. split_and!; [|done|by intros [? _]%disk_ok_app; apply Heq].
    rewrite pushed_app, flat_map_app, Hf, app_nil_r. by apply saved_as_app.
  - intros xs seen name data path E. specialize (H3 _ _ _ _ _ E). unfold wrote_to in *. clear -H3. set_solver.
  - exists reqs. split; [by apply given_app|]. rewrite taken_app. unfold file_reqs in *. rewrite flat_map_app.
    by apply sublist_inserts_r.
  - intros req data dn E. specialize (H6 _ _ _ E). unfold read_from in *. clear -H6. set_solver.
Qed.

Lemma filed_op_reader ρ new ω h sent got o r :
  filed ρ new ω h sent got → may a o ρ → ¬ on_link a o → filed (next a o r ρ) new ω (h ++ did o r) sent got.
Proof.
  intros Hfi Hm Hl. destruct Hfi as [(l & H1 & H2 & Heq) H3 (reqs & H4 & H5) H6]. split.
  - rewrite pushed_app, flat_map_app.
    destruct (op_files o r _ Hm Hl) as [[-> [-> |[-> Hno]]]|(xs & seen & name & data & path & -> & -> & ->)].
    + exists l. rewrite app_nil_r. split_and!; [by apply saved_as_app|done|by intros [? _]%disk_ok_app; apply Heq].
    + exists l. rewrite app_nil_r. split_and!; [by apply saved_as_app| |by intros [_ ?]%disk_ok_app].
      etrans; [|exact H2]. apply sublist_app; [done|]. by apply sublist_inserts_l.
    + exists (l ++ [(name, data)]). rewrite <-app_assoc.
      split_and!; [|done|by intros [? _]%disk_ok_app; apply Heq].
      apply Forall2_app; [by apply saved_as_app|]. constructor; [|constructor]. split; [done|]. cbn.
      specialize (H3 _ _ _ _ _ eq_refl). unfold wrote_to in *. clear -H3. set_solver.
  - intros xs seen name data path [(xs' & seen' & ->)|Hw]%op_saved; [|unfold wrote_to in *; clear -Hw; set_solver|done].
    specialize (H3 _ _ _ _ _ eq_refl). unfold wrote_to in *. clear -H3. set_solver.
  - exists reqs. split; [by apply given_app|]. rewrite taken_app. unfold file_reqs in *. rewrite flat_map_app.
    by apply sublist_inserts_r.
  - intros req data dn E. specialize (H6 _ _ _ E). unfold read_from in *. clear -H6. set_solver.
Qed.

(** Only the reader announces files. *)
Lemma op_no_files o r σ :
  ¬ is_reader σ → may a o σ → ¬ on_link a o → flat_map (files a) (pushed (did o r)) = [].
Proof.
  intros Hσ Hm Hl. destruct (op_files o r _ Hm Hl) as [[-> _]|(xs & seen & name & data & path & -> & _)]; [done|].
  by destruct Hσ.
Qed.

Lemma filed_op_worker ρ new ω h sent got o r :
  filed ρ new ω h sent got → ¬ is_reader ω → may a o ω → ¬ on_link a o → filed ρ new (next a o r ω) (h ++ did o r) sent got.
Proof.
  intros Hfi Hω Hm Hl. pose proof (filed_grow _ _ _ _ (did o r) _ _ Hfi (op_no_files _ _ _ Hω Hm Hl)) as [H1 H2 H3 H4].
  destruct Hfi as [_ _ (reqs & H5 & H6) H7]. split; [exact H1|exact H2| |].
  - destruct (op_hands o r _ Hm Hl) as [_ [[-> _]| ->]]; [exact H3|]. exists reqs. split; [by apply given_app|].
    rewrite taken_app. unfold file_reqs in *. rewrite flat_map_app. apply sublist_app; [|done].
    etrans; [|exact H6]. by apply sublist_inserts_r.
  - intros req data dn [[dn' ->]|Hr]%op_read; [by eapply H4| |done]. unfold read_from in *. clear -Hr. set_solver.
Qed.

Lemma filed_op G h sent got i lo o r :
  filed_of G h sent got → role_fits i (lo_role (G i)) → may a o (lo_role (G i)) → ¬ on_link a o →
  lo_role lo = next a o r (lo_role (G i)) → po_new (lo_pos lo) = po_new (lo_pos (G i)) →
  filed_of (<[i := lo]> G) (h ++ did o r) sent got.
Proof.
  unfold filed_of. intros Ha Hf Hm Hl Hr Hn. destruct i as [|[|i]].
  - rewrite fn_lookup_insert, fn_lookup_insert_ne by done. rewrite Hr, Hn. by apply filed_op_reader.
  - rewrite fn_lookup_insert, fn_lookup_insert_ne by done. rewrite Hr. apply filed_op_worker; [done| |done..].
    cbn in Hf. destruct (lo_role (G 1%nat)); [done..|]. by intros [].
  - rewrite !fn_lookup_insert_ne by done. cbn in Hf. rewrite Hf in Hm.
    apply filed_grow; [done|]. eapply op_no_files; [|exact Hm|done]. by intros [].
Qed.

(** Goroutine [i] goes on in a method. *)
Lemma filed_settles ρ new ω ρ' new' ω' h sent got :
  filed ρ new ω h sent got → settles ρ' ρ → in_hand ρ' ++ new' = in_hand ρ ++ new → settles ω' ω →
  filed ρ' new' ω' h sent got.
Proof.
  intros [(l & H1 & H2) H3 (reqs & H4 & H5) H6] Hρ Hn Hω. split.
  - exists l. by rewrite Hn.
  - intros xs seen name data path ->. destruct ρ as [|xs' seen' f|w f dn]; cbn in Hρ; [done| |done].
    destruct Hρ as (_ & _ & [<-|Hs]); [by eapply H3|]. by destruct Hs.
  - exists reqs. split; [done|]. etrans; [|exact H5]. apply sublist_app; [done|].
    apply sublist_flat_map. by apply settles_worker.
  - intros req data dn ->. destruct ω as [|xs' seen' f|w f dn']; cbn in Hω; [done..|].
    destruct Hω as (_ & [[<- <-]|[? _]]); [by eapply H6|done].
Qed.

Lemma filed_local G h sent got i lo :
  filed_of G h sent got → settles (lo_role lo) (lo_role (G i)) → arriving (lo_pos lo) = arriving (lo_pos (G i)) →
  filed_of (<[i := lo]> G) h sent got.
Proof.
  unfold filed_of. intros Ha Hr Hn. destruct i as [|[|i]].
  - rewrite fn_lookup_insert, fn_lookup_insert_ne by done. eapply filed_settles; [done..|apply settles_refl].
  - rewrite fn_lookup_insert, fn_lookup_insert_ne by done. eapply filed_settles; [done|apply settles_refl|done|done].
  - by rewrite !fn_lookup_insert_ne by done.
Qed.

(** The reader reads. *)
Lemma filed_reads G h sent got lo pt :
  filed_of G h sent got → due got = Some (po_due (lo_pos (G 0%nat))) → reads (lo_pos (G 0%nat)) pt (lo_pos lo) →
  filed_of (<[0%nat := lo]> G) h sent (got ++ [pt]).
Proof.
  unfold filed_of, lo_role. rewrite fn_lookup_insert, fn_lookup_insert_ne by done.
  intros [(l & H1 & H2 & Heq) H3 H4 H5] Hd Hr. destruct Hr as [xs seen f d d' old new n pt Hst]. cbn [po_role po_new po_due] in *.
  split; [|intros xs' seen' name data path [= _ _ ->]; by eapply H3|done..].
  exists l. split; [done|]. rewrite (files_snoc _ _ _ _ _ Hd Hst).
  replace (l ++ in_hand (Reader (xs ++ items_in pt) seen f) ++ old ++ new)
    with ((l ++ in_hand (Reader xs seen f) ++ old) ++ new) by by rewrite <-!app_assoc.
  split; [by apply sublist_app|]. intros Hdk. by rewrite Heq.
Qed.

(** Goroutine [i] seals [pt]. *)
Lemma filed_send G h sent got i lo lk pt :
  filed_of G h sent got → role_fits i (lo_role (G i)) → due sent = Some (po_owe (lo_pos (G i))) →
  may_send cf lk (lo_pos (G i)) pt (lo_pos lo) → filed_of (<[i := lo]> G) h (sent ++ [pt]) got.
Proof.
  intros Ha Hf Hd Hs. remember (lo_pos (G i)) as p eqn:Ep. remember (lo_pos lo) as p' eqn:Ep'.
  assert (po_role p = lo_role (G i)) as Er by by rewrite Ep.
  assert (∀ s', step_in (po_owe p) pt = Some (s', []) → po_role p' = po_role p → po_new p' = po_new p →
    filed_of (<[i := lo]> G) h (sent ++ [pt]) got) as Hpart.
  { intros s' Hst E1 E2. assert (filed_of (<[i := lo]> G) h sent got) as [H1 H2 H3 H4].
    - apply filed_local; unfold lo_role, arriving; [done|..]; rewrite <-Ep, <-Ep', E1; [apply settles_refl|by rewrite E2].
    - split; rewrite ?(files_snoc _ _ _ _ _ Hd Hst), ?app_nil_r; done. }
  destruct Hs as [σ d new s s' env pt _ _ _ Hst|σ d new env pt id st _ _ _ Hst _|d new s s' fs env pt req f dn _ _ _ Hst Hg _];
    [by eapply Hpart..|]. clear Hpart. cbn [po_role po_owe] in *. rewrite <-Er in Hf.
  destruct i as [|[|i]]; [done| |done]. unfold filed_of in *. rewrite fn_lookup_insert, fn_lookup_insert_ne by done.
  unfold lo_role at 2. rewrite <-Ep'. rewrite <-Er in Ha. cbn [po_role].
  destruct Ha as [H1 H2 (reqs & H3 & H4) H5]. split; [done|done| |done]. rewrite (files_snoc _ _ _ _ _ Hd Hst).
  cbn [at_hand file_reqs flat_map] in *. rewrite app_nil_r in *. unfold gives in Hg.
  destruct f as [data|]; [destruct (file_asked a req)|]; try (apply sublist_nil_r in Hg as ->).
  - exists (reqs ++ (if fs is [] then [] else [req])). rewrite app_nil_r. split.
    + apply Forall2_app; [done|]. specialize (H5 _ _ _ eq_refl).
      apply sublist_cons_r in Hg as [Hg|(k & -> & Hg)]; apply sublist_nil_r in Hg as ->; [constructor|].
      constructor; [by split|constructor].
    + destruct fs; [|exact H4]. etrans; [|exact H4]. rewrite app_nil_r. by apply sublist_inserts_r.
  - exists reqs. rewrite !app_nil_r in *. by split.
  - exists reqs. rewrite !app_nil_r. split; [done|]. etrans; [|exact H4]. by apply sublist_inserts_r.
Qed.

End ledger.
