(* ===== verification/Crew.v ===== *)
(** * The goroutines of a host keep to their roles

    What each goroutine of [Host] may have in hand - a frame read and not yet
    opened, a sealed message not yet written - and that every step of the host
    keeps it so, with the account of what was shown and sent ([Ledger]). *)

From stdpp Require Import functions.
From S2P Require Import Prelude Bytes Json Codec GoTime Curve Identity X3dh Ratchet Conversation Session Filetransfer Messaging Contact Transport Conn Account Proc Node NodeLink NodeFile NodeHop LinkProc Prog Runtime Roles Stream Host Moves Ledger.
Open Scope Z_scope.

Section crew.
Context `{CurveLaws} (cf : config) (Hfp : valid_utf8 (lk_fp (cf_link cf)) = true).
Abbreviation a := (cf_link cf).
Abbreviation L := (cf_Link cf).
Abbreviation follows := (Prog.follows (R := res) (may a) (knows a) (next a)).
Abbreviation plays lk := (LinkProc.plays L (may_send cf lk) reads reader good (goes_on cf)).
Abbreviation behaves lk := (LinkProc.behaves L (may_send cf lk) reads reader good (goes_on cf)).

(** ** The goroutines *)

Definition unused : local := Loc (Pos Other Idle [] Idle) [] [] false.

(** [m] opens [ct] next, and goes on as it should. *)
Definition opens (lk : bool) (ct : bytes) (p : pos) (m : proc node (prog unit)) : Prop := ∀ n r pt r3 t3 p',
  good pt → reads p pt p' → ratchet_at L n = Some r → clock_ok n → decrypt ct (r, n_tape n) = (Ok pt, (r3, t3)) →
  behaves lk p' [pt] r3 (m n).

Definition task_ok (lo : local) (t : task) : Prop :=
  let '(Loc p pin pout lk) := lo in
  match t with
  | Run q => lk = false ∧ pin = [] ∧ pout = [] ∧ po_owe p = Idle ∧ pos_ok p ∧ follows q (λ _ _, True) (po_role p)
  | Doing m => pout = [] ∧
      (pin = [] ∧ plays lk p [] m ∨ ∃ ct, pin = [ct] ∧ ct ≠ [] ∧ is_reader (po_role p) ∧ opens lk ct p m)
  | Writing b k => lk = true ∧ pin = [] ∧ ∃ ct, pout = [ct] ∧ b = payload_frame ct ∧ plays lk p [] (k (Ok tt))
  | Awaiting k => pin = [] ∧ pout = [] ∧ reader p ∧ ∀ ct, ct ≠ [] → opens lk ct p (k (Ok (payload_frame ct)))
  end.

Record crew (G : nat → local) (ts : list task) (mu : option nat) : Prop := {
  cr_tasks i t : ts !! i = Some t → task_ok (G i) t;
  cr_roles i : (i < length ts)%nat → role_fits i (lo_role (G i));
  cr_mu i : lo_lk (G i) = bool_decide (mu = Some i);
  cr_unused i : (length ts ≤ i)%nat → G i = unused;
  cr_length : (2 ≤ length ts)%nat;
}.

(** Goroutine [i] moves on; others may start. *)
Lemma crew_update G ts mu i t lo t' mu' new :
  crew G ts mu → ts !! i = Some t → task_ok lo t' → role_fits i (lo_role lo) → lo_lk lo = bool_decide (mu' = Some i) →
  (∀ j, j ≠ i → mu' = Some j ↔ mu = Some j) → Forall (task_ok unused) new →
  crew (<[i := lo]> G) (<[i := t']> ts ++ new) mu'.
Proof.
  intros [H1 H2 H3 H4 H5] Hi Ht Hr Hlk Hmu Hnew. pose proof (lookup_lt_Some _ _ _ Hi) as Hlt. split.
  - intros j t0. destruct (decide (j = i)) as [->|Hne].
    + rewrite fn_lookup_insert, lookup_app_l by (by rewrite length_insert).
      rewrite list_lookup_insert_eq by done. by intros [= <-].
    + rewrite fn_lookup_insert_ne by done. intros [Hj|[Hge Hj]]%lookup_app_Some.
      * rewrite list_lookup_insert_ne in Hj by done. by apply H1.
      * rewrite length_insert in Hge. rewrite H4 by done. apply list_elem_of_lookup_2 in Hj.
        rewrite Forall_forall in Hnew. by apply Hnew.
  - intros j Hj. destruct (decide (j = i)) as [->|Hne]; [by rewrite fn_lookup_insert|].
    rewrite fn_lookup_insert_ne by done. destruct (decide (j < length ts)%nat); [by apply H2|].
    rewrite H4 by lia. destruct j as [|[|j]]; [lia..|done].
  - intros j. destruct (decide (j = i)) as [->|Hne]; [by rewrite fn_lookup_insert|].
    rewrite fn_lookup_insert_ne, H3 by done. apply bool_decide_ext. symmetry. by apply Hmu.
  - intros j. rewrite length_app, length_insert. intros Hj. rewrite fn_lookup_insert_ne by lia. apply H4. lia.
  - rewrite length_app, length_insert. lia.
Qed.

(** What the host has in hand: only the reader has a frame to open, only the
    holder of [sendMu] a message to write. *)
Definition hand_in (G : nat → local) : list bytes := lo_in (G 0%nat).
Definition hand_out (G : nat → local) (mu : option nat) : list bytes :=
  match mu with Some i => lo_out (G i) | None => [] end.

Lemma reader_first G ts mu i : crew G ts mu → (i < length ts)%nat → is_reader (lo_role (G i)) → i = 0%nat.
Proof. intros Hc Hi Hr. pose proof (cr_roles _ _ _ Hc i Hi) as Hf. destruct i as [|[|i]]; cbn in Hf; [done| |]; destruct (lo_role _); done. Qed.

Lemma hand_in_ne G i lo : lo_in lo = lo_in (G i) → hand_in (<[i := lo]> G) = hand_in G.
Proof. intros E. unfold hand_in. destruct (decide (i = 0%nat)) as [->|?]; [by rewrite fn_lookup_insert|by rewrite fn_lookup_insert_ne]. Qed.

(** The stream that the holder of [sendMu] writes. *)
Definition owed (G : nat → local) (mu : option nat) : stream :=
  match mu with Some i => po_owe (lo_pos (G i)) | None => Idle end.

(** ** The host *)

(** Its end of the network of ratchets, as far as the host has it: its ratchet,
    the plaintexts sealed, those of them written, and those opened, and the
    sealed messages in hand. *)
Record ghost := Gh {
  g_ratchet : ratchet; g_sent : list bytes; g_wrote : list bytes; g_got : list bytes; g_in : list bytes; g_out : list bytes
}.

Record host_with (G : nat → local) (h : host) (g : ghost) : Prop := {
  ho_ratchet : ratchet_at L (h_node h) = Some (g_ratchet g);
  ho_clock : clock_ok (h_node h);
  ho_crew : crew G (h_tasks h) (h_sendMu h);
  ho_in : g_in g = hand_in G;
  ho_out : g_out g = hand_out G (h_sendMu h);
  ho_rt : rt_inv a (h_rt h) (h_hist h);
  ho_account : account_of cf G (h_hist h) (g_sent g) (g_wrote g) (g_got g);
  ho_wrote : ∃ l, g_sent g = g_wrote g ++ l ∧ length l = length (g_out g);
  ho_due : due (g_got g) = Some (po_due (lo_pos (G 0%nat)));
  ho_owed : due (g_sent g) = Some (owed G (h_sendMu h));
  ho_files : filed_of cf G (h_hist h) (g_sent g) (g_got g);
}.

Definition host_ok (h : host) (g : ghost) : Prop := ∃ G, host_with G h g.

Lemma spawned_unused o new σ :
  spawned (cf_dir cf) o new → may a o σ → Forall (task_ok unused) (map Run new).
Proof.
  intros Hs Hm. apply Forall_map. eapply Forall_impl; [by eapply spawned_follows|]. intros p Hp. by split_and!.
Qed.

(** [hand_out] when goroutine [i] moves on without taking or leaving [sendMu]. *)
Lemma hand_out_ne G i lo mu : lo_out lo = lo_out (G i) → hand_out (<[i := lo]> G) mu = hand_out G mu.
Proof.
  intros E. unfold hand_out. destruct mu as [j|]; [|done].
  destruct (decide (i = j)) as [->|?]; [by rewrite fn_lookup_insert|by rewrite fn_lookup_insert_ne].
Qed.

(** [owed] when goroutine [i] moves on. *)
Lemma owed_same G i lo mu : po_owe (lo_pos lo) = po_owe (lo_pos (G i)) → owed (<[i := lo]> G) mu = owed G mu.
Proof.
  intros E. unfold owed. destruct mu as [j|]; [|done].
  destruct (decide (i = j)) as [->|?]; [by rewrite fn_lookup_insert|by rewrite fn_lookup_insert_ne].
Qed.

Lemma due_same G i lo : po_due (lo_pos lo) = po_due (lo_pos (G i)) → po_due (lo_pos (<[i := lo]> G 0%nat)) = po_due (lo_pos (G 0%nat)).
Proof.
  intros E. destruct (decide (i = 0%nat)) as [->|?]; [by rewrite fn_lookup_insert|by rewrite fn_lookup_insert_ne].
Qed.

Lemma filed_same G h sent got i lo :
  filed_of cf G h sent got → lo_pos lo = lo_pos (G i) → filed_of cf (<[i := lo]> G) h sent got.
Proof. intros Hf E. apply filed_local; unfold lo_role; rewrite ?E; [done|apply settles_refl|done]. Qed.

(** Between two operations nothing is in hand. *)
Lemma task_idle lo q :
  task_ok lo (Run q) → ∃ p, lo = Loc p [] [] false ∧ po_owe p = Idle ∧ pos_ok p ∧ follows q (λ _ _, True) (po_role p).
Proof. destruct lo as [p pin pout lk]. cbn. intros (-> & -> & -> & Ho & Hp & Hq). by exists p. Qed.

(** An operation on the engine's state leaves the offer to be answered. *)
Lemma op_pos_ok o r p :
  may a o (po_role p) → ¬ on_link a o → pos_ok p → pos_ok (Pos (next a o r (po_role p)) (po_due p) (po_new p) (po_owe p)).
Proof.
  unfold pos_ok. cbn [po_role po_due po_new]. intros Hm Hl Hp.
  destruct o; cbn in *; try (rewrite decide_False by done); try apply Hp.
  - destruct Hm as (_ & [Hf|(xs & seen & name & data & path & E & _)] & _).
    + destruct (po_role p); try done. by rewrite decide_True.
    + rewrite E in *. by case_decide.
  - destruct (po_role p) as [| |w f dn]; [done|apply Hp|]. by destruct r.
  - destruct (po_role p) as [|? ? []|]; try apply Hp. by destruct r.
  - destruct (po_role p) as [| |[] ?]; try done; try apply Hp. by destruct r.
  - destruct (po_role p) as [|? ? []|]; try done; try apply Hp. destruct r; [by case_decide|done].
Qed.

Ltac fields := cbn [h_node h_rt h_tasks h_sendMu h_hist g_ratchet g_sent g_wrote g_got g_in g_out] in *.

Lemma host_op nd rt ts mu hist i o k r rt' new g :
  host_ok (MkHost nd rt ts mu hist) g →
  ts !! i = Some (Run (Op o k)) → ¬ on_link a o → op_step o r rt rt' → env_ok a o r → spawned (cf_dir cf) o new →
  host_ok (MkHost nd rt' (<[i := Run (k r)]> ts ++ map Run new) mu (hist ++ did o r)) g.
Proof.
  intros [G [H1 H2 H3 H4 H5 H6 H7 H8 H9 H10 H11]] Hi Hl Ho He Hn. fields.
  pose proof (cr_tasks _ _ _ H3 i _ Hi) as (p & HG & Hpo & Hp & Hm & Hk)%task_idle.
  pose proof (cr_roles _ _ _ H3 i (lookup_lt_Some _ _ _ Hi)) as Hf. rewrite HG in Hf. unfold lo_role in Hf. cbn [lo_pos] in Hf.
  specialize (Hk r (rt_inv_knows _ _ _ _ _ _ H6 Ho He Hl)). destruct (op_kind cf o r (po_role p)) as [Hkr Hkw].
  exists (<[i := Loc (Pos (next a o r (po_role p)) (po_due p) (po_new p) (po_owe p)) [] [] false]> G). split; fields; try done.
  - eapply crew_update; [done..| | | |done|by eapply spawned_unused].
    + split_and!; try done. by apply op_pos_ok.
    + by apply (role_fits_same i (po_role p)).
    + cbn [lo_lk]. rewrite <-(cr_mu _ _ _ H3 i). by rewrite HG.
  - rewrite hand_in_ne; [done|]. by rewrite HG.
  - rewrite hand_out_ne; [done|]. by rewrite HG.
  - by eapply rt_inv_step.
  - eapply account_op; rewrite ?HG; done.
  - rewrite due_same; [done|]. by rewrite HG.
  - rewrite owed_same; [done|]. by rewrite HG.
  - eapply filed_op; rewrite ?HG; done.
Qed.

Lemma host_api nd rt ts mu hist p g :
  host_ok (MkHost nd rt ts mu hist) g → api (cf_salt cf) p → host_ok (MkHost nd rt (ts ++ [Run p]) mu hist) g.
Proof.
  intros [G [H1 H2 [C1 C2 C3 C4 C5] H4 H5 H6 H7 H8 H9 H10 H11]] Hp. fields.
  exists G. split; fields; try done. split.
  - intros i t [Hi|[Hge Hi]]%lookup_app_Some; [by apply C1|]. rewrite C4 by done.
    apply list_lookup_singleton_Some in Hi as [_ <-]. split_and!; [done..|]. by eapply api_follows.
  - intros i Hi. destruct (decide (i < length ts)%nat); [by apply C2|]. rewrite C4 by lia.
    destruct i as [|[|i]]; [lia..|done].
  - done.
  - intros i Hi. rewrite length_app in Hi. apply C4. lia.
  - rewrite length_app. lia.
Qed.

Lemma host_call nd rt ts mu hist i o k M lk g :
  host_ok (MkHost nd rt ts mu hist) g →
  ts !! i = Some (Run (Op o k)) → calls cf o M lk → (lk = true → mu = None) →
  host_ok (MkHost nd rt (<[i := Doing (M k)]> ts) (if lk then Some i else mu) hist) g.
Proof.
  intros [G [H1 H2 H3 H4 H5 H6 H7 H8 H9 H10 H11]] Hi Hc Hlk. fields.
  pose proof (cr_tasks _ _ _ H3 i _ Hi) as (p & HG & Hpo & Hp & Hm & Hk)%task_idle.
  pose proof (cr_roles _ _ _ H3 i (lookup_lt_Some _ _ _ Hi)) as Hf. rewrite HG in Hf. unfold lo_role in Hf. cbn [lo_pos] in Hf.
  set (lo := Loc p [] [] lk). exists (<[i := lo]> G).
  assert (bool_decide (mu = Some i) = false) as Hmu by (rewrite <-(cr_mu _ _ _ H3 i); by rewrite HG).
  split; fields; try done.
  - rewrite <-(app_nil_r (<[i := _]> ts)). eapply crew_update; [done|done| | | | |done].
    + split; [done|]. left. split; [done|]. by eapply calls_plays.
    + exact Hf.
    + cbn [lo_lk lo]. destruct lk; [by rewrite bool_decide_eq_true_2|done].
    + intros j Hj. destruct lk; [|done]. rewrite Hlk by done. split; [by intros [= ->]|done].
  - rewrite hand_in_ne; [done|]. by rewrite HG.
  - rewrite H5. destruct lk.
    + rewrite Hlk by done. cbn. by rewrite fn_lookup_insert.
    + rewrite hand_out_ne; [done|]. by rewrite HG.
  - apply account_local; rewrite ?HG; [done|apply settles_refl|done].
  - rewrite due_same; [done|]. by rewrite HG.
  - rewrite H10. destruct lk.
    + rewrite Hlk by done. cbn. rewrite fn_lookup_insert. cbn. by rewrite Hpo.
    + rewrite owed_same; [done|]. by rewrite HG.
  - by apply filed_same; rewrite ?HG.
Qed.

(** *** At the connection *)

Lemma host_send nd rt ts mu hist i b k g :
  host_ok (MkHost nd rt ts mu hist) g → ts !! i = Some (Writing b k) →
  ∃ ct, g_out g = [ct] ∧ b = payload_frame ct ∧
    host_ok (MkHost nd rt (<[i := Doing (k (Ok tt))]> ts) mu hist)
      (Gh (g_ratchet g) (g_sent g) (g_sent g) (g_got g) (g_in g) []).
Proof.
  intros [G [H1 H2 H3 H4 H5 H6 H7 (l & H8 & _) H9 H10 H11]] Hi. fields.
  pose proof (cr_tasks _ _ _ H3 i _ Hi) as Ht. pose proof (cr_mu _ _ _ H3 i) as Hmu.
  pose proof (cr_roles _ _ _ H3 i (lookup_lt_Some _ _ _ Hi)) as Hf.
  destruct (G i) as [p pin pout lk] eqn:HG. cbn in Ht, Hmu, Hf. destruct Ht as (-> & -> & ct & -> & -> & Hk).
  symmetry in Hmu. apply bool_decide_eq_true in Hmu as ->.
  exists ct. split_and!; [rewrite H5; cbn; by rewrite HG|done|].
  exists (<[i := Loc p [] [] true]> G).
  split; fields; try done.
  - rewrite <-(app_nil_r (<[i := _]> ts)). eapply crew_update; [done|done| |done| |done|done].
    + split; [done|]. by left.
    + by rewrite bool_decide_eq_true_2.
  - rewrite hand_in_ne; [done|]. by rewrite HG.
  - cbn. by rewrite fn_lookup_insert.
  - eapply account_write; rewrite ?HG; done.
  - exists []. by rewrite app_nil_r.
  - rewrite due_same; [done|]. by rewrite HG.
  - rewrite owed_same; [done|]. by rewrite HG.
  - by apply filed_same; rewrite ?HG.
Qed.

Lemma host_recv nd rt ts mu hist i k g :
  host_ok (MkHost nd rt ts mu hist) g → ts !! i = Some (Awaiting k) →
  g_in g = [] ∧ ∀ ct, ct ≠ [] →
    host_ok (MkHost nd rt (<[i := Doing (k (Ok (payload_frame ct)))]> ts) mu hist)
      (Gh (g_ratchet g) (g_sent g) (g_wrote g) (g_got g) [ct] (g_out g)).
Proof.
  intros [G [H1 H2 H3 H4 H5 H6 H7 H8 H9 H10 H11]] Hi. fields.
  pose proof (cr_tasks _ _ _ H3 i _ Hi) as Ht. pose proof (cr_mu _ _ _ H3 i) as Hmu.
  pose proof (lookup_lt_Some _ _ _ Hi) as Hlt. pose proof (cr_roles _ _ _ H3 i Hlt) as Hf.
  pose proof (reader_first _ _ _ _ H3 Hlt) as H0'.
  destruct (G i) as [p pin pout lk] eqn:HG. cbn in Ht, Hmu, Hf, H0'. destruct Ht as (-> & -> & Hr & Hk).
  assert (is_reader (po_role p)) as Hrd by by destruct Hr as (_ & ? & ? & ->).
  specialize (H0' Hrd) as ->. split; [rewrite H4; unfold hand_in; by rewrite HG|]. intros ct Hct.
  exists (<[0%nat := Loc p [ct] [] lk]> G).
  split; fields; try done.
  - rewrite <-(app_nil_r (<[_ := _]> ts)). eapply crew_update; [done|done| |done|done|done|done].
    split; [done|]. right. exists ct. split_and!; [done..|by apply Hk].
  - rewrite hand_out_ne; [done|]. by rewrite HG.
  - apply account_local; rewrite ?HG; [done|apply settles_refl|done].
  - rewrite due_same; [done|]. by rewrite HG.
  - rewrite owed_same; [done|]. by rewrite HG.
  - by apply filed_same; rewrite ?HG.
Qed.

(** *** A stretch of a method *)

Lemma settles_fits i σ σ' : settles σ' σ → role_fits i σ → role_fits i σ'.
Proof. intros Hle. apply role_fits_same; destruct σ, σ'; cbn in *; naive_solver. Qed.

Lemma may_send_fits i lk p pt p' : may_send cf lk p pt p' → role_fits i (po_role p) → role_fits i (po_role p').
Proof. intros Hs. apply role_fits_same; by destruct Hs. Qed.

Lemma may_send_due lk p pt p' :
  may_send cf lk p pt p' → fst <$> step_in (po_owe p) pt = Some (po_owe p') ∧ po_due p' = po_due p.
Proof.
  destruct 1 as [σ d new s s' env pt _ _ _ Hst|σ d new env pt id st _ _ _ Hst _|d new s s' fs env pt req f dn _ _ _ Hst _];
    cbn [po_owe po_due]; by rewrite Hst.
Qed.

(** What a stretch of a method does, having read [read]. *)
Lemma stretch lk p read r o nd t :
  behaves lk p read r o → stops o nd t →
  clock_ok nd ∧
  ((ratchet_at L nd = Some r ∧ ∃ p', settled p' p ∧
      task_ok (Loc p' [] [] (match t with Run _ => false | _ => lk end)) t) ∨
   read = [] ∧ lk = true ∧ ∃ pt ct r' p',
     encrypt pt r = (Ok ct, r') ∧ good pt ∧ ratchet_at L nd = Some r' ∧ may_send cf lk p pt p' ∧
     task_ok (Loc p' [] [ct] true) t).
Proof.
  intros Hb Hs. destruct Hs as [q n|b n k|n k]; cbn [LinkProc.behaves] in Hb.
  - destruct Hb as (H1 & H2 & q' & p' & <-%Ok_inj & Hq & Hle & Hp & Ho). split; [done|]. left. split; [done|].
    exists p'. split; [done|]. destruct Hle as [_ _ _ Ho']. by rewrite Ho in Ho'.
  - destruct Hb as (H1 & -> & pt & ct & r' & p' & H2 & -> & H3 & H4 & H5). split; [done|]. right.
    assert (lk = true ∧ good pt) as [-> Hg] by (destruct H4; (split; [done|by eexists])).
    split; [reflexivity|]. split; [reflexivity|]. exists pt, ct, r', p'. do 4 (split; [assumption|]).
    split; [reflexivity|]. split; [reflexivity|]. exists ct. split; [reflexivity|]. split; [reflexivity|].
    intros n2 r2 Hn2 Hc2. by apply H5.
  - destruct Hb as (H1 & H2 & H3 & H4). split; [done|]. left. split; [done|]. exists p. split; [apply settled_refl|].
    split_and!; [done..|]. intros ct Hct n2 r2 pt r3 t3 p' Hg Hrd Hr Hc Hd. by eapply H4.
Qed.

Lemma hand_out_unlock G i lo t mu :
  lo_out lo = [] → lo_out (G i) = [] → hand_out (<[i := lo]> G) (unlock i t mu) = hand_out G mu.
Proof.
  intros E1 E2. assert (hand_out (<[i := lo]> G) mu = hand_out G mu) as E by (apply hand_out_ne; congruence).
  destruct t; cbn [unlock]; try done. case_decide as Hm; [|done]. subst mu. cbn. by rewrite E2.
Qed.

Lemma owed_unlock G i lo t mu :
  po_owe (lo_pos lo) = po_owe (lo_pos (G i)) → task_ok lo t → owed (<[i := lo]> G) (unlock i t mu) = owed G mu.
Proof.
  intros E Ht. rewrite <-(owed_same G i lo mu E). destruct t; cbn [unlock]; try done. case_decide as Hm; [|done].
  subst mu. cbn. rewrite fn_lookup_insert. destruct lo as [p0 pin pout lk0]. destruct Ht as (_ & _ & _ & Ho & _). by symmetry.
Qed.

Lemma unlock_lk i t mu lk :
  lk = bool_decide (mu = Some i) → (match t with Run _ => false | _ => lk end) = bool_decide (unlock i t mu = Some i).
Proof.
  intros ->. destruct t; cbn [unlock]; try done. case_decide; [done|]. by rewrite bool_decide_eq_false_2.
Qed.

Lemma unlock_others i t mu j : j ≠ i → unlock i t mu = Some j ↔ mu = Some j.
Proof. intros Hj. destruct t; cbn [unlock]; try done. case_decide; [subst mu|done]. split; [done|]. by intros [= ->]. Qed.

(** Sealed, or not, with ratchet [r]. *)
Definition sealed (r : ratchet) (gout : list bytes) (r' : ratchet) (new : list bytes) (gout' : list bytes) : Prop :=
  r' = r ∧ new = [] ∧ gout' = gout ∨
  gout = [] ∧ ∃ pt ct, new = [pt] ∧ gout' = [ct] ∧ good pt ∧ encrypt pt r = (Ok ct, r').

(** Goroutine [i] is at [p], having read [read], and the others at [G]. *)
Section from.
Context (G : nat → local) (i : nat) (p : pos) (lk : bool).
Definition moved : nat → local := <[i := Loc p [] [] lk]> G.

Lemma crew_moved ts mu lo t t' mu' :
  crew G ts mu → ts !! i = Some t → task_ok lo t' → role_fits i (lo_role lo) → lo_lk lo = bool_decide (mu' = Some i) →
  (∀ j, j ≠ i → mu' = Some j ↔ mu = Some j) → crew (<[i := lo]> moved) (<[i := t']> ts) mu'.
Proof.
  intros H1 H2 H3 H4 H5 H6. rewrite <-(app_nil_r (<[i := _]> ts)).
  destruct (crew_update _ _ _ _ _ _ _ _ [] H1 H2 H3 H4 H5 H6) as [C1 C2 C3 C4 C5]; [done|].
  assert (∀ j, (<[i := lo]> moved) j = (<[i := lo]> G) j) as E.
  { intros j. unfold moved. destruct (decide (j = i)) as [->|?]; [by rewrite !fn_lookup_insert|by rewrite !fn_lookup_insert_ne]. }
  split; try done; intros j; rewrite E; auto.
Qed.

Lemma host_stretch nd rt ts mu hist m g read r nd' t :
  crew G ts mu → ts !! i = Some (Doing m) → lo_lk (G i) = lk → lo_out (G i) = [] → role_fits i (po_role p) →
  rt_inv a rt hist → account_of cf moved hist (g_sent g) (g_wrote g) (g_got g) →
  (∃ l, g_sent g = g_wrote g ++ l ∧ length l = length (g_out g)) →
  due (g_got g) = Some (po_due (lo_pos (moved 0%nat))) → due (g_sent g) = Some (owed moved mu) →
  filed_of cf moved hist (g_sent g) (g_got g) →
  g_in g = hand_in moved → g_out g = hand_out G mu →
  behaves lk p read r (m nd) → stops (m nd) nd' t →
  ∃ r' new gout,
    host_ok (MkHost nd' rt (<[i := t]> ts) (unlock i t mu) hist) (Gh r' (g_sent g ++ new) (g_wrote g) (g_got g) (g_in g) gout) ∧
    sealed r (g_out g) r' new gout ∧ (read = [] ∨ new = []).
Proof.
  intros H3 Hi Hlk Hout Hf H6 H7 H8 H9 H10 H11 H4 H5 Hb Hs.
  pose proof (cr_mu _ _ _ H3 i) as Hmu. rewrite Hlk in Hmu.
  assert (moved i = Loc p [] [] lk) as Ei by apply fn_lookup_insert.
  assert (hand_out moved mu = hand_out G mu) as Eout by by apply hand_out_ne.
  apply (stretch _ _ _ _ _ _ _ Hb) in Hs as (Hc & [(Hr & p' & [Hle Hd Hnew Ho] & Ht)|(-> & -> & pt & ct & r' & p' & He & Hg & Hr & Hms & Ht)]).
  - exists r, [], (g_out g). split; [|split; [by left|by right]].
    set (lo := Loc p' _ _ _) in Ht. exists (<[i := lo]> moved).
    split; fields; rewrite ?app_nil_r; try assumption.
    + eapply crew_moved; [done|done|exact Ht| | |].
      * by eapply settles_fits.
      * by apply unlock_lk.
      * intros j. by apply unlock_others.
    + rewrite hand_in_ne; [done|]. by rewrite Ei.
    + rewrite H5, <-Eout. symmetry. apply hand_out_unlock; by rewrite ?Ei.
    + apply account_local; rewrite ?Ei; done.
    + rewrite due_same; [done|]. by rewrite Ei.
    + rewrite owed_unlock; [done| |done]. by rewrite Ei.
    + apply filed_local; unfold lo_role; rewrite ?Ei; done.
  - symmetry in Hmu. apply bool_decide_eq_true in Hmu as ->. destruct (may_send_due _ _ _ _ Hms) as [Hst Hd].
    assert (due (g_sent g) = Some (po_owe p)) as Hdp by (rewrite H10; cbn; by rewrite Ei).
    pose proof (fi_read _ _ _ _ _ _ _ H11) as Hrd.
    assert (g_out g = []) as Hgo by (rewrite H5; exact Hout).
    exists r', [pt], [ct]. split; [|split; [|by left]].
    2: { right. split; [done|]. by exists pt, ct. }
    exists (<[i := Loc p' [] [ct] true]> moved).
    assert (unlock i t (Some i) = Some i) as Hu by (destruct t; [by destruct Ht|done..]).
    rewrite Hu. split; fields; try assumption.
    + eapply crew_moved; [done|done|exact Ht| | |done].
      * by eapply may_send_fits.
      * by rewrite bool_decide_eq_true_2.
    + rewrite hand_in_ne; [done|]. by rewrite Ei.
    + cbn. by rewrite fn_lookup_insert.
    + eapply account_send; rewrite ?Ei; done.
    + destruct H8 as (l & -> & Hl). rewrite Hgo in Hl. destruct l; [|discriminate Hl]. exists [pt]. by rewrite app_nil_r.
    + rewrite due_same; [done|]. by rewrite Ei.
    + rewrite due_snoc, H10. cbn [owed]. rewrite Ei. cbn. rewrite Hst. by rewrite fn_lookup_insert.
    + eapply filed_send; rewrite ?Ei; done.
Qed.
End from.

(** A stretch of a method: it may open the frame in hand, and it may seal a
    message. *)
Lemma host_local nd rt ts mu hist i m g nd' t :
  host_ok (MkHost nd rt ts mu hist) g → ts !! i = Some (Doing m) → stops (m nd) nd' t →
  let h' := MkHost nd' rt (<[i := t]> ts) (unlock i t mu) hist in
  (∃ r' new gout, host_ok h' (Gh r' (g_sent g ++ new) (g_wrote g) (g_got g) (g_in g) gout) ∧ sealed (g_ratchet g) (g_out g) r' new gout) ∨
  (∃ ct, g_in g = [ct] ∧ ∀ pt r3 t3, good pt → is_Some (due (g_got g ++ [pt])) →
     decrypt ct (g_ratchet g, n_tape nd) = (Ok pt, (r3, t3)) →
     host_ok h' (Gh r3 (g_sent g) (g_wrote g) (g_got g ++ [pt]) [] (g_out g))).
Proof.
  intros [G [H1 H2 H3 H4 H5 H6 H7 H8 H9 H10 H11]] Hi Hs h'. fields.
  pose proof (cr_tasks _ _ _ H3 i _ Hi) as Ht. pose proof (lookup_lt_Some _ _ _ Hi) as Hlt.
  pose proof (reader_first _ _ _ _ H3 Hlt) as Hz. pose proof (cr_roles _ _ _ H3 i Hlt) as Hf.
  destruct (G i) as [p pin pout lk] eqn:Ei. cbn in Ht, Hz, Hf. destruct Ht as [-> [[-> Hp]|(ct & -> & Hct & Hr & Hp)]].
  - left. destruct (host_stretch G i p lk nd rt ts mu hist m g [] (g_ratchet g) nd' t) as (r' & new & gout & Hok & Hse & _);
      rewrite ?Ei; try done; unfold moved.
    + apply account_local; rewrite ?Ei; [done|apply settles_refl|done].
    + rewrite due_same; [done|]. by rewrite Ei.
    + rewrite owed_same; [done|]. by rewrite Ei.
    + apply filed_same; [done|]. by rewrite Ei.
    + rewrite hand_in_ne; [done|]. by rewrite Ei.
    + by apply Hp.
    + by exists r', new, gout.
  - right. exists ct. specialize (Hz Hr) as ->. split; [rewrite H4; unfold hand_in; by rewrite Ei|].
    intros pt r3 t3 Hg [d' Hdue] Hd. rewrite due_snoc, H9, Ei in Hdue. cbn in Hdue.
    destruct p as [[|xs seen f|] d old n]; [done| |done]. cbn [po_due] in Hdue.
    destruct (step_in d pt) as [[d2 nw]|] eqn:Hst; [|done]. injection Hdue as ->.
    set (p' := Pos (Reader (xs ++ items_in pt) seen f) d' (old ++ nw) n).
    assert (reads (Pos (Reader xs seen f) d old n) pt p') as Hrd by by constructor.
    destruct (host_stretch G 0 p' lk nd rt ts mu hist m
      (Gh r3 (g_sent g) (g_wrote g) (g_got g ++ [pt]) [] (g_out g)) [pt] r3 nd' t) as (r' & new & gout & Hok & Hse & [|Hnew]);
      fields; rewrite ?Ei; try done; unfold moved.
    + apply account_reads; [done|]. by rewrite Ei.
    + rewrite due_snoc, H9, Ei. cbn. rewrite Hst. by rewrite fn_lookup_insert.
    + rewrite owed_same; [done|]. by rewrite Ei.
    + apply filed_reads; [done|exact H9|by rewrite Ei].
    + by eapply Hp.
    + subst new. rewrite app_nil_r in Hok. destruct Hse as [(-> & _ & ->)|(_ & ? & ? & [=] & _)]. exact Hok.
Qed.
End crew.
