(* ===== verification/System.v ===== *)
(** * Two engines, every interleaving, end to end

    Two hosts ([Host]) on the two ends of a connection: the goroutines of
    both, the methods of the two links step by step, and the connection move
    in any order.  While the connection is intact the hosts refine the network
    of two ratchets ([Conversation]), and so what one application hears is
    what the other asked for. *)

From S2P Require Import Prelude Bytes Gcm Json Codec GoTime Curve Identity X3dh Ratchet Conversation Session Filetransfer Messaging Paths Contact Transport Conn Account Proc Node NodeLink NodeFile NodeHop LinkProc Prog Runtime Roles Stream Host Moves Ledger Crew.
Open Scope Z_scope.

(** ** The system *)

Record system (C : Type) := Sys { sy_A : host; sy_B : host; sy_conn : C }.
Arguments Sys {C}. Arguments sy_A {C}. Arguments sy_B {C}. Arguments sy_conn {C}.

Section system.
Context `{Curves} {C : Type} `{Conn C} (cA cB : config).

Inductive sys_step : system C → system C → Prop :=
  | sys_host_A hA hB c hA' c' : host_step cA c hA c' hA' → sys_step (Sys hA hB c) (Sys hA' hB c')
  | sys_host_B hA hB c hB' c' : host_step cB c hB c' hB' → sys_step (Sys hA hB c) (Sys hA hB' c')
  | sys_conn hA hB c c' : conn_moves c c' → sys_step (Sys hA hB c) (Sys hA hB c').
End system.

(** ** The two ends of the network of ratchets *)

Section invariant.
Context `{CurveLaws}.

(** The sealed messages from [x] to [y], of which [q] are in the connection. *)
Definition wire (x : ghost) (q : list bytes) (y : ghost) : list bytes := g_in y ++ q ++ g_out x.

Definition net_end (x : ghost) : endpoint := Endpoint (g_ratchet x) (g_sent x) (map Ok (g_got x)).
Definition net_of (x y : ghost) (q q' : list bytes) : net := Net (net_end x) (net_end y) (wire x q y) (wire y q' x).

Record link_inv (x y : ghost) (q q' : list bytes) : Prop := {
  li_net : Inv (net_of x y q q');
  li_good : Forall good (g_sent x) ∧ Forall good (g_sent y);
  li_ne : Forall (.≠ []) (wire x q y) ∧ Forall (.≠ []) (wire y q' x);
  li_due : is_Some (due (g_sent x)) ∧ is_Some (due (g_sent y));
}.

Lemma link_inv_sym x y q q' : link_inv x y q q' → link_inv y x q' q.
Proof. intros [H1 [H2 H3] [H4 H5] [H6 H7]]. split; [by apply Inv_flip in H1|done..]. Qed.

(** What [y] opened is the start of what [x] sealed, and the rest is on its way. *)
Lemma link_got x y q q' :
  link_inv x y q q' → ∃ rest, g_sent x = g_got y ++ rest ∧ length rest = length (wire x q y).
Proof.
  intros [(pa & pb & (da & db & E1 & E2 & _ & _) & HL) _ _ _]. cbn in E1, E2. exists pa. split.
  - rewrite E1. f_equal. clear -E2. revert da E2. induction (g_got y) as [|p l IH]; intros [|d da]; cbn; try done.
    intros [= -> ->%IH]. done.
  - destruct HL as [HL|HL]; by apply Lead_length in HL as [? ?].
Qed.

Lemma link_seal x y q q' r' new gout :
  link_inv x y q q' → sealed (g_ratchet x) (g_out x) r' new gout → ns (g_ratchet x) < counter_limit →
  is_Some (due (g_sent x ++ new)) →
  link_inv (Gh r' (g_sent x ++ new) (g_wrote x) (g_got x) (g_in x) gout) y q q'.
Proof.
  destruct x as [r sent wrote got gin go]. cbn [g_ratchet g_out g_sent g_got g_in].
  intros HL [(-> & -> & ->)|(-> & pt & ct & -> & -> & Hg & He)] Hn Hdue.
  { rewrite app_nil_r. by destruct HL. }
  destruct HL as [H1 [H2 H3] [H4 H5] [_ H6]]. unfold wire in *. cbn [g_in g_out g_sent] in *. split.
  - eapply Inv_act; [exact H1|]. unfold net_of, wire. cbn [g_in g_out].
    replace (g_in y ++ q ++ [ct]) with ((g_in y ++ q ++ []) ++ [ct]) by by rewrite app_nil_r, <-app_assoc.
    by apply (act_send (net_end (Gh r sent wrote got gin []))).
  - split; [|done]. apply Forall_app. split; [done|by constructor].
  - split; [|done]. unfold wire. cbn [g_in g_out]. rewrite app_nil_r in H4. rewrite app_assoc. apply Forall_app. split; [done|].
    constructor; [|done]. rewrite encrypt_spec in He. apply pair_equal_spec in He as [<-%Ok_inj _]. apply message_ne.
  - by split.
Qed.

Lemma link_write x y q q' ct :
  link_inv x y q q' → g_out x = [ct] →
  link_inv (Gh (g_ratchet x) (g_sent x) (g_sent x) (g_got x) (g_in x) []) y (q ++ [ct]) q'.
Proof.
  destruct x as [r sent wrote got gin go]. cbn [g_ratchet g_out g_sent g_got g_in]. intros [H1 H2 H3 H4] ->.
  unfold net_of, wire in *. cbn [g_in g_out g_sent] in *.
  split; unfold net_of, wire; cbn [g_in g_out g_sent]; rewrite ?app_nil_r; done.
Qed.

Lemma link_read x y q ct q' :
  link_inv x y q (ct :: q') → g_in x = [] →
  link_inv (Gh (g_ratchet x) (g_sent x) (g_wrote x) (g_got x) [ct] (g_out x)) y q q' ∧ ct ≠ [].
Proof.
  destruct x as [r sent wrote got gin go]. cbn [g_ratchet g_out g_sent g_got g_in]. intros [H1 H2 H3 H4] ->.
  unfold net_of, wire in *. cbn [g_in g_out g_sent app] in *. split; [by split|].
  destruct H3 as [_ H3]. by apply Forall_cons in H3 as [? _].
Qed.

Lemma link_open x y q q' ct t res r3 t3 :
  link_inv x y q q' → g_in x = [ct] → fresh t (g_ratchet x) → decrypt ct (g_ratchet x, t) = (res, (r3, t3)) →
  ∃ pt, res = Ok pt ∧ good pt ∧ is_Some (due (g_got x ++ [pt])) ∧
    link_inv (Gh r3 (g_sent x) (g_wrote x) (g_got x ++ [pt]) [] (g_out x)) y q q'.
Proof.
  destruct x as [r sent wrote got gin go]. cbn [g_ratchet g_out g_sent g_got g_in]. intros [H1 [H2 H3] [H4 H5] [H6 H7]] -> Hf Hd.
  unfold wire in *. cbn [g_in g_out g_sent app] in *.
  assert (Inv (Net (Endpoint r3 sent (map Ok got ++ [res])) (net_end y) (g_in y ++ q ++ go) (q' ++ g_out y))) as HI.
  { eapply Inv_act; [exact H1|]. by eapply (act_recv (net_end (Gh r sent wrote got [ct] go))). }
  pose proof HI as (pa & pb & (da & db & E1 & E2 & E3 & E4) & _). cbn in E3, E4.
  change (@Ok bytes) with (λ x : bytes, Ok x) in E4. symmetry in E4. apply map_eq_app in E4 as (d1 & d2 & -> & Ed1 & Ed2).
  destruct d2 as [|pt [|]]; try done. cbn in Ed2. injection Ed2 as <-.
  assert (link_inv (Gh r3 sent wrote (got ++ [pt]) [] go) y q q') as HL.
  { split; [|done| |done].
    - unfold net_of, net_end, wire. cbn [g_ratchet g_sent g_got g_in g_out app]. by rewrite map_app.
    - unfold wire. cbn [g_in g_out app]. by apply Forall_cons in H5 as [_ H5]. }
  exists pt. split; [done|]. split_and!; [| |exact HL].
  - rewrite E3 in H3. rewrite !Forall_app in H3. destruct H3 as [[_ H3] _]. by apply Forall_cons in H3 as [? _].
  - destruct (link_got _ _ _ _ (link_inv_sym _ _ _ _ HL)) as (rest & E & _). cbn in E. rewrite E in H7. by eapply due_prefix.
Qed.
End invariant.

(** ** Every step keeps it *)

#[global] Instance closes_dec a o r : Decision (closes a o r).
Proof. destruct o; cbn; apply _. Defined.

Section steps.
Context `{CurveLaws} {C : Type} `{HC : Conn C} {HL : ConnLaws C}.

Lemma host_step_intact cf c h c' h' : host_step cf c h c' h' → intact c' → intact c.
Proof.
  destruct 1 as [nd rt ts mu hist i o k r rt' new c' Hi Hl Ho He Hn Hcl Hnc| | | |nd rt ts mu hist i b k r c' Hi Hs|nd rt ts mu hist i k r c' Hi Hr];
    intros Hin; try exact Hin.
  - destruct (decide (closes (cf_link cf) o rt)) as [Hd|Hd]; [by eapply law_Close in Hcl|by rewrite <-Hnc].
  - by eapply law_Send in Hs as [? _].
  - by eapply law_Recv in Hr as [? _].
Qed.

(** A host and the other end, with the connection between them. *)
Record end_inv (cf : config) (h : host) (c : C) (x y : ghost) (q q' : list bytes) : Prop := {
  ei_host : host_ok cf h x;
  ei_link : link_inv x y q q';
  ei_out : flight (cf_side cf) c = map payload_frame q;
  ei_in : flight (other (cf_side cf)) c = map payload_frame q';
}.

Lemma host_step_inv cf c h c' h' x y q q' :
  valid_utf8 (lk_fp (cf_link cf)) = true → host_step cf c h c' h' → intact c' → end_inv cf h c x y q q' →
  ∃ x2 q2 q2', end_inv cf h' c' x2 y q2 q2'.
Proof.
  intros Hfp Hst Hin [Hh Hli Ho Hi'].
  destruct Hst as [nd rt ts mu hist i o k r rt' new c' Hi Hl Hop He Hn Hcl Hnc|nd rt ts mu hist p Hp
    |nd rt ts mu hist i o k M lk Hi Hca Hlk|nd rt ts mu hist i m nd' t Hi Hrd Hst
    |nd rt ts mu hist i b k r c' Hi Hs|nd rt ts mu hist i k r c' Hi Hr].
  - destruct (decide (closes (cf_link cf) o rt)) as [Hd|Hd].
    { exfalso. eapply law_Close; [by apply Hcl|done]. }
    rewrite Hnc by done. exists x, q, q'. split; [|done..]. by eapply host_op.
  - exists x, q, q'. split; [|done..]. by eapply host_api.
  - exists x, q, q'. split; [|done..]. by eapply host_call.
  - assert (ratchet_at (cf_Link cf) nd = Some (g_ratchet x)) as Hra by (by destruct Hh as [G []]).
    destruct (Hrd _ Hra) as [Hns Hf].
    destruct (host_local cf nd rt ts mu hist i m x nd' t Hh Hi Hst) as [(r' & new & gout & Hok & Hse)|(ct & Hct & Hok)].
    + exists (Gh r' (g_sent x ++ new) (g_wrote x) (g_got x) (g_in x) gout), q, q'. split; [done| |done..].
      apply link_seal; [done..|]. destruct Hok as [G HG]. exists (owed G (unlock i t mu)). exact (ho_owed _ _ _ _ HG).
    + destruct (decrypt ct (g_ratchet x, n_tape nd)) as [res [r3 t3]] eqn:Ed.
      destruct (link_open _ _ _ _ _ _ _ _ _ Hli Hct Hf Ed) as (pt & -> & Hg & Hdue & Hli').
      exists (Gh r3 (g_sent x) (g_wrote x) (g_got x ++ [pt]) [] (g_out x)), q, q'. split; [by eapply Hok|done..].
  - destruct (law_Send _ _ _ _ _ Hs Hin) as (_ & -> & Hf1 & Hf2).
    destruct (host_send cf nd rt ts mu hist i b k x Hh Hi) as (ct & Hct & -> & Hok).
    exists (Gh (g_ratchet x) (g_sent x) (g_sent x) (g_got x) (g_in x) []), (q ++ [ct]), q'.
    split; [done|by apply link_write| |by rewrite Hf2]. by rewrite Hf1, Ho, map_app.
  - destruct (law_Recv _ _ _ _ Hr Hin) as (_ & b & -> & Hf1 & Hf2).
    destruct (host_recv cf nd rt ts mu hist i k x Hh Hi) as (Hx & Hok).
    rewrite Hi' in Hf1. destruct q' as [|ct q']; [discriminate Hf1|]. injection Hf1 as <- Hf1.
    destruct (link_read _ _ _ _ _ Hli Hx) as [Hli' Hct].
    exists (Gh (g_ratchet x) (g_sent x) (g_wrote x) (g_got x) [ct] (g_out x)), q, q'.
    split; [by apply Hok|done|by rewrite Hf2|done].
Qed.
End steps.

(** ** The whole system *)

Section whole.
Context `{CurveLaws} {C : Type} `{HC : Conn C} {HL : ConnLaws C} (cA cB : config).
Hypothesis HsA : cf_side cA = Transport.A.
Hypothesis HsB : cf_side cB = Transport.B.
Hypothesis HfA : valid_utf8 (lk_fp (cf_link cA)) = true.
Hypothesis HfB : valid_utf8 (lk_fp (cf_link cB)) = true.

Definition sys_inv (S : system C) : Prop := intact (sy_conn S) → ∃ x y q q',
  end_inv cA (sy_A S) (sy_conn S) x y q q' ∧ end_inv cB (sy_B S) (sy_conn S) y x q' q.

Lemma sys_step_inv S S' : sys_inv S → sys_step cA cB S S' → sys_inv S'.
Proof.
  intros HI Hst Hin. destruct Hst as [hA hB c hA' c' Hs|hA hB c hB' c' Hs|hA hB c c' Hs]; cbn [sy_conn sy_A sy_B] in *.
  - destruct (HI (host_step_intact _ _ _ _ _ Hs Hin)) as (x & y & q & q' & H1 & H2). cbn [sy_conn sy_A sy_B] in *.
    destruct (host_step_inv _ _ _ _ _ _ _ _ _ HfA Hs Hin H1) as (x2 & q2 & q2' & H3).
    exists x2, y, q2, q2'. split; [done|]. destruct H2 as [H4 _ _ _], H3 as [_ H5 H6 H7]. rewrite HsA in *.
    split; [done|by apply link_inv_sym|by rewrite HsB..].
  - destruct (HI (host_step_intact _ _ _ _ _ Hs Hin)) as (x & y & q & q' & H1 & H2). cbn [sy_conn sy_A sy_B] in *.
    destruct (host_step_inv _ _ _ _ _ _ _ _ _ HfB Hs Hin H2) as (y2 & q2 & q2' & H3).
    exists x, y2, q2', q2. split; [|done]. destruct H1 as [H4 _ _ _], H3 as [_ H5 H6 H7]. rewrite HsB in *.
    split; [done|by apply link_inv_sym|by rewrite HsA..].
  - destruct (law_moves _ _ Hs Hin) as [Hin0 Hf].
    destruct (HI Hin0) as (x & y & q & q' & [H1 H2 H3 H4] & [H5 H6 H7 H8]). cbn [sy_conn sy_A sy_B] in *.
    exists x, y, q, q'. by split; split; cbn [sy_conn sy_A sy_B]; rewrite ?Hf.
Qed.

Lemma sys_reachable_inv S S' : sys_inv S → rtc (sys_step cA cB) S S' → sys_inv S'.
Proof. intros HI. induction 1 as [|S S1 S' Hs _ IH]; [done|]. apply IH. by eapply sys_step_inv. Qed.
End whole.

(** ** What follows *)

Section consequences.
Context `{CurveLaws}.

Lemma heard_pushed cf h x : host_ok cf h x → heard h = pushed (h_hist h).
Proof. intros (G & HG). apply (ri_events _ _ _ (ho_rt _ _ _ _ HG)). Qed.

Lemma taken_asked cf G h x req : host_with cf G h x → req ∈ taken (h_hist h) → req ∈ asked (h_hist h).
Proof.
  intros HG Hreq. eapply sublist_subseteq; [apply (ri_outbox _ _ _ (ho_rt _ _ _ _ HG))|].
  rewrite elem_of_app. by left.
Qed.

(** What the application at [x] asked for bounds what the one at [y] hears. *)
Lemma texts_heard cx cy hx hy x y q q' :
  host_ok cx hx x → host_ok cy hy y → link_inv x y q q' →
  texts (flat_map (shows (cf_link cy)) (heard hy)) `sublist_of` texts (flat_map (asks (cf_link cx)) (asked (h_hist hx))).
Proof.
  intros Hx Hy Hl. rewrite (heard_pushed _ _ _ Hy). destruct (link_got _ _ _ _ Hl) as (rest & Hr & _).
  destruct Hx as [Gx HGx], Hy as [Gy HGy].
  trans (texts (flat_map items_in (g_got y))).
  { apply sublist_flat_map. rewrite <-(ac_shown _ _ _ _ _ _ _ _ (ho_account _ _ _ _ HGy)). by apply sublist_inserts_r. }
  trans (texts (flat_map items_in (g_sent x))).
  { rewrite Hr, flat_map_app. apply sublist_flat_map. by apply sublist_inserts_r. }
  trans (texts (flat_map (asks (cf_link cx)) (taken (h_hist hx)))).
  { etrans; [|apply (ac_sent _ _ _ _ _ _ _ _ (ho_account _ _ _ _ HGx))]. by apply sublist_inserts_r. }
  apply sublist_flat_map, sublist_flat_map.
  etrans; [|apply (ri_outbox _ _ _ (ho_rt _ _ _ _ HGx))]. by apply sublist_inserts_r.
Qed.

(** A delivery receipt is heard only for what the other end announced. *)
Lemma receipts_heard cx cy hx hy x y q q' id :
  host_ok cx hx x → host_ok cy hy y → link_inv x y q q' →
  IReceipt id StateDelivered ∈ flat_map (shows (cf_link cy)) (heard hy) →
  id ∈ flat_map (announces (cf_link cx)) (heard hx).
Proof.
  intros Hx Hy Hl. rewrite (heard_pushed _ _ _ Hx), (heard_pushed _ _ _ Hy).
  destruct (link_got _ _ _ _ Hl) as (rest & Hr & _). destruct Hx as [Gx HGx], Hy as [Gy HGy]. intros Hin.
  apply (ac_receipts _ _ _ _ _ _ _ _ (ho_account _ _ _ _ HGx)). rewrite Hr, flat_map_app. apply elem_of_app. left.
  rewrite <-(ac_shown _ _ _ _ _ _ _ _ (ho_account _ _ _ _ HGy)). apply elem_of_app. by left.
Qed.

(** *** Files *)

(** What the peer's application hears of a file that was asked for: its name,
    and where the very octets were put. *)
Definition came (hx hy : list answer) (req : outReq) (e : bytes * bytes) : Prop := ∃ data,
  read_from hx (rq_filePath req) data ∧ e.1 = to_valid_utf8 (Base (rq_filePath req)) ∧ wrote_to hy e.2 data.

(** The files that the application at [y] hears of are files asked for at [x]. *)
Lemma files_heard cx cy hx hy x y q q' :
  host_ok cx hx x → host_ok cy hy y → link_inv x y q q' →
  ∃ reqs, reqs `sublist_of` file_reqs cx (asked (h_hist hx)) ∧
    Forall2 (came (h_hist hx) (h_hist hy)) reqs (flat_map (files (cf_link cy)) (heard hy)).
Proof.
  intros Hx Hy Hl. rewrite (heard_pushed _ _ _ Hy). destruct (link_got _ _ _ _ Hl) as (rest & Hr & _).
  destruct Hl as [_ _ _ [Hdue _]], Hx as [Gx HGx], Hy as [Gy HGy].
  destruct (fi_files _ _ _ _ _ _ _ (ho_files _ _ _ _ HGy)) as (l & Hl & Hgot & _).
  destruct (fi_given _ _ _ _ _ _ _ (ho_files _ _ _ _ HGx)) as (reqs & Hg & Hreqs).
  assert (l `sublist_of` files_in (g_sent x)) as Hsub.
  { rewrite Hr in Hdue |- *. etrans; [by apply sublist_inserts_r|]. etrans; [exact Hgot|].
    destruct (files_prefix _ _ Hdue) as [k ->]. by apply sublist_inserts_r. }
  destruct (Forall2_sublist_r _ _ _ _ Hg Hsub) as (reqs' & Hs & Hg'). exists reqs'. split.
  - etrans; [exact Hs|]. etrans; [by apply sublist_inserts_r|]. etrans; [exact Hreqs|]. apply sublist_flat_map.
    etrans; [|apply (ri_outbox _ _ _ (ho_rt _ _ _ _ HGx))]. by apply sublist_inserts_r.
  - eapply Forall2_trans; [|exact Hg'|exact Hl]. intros req [n d] [n' p] [H1 H2] [H3 H4]. cbn in *. subst.
    by exists d.
Qed.

(** *** When the connection is drained *)

(** The loop that reads the link waits for a frame. *)
Definition waits (h : host) : Prop := ∃ k, h_tasks h !! 0%nat = Some (Awaiting k).

(** Then all that was read was shown, and each file that was read is announced
    and stored, unless the disk failed. *)
Lemma waits_shown cf G h x :
  host_with cf G h x → waits h → g_in x = [] ∧
  flat_map (shows (cf_link cf)) (pushed (h_hist h)) = flat_map items_in (g_got x) ∧
  (disk_ok (h_hist h) → Forall2 (saved_as (h_hist h)) (files_in (g_got x)) (flat_map (files (cf_link cf)) (pushed (h_hist h)))).
Proof.
  intros HG [k Hk]. pose proof (cr_tasks _ _ _ _ (ho_crew _ _ _ _ HG) _ _ Hk) as Ht.
  pose proof (ac_shown _ _ _ _ _ _ _ _ (ho_account _ _ _ _ HG)) as Hs.
  destruct (fi_files _ _ _ _ _ _ _ (ho_files _ _ _ _ HG)) as (l & Hl & _ & Hall).
  rewrite (ho_in _ _ _ _ HG). unfold hand_in. unfold lo_role in *.
  destruct (G 0%nat) as [p pin pout lk]. destruct Ht as (-> & _ & (Ha & seen & f & Hp) & _). cbn [lo_pos] in *.
  split; [done|]. split.
  - rewrite Hp in Hs. cbn [to_show] in Hs. by rewrite app_nil_r in Hs.
  - intros Hd. rewrite <-(Hall Hd). unfold arriving in Ha. by rewrite Ha, app_nil_r.
Qed.

(** Everything written was read: [x] has at most one message in hand. *)
Lemma drained_wrote cx Gx hx x y q' :
  host_with cx Gx hx x → link_inv x y [] q' → g_in y = [] → g_wrote x = g_got y.
Proof.
  intros HG Hl Hin. destruct (link_got _ _ _ _ Hl) as (rest & Hr & Hlen). unfold wire in Hlen. rewrite Hin in Hlen.
  destruct (ho_wrote _ _ _ _ HG) as (l & Hw & Hl'). rewrite Hw in Hr. by apply app_inj_2 in Hr as [? _]; [|rewrite Hl', Hlen].
Qed.

(** What was asked for at one end got to the application at the other: the
    text, or the file, when there is room for its chunks and on the disk. *)
Definition reached (l : link) (hx hy : host) (req : outReq) : Prop :=
  (rq_filePath req = [] → IText (rq_msgID req) (rq_text req) ∈ flat_map (shows l) (heard hy)) ∧
  (rq_filePath req ≠ [] → ∃ data, read_from (h_hist hx) (rq_filePath req) data ∧
     (file_small data → disk_ok (h_hist hy) →
        ∃ path, (to_valid_utf8 (Base (rq_filePath req)), path) ∈ flat_map (files l) (heard hy) ∧ wrote_to (h_hist hy) path data)).

(** What the application at [x] was told was sent, the one at [y] has heard. *)
Lemma confirmed_heard cx cy hx hy x y q' id :
  host_ok cx hx x → host_ok cy hy y → link_inv x y [] q' → waits hy →
  id ∈ flat_map (confirms (cf_link cx)) (heard hx) →
  ∃ req, req ∈ asked (h_hist hx) ∧ addressed (cf_link cx) req = true ∧ rq_msgID req = id ∧ reached (cf_link cy) hx hy req.
Proof.
  intros Hx Hy Hl Hw. unfold reached. rewrite (heard_pushed _ _ _ Hx), (heard_pushed _ _ _ Hy).
  destruct Hx as [Gx HGx], Hy as [Gy HGy]. destruct (waits_shown _ _ _ _ HGy Hw) as (Hin & -> & Hfiles). intros Hid.
  destruct (ac_confirmed _ _ _ _ _ _ _ _ (ho_account _ _ _ _ HGx) id Hid) as (req & Ht & Ha & Hi & Hasks & Hfa).
  rewrite (drained_wrote _ _ _ _ _ _ HGx Hl Hin) in Hasks, Hfa.
  exists req. split; [by eapply taken_asked|]. do 2 (split; [done|]). split.
  - intros Hp. apply Hasks. rewrite asks_addressed by done. by left.
  - intros Hp. destruct Hfa as (data & Hr & Hdata); [unfold file_asked; by rewrite Ha, bool_decide_eq_false_2|].
    exists data. split; [done|]. intros Hsm Hd. specialize (Hdata Hsm). specialize (Hfiles Hd).
    apply list_elem_of_lookup in Hdata as [n Hn]. destruct (Forall2_lookup_l _ _ _ _ _ Hfiles Hn) as ([nm path] & He & Hsv).
    destruct Hsv as [E Hwr]. cbn in E, Hwr. subst nm. exists path. split; [|done]. by eapply list_elem_of_lookup_2.
Qed.
End consequences.

(** ** From the handshake on *)

Section session.
Context `{Curves} {C : Type} `{HC : Conn C}.

(** [S] is a state of two engines, on nodes [nA] and [nB], that connected: the
    first one's [Connect] and the other's [Listen] got a link each, both
    engines adopted it, over a connection with nothing in it, and ran. *)
Definition session (nA nB : node) (cA cB : config) (S : system C) : Prop := ∃ mA mB n c,
  rtc duo_step
    (Duo (handshakeInitiator (SigningPub (acc_Identity (n_Account nB))) nA) (handshakeResponder nB) [] [])
    (Duo (Halt (Ok (cf_Link cA)) mA) (Halt (Ok (cf_Link cB)) mB) [] []) ∧
  cf_side cA = Transport.A ∧ cf_side cB = Transport.B ∧
  lk_fp (cf_link cA) = l_peerFP (cf_Link cA) ∧ lk_fp (cf_link cB) = l_peerFP (cf_Link cB) ∧
  (∀ s, flight s c = []) ∧
  rtc (sys_step cA cB) (Sys (host_start cA n mA) (host_start cB n mB) c) S.

Lemma session_sides nA nB cA cB (S : system C) :
  session nA nB cA cB S → cf_side cA = Transport.A ∧ cf_side cB = Transport.B.
Proof. by intros (mA & mB & n & c & _ & HA & HB & _). Qed.

(** What such nodes start with. *)
Record ready_nodes (nA nB : node) : Prop := {
  rn_ok : node_ok nB;
  rn_tape : (64 ≤ length (n_tape nA))%nat;
  rn_clocks : Forall wf_time (n_clock nA) ∧ Forall wf_time (n_clock nB);
}.
End session.

Section start.
Context `{CurveLaws} {C : Type} `{HC : Conn C} {HL : ConnLaws C}.

Definition local_start (i : nat) : local :=
  match i with
  | 0%nat => Loc (Pos (Reader [] [] Nothing) Idle [] Idle) [] [] false
  | 1%nat => Loc (Pos (Worker None None []) Idle [] Idle) [] [] false
  | _ => unused
  end.

Lemma host_start_ok cf n nd r :
  valid_utf8 (lk_fp (cf_link cf)) = true →
  ratchet_at (cf_Link cf) nd = Some r → clock_ok nd → host_ok cf (host_start cf n nd) (Gh r [] [] [] [] []).
Proof.
  intros Hfp Hr Hc. exists local_start. split; cbn [host_start h_node h_rt h_tasks h_sendMu h_hist]; try done.
  - split; try done.
    + intros i t Hi. destruct i as [|[|[|[|i]]]]; cbn in Hi; try discriminate Hi; injection Hi as <-; split_and!; try done.
      * apply recvLoop_follows; [done|]. by exists [].
      * by apply sendWorker_follows.
      * by apply listenLoop_follows.
      * by apply readvertiseLoop_follows.
    + intros i _. by destruct i as [|[|i]].
    + intros i. by destruct i as [|[|i]].
    + intros i. cbn. intros Hi. destruct i as [|[|i]]; [lia..|done].
    + cbn. lia.
  - apply rt_inv_start.
  - split; cbn; try done; try apply list_subseteq_nil; by intros ? ?%not_elem_of_nil.
  - by exists [].
  - split; cbn; try done; by exists [].
Qed.

Lemma handshake_links nA nB mA mB lA lB :
  node_ok nB → (64 ≤ length (n_tape nA))%nat →
  rtc duo_step
    (Duo (handshakeInitiator (SigningPub (acc_Identity (n_Account nB))) nA) (handshakeResponder nB) [] [])
    (Duo (Halt (Ok lA) mA) (Halt (Ok lB) mB) [] []) →
  ∃ rA rB, ratchet_at lA mA = Some rA ∧ ratchet_at lB mB = Some rB ∧ Lead rA rB [] [] [] [] ∧
    n_clock mA = n_clock nA ∧ n_clock mB = n_clock nB ∧
    valid_utf8 (l_peerFP lA) = true ∧ valid_utf8 (l_peerFP lB) = true.
Proof.
  intros Hok Ht [k Hk]%rtc_nsteps.
  destruct (handshake_forced nA nB Hok Ht)
    as (lA' & lB' & nA' & nB' & a & b & Hf & [] & _ & _ & E1 & _ & E2 & Hc1 & Hc2 & _).
  destruct (forced_run _ _ _ _ Hf _ _ Hk) as [_ Hr].
  apply rtc_inv in Hr as [Hr|(d & Hd & _)]; [|inversion Hd]. injection Hr as -> -> -> ->.
  exists a, b. unfold ratchet_at, session_of. rewrite es_A, es_B. split_and!; try done.
  - rewrite E1. apply valid_utf8_Fingerprint.
  - rewrite E2. apply valid_utf8_Fingerprint.
Qed.

Lemma session_inv nA nB cA cB (S : system C) :
  ready_nodes nA nB → session nA nB cA cB S → sys_inv cA cB S.
Proof.
  intros [Hok Ht [HcA HcB]] (mA & mB & n & c & Hh & HsA & HsB & HfA & HfB & Hfl & Hr).
  destruct (handshake_links _ _ _ _ _ _ Hok Ht Hh) as (rA & rB & HrA & HrB & HLd & E1 & E2 & V1 & V2).
  rewrite <-HfA in V1. rewrite <-HfB in V2. eapply sys_reachable_inv; [done..| |exact Hr].
  intros _. exists (Gh rA [] [] [] [] []), (Gh rB [] [] [] [] []), [], []. cbn [sy_A sy_B sy_conn].
  assert (link_inv (Gh rA [] [] [] [] []) (Gh rB [] [] [] [] []) [] []) as HLi.
  { split; [|done|done|by split; exists Idle]. by apply (Inv_reachable rA rB (start rA rB)). }
  split; split; rewrite ?Hfl; try done.
  - apply host_start_ok; [done..|]. unfold clock_ok. by rewrite E1.
  - apply host_start_ok; [done..|]. unfold clock_ok. by rewrite E2.
  - by apply link_inv_sym.
Qed.
End start.
