(* ===== verification/Delivery.v ===== *)
(** * What the applications of two engines hear

    Texts and receipts in the whole system, and a run of it: a text that gets
    through the goroutines of both engines, and its receipt. *)

From S2P Require Import Prelude Bytes Gcm Json Codec GoTime Curve Identity X3dh Ratchet Conversation Session Filetransfer Messaging Contact Transport Conn Account Proc Node NodeLink NodeFile NodeHop Demo LinkProc Prog Runtime Roles Stream Host Moves Ledger Crew System.
Open Scope Z_scope.

Section properties.
Context `{CurveLaws} {C : Type} `{HC : Conn C} {HL : ConnLaws C}.

(** C1: what one application hears is what the other asked for.  Two engines
    have connected, over any transport that keeps the contract of [Conn].
    However their goroutines interleave, whatever the applications call and
    the environment answers, as long as the connection is intact and no other
    link is made to the same peer: the texts that either application hears
    from the peer, with their ids, are texts the other application passed to
    [Send] for it, in that order, none twice, none altered. *)
Theorem texts_end_to_end nA nB cA cB (S : system C) :
  ready_nodes nA nB → session nA nB cA cB S → intact (sy_conn S) →
  texts (flat_map (shows (cf_link cB)) (heard (sy_B S)))
    `sublist_of` texts (flat_map (asks (cf_link cA)) (asked (h_hist (sy_A S)))) ∧
  texts (flat_map (shows (cf_link cA)) (heard (sy_A S)))
    `sublist_of` texts (flat_map (asks (cf_link cB)) (asked (h_hist (sy_B S)))).
Proof.
  intros Hn HS Hi. destruct (session_inv _ _ _ _ _ Hn HS Hi) as (x & y & q & q' & [HA Hl _ _] & [HB Hl' _ _]).
  split; by eapply texts_heard.
Qed.

(** C2: a delivery receipt is never wrong.  In the same system: when either
    application hears that a message was [DELIVERED], the other engine has
    announced a message or a file with that id to its own application. *)
Theorem delivered_means_shown nA nB cA cB (S : system C) id :
  ready_nodes nA nB → session nA nB cA cB S → intact (sy_conn S) →
  (IReceipt id StateDelivered ∈ flat_map (shows (cf_link cA)) (heard (sy_A S)) →
     id ∈ flat_map (announces (cf_link cB)) (heard (sy_B S))) ∧
  (IReceipt id StateDelivered ∈ flat_map (shows (cf_link cB)) (heard (sy_B S)) →
     id ∈ flat_map (announces (cf_link cA)) (heard (sy_A S))).
Proof.
  intros Hn HS Hi. destruct (session_inv _ _ _ _ _ Hn HS Hi) as (x & y & q & q' & [HA Hl _ _] & [HB Hl' _ _]).
  split; by eapply receipts_heard.
Qed.
End properties.

(** ** A run *)

(** Steps of one host, with the connection. *)
Definition hsteps `{Curves} {C} `{Conn C} (cf : config) : host * C → host * C → Prop :=
  rtc (λ p p', host_step cf p.2 p.1 p'.2 p'.1).

Section lift.
Context `{Curves} {C : Type} `{Conn C} (cA cB : config).

Lemma hsteps_A hA hB c hA' c' : hsteps cA (hA, c) (hA', c') → rtc (sys_step cA cB) (Sys hA hB c) (Sys hA' hB c').
Proof.
  remember (hA, c) as p eqn:Ep. remember (hA', c') as p' eqn:Ep'. intros Hr. revert hA c Ep.
  induction Hr as [p|p [h1 c1] p' Hs _ IH]; intros hA c ->; [injection Ep' as -> ->; done|].
  eapply rtc_l; [by apply sys_host_A|]. by apply IH.
Qed.

Lemma hsteps_B hA hB c hB' c' : hsteps cB (hB, c) (hB', c') → rtc (sys_step cA cB) (Sys hA hB c) (Sys hA hB' c').
Proof.
  remember (hB, c) as p eqn:Ep. remember (hB', c') as p' eqn:Ep'. intros Hr. revert hB c Ep.
  induction Hr as [p|p [h1 c1] p' Hs _ IH]; intros hB c ->; [injection Ep' as -> ->; done|].
  eapply rtc_l; [by apply sys_host_B|]. by apply IH.
Qed.
End lift.

Section steps.
Context `{CurveLaws} (cf : config).
Abbreviation a := (cf_link cf).
Abbreviation L := (cf_Link cf).
Abbreviation sd := (cf_side cf).

(** Goroutine [i] does [o] on the engine's state. *)
Lemma hop nd rt ts mu hist i o k r rt' c p :
  ts !! i = Some (Run (Op o k)) → ¬ on_link a o → op_step o r rt rt' → env_ok a o r → (∀ l, o ≠ OGo l) →
  ¬ closes a o rt →
  hsteps cf (MkHost nd rt' (<[i := Run (k r)]> ts) mu (hist ++ did o r), c) p →
  hsteps cf (MkHost nd rt ts mu hist, c : pipe) p.
Proof.
  intros. eapply rtc_l; [|eassumption]. cbn [fst snd].
  pose proof (hs_op cf c nd rt ts mu hist i o k r rt' [] c) as Hs. cbn [map] in Hs. rewrite app_nil_r in Hs.
  apply Hs; [done..|by apply spawn_none|done|done].
Qed.

Lemma hapi nd rt ts mu hist q c p :
  api (cf_salt cf) q → hsteps cf (MkHost nd rt (ts ++ [Run q]) mu hist, c) p →
  hsteps cf (MkHost nd rt ts mu hist, c : pipe) p.
Proof. intros. eapply rtc_l; [|eassumption]. by apply hs_api. Qed.

Lemma hcall nd rt ts mu hist i o k M lk c p :
  ts !! i = Some (Run (Op o k)) → calls cf o M lk → (lk = true → mu = None) →
  hsteps cf (MkHost nd rt (<[i := Doing (M k)]> ts) (if lk then Some i else mu) hist, c) p →
  hsteps cf (MkHost nd rt ts mu hist, c : pipe) p.
Proof. intros. eapply rtc_l; [|eassumption]. by eapply hs_call. Qed.

Lemma hlocal nd rt ts mu hist i m nd' t c p :
  ts !! i = Some (Doing m) → ready cf nd → stops (m nd) nd' t →
  hsteps cf (MkHost nd' rt (<[i := t]> ts) (unlock i t mu) hist, c) p →
  hsteps cf (MkHost nd rt ts mu hist, c : pipe) p.
Proof. intros. eapply rtc_l; [|eassumption]. by eapply hs_local. Qed.

Lemma hsend nd rt ts mu hist i b k c p :
  ts !! i = Some (Writing b k) → (length (out sd c) < capacity)%nat →
  hsteps cf (MkHost nd rt (<[i := Doing (k (Ok tt))]> ts) mu hist, set_out sd (out sd c ++ [b]) c) p →
  hsteps cf (MkHost nd rt ts mu hist, c : pipe) p.
Proof. intros Hi Ho Hs. eapply rtc_l; [|exact Hs]. eapply (hs_send cf c); [done|]. by apply send_queued. Qed.

Lemma hrecv nd rt ts mu hist i b q k c p :
  ts !! i = Some (Awaiting k) → in_ sd c = b :: q →
  hsteps cf (MkHost nd rt (<[i := Doing (k (Ok b))]> ts) mu hist, set_out (other sd) q c) p →
  hsteps cf (MkHost nd rt ts mu hist, c : pipe) p.
Proof. intros Hi Ho Hs. eapply rtc_l; [|exact Hs]. eapply (hs_recv cf c); [done|]. by apply recv_message. Qed.
End steps.

(** Goroutine [i] does [o], and [x] is the answer; calls the method of [o];
    goes on in it as [E] says. *)
Tactic Notation "step_op" uconstr(i) uconstr(o) uconstr(x) :=
  eapply (hop _ _ _ _ _ _ i o _ x); [reflexivity|by intros []|try done|first [done|by intros ? <-%Ok_inj]|done|by intros []|];
  cbn [insert list_insert bindG].
Tactic Notation "step_call" uconstr(i) uconstr(o) :=
  eapply (hcall _ _ _ _ _ _ i o); [reflexivity|constructor|done|]; cbn [insert list_insert].
Tactic Notation "step_in" uconstr(i) constr(E) :=
  eapply (hlocal _ _ _ _ _ _ i); [reflexivity|done|unfold answered; rewrite E; constructor|]; cbn [insert list_insert unlock].

Section run.
Context `{CurveLaws} (cf : config).
Abbreviation a := (cf_link cf).
Abbreviation L := (cf_Link cf).
Abbreviation sd := (cf_side cf).

(** Goroutine 0 reads one envelope. *)
Lemma read_run nd rt ts mu hist n (c : pipe) q s ct pt r t env :
  session_of nd L = Some s → ct ≠ [] → decrypt ct (s_r s, n_tape nd) = (Ok pt, (r, t)) → encodes env pt →
  ready cf nd → in_ sd c = payload_frame ct :: q →
  hsteps cf (MkHost nd rt (Run (recvLoop (cf_dir cf) (S n) a) :: ts) mu hist, c)
    (MkHost (set_tape t (put_session L (set_ratchet r s) nd)) rt
       (Run (let^ _ := on_envelope (cf_dir cf) a env in recvLoop (cf_dir cf) n a) :: ts)
       (unlock 0 (Run (Ret tt)) mu) hist, set_out (other sd) q c).
Proof.
  intros Hs Hct Hd Hen Hrd Hin. destruct (Receive_spec L nd s ct (Ok pt) r t Hs Hct Hd) as (k & E1 & E2).
  fold (received (Ok pt)) in E2. rewrite (encodes_received _ _ Hen) in E2.
  eapply (hcall _ _ _ _ _ _ 0); [reflexivity|apply calls_Receive|discriminate|]. cbn [insert list_insert].
  eapply (hlocal _ _ _ _ _ _ 0); [reflexivity|done| |].
  { unfold answered. rewrite E1. apply stops_recv. }
  cbn [insert list_insert unlock]. eapply (hrecv _ _ _ _ _ _ 0); [reflexivity|exact Hin|].
  cbn [insert list_insert]. eapply (hlocal _ _ _ _ _ _ 0); [reflexivity|done| |].
  { cbn beta. rewrite E2. apply stops_halt. }
  cbn [insert list_insert]. apply rtc_refl.
Qed.

(** A goroutine writes one envelope over the idle pipe, and goes on. *)
Lemma write_run nd nd' nd2 rt ts hist i o k M c ct f q :
  ts !! i = Some (Run (Op o k)) → calls cf o M true → ready cf nd → ready cf nd' →
  M k nd = Sending (payload_frame ct) nd' f → f (Ok tt) nd' = Halt (Ok q) nd2 → p_done c = false → out sd c = [] →
  hsteps cf (MkHost nd rt ts None hist, c) (MkHost nd2 rt (<[i := Run q]> ts) None hist, set_out sd [payload_frame ct] c).
Proof.
  intros Hi Hc Hrd Hrd' Hm Hf Hd Ho. pose proof (lookup_lt_Some _ _ _ Hi) as Hlt.
  eapply (hcall _ _ _ _ _ _ i); [exact Hi|exact Hc|done|].
  eapply (hlocal _ _ _ _ _ _ i); [by apply list_lookup_insert_eq|done|rewrite Hm; apply stops_send|].
  rewrite list_insert_insert_eq. eapply (hsend _ _ _ _ _ _ i); [by apply list_lookup_insert_eq|rewrite Ho; cbn; unfold capacity; lia|].
  rewrite Ho.
  rewrite list_insert_insert_eq. eapply (hlocal _ _ _ _ _ _ i); [by apply list_lookup_insert_eq|done|rewrite Hf; apply stops_halt|].
  rewrite list_insert_insert_eq. cbn [unlock]. rewrite decide_True by done. apply rtc_refl.
Qed.

(** Goroutine 0 waits for a frame. *)
Lemma wait_run nd rt ts mu hist n s (c : pipe) :
  session_of nd L = Some s → ready cf nd →
  ∃ k, hsteps cf (MkHost nd rt (Run (recvLoop (cf_dir cf) (S n) a) :: ts) mu hist, c) (MkHost nd rt (Awaiting k :: ts) mu hist, c).
Proof.
  intros Hs Hrd. eexists. eapply (hcall _ _ _ _ _ _ 0); [reflexivity|apply calls_Receive|discriminate|].
  cbn [insert list_insert]. eapply (hlocal _ _ _ _ _ _ 0); [reflexivity|done|apply stops_recv|].
  cbn [insert list_insert unlock]. apply rtc_refl.
Qed.

Lemma insert_last {A} (l : list A) x y : <[length l := y]> (l ++ [x]) = l ++ [y].
Proof. rewrite insert_app_r_alt by done. by rewrite Nat.sub_diag. Qed.

Lemma set_outbox_back q rt : outbox rt = [] → set_outbox [] (set_outbox q rt) = rt.
Proof. destruct rt as [? ? ? ? ob ?]. cbn. by intros ->. Qed.

Lemma ready_of nd s :
  session_of nd L = Some s → ns (s_r s) < counter_limit → fresh (n_tape nd) (s_r s) → ready cf nd.
Proof. intros Hs Hn Hf r. unfold ratchet_at. rewrite Hs. by intros [= <-]. Qed.

Lemma encrypt_ready nd s pt ct r :
  session_of nd L = Some (set_ratchet r s) → encrypt pt (s_r s) = (Ok ct, r) → 0 ≤ ns (s_r s) →
  ns (s_r s) + 1 < counter_limit → fresh (n_tape nd) (s_r s) → ready cf nd.
Proof.
  intros Hs He H1 H2 Hf. destruct (encrypt_keeps _ _ _ _ He) as [Hd Hn]. eapply ready_of; [exact Hs| |].
  - cbn [s_r set_ratchet]. rewrite Hn. unfold counter_limit, maxSkip in *. rewrite w32_small by lia. lia.
  - cbn [s_r set_ratchet]. unfold fresh. rewrite Hd. exact Hf.
Qed.

(** The application asks for [req], and goroutine 1, the worker, takes it. *)
Lemma ask_run nd rt t0 ts n (c : pipe) req p :
  api (cf_salt cf) (call (OEnqueue req)) → valid_req req → outbox rt = [] →
  hsteps cf (MkHost nd rt (t0 :: Run (let^ _ := deliver req in sendWorker n) :: ts ++ [Run (Ret tt)]) None
    (did (OEnqueue req) tt ++ did ODequeue (Some req)), c) p →
  hsteps cf (MkHost nd rt (t0 :: Run (sendWorker (S n)) :: ts) None [], c) p.
Proof.
  intros Ha Hv Hob Hrun. set (w := Run (sendWorker (S n))). eapply hapi; [exact Ha|]. cbn [app].
  eapply (hop _ _ _ _ _ _ (S (S (length ts))) (OEnqueue req) _ tt (set_outbox [req] rt)); [|by intros []| |exact Hv|done|by intros []|].
  { by apply (list_lookup_middle (t0 :: w :: ts) []). }
  { left. rewrite Hob. split; [cbn; unfold outbox_cap; lia|done]. }
  replace (<[_ := _]> _) with (t0 :: w :: ts ++ [Run (Ret tt)]).
  2: { exact (eq_sym (insert_last (t0 :: w :: ts) _ _)). }
  eapply (hop _ _ _ _ _ _ 1 ODequeue _ (Some req) rt); [reflexivity|by intros []| |done|done|by intros []|].
  { left. exists req, []. by rewrite set_outbox_back. }
  exact Hrun.
Qed.

(** The worker writes the text of a request, and reports it sent. *)
Lemma say_run nd rt t0 ts hist n (c : pipe) s handle key text id now (t : tape) :
  lk_fp a = Fingerprint key → length key = PublicKeySize → links rt !! lk_fp a = Some a →
  session_of nd L = Some s → ready cf nd → p_done c = false → out sd c = [] → wf_time now →
  0 ≤ ns (s_r s) → ns (s_r s) + 1 < counter_limit → fresh (n_tape nd) (s_r s) →
  valid_utf8 text = true → valid_utf8 id = true → id ≠ [] →
  ∃ env pt ct r hist' nd' j e,
    hsteps cf
      (MkHost nd rt (t0 :: Run (let^ _ := deliver (MkReq (URI handle key) text id []) in sendWorker n) :: ts) None hist, c)
      (MkHost nd' (set_events (events rt ++ [e]) rt) (t0 :: Run (sendWorker n) :: ts) None (hist ++ hist'),
       set_out sd [payload_frame ct] c) ∧
    (encodes env pt ∧ items_of env = [IText id text] ∧ encrypt pt (s_r s) = (Ok ct, r) ∧ ct ≠ []) ∧
    (asked hist' = [] ∧ polled hist' = [] ∧ shows a e = [] ∧ confirms a e = [id]) ∧
    session_of nd' L = Some (set_ratchet r s) ∧ n_tape nd' = drop j (n_tape nd) ∧ (j ≤ 12)%nat.
Proof.
  intros Hfp Hk Hl Hs Hrd Hd Hout Hnow Hns0 Hns Hfr Hx Hid Hne. set (req := MkReq (URI handle key) text id []).
  assert (valid_utf8 (lk_fp a) = true) as Hvfp by (rewrite Hfp; apply valid_utf8_Fingerprint).
  destruct (NewText now (lk_fp a) text None t) as [[env0|e] t'] eqn:En.
  2: { unfold NewText in En. destruct (NewEnvelope_Ok now TypeText (lk_fp a)
         (Some (marshal (enc_TextBody (MkTextBody text None)))) t) as (? & E & _); [done..|]. by rewrite E in En. }
  destruct (NewText_item now (lk_fp a) text t id env0) as (Hw & _ & Hit); [done..|by rewrite En|].
  set (env := with_msgID id env0) in *. destruct (Encode_DecodeEnvelope env Hw) as (pt & Hpt & _).
  pose proof (encrypt_spec pt (s_r s)) as He. set (ct := message _ _ _ _ _ _) in He. set (r := set_ns _ _) in He.
  destruct (SendEnvelope_spec L env nd s pt ct r Hs Hpt He) as (k & st & j & Ek & Ek' & Hj).
  set (nd1 := put_session L (set_ratchet r s) nd) in *. set (nd2 := set_tape _ _) in Ek'.
  assert (session_of nd1 L = Some (set_ratchet r s)) as Hs1 by apply (session_of_put _ _ _ _ Hs).
  assert (ready cf nd1) as Hrd1 by by eapply encrypt_ready.
  set (e := set_time 0 (ev_sent (lk_fp a) id)).
  exists env, pt, ct, r. eexists (did OClock now ++ did (OGetLink (lk_fp a)) (Some a) ++ did OClock now ++ did ORand t ++
    did OUnix 0 ++ did (OPush e) tt), nd2, _, e.
  split; [|split; [exact (conj (conj Hw Hpt) (conj Hit (conj He (message_ne _ _ _ _ _ _))))|split; [|split; [exact Hs1|by split]]]].
  2: { do 2 (split; [reflexivity|]). split; [unfold shows; by case_bool_decide|unfold confirms; by rewrite bool_decide_eq_true_2]. }
  step_op 1%nat OClock now. change (rq_peerURI req) with (URI handle key). rewrite ParseURI_URI by done.
  cbn [Contact.New c_IdentityKey]. rewrite <-Hfp.
  step_op 1%nat (OGetLink (lk_fp a)) (Some a). unfold deliver_over. rewrite bool_decide_eq_true_2 by done. unfold deliver_text.
  step_op 1%nat OClock now. step_op 1%nat ORand t. cbn [rq_text rq_msgID req]. rewrite En. cbn [fst]. fold env.
  etrans; [eapply (write_run nd nd1 nd2 rt (t0 :: _ :: _) _ 1 (OSendEnvelope a env) _ _ c ct);
    [reflexivity|apply calls_SendEnvelope|done|done|by unfold answered; rewrite Ek|by cbn beta; rewrite Ek'|done|done]|].
  cbn [insert list_insert bindG]. step_op 1%nat OUnix 0. step_op 1%nat (OPush e) tt.
  rewrite <-!app_assoc. apply rtc_refl.
Qed.

(** Goroutine 1, the worker, takes the request of another goroutine, writes
    the text, and says so. *)
Lemma send_run nd rt t0 ts n (c : pipe) s handle key text id now (t : tape) :
  lk_fp a = Fingerprint key → length key = PublicKeySize → links rt !! lk_fp a = Some a → outbox rt = [] →
  session_of nd L = Some s → ready cf nd → p_done c = false → out sd c = [] → wf_time now →
  0 ≤ ns (s_r s) → ns (s_r s) + 1 < counter_limit → fresh (n_tape nd) (s_r s) →
  valid_utf8 text = true → valid_utf8 id = true → id ≠ [] →
  ∃ env pt ct r hist nd' rt' j e ts',
    hsteps cf (MkHost nd rt (t0 :: Run (sendWorker (S n)) :: ts) None [], c)
      (MkHost nd' rt' (t0 :: ts') None hist, set_out sd [payload_frame ct] c) ∧
    encodes env pt ∧ items_of env = [IText id text] ∧ encrypt pt (s_r s) = (Ok ct, r) ∧ ct ≠ [] ∧
    asked hist = [MkReq (URI handle key) text id []] ∧ polled hist ++ events rt' = events rt ++ [e] ∧
    shows a e = [] ∧ confirms a e = [id] ∧
    session_of nd' L = Some (set_ratchet r s) ∧ n_tape nd' = drop j (n_tape nd) ∧ (j ≤ 12)%nat.
Proof.
  intros Hfp Hk Hl Hob Hs Hrd Hd Hout Hnow Hns0 Hns Hfr Hx Hid Hne. set (req := MkReq (URI handle key) text id []).
  destruct (say_run nd rt t0 (ts ++ [Run (Ret tt)]) (did (OEnqueue req) tt ++ did ODequeue (Some req)) n c s handle key text id now t)
    as (env & pt & ct & r & hist' & nd' & j & e & Hsay & (E1 & E2 & E3 & E4) & (H1 & H2 & H3 & H4) & H5 & H6 & H7); [done..|].
  exists env, pt, ct, r, ((did (OEnqueue req) tt ++ did ODequeue (Some req)) ++ hist'), nd', (set_events (events rt ++ [e]) rt), j, e.
  eexists. split_and!; try assumption.
  - eapply ask_run; [apply (api_Send (cf_salt cf) (URI handle key) text id)|by intros _|exact Hob|exact Hsay].
  - rewrite asked_app, H1. reflexivity.
  - rewrite polled_app, H2. reflexivity.
Qed.

(** The receipt of a message. *)
Lemma SendReceipt_sending nd s conv ref state :
  session_of nd L = Some s → clock_ok nd →
  valid_utf8 conv = true → valid_utf8 ref = true → valid_utf8 state = true →
  ∃ env pt ct r nd',
    SendReceipt L conv ref state nd = Sending (payload_frame ct) nd' (λ r s, Halt r s) ∧
    encodes env pt ∧ items_of env = [IReceipt ref state] ∧ encrypt pt (s_r s) = (Ok ct, r) ∧ ct ≠ [] ∧
    session_of nd' L = Some (set_ratchet r s) ∧ n_tape nd' = drop 16 (n_tape nd).
Proof.
  intros Hs Hc Hconv Href Hst. set (body := Some (marshal (enc_ReceiptBody (MkReceiptBody ref state)))).
  destruct (make_envelope_spec TypeReceipt conv body nd) as (env & t & En & Hw & Hty & _ & Hb & ->); [reflexivity|done..|].
  set (n0 := set_tape _ _) in En. destruct (Encode_DecodeEnvelope env Hw) as (pt & Hpt & _).
  pose proof (encrypt_spec pt (s_r s)) as He.
  exists env, pt. eexists _, _, _. split; [|split; [by split|split; [|split; [exact He|split; [apply message_ne|]]]]].
  - unfold SendReceipt. rewrite bindP_local.
    change (let* now := now_utc in with_tape (NewReceipt now conv ref state)) with (make_envelope TypeReceipt conv body).
    rewrite En. by eapply encryptSend_spec.
  - unfold items_of. rewrite Hty, bool_decide_eq_false_2, bool_decide_eq_true_2 by done.
    unfold Receipt. rewrite Hb. cbn [sl body]. rewrite unmarshal_marshal by by apply wf_enc_ReceiptBody.
    by rewrite dec_enc_ReceiptBody.
  - split; [|done]. by apply (session_of_put L s _ n0).
Qed.

(** Goroutine 0 acknowledges what it announced, and waits for the next frame. *)
Lemma thank_run nd rt ts hist n (c : pipe) s id :
  valid_utf8 id = true → valid_utf8 (lk_fp a) = true → session_of nd L = Some s → clock_ok nd → ready cf nd →
  p_done c = false → out sd c = [] → 0 ≤ ns (s_r s) → ns (s_r s) + 1 < counter_limit → fresh (drop 16 (n_tape nd)) (s_r s) →
  ∃ renv rpt rct r nd' k,
    hsteps cf (MkHost nd rt (Run (let^ _ := call (OSendReceipt a (lk_fp a) id StateDelivered) in recvLoop (cf_dir cf) (S n) a) :: ts)
        None hist, c)
      (MkHost nd' rt (Awaiting k :: ts) None hist, set_out sd [payload_frame rct] c) ∧
    encodes renv rpt ∧ items_of renv = [IReceipt id StateDelivered] ∧ encrypt rpt (s_r s) = (Ok rct, r) ∧ rct ≠ [].
Proof.
  intros Hid Hfp Hs Hc Hrd Hd Ho Hns0 Hns Hfr.
  destruct (SendReceipt_sending nd s (lk_fp a) id StateDelivered) as (renv & rpt & rct & r & nd' & Ek & R1 & R2 & R3 & R4 & R5 & R6);
    [done..|].
  assert (ready cf nd') as Hrd' by (eapply encrypt_ready; [exact R5|exact R3|done|done|by rewrite R6]).
  destruct (wait_run nd' rt ts None hist n _ (set_out sd [payload_frame rct] c) R5 Hrd') as (k & Hwait).
  exists renv, rpt, rct, r, nd', k. split; [|done]. etrans; [|exact Hwait].
  eapply (write_run nd nd' nd' _ (_ :: ts) _ 0 (OSendReceipt a (lk_fp a) id StateDelivered) _ _ c rct);
    [reflexivity|apply calls_SendReceipt|done|done| | |done|done].
  - unfold answered. rewrite Ek. reflexivity.
  - reflexivity.
Qed.

(** Goroutine 0 shows a text it has read, acknowledges it, and waits for the
    next frame. *)
Lemma show_run nd rt ts hist n (c : pipe) s env id text :
  items_of env = [IText id text] → valid_utf8 id = true → valid_utf8 (lk_fp a) = true →
  session_of nd L = Some s → clock_ok nd → ready cf nd → p_done c = false → out sd c = [] →
  0 ≤ ns (s_r s) → ns (s_r s) + 1 < counter_limit → fresh (drop 16 (n_tape nd)) (s_r s) →
  ∃ renv rpt rct r nd' rt' k hist' e,
    hsteps cf (MkHost nd rt (Run (let^ _ := on_envelope (cf_dir cf) a env in recvLoop (cf_dir cf) (S n) a) :: ts) None hist, c)
      (MkHost nd' rt' (Awaiting k :: ts) None hist', set_out sd [payload_frame rct] c) ∧
    encodes renv rpt ∧ items_of renv = [IReceipt id StateDelivered] ∧ encrypt rpt (s_r s) = (Ok rct, r) ∧ rct ≠ [] ∧
    polled hist' ++ events rt' = (polled hist ++ events rt) ++ [e] ∧
    shows a e = [IText id text] ∧ announces a e = [id].
Proof.
  intros Hit Hid Hfp Hs Hc Hrd Hd Ho Hns0 Hns Hfr.
  assert (e_Type env = TypeText ∧ e_MsgID env = id ∧ tb_Text (Text env).1 = text) as (Hty & Hmid & Htx).
  { unfold items_of in Hit. case_bool_decide as Ht; [by injection Hit as -> ->|]. case_bool_decide; [|done].
    by destruct (Receipt env) as [? []]. }
  set (e := MkEvent (bs "message") (lk_fp a) (peerURI a) text [] [] id false [] 0).
  set (rt' := set_events (events (set_lastIn (<[lk_fp a := id]> (lastIn rt)) rt) ++ [set_time 0 e]) (set_lastIn (<[lk_fp a := id]> (lastIn rt)) rt)).
  destruct (thank_run nd rt' ts (((hist ++ did (OSetLast (lk_fp a) id) tt) ++ did OUnix 0) ++ did (OPush (set_time 0 e)) tt) n
    c s id) as (renv & rpt & rct & r & nd' & k & Hthank & R1 & R2 & R3 & R4); [done..|].
  exists renv, rpt, rct, r, nd', rt', k. eexists. exists (set_time 0 e).
  split_and!; [|exact R1|exact R2|exact R3|exact R4|..].
  - etrans; [|exact Hthank].
    unfold on_envelope. rewrite bool_decide_eq_true_2 by done. rewrite Hmid, Htx. fold e.
    step_op 0%nat (OSetLast (lk_fp a) id) tt.
    step_op 0%nat OUnix 0.
    step_op 0%nat (OPush (set_time 0 e)) tt.
    apply rtc_refl.
  - rewrite !polled_app, <-!app_assoc. reflexivity.
  - unfold shows. by rewrite bool_decide_eq_true_2.
  - unfold announces. by rewrite bool_decide_eq_true_2.
Qed.

(** Goroutine 0 shows a receipt it has read. *)
Lemma receipt_run nd rt ts mu hist n (c : pipe) env id state :
  items_of env = [IReceipt id state] →
  ∃ rt' hist' t0 e,
    hsteps cf (MkHost nd rt (Run (let^ _ := on_envelope (cf_dir cf) a env in recvLoop (cf_dir cf) n a) :: ts) mu hist, c)
      (MkHost nd rt' (t0 :: ts) mu hist', c) ∧
    polled hist' ++ events rt' = (polled hist ++ events rt) ++ [e] ∧ shows a e = [IReceipt id state].
Proof.
  intros Hit.
  assert (e_Type env = TypeReceipt ∧ Receipt env = (MkReceiptBody id state, None)) as (Hty & Hr).
  { unfold items_of in Hit. case_bool_decide as Ht; [done|]. case_bool_decide; [|done].
    destruct (Receipt env) as [[] []]; [done|]. by injection Hit as -> ->. }
  set (e := MkEvent (bs "receipt") (lk_fp a) [] [] [] [] id false state 0).
  do 3 eexists. exists (set_time 0 e). split; [|split].
  - unfold on_envelope. rewrite Hty. rewrite !bool_decide_eq_false_2 by done. rewrite bool_decide_eq_true_2, Hr by done.
    cbn [rb_RefMsgID rb_State]. fold e.
    step_op 0%nat OUnix 0.
    step_op 0%nat (OPush (set_time 0 e)) tt. apply rtc_refl.
  - rewrite !polled_app, <-!app_assoc. reflexivity.
  - unfold shows. by rewrite bool_decide_eq_true_2.
Qed.

Lemma set_out_back q : set_out (other sd) [] (set_out (other sd) q Pipe) = Pipe.
Proof. by destruct sd. Qed.

Lemma in_set_out q : in_ sd (set_out (other sd) q Pipe) = q.
Proof. by destruct sd. Qed.

Lemma item_id env id text pt : encodes env pt → items_of env = [IText id text] → valid_utf8 id = true.
Proof.
  intros [[_ _ Hid _ _] _]. unfold items_of. case_bool_decide; [by intros [= <- _]|]. case_bool_decide; [|done].
  by destruct (Receipt env) as [? []].
Qed.

(** An engine just started reads a text, shows it, acknowledges it and waits. *)
Lemma answer_run nd s ct pt Y t env id text n :
  session_of nd L = Some s → ct ≠ [] → decrypt ct (s_r s, n_tape nd) = (Ok pt, (Y, t)) → encodes env pt →
  items_of env = [IText id text] → ready cf nd → ns Y = 0 → fresh t Y → fresh (drop 16 t) Y → clock_ok nd →
  valid_utf8 (lk_fp a) = true →
  ∃ renv rpt rct r h',
    hsteps cf (host_start cf (S (S n)) nd, set_out (other sd) [payload_frame ct] Pipe) (h', set_out sd [payload_frame rct] Pipe) ∧
    encodes renv rpt ∧ items_of renv = [IReceipt id StateDelivered] ∧ encrypt rpt Y = (Ok rct, r) ∧ rct ≠ [] ∧
    waits h' ∧ flat_map (shows a) (heard h') = [IText id text] ∧ flat_map (announces a) (heard h') = [id].
Proof.
  intros Hs Hct Hd Hen Hit Hrd Hn Hf Hf' Hc Hfp. set (nd1 := set_tape t (put_session L (set_ratchet Y s) nd)).
  assert (session_of nd1 L = Some (set_ratchet Y s)) as Hs1 by (apply (session_of_put _ _ _ _ Hs)).
  assert (1 < counter_limit) as Hlim by done.
  set (ts := map Run [sendWorker (S (S n)); listenLoop (S (S n)); readvertiseLoop (cf_pub cf) (cf_salt cf) (S (S n))]).
  pose proof (read_run nd (put_link a new_runtime) ts None [] (S n) (set_out (other sd) [payload_frame ct] Pipe) []
    s ct pt Y t env Hs Hct Hd Hen Hrd (in_set_out _)) as Hread. rewrite set_out_back in Hread.
  destruct (show_run nd1 (put_link a new_runtime) ts [] n Pipe (set_ratchet Y s) env id text)
    as (renv & rpt & rct & r & nd2 & rt & k & hist & e & Hshow & R1 & R2 & R3 & R4 & He & Hes & Hea);
    [done|by eapply item_id|done|done|done| |done|by destruct sd|cbn; lia|cbn; lia|done|].
  { eapply ready_of; [exact Hs1|cbn; lia|done]. }
  exists renv, rpt, rct, r. eexists. split; [by etrans|]. do 4 (split; [done|]). split; [by exists k|].
  unfold heard. cbn [h_hist h_rt]. rewrite He. destruct (put_link_others a new_runtime) as (_ & _ & -> & _).
  change ((polled [] ++ events new_runtime) ++ [e]) with [e]. cbn [flat_map]. by rewrite Hes, Hea.
Qed.

(** An engine reads a receipt and shows it. *)
Lemma hear_run nd rt ts mu hist s ct pt Y t env id state n :
  session_of nd L = Some s → ct ≠ [] → decrypt ct (s_r s, n_tape nd) = (Ok pt, (Y, t)) → encodes env pt →
  items_of env = [IReceipt id state] → ready cf nd →
  ∃ h' e, hsteps cf (MkHost nd rt (Run (recvLoop (cf_dir cf) (S n) a) :: ts) mu hist, set_out (other sd) [payload_frame ct] Pipe)
      (h', Pipe) ∧ heard h' = (polled hist ++ events rt) ++ [e] ∧ shows a e = [IReceipt id state].
Proof.
  intros Hs Hct Hd Hen Hit Hrd.
  pose proof (read_run nd rt ts mu hist n (set_out (other sd) [payload_frame ct] Pipe) [] s ct pt Y t env Hs Hct Hd Hen Hrd (in_set_out _)) as Hread.
  rewrite set_out_back in Hread.
  destruct (receipt_run (set_tape t (put_session L (set_ratchet Y s) nd)) rt ts (unlock 0 (Run (Ret tt)) mu) hist n Pipe env id state Hit)
    as (rt' & hist' & t0 & e & Hshow & He & Hes).
  eexists _, e. split; [by etrans|]. by split.
Qed.
End run.

Section through.
Context `{CurveLaws}.

(** A text goes through the goroutines of both engines, and its receipt comes
    back. *)
Lemma text_through cA cB mA sA mB sB key text id n :
  fresh_links mA (cf_Link cA) sA mB (cf_Link cB) sB →
  cf_side cA = Transport.A → cf_side cB = Transport.B →
  lk_fp (cf_link cA) = Fingerprint key → length key = PublicKeySize → valid_utf8 (lk_fp (cf_link cB)) = true →
  (80 ≤ length (n_tape mB))%nat →
  x25519_pub (take 32 (drop 32 (n_tape mB))) ≠ x25519_pub (take 32 (n_tape mB)) →
  x25519_pub (take 32 (drop 16 (drop 32 (n_tape mB)))) ≠ x25519_pub (take 32 (n_tape mB)) →
  valid_utf8 text = true → valid_utf8 id = true → id ≠ [] →
  ∃ y : system pipe, rtc (sys_step cA cB) (Sys (host_start cA (S (S n)) mA) (host_start cB (S (S n)) mB) Pipe) y ∧
    sy_conn y = Pipe ∧ waits (sy_B y) ∧
    flat_map (shows (cf_link cB)) (heard (sy_B y)) = [IText id text] ∧
    flat_map (announces (cf_link cB)) (heard (sy_B y)) = [id] ∧
    flat_map (shows (cf_link cA)) (heard (sy_A y)) = [IReceipt id StateDelivered] ∧
    id ∈ flat_map (confirms (cf_link cA)) (heard (sy_A y)).
Proof.
  intros [HsA HsB HLd [HnA HnB] HfA HfB [HcA HcB]] EA EB Hfp Hk Hvb HtB Hkey Hkey' Hx Hid Hne.
  assert (1 < counter_limit) as Hlim by done. pose proof (HfA 0%nat ltac:(lia)) as HfA0. rewrite drop_0 in HfA0.
  assert (ready cA mA) as HrA by (eapply ready_of; [exact HsA|by rewrite HnA|done]).
  assert (ready cB mB) as HrB by (eapply ready_of; [exact HsB|by rewrite HnB|done]).
  destruct (put_link_others (cf_link cA) new_runtime) as (_ & HoA & HeA & HlA).
  destruct (send_run cA mA (put_link (cf_link cA) new_runtime) (Run (recvLoop (cf_dir cA) (S (S n)) (cf_link cA)))
    (map Run [listenLoop (S (S n)); readvertiseLoop (cf_pub cA) (cf_salt cA) (S (S n))]) (S n) Pipe sA [] key text id zero_time [])
    as (env & pt & ct & r & hist & nA1 & rtA & j & eA & ts' & Hsend & Hen & Hit & He & Hct & _ & Hpo & HeA1 & HeA2 & HsA1 & HtA1 & Hj);
    [done|done|by rewrite HlA; apply lookup_insert_eq|done|done|done|done|by rewrite EA|apply wf_zero_time|lia|lia|done|done|done|done|].
  destruct (encrypt_keeps _ _ _ _ He) as [Hdr Hnr].
  destruct (Lead_first _ _ _ _ _ _ HLd HfB He) as (Y & HdB & HnY & HdY).
  destruct (readable_hop (s_r sB) (s_r sA) (n_tape mB) pt ct r) as (Y' & t' & HdB' & HLY & _ & _); [by left|by rewrite HnA|done|].
  rewrite HdB in HdB'. apply pair_equal_spec in HdB' as [_ [<- <-]%pair_equal_spec].
  assert (∀ t, (32 ≤ length t)%nat → x25519_pub (take 32 t) ≠ x25519_pub (take 32 (n_tape mB)) → fresh t Y) as HfY.
  { intros t Ht Hne'. split; [done|]. by rewrite HdY. }
  destruct (answer_run cB mB sB ct pt Y (drop 32 (n_tape mB)) env id text n)
    as (renv & rpt & rct & r2 & hB & Hans & Hren & Hrit & Hre & Hrct & HwB & Hes & Hea);
    [done|done|done|done|done|done|done| | |done|done|].
  { apply HfY; [rewrite length_drop; lia|done]. }
  { apply HfY; [rewrite !length_drop; lia|done]. }
  assert (ready cA nA1) as HrA1.
  { eapply encrypt_ready; [exact HsA1|exact He|lia|lia|]. rewrite HtA1. apply HfA. lia. }
  assert (fresh (n_tape nA1) r) as HfA1 by (unfold fresh; rewrite Hdr, HtA1; apply HfA; lia).
  destruct (readable_hop r Y (n_tape nA1) rpt rct r2) as (Z & tZ & HdA & _); [by left|by rewrite HnY|exact Hre|].
  destruct (hear_run cA nA1 rtA ts' None hist (set_ratchet r sA) rct rpt Z tZ renv id StateDelivered (S n))
    as (hA & e & Hhear & HeA' & Hesh); [exact HsA1|exact Hrct|exact HdA|exact Hren|exact Hrit|exact HrA1|].
  exists (Sys hA hB Pipe). split_and!; [|done|exact HwB|exact Hes|exact Hea|..].
  - rewrite EA, EB in *. cbn [other] in *.
    etrans; [eapply hsteps_A; exact Hsend|]. etrans; [eapply hsteps_B; exact Hans|]. eapply hsteps_A. exact Hhear.
  - cbn [sy_A]. rewrite HeA', Hpo, HeA. cbn [flat_map app events new_runtime]. by rewrite HeA1, Hesh.
  - cbn [sy_A]. rewrite HeA', Hpo, HeA. cbn [flat_map app events new_runtime]. rewrite HeA2. by left.
Qed.
End through.

(** ** Instances *)

Import ToyCurves.

(** A session of two engines in which a text got through and was confirmed. *)
Lemma toy_session :
  ready_nodes ToyHops.alice ToyNodes.bob ∧
  ∃ cA cB (y : system pipe), session ToyHops.alice ToyNodes.bob cA cB y ∧ intact (sy_conn y) ∧
    flat_map (shows (cf_link cB)) (heard (sy_B y)) = [IText (bs "m1") (bs "hi")] ∧
    flat_map (announces (cf_link cB)) (heard (sy_B y)) = [bs "m1"] ∧
    flat_map (shows (cf_link cA)) (heard (sy_A y)) = [IReceipt (bs "m1") StateDelivered] ∧
    flight Transport.A (sy_conn y) = [] ∧ waits (sy_B y) ∧
    bs "m1" ∈ flat_map (confirms (cf_link cA)) (heard (sy_A y)).
Proof.
  pose proof ToyHops.alice_bob as [[HtA HtB] _ _ Hc]. split.
  { split; [exact ToyNodes.bob_ok|lia|exact Hc]. }
  destruct (handshake_forced ToyHops.alice ToyNodes.bob ToyNodes.bob_ok)
    as (lA & lB & mA & mB & ra & rb & Hf & He & _ & _ & E1 & _ & E2 & Hc1 & Hc2 & Ht1 & Ht2 & Hd); [lia|].
  destruct (established_fresh _ _ _ _ _ _ _ _ He Hc1 Hc2 Ht1 Ht2 Hd ToyHops.alice_bob) as (sA & sB & Hl).
  destruct (forced_run _ _ _ _ Hf 0 _ (nsteps_O _ _)) as [_ Hrun].
  set (cA := Config (MkLnk 0 (l_peerFP lA) []) lA Transport.A [] [] []).
  set (cB := Config (MkLnk 0 (l_peerFP lB) []) lB Transport.B [] [] []).
  destruct (text_through cA cB mA sA mB sB (SigningPub (acc_Identity (n_Account ToyNodes.bob))) (bs "hi") (bs "m1") 1 Hl)
    as (y & Hy & H1 & H2 & H3 & H4 & H5 & H6); [reflexivity|reflexivity|exact E1|reflexivity| | | | |reflexivity|reflexivity|discriminate|].
  - change (lk_fp (cf_link cB)) with (l_peerFP lB). rewrite E2. apply valid_utf8_Fingerprint.
  - rewrite Ht2. cbn [n_tape ToyNodes.bob New]. rewrite length_be_bytes. lia.
  - rewrite Ht2. vm_compute. discriminate.
  - rewrite Ht2. vm_compute. discriminate.
  - exists cA, cB, y. split.
    + exists mA, mB, 3%nat, Pipe.
      split; [exact Hrun|]. do 4 (split; [reflexivity|]). split; [by intros []|exact Hy].
    + rewrite H1. exact (conj eq_refl (conj H3 (conj H4 (conj H5 (conj eq_refl (conj H2 H6)))))).
Qed.

Lemma texts_end_to_end_witness :
  ∃ cA cB (y : system pipe), session ToyHops.alice ToyNodes.bob cA cB y ∧ intact (sy_conn y) ∧
    texts (flat_map (shows (cf_link cB)) (heard (sy_B y))) = [(bs "m1", bs "hi")] ∧
    [(bs "m1", bs "hi")] `sublist_of` texts (flat_map (asks (cf_link cA)) (asked (h_hist (sy_A y)))).
Proof.
  destruct toy_session as (Hn & cA & cB & y & Hs & Hi & H1 & _ & _). exists cA, cB, y.
  pose proof (texts_end_to_end ToyHops.alice ToyNodes.bob cA cB y Hn Hs Hi) as [H2 _].
  rewrite H1 in *. split_and!; [exact Hs|exact Hi|reflexivity|exact H2].
Defined.

Lemma delivered_means_shown_witness :
  ∃ cA cB (y : system pipe), session ToyHops.alice ToyNodes.bob cA cB y ∧ intact (sy_conn y) ∧
    IReceipt (bs "m1") StateDelivered ∈ flat_map (shows (cf_link cA)) (heard (sy_A y)) ∧
    bs "m1" ∈ flat_map (announces (cf_link cB)) (heard (sy_B y)).
Proof.
  destruct toy_session as (Hn & cA & cB & y & Hs & Hi & _ & _ & H1 & _). exists cA, cB, y.
  pose proof (delivered_means_shown ToyHops.alice ToyNodes.bob cA cB y (bs "m1") Hn Hs Hi) as [H2 _].
  rewrite H1 in *. split_and!; [exact Hs|exact Hi|by left|apply H2; by left].
Defined.
