(* ===== verification/Parcels.v ===== *)
(** * Files between the applications of two engines

    What the application of one engine hears of a file is what the other's
    asked for; nothing that was sent, text or file, is lost; and a run in which a
    file gets through the goroutines of both engines. *)

From S2P Require Import Prelude Bytes Gcm Strconv Json Codec GoTime Curve Identity X3dh Ratchet Conversation Session Filetransfer Messaging Paths Contact Transport Conn Account Proc Node NodeLink NodeFile NodeHop LinkProc Prog Runtime Roles Stream Host Moves Ledger Crew System Delivery.
Open Scope Z_scope.

Section properties.
Context `{CurveLaws} {C : Type} `{HC : Conn C} {HL : ConnLaws C}.

(** C4: files arrive whole.  In the same system: the files that either
    application hears of from the peer are, one for one and in that order,
    files that the other application passed to [SendFile] for it.  Each is
    announced under the last element of the path that was asked for; and the
    octets the sender's engine read from that path are the octets the
    receiver's engine wrote, without an error, to the path it announces. *)
Theorem files_end_to_end nA nB cA cB (S : system C) :
  ready_nodes nA nB → session nA nB cA cB S → intact (sy_conn S) →
  (∃ reqs, reqs `sublist_of` file_reqs cA (asked (h_hist (sy_A S))) ∧
     Forall2 (came (h_hist (sy_A S)) (h_hist (sy_B S))) reqs (flat_map (files (cf_link cB)) (heard (sy_B S)))) ∧
  (∃ reqs, reqs `sublist_of` file_reqs cB (asked (h_hist (sy_B S))) ∧
     Forall2 (came (h_hist (sy_B S)) (h_hist (sy_A S))) reqs (flat_map (files (cf_link cA)) (heard (sy_A S)))).
Proof.
  intros Hn HS Hi. destruct (session_inv _ _ _ _ _ Hn HS Hi) as (x & y & q & q' & [HA Hl _ _] & [HB Hl' _ _]).
  split; by eapply files_heard.
Qed.

(** C3: nothing that was sent is lost.  In the same system, once nothing from
    one end is in the connection and the loop that reads at the other end
    waits for more: for every [sent] event the application got about the peer,
    there is a request it made for that peer with that id, and if the request
    was a text, the peer's application has heard it, under that id; if it was
    a file, the octets that were read are written, without an error, to a path
    the peer's application has heard of, under the file's name - for files of
    up to 2^46 octets, whose chunks a Go slice has room for, as long as no
    [MkdirAll] or [WriteFile] failed.  (No text is swallowed by a file: the
    receiver waits for exactly the chunks the sender owes.) *)
Theorem sent_means_shown nA nB cA cB (S : system C) id :
  ready_nodes nA nB → session nA nB cA cB S → intact (sy_conn S) →
  (flight Transport.A (sy_conn S) = [] → waits (sy_B S) → id ∈ flat_map (confirms (cf_link cA)) (heard (sy_A S)) →
     ∃ req, req ∈ asked (h_hist (sy_A S)) ∧ addressed (cf_link cA) req = true ∧ rq_msgID req = id ∧
       reached (cf_link cB) (sy_A S) (sy_B S) req) ∧
  (flight Transport.B (sy_conn S) = [] → waits (sy_A S) → id ∈ flat_map (confirms (cf_link cB)) (heard (sy_B S)) →
     ∃ req, req ∈ asked (h_hist (sy_B S)) ∧ addressed (cf_link cB) req = true ∧ rq_msgID req = id ∧
       reached (cf_link cA) (sy_B S) (sy_A S) req).
Proof.
  intros Hn HS Hi. destruct (session_sides _ _ _ _ _ HS) as [EA EB].
  destruct (session_inv _ _ _ _ _ Hn HS Hi) as (x & y & q & q' & [HA Hl Hf _] & [HB Hl' Hf' _]). rewrite EA, EB in *.
  split; intros Hd Hw Hid.
  - rewrite Hd in Hf. symmetry in Hf. apply map_eq_nil in Hf as ->. by eapply confirmed_heard.
  - rewrite Hd in Hf'. symmetry in Hf'. apply map_eq_nil in Hf' as ->. by eapply confirmed_heard.
Qed.
End properties.

(** ** A run *)

Section run.
Context `{CurveLaws} (cf : config).
Abbreviation a := (cf_link cf).
Abbreviation L := (cf_Link cf).
Abbreviation sd := (cf_side cf).

(** An envelope is made and sent, and the process goes on. *)
Lemma made_sends {X} ty conv body (rest : proc node X) nd s :
  valid_utf8 ty = true → valid_utf8 conv = true → session_of nd L = Some s → clock_ok nd →
  ∃ env pt ct r nd1 nd2 k j,
    bindP (localP (make_envelope ty conv body)) (λ env, bindP (SendEnvelope L env) (λ _, rest)) nd
    = Sending (payload_frame ct) nd1 k ∧ k (Ok tt) nd1 = rest nd2 ∧
    encodes env pt ∧ e_Type env = ty ∧ e_Body env = body ∧ encrypt pt (s_r s) = (Ok ct, r) ∧ ct ≠ [] ∧
    session_of nd1 L = Some (set_ratchet r s) ∧ session_of nd2 L = Some (set_ratchet r s) ∧
    n_tape nd1 = drop 16 (n_tape nd) ∧ n_tape nd2 = drop j (n_tape nd) ∧ (j ≤ 28)%nat ∧ clock_ok nd2.
Proof.
  intros Hty Hconv Hs Hc.
  destruct (make_envelope_spec ty conv body nd Hty Hconv Hc) as (env & t & En & Hw & Ht & _ & Hb & ->).
  set (n0 := set_tape _ _) in En. assert (session_of n0 L = Some s) as Hs0 by exact Hs.
  destruct (Encode_DecodeEnvelope env Hw) as (pt & Hpt & _).
  pose proof (encrypt_spec pt (s_r s)) as He. set (ct := message _ _ _ _ _ _) in He. set (r := set_ns _ _) in He.
  destruct (SendEnvelope_spec L env n0 s pt ct r Hs0 Hpt He) as (k & st & j & E1 & E2 & Hj).
  exists env, pt, ct, r. eexists _, _, _, (16 + j)%nat. split; [|split; [|split_and!]].
  - rewrite bindP_local, En. unfold bindP at 1. rewrite E1. reflexivity.
  - cbn beta. rewrite E2. reflexivity.
  - by split.
  - done.
  - done.
  - exact He.
  - apply message_ne.
  - apply (session_of_put _ _ _ _ Hs0).
  - rewrite session_of_set_tape. apply (session_of_put _ _ _ _ Hs0).
  - done.
  - cbn [n_tape n0 set_tape set_Store]. by rewrite drop_drop.
  - lia.
  - unfold clock_ok in *. cbn. destruct Hc; [constructor|done].
Qed.

(** A file of one chunk: two frames. *)
Lemma SendFile_frames conv name mime data nd s offer c :
  valid_utf8 conv = true → session_of nd L = Some s → clock_ok nd →
  Split name mime data 0 (n_tape nd) = (Ok (offer, [c]), drop 44 (n_tape nd)) →
  ∃ env1 pt1 ct1 r1 nd1 k1 j1 env2 pt2 ct2 r2 nd2 k2 j2 nd3,
    SendFile L conv name mime data nd = Sending (payload_frame ct1) nd1 k1 ∧
    k1 (Ok tt) nd1 = Sending (payload_frame ct2) nd2 k2 ∧ k2 (Ok tt) nd2 = Halt (Ok offer) nd3 ∧
    (encodes env1 pt1 ∧ e_Type env1 = TypeFileOffer ∧ e_Body env1 = Some (marshal (enc_Offer offer)) ∧
     encrypt pt1 (s_r s) = (Ok ct1, r1) ∧ ct1 ≠ [] ∧
     session_of nd1 L = Some (set_ratchet r1 s) ∧ n_tape nd1 = drop j1 (n_tape nd) ∧ (j1 ≤ 88)%nat) ∧
    (encodes env2 pt2 ∧ e_Type env2 = TypeFileChunk ∧ e_Body env2 = Some (marshal (enc_Chunk c)) ∧
     encrypt pt2 r1 = (Ok ct2, r2) ∧ ct2 ≠ [] ∧
     session_of nd2 L = Some (set_ratchet r2 s) ∧ n_tape nd2 = drop j2 (n_tape nd) ∧ (j2 ≤ 88)%nat) ∧
    clock_ok nd3.
Proof.
  intros Hconv Hs Hc Hsp. unfold SendFile. rewrite bindP_local. unfold with_tape at 1. rewrite Hsp. cbn [fst snd].
  set (nd0 := set_tape _ nd). assert (session_of nd0 L = Some s) as Hs0 by exact Hs.
  destruct (made_sends TypeFileOffer conv (Some (marshal (enc_Offer offer)))
    (bindP (send_chunks L conv [c]) (λ _, retP offer)) nd0 s)
    as (env1 & pt1 & ct1 & r1 & nd1 & nd2 & k1 & j1 & E1 & E2 & H1 & H2 & H3 & H4 & H5 & H6 & H7 & H8 & H9 & H10 & H11); [done..|].
  destruct (made_sends TypeFileChunk conv (Some (marshal (enc_Chunk c))) (send_chunks L conv []) nd2 (set_ratchet r1 s))
    as (env2 & pt2 & ct2 & r2 & nd3 & nd4 & k2 & j2 & F1 & F2 & G1 & G2 & G3 & G4 & G5 & G6 & G7 & G8 & G9 & G10 & G11); [done..|].
  exists env1, pt1, ct1, r1, nd1, k1, 60%nat, env2, pt2, ct2, r2, nd3. eexists. exists (44 + j1 + 16)%nat, nd4.
  split; [exact E1|]. split; [|split; [|split; [split_and!|split; [split_and!|]]]]; try done; try lia.
  - rewrite E2. etrans; [exact (f_equal (λ o, bindO o (λ r, match r with Ok _ => retP offer | Err e => failP e end)) F1)|].
    reflexivity.
  - cbn beta. rewrite F2. reflexivity.
  - rewrite H8. cbn [n_tape nd0 set_tape]. by rewrite drop_drop.
  - rewrite G8, H9. cbn [n_tape nd0 set_tape]. by rewrite !drop_drop.
Qed.

Definition req_of (handle key path id : bytes) : outReq := MkReq (URI handle key) [] id path.

(** Goroutine 1, the worker, writes the file of a request, and reports it sent. *)
Lemma give_run nd rt t0 ts hist n (c : pipe) s handle key path data mime id now offer ch :
  lk_fp a = Fingerprint key → length key = PublicKeySize → links rt !! lk_fp a = Some a →
  session_of nd L = Some s → clock_ok nd → p_done c = false → out sd c = [] → wf_time now →
  ns (s_r s) = 0 → (∀ j, (j ≤ 88)%nat → fresh (drop j (n_tape nd)) (s_r s)) → path ≠ [] → mime ≠ [] → file_fits data →
  Split (Base path) mime data 0 (n_tape nd) = (Ok (offer, [ch]), drop 44 (n_tape nd)) →
  ∃ env1 pt1 ct1 r1 env2 pt2 ct2 r2 hist' nd' e,
    hsteps cf
      (MkHost nd rt (t0 :: Run (let^ _ := deliver (req_of handle key path id) in sendWorker n) :: ts) None hist, c)
      (MkHost nd' (set_events (events rt ++ [e]) rt) (t0 :: Run (sendWorker n) :: ts) None (hist ++ hist'),
       set_out sd [payload_frame ct1; payload_frame ct2] c) ∧
    (encodes env1 pt1 ∧ e_Type env1 = TypeFileOffer ∧ e_Body env1 = Some (marshal (enc_Offer offer)) ∧
     encrypt pt1 (s_r s) = (Ok ct1, r1) ∧ ct1 ≠ []) ∧
    (encodes env2 pt2 ∧ e_Type env2 = TypeFileChunk ∧ e_Body env2 = Some (marshal (enc_Chunk ch)) ∧
     encrypt pt2 r1 = (Ok ct2, r2) ∧ ct2 ≠ []) ∧
    asked hist' = [] ∧ polled hist' = [] ∧ confirms a e = [id] ∧ clock_ok nd'.
Proof.
  intros Hfp Hk Hl Hs Hc Hd Hout Hnow Hns Hfr Hp Hm Hfit Hsp. set (req := req_of handle key path id).
  assert (valid_utf8 (lk_fp a) = true) as Hvfp by (rewrite Hfp; apply valid_utf8_Fingerprint).
  destruct (SendFile_frames (lk_fp a) (Base path) mime data nd s offer ch Hvfp Hs Hc Hsp)
    as (env1 & pt1 & ct1 & r1 & nd1 & k1 & j1 & env2 & pt2 & ct2 & r2 & nd2 & k2 & j2 & nd3 & E1 & E2 & E3 &
        (A1 & A2 & A3 & A4 & A5 & A6 & A7 & A8) & (B1 & B2 & B3 & B4 & B5 & B6 & B7 & B8) & Hc3).
  destruct (encrypt_keeps _ _ _ _ A4) as [Hd1 Hn1], (encrypt_keeps _ _ _ _ B4) as [Hd2 Hn2]. rewrite Hns in Hn1.
  change (w32 (0 + 1)) with 1 in Hn1. rewrite Hn1 in Hn2. change (w32 (1 + 1)) with 2 in Hn2.
  assert (2 < counter_limit) as Hlim by done.
  assert (ready cf nd) as R0. { eapply ready_of; [exact Hs|lia|]. apply (Hfr 0%nat). lia. }
  assert (ready cf nd1) as R1. { eapply ready_of; [exact A6|cbn; lia|]. unfold fresh. cbn. rewrite Hd1, A7. by apply Hfr. }
  assert (ready cf nd2) as R2. { eapply ready_of; [exact B6|cbn; lia|]. unfold fresh. cbn. rewrite Hd2, Hd1, B7. by apply Hfr. }
  set (e := set_time 0 (ev_sent (lk_fp a) id)).
  do 8 eexists. eexists (did OClock now ++ did (OGetLink (lk_fp a)) (Some a) ++ did (OReadFile path) (Ok data) ++
    did (OTypeByExtension (Ext (Base path))) mime ++ did OUnix 0 ++ did (OPush e) tt), nd3, e.
  split; [|split; [exact (conj A1 (conj A2 (conj A3 (conj A4 A5))))|split; [exact (conj B1 (conj B2 (conj B3 (conj B4 B5))))|]]].
  2: { do 2 (split; [reflexivity|]). split; [unfold confirms; by rewrite bool_decide_eq_true_2|exact Hc3]. }
  step_op 1%nat OClock now. change (rq_peerURI req) with (URI handle key). rewrite ParseURI_URI by done.
  cbn [Contact.New c_IdentityKey]. rewrite <-Hfp.
  step_op 1%nat (OGetLink (lk_fp a)) (Some a). unfold deliver_over. change (rq_filePath req) with path.
  rewrite bool_decide_eq_false_2 by done. unfold deliver_file, mimeOf. change (rq_filePath req) with path.
  step_op 1%nat (OReadFile path) (Ok data).
  step_op 1%nat (OTypeByExtension (Ext (Base path))) mime. rewrite bool_decide_eq_false_2 by done.
  step_call 1%nat (OSendFile a (lk_fp a) (Base path) mime data).
  step_in 1%nat E1.
  eapply (hsend _ _ _ _ _ _ 1); [reflexivity|rewrite Hout; cbn; unfold capacity; lia|]. rewrite Hout. cbn [insert list_insert app].
  step_in 1%nat E2.
  eapply (hsend _ _ _ _ _ _ 1); [reflexivity|destruct c, (cf_side cf); cbn; unfold capacity; lia|]. cbn [insert list_insert].
  step_in 1%nat E3.
  rewrite decide_True by done. cbn [void bindG].
  step_op 1%nat OUnix 0.
  step_op 1%nat (OPush e) tt.
  replace (set_out sd (out sd (set_out sd [payload_frame ct1] c) ++ [payload_frame ct2]) (set_out sd [payload_frame ct1] c))
    with (set_out sd [payload_frame ct1; payload_frame ct2] c) by by destruct c, (cf_side cf).
  rewrite <-!app_assoc. apply rtc_refl.
Qed.

(** The application asks for it, and the worker takes the request. *)
Lemma file_run nd rt t0 ts n (c : pipe) s handle key path data mime id now offer ch :
  lk_fp a = Fingerprint key → length key = PublicKeySize → links rt !! lk_fp a = Some a → outbox rt = [] →
  session_of nd L = Some s → clock_ok nd → p_done c = false → out sd c = [] → wf_time now →
  ns (s_r s) = 0 → (∀ j, (j ≤ 88)%nat → fresh (drop j (n_tape nd)) (s_r s)) → path ≠ [] → mime ≠ [] → file_fits data →
  Split (Base path) mime data 0 (n_tape nd) = (Ok (offer, [ch]), drop 44 (n_tape nd)) →
  ∃ env1 pt1 ct1 r1 env2 pt2 ct2 r2 hist nd' rt' ts' e,
    hsteps cf (MkHost nd rt (t0 :: Run (sendWorker (S n)) :: ts) None [], c)
      (MkHost nd' rt' (t0 :: ts') None hist, set_out sd [payload_frame ct1; payload_frame ct2] c) ∧
    (encodes env1 pt1 ∧ e_Type env1 = TypeFileOffer ∧ e_Body env1 = Some (marshal (enc_Offer offer)) ∧
     encrypt pt1 (s_r s) = (Ok ct1, r1) ∧ ct1 ≠ []) ∧
    (encodes env2 pt2 ∧ e_Type env2 = TypeFileChunk ∧ e_Body env2 = Some (marshal (enc_Chunk ch)) ∧
     encrypt pt2 r1 = (Ok ct2, r2) ∧ ct2 ≠ []) ∧
    asked hist = [req_of handle key path id] ∧ polled hist ++ events rt' = events rt ++ [e] ∧ confirms a e = [id].
Proof.
  intros Hfp Hk Hl Hob Hs Hc Hd Hout Hnow Hns Hfr Hp Hm Hfit Hsp. set (req := req_of handle key path id).
  destruct (give_run nd rt t0 (ts ++ [Run (Ret tt)]) (did (OEnqueue req) tt ++ did ODequeue (Some req)) n c s handle key path data
    mime id now offer ch) as (env1 & pt1 & ct1 & r1 & env2 & pt2 & ct2 & r2 & hist' & nd' & e & Hgive & HA & HB & H1 & H2 & H3 & _);
    [done..|].
  do 8 eexists. exists ((did (OEnqueue req) tt ++ did ODequeue (Some req)) ++ hist'), nd', (set_events (events rt ++ [e]) rt).
  eexists. exists e.
  split; [|split; [exact HA|split; [exact HB|split; [|split; [|exact H3]]]]].
  2: { rewrite asked_app, H1. reflexivity. }
  2: { rewrite polled_app, H2. reflexivity. }
  eapply ask_run; [apply (api_SendFile (cf_salt cf) (URI handle key) path id)|by intros ?|exact Hob|exact Hgive].
Qed.

(** A file of one chunk, at the other end. *)
Lemma ReceiveFileBody_one nd s offer ct pt r t env ch data :
  session_of nd L = Some s → ct ≠ [] → decrypt ct (s_r s, n_tape nd) = (Ok pt, (r, t)) → encodes env pt →
  chunk_of env = Ok ch → num_chunks offer = 1 → Reassemble offer [ch] = Ok data →
  ∃ k, ReceiveFileBody L offer nd = Receiving nd k ∧
    k (Ok (payload_frame ct)) nd = Halt (Ok data) (set_tape t (put_session L (set_ratchet r s) nd)).
Proof.
  intros Hs Hct Hd Hen Hch Hnum Hre. destruct (Receive_spec L nd s ct (Ok pt) r t Hs Hct Hd) as (k & E1 & E2).
  fold (received (Ok pt)) in E2. rewrite (encodes_received _ _ Hen) in E2.
  set (chunk := λ cenv, let! c := localP (liftM (chunk_of cenv)) in let! cs := retP [] in retP (c :: cs) : proc node (list Chunk)).
  set (whole := λ cs, localP (liftM (Reassemble offer cs)) : proc node bytes).
  assert (ReceiveFileBody L offer = bindP (bindP (Receive L) chunk) whole) as ->.
  { unfold ReceiveFileBody, make_ok. by rewrite Hnum. }
  eexists. split.
  - unfold bindP. rewrite E1. reflexivity.
  - cbn beta. rewrite E2. cbn. unfold bindP, localP, liftM, chunk. rewrite Hch. cbn. unfold whole, localP, liftM.
    by rewrite Hre.
Qed.

(** Goroutine 0, having read an offer, reads the chunk, saves the file and
    announces it. *)
Lemma take_run nd rt ts mu hist n (c : pipe) s env offer ct pt r t cenv ch data :
  e_Type env = TypeFileOffer → ParseFileOffer env = Ok offer → num_chunks offer = 1 → Reassemble offer [ch] = Ok data →
  session_of nd L = Some s → ct ≠ [] → decrypt ct (s_r s, n_tape nd) = (Ok pt, (r, t)) → encodes cenv pt →
  chunk_of cenv = Ok ch → ready cf nd → in_ sd c = [payload_frame ct] → mu ≠ Some 0%nat →
  ∃ rt' hist' path e,
    hsteps cf (MkHost nd rt (Run (let^ _ := on_envelope (cf_dir cf) a env in recvLoop (cf_dir cf) n a) :: ts) mu hist, c)
      (MkHost (set_tape t (put_session L (set_ratchet r s) nd)) rt'
         (Run (let^ _ := call (OSendReceipt a (lk_fp a) (e_MsgID env) StateDelivered) in recvLoop (cf_dir cf) n a) :: ts)
         mu hist', set_out (other sd) [] c) ∧
    polled hist' ++ events rt' = (polled hist ++ events rt) ++ [e] ∧ files a e = [(o_Name offer, path)] ∧
    (disk_ok hist → disk_ok hist').
Proof.
  intros Hty Hof Hnum Hre Hs Hct Hd Hen Hch Hrd Hin Hmu.
  destruct (ReceiveFileBody_one nd s offer ct pt r t cenv ch data Hs Hct Hd Hen Hch Hnum Hre) as (k & E1 & E2).
  set (nd' := set_tape t _) in E2. set (path := Join (cf_dir cf) (fmt_int 0 ++ "-"%byte :: file_base (o_Name offer))).
  set (e := MkEvent (bs "file") (lk_fp a) (peerURI a) [] (o_Name offer) path (e_MsgID env) false (o_MIME offer) 0).
  set (rt1 := set_lastIn (<[lk_fp a := e_MsgID env]> (lastIn rt)) rt).
  exists (set_events (events rt1 ++ [set_time 0 e]) rt1). eexists. exists path, (set_time 0 e). split; [|split; [|split]].
  - unfold on_envelope. rewrite Hty. rewrite bool_decide_eq_false_2, bool_decide_eq_true_2 by done. rewrite Hof. unfold on_file.
    step_call 0%nat (OFileBody a offer).
    step_in 0%nat E1.
    eapply (hrecv _ _ _ _ _ _ 0); [reflexivity|exact Hin|]. cbn [insert list_insert].
    step_in 0%nat E2.
    cbn [insert list_insert unlock bindG id]. rewrite decide_False by done. unfold saveFile.
    step_op 0%nat (OMkdirAll (cf_dir cf)) (Ok tt).
    step_op 0%nat OUnixNano 0. fold path.
    step_op 0%nat (OWriteFile path data) (Ok tt). fold e.
    eapply (hop _ _ _ _ _ _ 0 (OSetLast (lk_fp a) (e_MsgID env)) _ tt rt1); [reflexivity|by intros []|done|done|done|by intros []|].
    cbn [insert list_insert bindG].
    step_op 0%nat OUnix 0.
    step_op 0%nat (OPush (set_time 0 e)) tt. apply rtc_refl.
  - rewrite !polled_app, <-!app_assoc. reflexivity.
  - unfold files. by rewrite bool_decide_eq_true_2.
  - intros Hdk. unfold disk_ok. rewrite !Forall_app. split_and!; try exact Hdk; by constructor.
Qed.

(** An engine just started reads a file of one chunk, announces it,
    acknowledges it and waits. *)
Lemma store_run nd s ct1 pt1 Y t env1 ct2 pt2 Y2 env2 offer ch data n :
  session_of nd L = Some s → ct1 ≠ [] → decrypt ct1 (s_r s, n_tape nd) = (Ok pt1, (Y, t)) → encodes env1 pt1 →
  e_Type env1 = TypeFileOffer → ParseFileOffer env1 = Ok offer → num_chunks offer = 1 → Reassemble offer [ch] = Ok data →
  ct2 ≠ [] → decrypt ct2 (Y, t) = (Ok pt2, (Y2, t)) → encodes env2 pt2 → chunk_of env2 = Ok ch →
  ready cf nd → ns Y = 0 → ns Y2 = ns Y → dhs Y2 = dhs Y → fresh t Y → fresh (drop 16 t) Y → clock_ok nd →
  valid_utf8 (lk_fp a) = true →
  ∃ h' rct path,
    hsteps cf (host_start cf (S (S n)) nd, set_out (other sd) [payload_frame ct1; payload_frame ct2] Pipe)
      (h', set_out sd [payload_frame rct] Pipe) ∧
    waits h' ∧ flat_map (files a) (heard h') = [(o_Name offer, path)] ∧ disk_ok (h_hist h').
Proof.
  intros Hs Hct1 Hd1 He1 Hty Hof Hnum Hre Hct2 Hd2 He2 Hch Hrd Hn Hn2 Hdh Hf Hf' Hc Hfp.
  assert (1 < counter_limit) as Hlim by done.
  set (nd1 := set_tape t (put_session L (set_ratchet Y s) nd)).
  assert (session_of nd1 L = Some (set_ratchet Y s)) as Hs1 by apply (session_of_put _ _ _ _ Hs).
  assert (ready cf nd1) as Hrd1 by (eapply ready_of; [exact Hs1|cbn; lia|exact Hf]).
  set (nd2 := set_tape t (put_session L (set_ratchet Y2 (set_ratchet Y s)) nd1)).
  assert (session_of nd2 L = Some (set_ratchet Y2 (set_ratchet Y s))) as Hs2 by apply (session_of_put _ _ _ _ Hs1).
  assert (∀ u, fresh u Y → fresh u Y2) as HfY by (intros u; unfold fresh; by rewrite Hdh).
  set (ts := map Run [sendWorker (S (S n)); listenLoop (S (S n)); readvertiseLoop (cf_pub cf) (cf_salt cf) (S (S n))]).
  pose proof (read_run cf nd (put_link a new_runtime) ts None [] (S n)
    (set_out (other sd) [payload_frame ct1; payload_frame ct2] Pipe) [payload_frame ct2]
    s ct1 pt1 Y t env1 Hs Hct1 Hd1 He1 Hrd (in_set_out _ _)) as Hread.
  destruct (take_run nd1 (put_link a new_runtime) ts None [] (S n) (set_out (other sd) [payload_frame ct2] Pipe)
    (set_ratchet Y s) env1 offer ct2 pt2 Y2 t env2 ch data) as (rt' & hist' & path & e & Htake & He & Hfe & Hdk);
    [done..|apply in_set_out|done|].
  destruct (thank_run cf nd2 rt' ts hist' n Pipe (set_ratchet Y2 (set_ratchet Y s)) (e_MsgID env1))
    as (renv & rpt & rct & r & nd3 & k & Hthank & _); [apply He1|done|exact Hs2|exact Hc| |done|by destruct (cf_side cf)|cbn; lia|cbn; lia|by apply HfY|].
  { eapply ready_of; [exact Hs2|cbn; lia|by apply HfY]. }
  exists (MkHost nd3 rt' (Awaiting k :: ts) None hist'), rct, path. split_and!; [|by exists k| |by apply Hdk; constructor].
  - etrans; [exact Hread|]. rewrite <-(set_out_back cf [payload_frame ct2]) in Hthank at 1. etrans; [|exact Hthank].
    replace (set_out (other sd) [payload_frame ct2] (set_out (other sd) [payload_frame ct1; payload_frame ct2] Pipe))
      with (set_out (other sd) [payload_frame ct2] Pipe) by by destruct (cf_side cf).
    exact Htake.
  - unfold heard. cbn [h_hist h_rt]. rewrite He. destruct (put_link_others a new_runtime) as (_ & _ & -> & _).
    cbn [polled flat_map events new_runtime app]. by rewrite Hfe.
Qed.
End run.

Section through.
Context `{CurveLaws}.

(** A file of one chunk goes through the goroutines of both engines. *)
Lemma parcel_through cA cB mA sA mB sB handle key path data mime id offer ch n :
  fresh_links mA (cf_Link cA) sA mB (cf_Link cB) sB →
  (∀ j, (j ≤ 88)%nat → fresh (drop j (n_tape mA)) (s_r sA)) →
  cf_side cA = Transport.A → cf_side cB = Transport.B →
  lk_fp (cf_link cA) = Fingerprint key → length key = PublicKeySize → valid_utf8 (lk_fp (cf_link cB)) = true →
  (80 ≤ length (n_tape mB))%nat →
  x25519_pub (take 32 (drop 32 (n_tape mB))) ≠ x25519_pub (take 32 (n_tape mB)) →
  x25519_pub (take 32 (drop 16 (drop 32 (n_tape mB)))) ≠ x25519_pub (take 32 (n_tape mB)) →
  path ≠ [] → mime ≠ [] → file_fits data →
  Split (Base path) mime data 0 (n_tape mA) = (Ok (offer, [ch]), drop 44 (n_tape mA)) →
  ∃ (y : system pipe) path', rtc (sys_step cA cB) (Sys (host_start cA (S (S n)) mA) (host_start cB (S (S n)) mB) Pipe) y ∧
    intact (sy_conn y) ∧ flight Transport.A (sy_conn y) = [] ∧ waits (sy_B y) ∧ disk_ok (h_hist (sy_B y)) ∧
    asked (h_hist (sy_A y)) = [req_of handle key path id] ∧ id ∈ flat_map (confirms (cf_link cA)) (heard (sy_A y)) ∧
    flat_map (files (cf_link cB)) (heard (sy_B y)) = [(to_valid_utf8 (Base path), path')].
Proof.
  intros [HsA HsB HLd [HnA HnB] _ HfB [HcA HcB]] HfA EA EB Hfp Hk Hvb HtB Hkey Hkey' Hp Hm Hfit Hsp.
  destruct (put_link_others (cf_link cA) new_runtime) as (_ & HoA & HeA & HlA).
  destruct (file_run cA mA (put_link (cf_link cA) new_runtime) (Run (recvLoop (cf_dir cA) (S (S n)) (cf_link cA)))
    (map Run [listenLoop (S (S n)); readvertiseLoop (cf_pub cA) (cf_salt cA) (S (S n))]) (S n) Pipe sA handle key path data
    mime id zero_time offer ch)
    as (env1 & pt1 & ct1 & r1 & env2 & pt2 & ct2 & r2 & hist & nA & rtA & ts & e & Hsend & (A1 & A2 & A3 & A4 & A5) & (B1 & B2 & B3 & B4 & B5) & Hask & Hev & Hcf);
    [done|done|by rewrite HlA; apply lookup_insert_eq|done|done|done|done|by rewrite EA|apply wf_zero_time|done|done|done|done|done|done|].
  destruct (Split_received _ _ _ _ _ _ _ Hfit Hsp) as (Hdec & [Hname Hcnt [Hwf _]%Forall_cons _ _]).
  assert (1 < counter_limit) as Hlim by done.
  destruct (Lead_first _ _ _ _ _ _ HLd HfB A4) as (Y & HdB & HnY & HdY).
  destruct (readable_hop (s_r sB) (s_r sA) (n_tape mB) pt1 ct1 r1) as (Y' & t' & HdB' & HLY & _ & _); [by left|by rewrite HnA|done|].
  rewrite HdB in HdB'. apply pair_equal_spec in HdB' as [_ [<- <-]%pair_equal_spec].
  destruct (encrypt_keeps _ _ _ _ A4) as [_ Hn1]. rewrite HnA in Hn1. change (w32 (0 + 1)) with 1 in Hn1.
  destruct (hop_again Y r1 (drop 32 (n_tape mB)) pt2 ct2 r2 HLY) as (Y2 & Hd2 & Hn2 & Hdh); [by rewrite Hn1|done|].
  assert (∀ t, (32 ≤ length t)%nat → x25519_pub (take 32 t) ≠ x25519_pub (take 32 (n_tape mB)) → fresh t Y) as HfY.
  { intros t Ht Hne'. split; [done|]. by rewrite HdY. }
  destruct (store_run cB mB sB ct1 pt1 Y (drop 32 (n_tape mB)) env1 ct2 pt2 Y2 env2 (clean_Offer offer) ch data n)
    as (hB & rct & path' & Hstore & Hw & Hfl & Hdk); [exact HsB|exact A5|exact HdB|exact A1|exact A2| | | |exact B5|exact Hd2|exact B1| | |exact HnY|exact Hn2|exact Hdh| | |exact HcB|exact Hvb|].
  { unfold ParseFileOffer. by rewrite A2, A3, bool_decide_eq_true_2. }
  { unfold count in Hcnt. cbn in Hcnt. lia. }
  { by eapply Split_whole. }
  { unfold chunk_of. rewrite B3. by apply Chunk_roundtrip. }
  { eapply ready_of; [exact HsB|by rewrite HnB|done]. }
  { apply HfY; [rewrite length_drop; lia|done]. }
  { apply HfY; [rewrite !length_drop; lia|done]. }
  rewrite EB in Hstore. cbn [other] in Hstore. rewrite EA in Hsend.
  eexists (Sys _ hB _), path'. cbn [sy_A sy_B sy_conn].
  split; [etrans; [eapply hsteps_A; exact Hsend|eapply hsteps_B; exact Hstore]|].
  split_and!; [done|done|exact Hw|exact Hdk|exact Hask| |by rewrite Hfl, <-Hname].
  unfold heard. cbn [h_hist h_rt]. rewrite Hev, HeA. cbn. rewrite Hcf. by left.
Qed.
End through.

(** ** Instances *)

Import ToyCurves.

Module ToyParcel.
(** An initiator with randomness for a file. *)
Definition alice : node :=
  New (MkAccount ToyNodes.alice_id ToyNodes.alice_pre NewBook) None (map (λ i, bZ (Z.of_nat i)) (seq 0 200)) ToyNodes.clock.

Definition path : bytes := bs "/home/alice/a.txt".

Lemma alice_keys j : (j ≤ 88)%nat →
  x25519_pub (take 32 (drop j (drop 64 (n_tape alice)))) ≠ x25519_pub (take 32 (drop 32 (n_tape alice))).
Proof. intros Hj. do 89 (destruct j as [|j]; [vm_compute; discriminate|]). lia. Qed.

Lemma parcel_start : fresh_start alice ToyNodes.bob.
Proof.
  split.
  - cbn [n_tape ToyNodes.bob New]. rewrite length_be_bytes. split; [vm_compute; lia|lia].
  - intros j Hj. apply alice_keys. lia.
  - vm_compute. discriminate.
  - split; apply Forall_replicate, toy_time_wf.
Qed.

Lemma split : ∃ offer ch,
  Split (Base path) (bs "text/plain") toy_file 0 (drop 64 (n_tape alice)) = (Ok (offer, [ch]), drop 44 (drop 64 (n_tape alice))).
Proof.
  destruct (Split_Ok (Base path) (bs "text/plain") toy_file 0 (drop 64 (n_tape alice))) as (fid & _ & E);
    [done|vm_compute; lia|split; vm_compute; [discriminate|reflexivity]|].
  change (eff_size 0) with DefaultChunkSize in E.
  assert (pieces DefaultChunkSize toy_file = [toy_file]) as Ep by (vm_compute; reflexivity).
  rewrite Ep in E. cbn [seal_from] in E. eexists _, _. rewrite E. by rewrite drop_drop.
Qed.
End ToyParcel.

(** A session of two engines in which a file got through and was confirmed. *)
Lemma toy_parcel :
  ready_nodes ToyParcel.alice ToyNodes.bob ∧
  ∃ cA cB (y : system pipe) req path', session ToyParcel.alice ToyNodes.bob cA cB y ∧ intact (sy_conn y) ∧
    flight Transport.A (sy_conn y) = [] ∧ waits (sy_B y) ∧ disk_ok (h_hist (sy_B y)) ∧
    asked (h_hist (sy_A y)) = [req] ∧ rq_filePath req = ToyParcel.path ∧
    bs "m1" ∈ flat_map (confirms (cf_link cA)) (heard (sy_A y)) ∧
    flat_map (files (cf_link cB)) (heard (sy_B y)) = [(bs "a.txt", path')].
Proof.
  pose proof ToyParcel.parcel_start as [[HtA HtB] _ _ Hc]. split.
  { split; [exact ToyNodes.bob_ok|lia|exact Hc]. }
  destruct (handshake_forced ToyParcel.alice ToyNodes.bob ToyNodes.bob_ok)
    as (lA & lB & mA & mB & ra & rb & Hf & He & _ & _ & E1 & _ & E2 & Hc1 & Hc2 & Ht1 & Ht2 & Hd); [lia|].
  destruct (established_fresh _ _ _ _ _ _ _ _ He Hc1 Hc2 Ht1 Ht2 Hd ToyParcel.parcel_start) as (sA & sB & Hl).
  destruct (forced_run _ _ _ _ Hf 0 _ (nsteps_O _ _)) as [_ Hrun].
  set (cA := Config (MkLnk 0 (l_peerFP lA) []) lA Transport.A [] [] []).
  set (cB := Config (MkLnk 0 (l_peerFP lB) []) lB Transport.B [] [] []).
  destruct ToyParcel.split as (offer & ch & Hsp).
  assert (n_tape mA = drop 64 (n_tape ToyParcel.alice)) as Ht by by rewrite Ht1, drop_drop.
  destruct (parcel_through cA cB mA sA mB sB (bs "bob") (SigningPub (acc_Identity (n_Account ToyNodes.bob)))
    ToyParcel.path toy_file (bs "text/plain") (bs "m1") offer ch 1 Hl)
    as (y & path' & Hy & H1 & H2 & H3 & H4 & H5 & H6 & H7);
    [|reflexivity|reflexivity|exact E1|reflexivity| | | | |discriminate|discriminate|reflexivity| |].
  - intros j Hj. pose proof (es_A _ _ _ _ _ _ _ He) as HA.
    change (session_of mA lA = Some (MkSession ra (Fingerprint (SigningPub (pk_id (acc_PreKeys (n_Account ToyNodes.bob)))))
      (SigningPub (pk_id (acc_PreKeys (n_Account ToyNodes.bob)))))) in HA.
    rewrite (fk_A _ _ _ _ _ _ Hl) in HA. apply (inj Some) in HA as ->. cbn [s_r].
    rewrite Ht. split; [rewrite !length_drop; cbn [ToyParcel.alice n_tape New]; rewrite length_map, length_seq; lia|].
    rewrite Hd. by apply ToyParcel.alice_keys.
  - change (lk_fp (cf_link cB)) with (l_peerFP lB). rewrite E2. apply valid_utf8_Fingerprint.
  - rewrite Ht2. cbn [n_tape ToyNodes.bob New]. rewrite length_be_bytes. lia.
  - rewrite Ht2. vm_compute. discriminate.
  - rewrite Ht2. vm_compute. discriminate.
  - by rewrite Ht.
  - exists cA, cB, y. eexists _, path'. split.
    + exists mA, mB, 3%nat, Pipe.
      split; [exact Hrun|]. do 4 (split; [reflexivity|]). split; [by intros []|exact Hy].
    + exact (conj H1 (conj H2 (conj H3 (conj H4 (conj H5 (conj eq_refl (conj H6 H7))))))).
Qed.

Lemma files_end_to_end_witness :
  ∃ cA cB (y : system pipe) req path', session ToyParcel.alice ToyNodes.bob cA cB y ∧ intact (sy_conn y) ∧
    flat_map (files (cf_link cB)) (heard (sy_B y)) = [(bs "a.txt", path')] ∧
    asked (h_hist (sy_A y)) = [req] ∧ file_asked (cf_link cA) req = true ∧
    came (h_hist (sy_A y)) (h_hist (sy_B y)) req (bs "a.txt", path').
Proof.
  destruct toy_parcel as (Hn & cA & cB & y & req & path' & Hs & Hi & _ & _ & _ & H1 & _ & _ & H2). exists cA, cB, y, req, path'.
  pose proof (files_end_to_end ToyParcel.alice ToyNodes.bob cA cB y Hn Hs Hi) as [(reqs & Hsub & Hall) _].
  rewrite H1 in Hsub. rewrite H2 in Hall. apply Forall2_cons_inv_r in Hall as (r & k & Hc & Hk & ->).
  apply Forall2_nil_inv_r in Hk as ->. unfold file_reqs in Hsub. cbn [flat_map] in Hsub.
  destruct (file_asked (cf_link cA) req) eqn:Ef; [|by apply sublist_nil_r in Hsub].
  apply sublist_subseteq in Hsub. assert (r ∈ [req]) as ->%list_elem_of_singleton by (apply Hsub; by left).
  exact (conj Hs (conj Hi (conj H2 (conj H1 (conj eq_refl Hc))))).
Defined.

Lemma sent_means_shown_witness :
  (∃ cA cB (y : system pipe), session ToyHops.alice ToyNodes.bob cA cB y ∧ intact (sy_conn y) ∧
     flight Transport.A (sy_conn y) = [] ∧ waits (sy_B y) ∧
     ∃ req, req ∈ asked (h_hist (sy_A y)) ∧ addressed (cf_link cA) req = true ∧ rq_msgID req = bs "m1" ∧
       reached (cf_link cB) (sy_A y) (sy_B y) req) ∧
  (∃ cA cB (y : system pipe), session ToyParcel.alice ToyNodes.bob cA cB y ∧ intact (sy_conn y) ∧
     flight Transport.A (sy_conn y) = [] ∧ waits (sy_B y) ∧ disk_ok (h_hist (sy_B y)) ∧
     ∃ req, rq_filePath req = ToyParcel.path ∧ addressed (cf_link cA) req = true ∧ rq_msgID req = bs "m1" ∧
       reached (cf_link cB) (sy_A y) (sy_B y) req).
Proof.
  split.
  - destruct toy_session as (Hn & cA & cB & y & Hs & Hi & _ & _ & _ & H1 & H2 & H3). exists cA, cB, y.
    pose proof (sent_means_shown ToyHops.alice ToyNodes.bob cA cB y (bs "m1") Hn Hs Hi) as [H4 _].
    exact (conj Hs (conj Hi (conj H1 (conj H2 (H4 H1 H2 H3))))).
  - destruct toy_parcel as (Hn & cA & cB & y & req & path' & Hs & Hi & H1 & H2 & H3 & H4 & H5 & H6 & _). exists cA, cB, y.
    pose proof (sent_means_shown ToyParcel.alice ToyNodes.bob cA cB y (bs "m1") Hn Hs Hi) as [H7 _].
    destruct (H7 H1 H2 H6) as (req' & Hin & Ha & Hid & Hr). rewrite H4 in Hin. apply list_elem_of_singleton in Hin as ->.
    split_and!; [exact Hs|exact Hi|exact H1|exact H2|exact H3|]. by exists req.
Defined.
