(* ===== verification/Bindings.v ===== *)
(** * The bindings ([core/ffi], [core/mobile]) and their reader

    The two layers the app calls share their design: a process-wide variable
    [rt] behind a mutex holds the running engine, and every call takes a copy
    of it before it uses it.  The exported functions are programs; the pool
    runs any number of calls in any interleaving.  What the C layer returns is
    read by the Dart code of [app/lib/src/ffi], which is modelled with it. *)

From S2P Require Import Prelude Bytes Strconv Json Codec Sha2 Encoding GoTime Curve Identity Settings Url Contact Account Prog Runtime Events.
Open Scope Z_scope.

(** ** Strings across C *)

(** What a C reader sees of [C.CString s]: the octets before the first NUL. *)
Fixpoint CString (s : bytes) : bytes :=
  match s with
  | [] => []
  | b :: s => if Zb b =? 0 then [] else b :: CString s
  end.

Definition tab : byte := "009"%byte.

(** ** State and operations *)

(** A [*runtime.Runtime]: which one it is, its [MyURI] and its [Fingerprint]. *)
Record engine := MkEngine { en_id : nat; en_uri : bytes; en_fp : bytes }.

#[global] Instance engine_eq_dec : EqDecision engine.
Proof. solve_decision. Defined.

(** [rt], and the engines that were started and not stopped. *)
Record globals := MkGlobals { rt : option engine; live : list engine; started : nat }.

Definition globals0 : globals := MkGlobals None [] 0.

(** The methods of an engine the layers forward to. *)
Inductive method :=
  | MSend (uri text msgID : bytes)
  | MSendFile (uri path msgID : bytes)
  | MSendTyping (uri : bytes)
  | MDiagnose (uri : bytes)
  | MMarkRead (uri : bytes)
  | MSettings
  | MSetSettings (s : bytes)
  | MSaveState (s : bytes)
  | MLoadState
  | MPoll.

Definition answer_of (m : method) : Type :=
  match m with
  | MSettings | MLoadState => bytes
  | MSetSettings _ | MSaveState _ => result unit
  | MPoll => list Event
  | _ => unit
  end.

(** [BStart]: the critical section of [Start], which holds the lock while the
    engine starts; [BGet]: [r := rt]; [BTake]: [r := rt; rt = nil]; [BStop]:
    [r.Stop()], after the lock was released. *)
Inductive bop :=
  | BStart (dataDir handle : bytes)
  | BGet
  | BTake
  | BStop (e : engine)
  | BCall (e : engine) (m : method).

Definition bres (o : bop) : Type :=
  match o with
  | BStart _ _ => result engine
  | BGet | BTake => option engine
  | BStop _ => unit
  | BCall _ m => answer_of m
  end.

(** [runtime.Start] fails, or makes an engine that was not there. *)
Definition bstep (o : bop) : bres o → globals → globals → Prop :=
  match o return bres o → globals → globals → Prop with
  | BStart _ _ => λ a s s',
      match rt s with
      | Some e => a = Ok e ∧ s' = s
      | None =>
        (∃ err, a = Err err ∧ s' = s) ∨
        (∃ e, en_id e = started s ∧ a = Ok e ∧ s' = MkGlobals (Some e) (e :: live s) (S (started s)))
      end
  | BGet => λ a s s', a = rt s ∧ s' = s
  | BTake => λ a s s', a = rt s ∧ s' = MkGlobals None (live s) (started s)
  | BStop e => λ _ s s', s' = MkGlobals (rt s) (filter (λ x, x ≠ e) (live s)) (started s)
  | BCall _ _ => λ _ s s', s' = s
  end.

Abbreviation prog := (Prog.prog bres).
Abbreviation call := (perform bres).

(** ** [ffi.go]: every export returns a C string *)

Definition not_started : bytes := bs "error: runtime not started".

(** [r := rt], then one branch for a nil engine. *)
Definition with_engine {A} (none : A) (some : engine → prog A) : prog A :=
  let^ r := call BGet in match r with None => Ret none | Some e => some e end.

(** A call of a method whose answer is dropped. *)
Definition forward (m : method) (ok : bytes) (e : engine) : prog bytes :=
  let^ _ := call (BCall e m) in Ret (CString ok).

(** A call of a method that may fail. *)
Definition or_error (m : method) (f : answer_of m → result unit) (e : engine) : prog bytes :=
  let^ r := call (BCall e m) in
  Ret (CString (match f r with Ok _ => bs "ok" | Err err => bs "error: " ++ err end)).

Definition StunnerStart (dataDir handle : bytes) : prog bytes :=
  let^ r := call (BStart dataDir handle) in
  Ret (CString (match r with
                | Err e => bs "error: " ++ e
                | Ok e => en_uri e ++ tab :: en_fp e
                end)).

Definition StunnerSend (uri text msgID : bytes) : prog bytes :=
  with_engine (CString not_started) (forward (MSend uri text msgID) (bs "ok")).
Definition StunnerDiagnose (uri : bytes) : prog bytes :=
  with_engine (CString (bs "ok")) (forward (MDiagnose uri) (bs "ok")).
Definition StunnerSendTyping (uri : bytes) : prog bytes :=
  with_engine (CString (bs "ok")) (forward (MSendTyping uri) (bs "ok")).
Definition StunnerSendFile (uri path msgID : bytes) : prog bytes :=
  with_engine (CString not_started) (forward (MSendFile uri path msgID) (bs "ok")).
Definition StunnerMarkRead (uri : bytes) : prog bytes :=
  with_engine (CString not_started) (forward (MMarkRead uri) (bs "ok")).
Definition StunnerSetSettings (s : bytes) : prog bytes :=
  with_engine (CString not_started) (or_error (MSetSettings s) id).
Definition StunnerSaveState (s : bytes) : prog bytes :=
  with_engine (CString not_started) (or_error (MSaveState s) id).
Definition StunnerGetSettings : prog bytes :=
  with_engine (CString (bs "{}")) (λ e, let^ s := call (BCall e MSettings) in Ret (CString s)).
Definition StunnerLoadState : prog bytes :=
  with_engine (CString []) (λ e, let^ s := call (BCall e MLoadState) in Ret (CString s)).
Definition StunnerMyURI : prog bytes := with_engine (CString []) (λ e, Ret (CString (en_uri e))).

(** [json.Marshal] does not fail on events. *)
Definition StunnerPoll : prog bytes :=
  with_engine (CString (bs "[]")) (λ e, let^ l := call (BCall e MPoll) in Ret (CString (events_json l))).

Definition StunnerStop : prog bytes :=
  let^ r := call BTake in
  match r with
  | None => Ret (CString (bs "ok"))
  | Some e => let^ _ := call (BStop e) in Ret (CString (bs "ok"))
  end.

(** The exports that need no engine, from what the core answers. *)
Definition StunnerVersion : bytes := CString VersionString.
Definition StunnerPing (msg : bytes) : bytes := CString (bs "pong: " ++ msg).
Definition string_or_error (r : result bytes) : bytes :=
  CString (match r with Ok s => s | Err e => bs "error: " ++ e end).
Definition StunnerSafetyNumber (now : gotime) (a b : bytes) : bytes := string_or_error (SafetyNumber now a b).
Definition StunnerValidateContactURI (now : gotime) (uri : bytes) : bytes :=
  string_or_error (let? p := ValidateContactURI now uri in Ok (p.1 ++ tab :: p.2)).
Definition StunnerCheckSTUN (cands : list ICEServer → result (list candidate)) : bytes :=
  string_or_error (let? r := CheckSTUN cands in
    Ok ((if r.1.1 then bs "ok" else bs "fail") ++ tab :: r.1.2 ++ tab :: r.2)).

Section fresh.
Context `{Curves}.
(** The octets are those of [crypto/rand]. *)
Definition StunnerNewIdentityFingerprint (t : tape) : bytes := string_or_error (NewIdentityFingerprint t).1.
Definition StunnerNewContactURI (handle : bytes) (t : tape) : bytes := string_or_error (NewContactURI handle t).1.
End fresh.

(** ** [api.go]: what a missing engine means here *)

(** A method whose answer is dropped; nothing without an engine. *)
Definition mobile_void (m : method) : prog unit :=
  with_engine tt (λ e, let^ _ := call (BCall e m) in Ret tt).

Definition mobile_Start (dataDir handle : bytes) : prog (result (bytes * bytes)) :=
  let^ r := call (BStart dataDir handle) in
  Ret (match r with Err e => Err e | Ok e => Ok (en_uri e, en_fp e) end).
Definition mobile_Send (uri text msgID : bytes) : prog unit := mobile_void (MSend uri text msgID).
Definition mobile_Diagnose (uri : bytes) : prog unit := mobile_void (MDiagnose uri).
Definition mobile_SendTyping (uri : bytes) : prog unit := mobile_void (MSendTyping uri).
Definition mobile_SendFile (uri path msgID : bytes) : prog unit := mobile_void (MSendFile uri path msgID).
Definition mobile_MarkRead (uri : bytes) : prog unit := mobile_void (MMarkRead uri).
Definition mobile_GetSettings : prog bytes := with_engine (bs "{}") (λ e, call (BCall e MSettings)).
Definition mobile_SetSettings (s : bytes) : prog (result unit) :=
  with_engine (Ok tt) (λ e, call (BCall e (MSetSettings s))).
Definition mobile_SaveState (s : bytes) : prog (result unit) :=
  with_engine (Ok tt) (λ e, call (BCall e (MSaveState s))).
Definition mobile_LoadState : prog bytes := with_engine [] (λ e, call (BCall e MLoadState)).
Definition mobile_Poll : prog bytes :=
  with_engine (bs "[]") (λ e, let^ l := call (BCall e MPoll) in Ret (events_json l)).
Definition mobile_Stop : prog unit :=
  let^ r := call BTake in
  match r with None => Ret tt | Some e => call (BStop e) end.
Definition mobile_CheckSTUN (cands : list ICEServer → result (list candidate)) : result (bool * bytes * bytes) :=
  CheckSTUN cands.
Definition mobile_ValidateContactURI (now : gotime) (uri : bytes) : result (bytes * bytes) := ValidateContactURI now uri.
Definition mobile_Ping (msg : bytes) : bytes := bs "pong: " ++ msg.
Definition mobile_Version : bytes := VersionString.
Definition mobile_SafetyNumber (now : gotime) (a b : bytes) : result bytes := SafetyNumber now a b.

Section fresh_mobile.
Context `{Curves}.
Definition mobile_NewIdentityFingerprint (t : tape) : result bytes := (NewIdentityFingerprint t).1.
Definition mobile_NewContactURI (handle : bytes) (t : tape) : result bytes := (NewContactURI handle t).1.
End fresh_mobile.

(** ** The Dart reader ([stunner_ffi.dart]) *)

(** [s.split('\t')]; the list is never empty. *)
Fixpoint split_tab (s : bytes) : list bytes :=
  match s with
  | [] => [[]]
  | b :: s =>
    match split_tab s with
    | [] => [[]]
    | p :: ps => if bool_decide (b = tab) then [] :: p :: ps else (b :: p) :: ps
    end
  end.

(** [s.startsWith('error: ')] and [s.substring(7)]. *)
Definition dart_error (s : bytes) : option bytes :=
  if bool_decide (take 7 s = bs "error: ") then Some (drop 7 s) else None.

Definition part (i : nat) (ps : list bytes) : bytes := default [] (ps !! i).

(** [startRuntime]: URI, fingerprint, error. *)
Definition startRuntime (s : bytes) : bytes * bytes * option bytes :=
  match dart_error s with
  | Some e => ([], [], Some e)
  | None => (part 0 (split_tab s), part 1 (split_tab s), None)
  end.

(** [validateContactURI]: handle and fingerprint, or the [FormatException]. *)
Definition validateContactURI (s : bytes) : result (bytes * bytes) :=
  match dart_error s with
  | Some e => Err e
  | None => Ok (part 0 (split_tab s), part 1 (split_tab s))
  end.

(** [_checkStunWorker]: ok, address, detail. *)
Definition checkStun (s : bytes) : bool * bytes * bytes :=
  match dart_error s with
  | Some e => (false, [], e)
  | None => (bool_decide (part 0 (split_tab s) = bs "ok"), part 1 (split_tab s), part 2 (split_tab s))
  end.

(** ** Every interleaving *)

(** A call from the app, whatever becomes of its result. *)
Definition forget {A} (p : prog A) : prog unit := let^ _ := p in Ret tt.

Inductive exported : prog unit → Prop :=
  | ex_StunnerStart d h : exported (forget (StunnerStart d h))
  | ex_StunnerSend u t i : exported (forget (StunnerSend u t i))
  | ex_StunnerDiagnose u : exported (forget (StunnerDiagnose u))
  | ex_StunnerSendTyping u : exported (forget (StunnerSendTyping u))
  | ex_StunnerSendFile u p i : exported (forget (StunnerSendFile u p i))
  | ex_StunnerMarkRead u : exported (forget (StunnerMarkRead u))
  | ex_StunnerSetSettings s : exported (forget (StunnerSetSettings s))
  | ex_StunnerSaveState s : exported (forget (StunnerSaveState s))
  | ex_StunnerGetSettings : exported (forget StunnerGetSettings)
  | ex_StunnerLoadState : exported (forget StunnerLoadState)
  | ex_StunnerMyURI : exported (forget StunnerMyURI)
  | ex_StunnerPoll : exported (forget StunnerPoll)
  | ex_StunnerStop : exported (forget StunnerStop)
  | ex_Start d h : exported (forget (mobile_Start d h))
  | ex_void m : exported (mobile_void m)
  | ex_GetSettings : exported (forget mobile_GetSettings)
  | ex_SetSettings s : exported (forget (mobile_SetSettings s))
  | ex_SaveState s : exported (forget (mobile_SaveState s))
  | ex_LoadState : exported (forget mobile_LoadState)
  | ex_Poll : exported (forget mobile_Poll)
  | ex_Stop : exported mobile_Stop.

(** The layers start no goroutine of their own. *)
Definition no_threads (o : bop) (new : list (prog unit)) : Prop := new = [].

Definition call_step : pool bres globals → pool bres globals → Prop := pool_step bstep no_threads exported.

(** Who took an engine out of [rt] is to stop it. *)
Definition stopping (o : bop) : Prop := ∃ e, o = BStop e.
Definition stop_duty (o : bop) : bres o → bop → Prop :=
  match o return bres o → bop → Prop with
  | BTake => λ a q, ∃ e, a = Some e ∧ q = BStop e
  | _ => λ _ _, False
  end.
Abbreviation owes_stop e := (Prog.owes (R := bres) stopping (BStop e)).
Abbreviation careful := (Prog.tidy (R := bres) stopping stop_duty).

Lemma exported_careful p : exported p → careful p.
Proof.
  assert (∀ A o (k : bres o → prog A), (∀ a q, ¬ stop_duty o a q) → (∀ a, careful (k a)) → careful (Op o k)) as Hop.
  { intros A o k Hn Hk. split; [|done]. by intros a q ?%Hn. }
  destruct 1; unfold forget, mobile_void, with_engine; cbn [bindG perform];
    try (apply Hop; [by intros ? ? []|]; intros [?|]; cbn; try done;
         repeat (apply Hop; [by intros ? ? []|]; intros ?; cbn); done).
  all: unfold StunnerStop, mobile_Stop; cbn [bindG perform]; split; [intros a q (e & -> & ->); cbn; by left|];
    by intros [e|].
Qed.

Definition accounted (c : pool bres globals) : Prop :=
  ∀ e, e ∈ live (state c) → rt (state c) = Some e ∨ Exists (owes_stop e) (threads c).

Lemma call_step_accounted c c' :
  all_tidy stopping stop_duty c → accounted c → call_step c c' → accounted c'.
Proof.
  unfold accounted. intros Ht Ha Hs.
  destruct Hs as [s ts1 o k ts2 a s' new Ho ->|s ts p Hp]; cbn [threads state] in *.
  2: { intros e [?|?]%Ha; [by left|right]. apply Exists_app. by left. }
  apply Forall_app in Ht as [_ Ht]. apply Forall_cons in Ht as [[Hd _] _].
  assert (∀ e, o ≠ BStop e → Exists (owes_stop e) (ts1 ++ Op o k :: ts2) →
               Exists (owes_stop e) (ts1 ++ k a :: ts2 ++ [])) as Hkeep.
  { intros e Hne. rewrite app_nil_r, !Exists_app, !Exists_cons. intros [?|[[?|[_ Hk]]|?]]; try done; try tauto.
    right. left. apply Hk. }
  assert (s' = s → o ≠ BTake → (∀ e, o ≠ BStop e) → ∀ e, e ∈ live s' → rt s' = Some e ∨
          Exists (owes_stop e) (ts1 ++ k a :: ts2 ++ [])) as Hsame.
  { intros -> _ Hne e [?|?]%Ha; [by left|right]. by apply Hkeep. }
  destruct o; cbn in Ho.
  - destruct (rt s) as [e0|] eqn:Ert; [apply Hsame; [by destruct Ho|done..]|].
    destruct Ho as [(err & -> & ->)|(e0 & _ & -> & ->)]; [apply Hsame; done|].
    intros e [->|Hin]%elem_of_cons; [by left|]. right. apply Hkeep; [done|]. by destruct (Ha e Hin).
  - apply Hsame; [by destruct Ho|done..].
  - destruct Ho as [-> ->]. intros e Hin. right. destruct (Ha e Hin) as [E|Hx]; [|by apply Hkeep].
    rewrite Exists_app, Exists_cons. right. left. apply Hd. eexists. by split.
  - subst s'. intros e' [Hne Hin]%list_elem_of_filter. cbn. destruct (Ha e' Hin) as [?|?]; [by left|right].
    apply Hkeep; [congruence|done].
  - apply Hsame; done.
Qed.

Lemma call_steps_accounted c : rtc call_step (MkPool globals0 []) c → accounted c.
Proof.
  assert (∀ c c', rtc call_step c c' → all_tidy stopping stop_duty c → accounted c → accounted c') as H.
  { induction 1 as [|c1 c2 c3 Hs _ IH]; [done|]. intros Ht Ha. apply IH; [|by eapply call_step_accounted].
    eapply pool_step_tidy; [|apply exported_careful|exact Ht|exact Hs]. by intros o new ->. }
  intros Hr. apply (H _ _ Hr); [constructor|]. by intros e ?%not_elem_of_nil.
Qed.

(** ** Lemmas on strings *)

Definition nul_free (s : bytes) : Prop := Forall (λ b, Zb b ≠ 0) s.

Lemma CString_nul_free s : nul_free s → CString s = s.
Proof.
  induction 1 as [|b s Hb _ IH]; [done|]. cbn [CString]. rewrite (proj2 (Z.eqb_neq _ _)) by done. by rewrite IH.
Qed.

Lemma split_tab_none s : tab ∉ s → split_tab s = [s].
Proof.
  induction s as [|b s IH]; [done|]. intros [Hb Hs]%not_elem_of_cons. cbn [split_tab]. rewrite IH by done.
  by rewrite bool_decide_false by done.
Qed.

Lemma split_tab_cons s r : tab ∉ s → split_tab (s ++ tab :: r) = s :: split_tab r.
Proof.
  induction s as [|b s IH]; intros Hs.
  - cbn [app split_tab]. destruct (split_tab r) as [|p ps] eqn:E.
    + destruct r as [|c r]; [done|]. cbn in E. destruct (split_tab r); [done|]. by destruct (bool_decide _).
    + by rewrite bool_decide_true.
  - apply not_elem_of_cons in Hs as [Hb Hs]. cbn [app split_tab]. rewrite IH by done.
    by rewrite bool_decide_false by done.
Qed.

(** Text that survives C, the tabs and the error prefix. *)
Definition plain (s : bytes) : Prop := nul_free s ∧ tab ∉ s.

Lemma nul_free_app s r : nul_free (s ++ r) ↔ nul_free s ∧ nul_free r.
Proof. apply Forall_app. Qed.

Lemma URI_plain handle key : plain (URI handle key).
Proof.
  assert (URI handle key = (bs "stunner:contact" ++ ["?"%byte]) ++ query handle key) as -> by done. split.
  - apply nul_free_app. split; [repeat constructor; done|]. apply Forall_forall. intros b Hb Hz.
    assert (b = "000"%byte) as -> by (rewrite <-(bZ_Zb b), Hz; done). by apply query_no in Hb.
  - rewrite elem_of_app. intros [H|H]; [|by apply query_no in H].
    revert H. apply (bool_decide_unpack (tab ∉ _)). vm_compute. exact I.
Qed.

Lemma Fingerprint_plain pub : plain (Fingerprint pub).
Proof.
  split.
  - apply Forall_forall. intros b [Hb| ->]%Fingerprint_bytes Hz; [|done].
    assert (b = "000"%byte) as -> by (rewrite <-(bZ_Zb b), Hz; done). done.
  - by intros [H|H]%Fingerprint_bytes.
Qed.

Lemma tab_nul_free : Zb tab ≠ 0.
Proof. done. Qed.

(** What a two-column reply looks like to the reader. *)
Lemma two_columns a b :
  plain a → plain b →
  CString (a ++ tab :: b) = a ++ tab :: b ∧ part 0 (split_tab (a ++ tab :: b)) = a ∧ part 1 (split_tab (a ++ tab :: b)) = b.
Proof.
  intros [Ha Hta] [Hb Htb]. split.
  - apply CString_nul_free, nul_free_app. split; [done|]. constructor; [apply tab_nul_free|done].
  - rewrite split_tab_cons, split_tab_none by done. done.
Qed.

Lemma dart_error_no s : bool_decide (take 7 s = bs "error: ") = false → dart_error s = None.
Proof. unfold dart_error. by intros ->. Qed.

(** The answers of [Poll]. *)
Definition note_polled (o : bop) : bres o → list (list Event) → list (list Event) :=
  match o return bres o → list (list Event) → list (list Event) with
  | BCall _ m =>
    match m return answer_of m → list (list Event) → list (list Event) with
    | MPoll => λ l σ, σ ++ [l]
    | _ => λ _ σ, σ
    end
  | _ => λ _ σ, σ
  end.

Section properties.

(** C21: no engine is lost, and there is one at a time but for those being
    stopped.  However the calls of the app interleave, an engine that was
    started and not stopped is the one [rt] holds - or some call, which took it
    out of [rt], stops it alone, whatever it is answered and without waiting. *)
Theorem engines_accounted c e :
  rtc call_step (MkPool globals0 []) c → e ∈ live (state c) →
  rt (state c) = Some e ∨ ∃ i, alone bstep no_threads i (λ c, e ∉ live (state c)) c.
Proof.
  intros Hr He. destruct (call_steps_accounted c Hr e He) as [?|Ho]; [by left|right].
  apply Exists_exists in Ho as (p & (i & Hi)%list_elem_of_lookup & Ho). exists i.
  apply (owes_alone bstep no_threads stopping (λ s, e ∉ live s) (BStop e) i p); [| |done|done].
  - intros o s Hor. assert (∃ e', o = BStop e') as [e' ->] by (destruct Hor as [->|[e' ->]]; eauto).
    split; [exists tt; eexists; reflexivity|by exists []].
  - intros a s s' ->. cbn. by intros [? _]%list_elem_of_filter.
Qed.

(** C22: the app gets every event, in order.  Whatever the engine handed out - if its texts
    are well-formed UTF-8 and its times not before 1970 - is what a reader of
    the string [StunnerPoll] returns finds in it: the printed array has no
    control bytes, so C does not cut it.  With no engine the string is [[]];
    but with an engine and no event it is [null], not an empty array. *)
Theorem poll_reply_read :
  all_runs note_polled StunnerPoll
    (λ σ s, match σ with
            | [] => s = bs "[]"
            | [[]] => s = bs "null"
            | [l] => Forall wf_Event l → read_events s = Ok (Some l)
            | _ => False
            end) [].
Proof.
  unfold StunnerPoll, with_engine. cbn [bindG perform all_runs note_polled bres]. intros [e|]; [|done].
  cbn [bindG perform all_runs note_polled bres answer_of]. intros [|e1 l]; [done|]. cbn [app].
  intros Hl. rewrite CString_nul_free; [by rewrite read_events_json|].
  eapply Forall_impl; [apply print_printable; by apply wf_enc_events|]. unfold printable. cbn. lia.
Qed.

(** Two engines can run on one data directory.  [Stop] clears [rt] before it
    stops the engine, so a [Start] in between finds none and makes another. *)
Theorem two_engines_live (d h : bytes) e1 e2 :
  en_id e1 = 0%nat → en_id e2 = 1%nat →
  ∃ c, rtc call_step (MkPool globals0 []) c ∧ live (state c) = [e2; e1] ∧ rt (state c) = Some e2.
Proof.
  intros H1 H2. eexists. split.
  { eapply rtc_l; [apply (step_call _ _ _ _ _ _ (ex_StunnerStart d h))|]. cbn [app].
    eapply rtc_l.
    { eapply (thread_step bstep _ _ 0 (BStart d h) _ (Ok e1)); [reflexivity| |reflexivity].
      right. exists e1. split_and!; [exact H1|reflexivity|reflexivity]. }
    cbn [app insert list_insert].
    eapply rtc_l; [apply (step_call _ _ _ _ _ _ ex_StunnerStop)|]. cbn [app].
    eapply rtc_l; [eapply (thread_step bstep _ _ 1 BTake _ (Some e1)); [reflexivity|split; reflexivity|reflexivity]|].
    cbn [app insert list_insert].
    eapply rtc_l; [apply (step_call _ _ _ _ _ _ (ex_StunnerStart d h))|]. cbn [app].
    eapply rtc_l.
    { eapply (thread_step bstep _ _ 2 (BStart d h) _ (Ok e2)); [reflexivity| |reflexivity].
      right. exists e2. split_and!; [exact H2|reflexivity|reflexivity]. }
    apply rtc_refl. }
  by split.
Qed.

(** The app learns who it is.  Whatever the handle, what [StunnerStart]
    returns for a started account is read by the app as exactly the contact
    URI and the fingerprint; and an error, whatever its text, as an error. *)
Theorem start_reply_read handle key err :
  startRuntime (CString (URI handle key ++ tab :: Fingerprint key)) = (URI handle key, Fingerprint key, None) ∧
  startRuntime (CString (bs "error: " ++ err)) = ([], [], Some (CString err)).
Proof.
  split.
  - destruct (two_columns _ _ (URI_plain handle key) (Fingerprint_plain key)) as (-> & H0 & H1).
    unfold startRuntime. rewrite dart_error_no by done. by rewrite H0, H1.
  - change (CString (bs "error: " ++ err)) with (bs "error: " ++ CString err).
    unfold startRuntime, dart_error. rewrite bool_decide_true by done. done.
Qed.

(** C23: the fingerprint the app shows for a scanned contact can be chosen by
    whoever made the code.  [StunnerValidateContactURI] puts handle and
    fingerprint side by side, and a handle may hold a tab: for every key and
    every text there is a contact URI that the core accepts, with the key, and
    for which the app shows that text as the fingerprint. *)
Theorem shown_fingerprint_forgeable now name shown key :
  length key = PublicKeySize → plain name → plain shown → take 7 name ≠ bs "error: " →
  let uri := URI (name ++ tab :: shown) key in
  ValidateContactURI now uri = Ok (name ++ tab :: shown, Fingerprint key) ∧
  validateContactURI (StunnerValidateContactURI now uri) = Ok (name, shown).
Proof.
  intros Hk [Hn Htn] [Hs Hts] He uri. assert (ValidateContactURI now uri = Ok (name ++ tab :: shown, Fingerprint key)) as E.
  { unfold ValidateContactURI, uri. by rewrite ParseURI_URI by done. }
  split; [done|]. unfold StunnerValidateContactURI. rewrite E. unfold string_or_error. cbn [bindR fst snd].
  destruct (Fingerprint_plain key) as [Hf Htf]. rewrite CString_nul_free.
  2: { repeat first [done|apply nul_free_app; split|apply Forall_cons; split; [apply tab_nul_free|]]. }
  rewrite <-app_assoc. cbn [app]. unfold validateContactURI. rewrite dart_error_no.
  - by rewrite !split_tab_cons, split_tab_none by done.
  - apply bool_decide_eq_false. intros E7. destruct (decide (7 ≤ length name)%nat) as [Hl|Hl].
    + apply He. by rewrite take_app_le in E7.
    + assert (tab ∈ bs "error: ") as Hin.
      { rewrite <-E7, take_app_ge by lia. apply elem_of_app. right.
        destruct (7 - length name)%nat eqn:El; [lia|]. by left. }
      exfalso. revert Hin. apply (bool_decide_unpack (tab ∉ _)). vm_compute. exact I.
Qed.
End properties.

(** ** Instances *)

Definition toy_engine (i : nat) : engine := MkEngine i (bs "stunner:contact?k=x") (bs "FP").

Lemma engines_accounted_witness :
  ∃ c, toy_engine 0 ∈ live (state c) ∧
    (rt (state c) = Some (toy_engine 0) ∨ ∃ i, alone bstep no_threads i (λ c, toy_engine 0 ∉ live (state c)) c).
Proof.
  destruct (two_engines_live (bs "/d") (bs "a") (toy_engine 0) (toy_engine 1) eq_refl eq_refl) as (c & Hr & Hl & _).
  exists c. assert (toy_engine 0 ∈ live (state c)) as Hin by (rewrite Hl; right; left).
  split; [exact Hin|]. exact (engines_accounted c (toy_engine 0) Hr Hin).
Defined.

Lemma two_engines_live_witness :
  ∃ c, rtc call_step (MkPool globals0 []) c ∧ live (state c) = [toy_engine 1; toy_engine 0] ∧
    rt (state c) = Some (toy_engine 1).
Proof. apply (two_engines_live (bs "/d") (bs "a")); reflexivity. Defined.

(** A code made by one key that shows the fingerprint of another. *)
Lemma shown_fingerprint_forgeable_witness :
  let key := be_bytes 32 7 in
  let shown := Fingerprint (be_bytes 32 8) in
  let uri := URI (bs "alice" ++ tab :: shown) key in
  ValidateContactURI zero_time uri = Ok (bs "alice" ++ tab :: shown, Fingerprint key) ∧
  validateContactURI (StunnerValidateContactURI zero_time uri) = Ok (bs "alice", shown).
Proof.
  intros key shown. apply (shown_fingerprint_forgeable zero_time (bs "alice") shown key).
  - reflexivity.
  - split; [repeat constructor; discriminate|]. apply (bool_decide_unpack (tab ∉ _)). vm_compute. exact I.
  - apply Fingerprint_plain.
  - discriminate.
Defined.
