(* ===== verification/Startup.v ===== *)
(** * Starting the engine, and what it keeps ([pkg/runtime])

    The key file, [Start], and the API calls that read and write the store. *)

From S2P Require Import Prelude Bytes Json Codec Gcm Curve Identity Vault GoTime Contact Settings Account Storage X3dh Session Node Paths.
Open Scope Z_scope.

(** ** The key file *)

(** What the operating system answers to [loadOrCreateKey]. *)
Record key_os := MkKeyOS {
  ko_mkdir : option error;
  ko_read : result bytes;
  ko_write : option error;
}.

(** [loadOrCreateKey]: the key, and what was written to [key.bin]. *)
Definition loadOrCreateKey (dir : bytes) (os : key_os) : M tape (bytes * option bytes) :=
  if decide (dir = []) then failM (bs "runtime: empty data dir") else
  match ko_mkdir os with
  | Some e => failM e
  | None =>
    let create :=
      let* key := rand_read KeySize in
      match ko_write os with
      | Some e => failM e
      | None => retM (key, Some key)
      end in
    match ko_read os with
    | Ok b => if decide (length b = KeySize) then retM (b, None) else create
    | Err _ => create
    end
  end.

(** ** [Start] *)

(** What the operating system and the constructors of the network stack
    answer to [Start]. *)
Record start_os := MkStartOS {
  so_key : key_os;
  so_account : os_answers;
  so_store_mkdir : option error;
  so_store_read : result (option bytes);
  so_store_faults : faults;
  so_transport : list ICEServer → option error;
  so_dht : option error;
}.

(** What [Start] wires up. *)
Record started := MkStarted {
  sta_node : node;
  sta_ICEServers : list ICEServer;
  sta_uri : bytes;
  sta_fp : bytes;
  sta_filesDir : bytes;
}.

Section start.
Context `{Curves}.

(** [Start], with the randomness and the clock the node goes on with; the
    engine, and what was written to the key file and the identity file. *)
Definition Start (dataDir handle : bytes) (os : start_os) (clock : list gotime) : M tape (started * option bytes * option bytes) :=
  let* k := loadOrCreateKey dataDir (so_key os) in
  let* a := LoadOrCreate k.1 (so_account os) in
  let* store := liftM (openFileStore (Join dataDir (bs "store.bin")) k.1 (so_store_mkdir os)
                         (so_store_read os) (so_store_faults os)) in
  let ice := EffectiveICEServers
               (match LoadSettings store with Ok st => st | Err _ => zero_Settings end) in
  match so_transport os ice with
  | Some e => failM e
  | None =>
    match so_dht os with
    | Some e => failM e
    | None =>
      let* t := getM in
      retM (MkStarted (Node.New a.1 (Some store) t clock) ice (ContactURI a.1 handle) (acc_Fingerprint a.1)
              (Join dataDir (bs "files")), k.2, a.2)
    end
  end.
End start.

(** ** The store behind the API *)

Definition stateNamespace : bytes := bs "app".
Definition stateKey : bytes := bs "state".

Section store.
Context {S : Type} `{Store S}.

(** [r.node.Store], which may be nil, and the randomness it uses. *)
Definition with_store {A} (nil : A) (m : M (S * tape) A) : M (option S * tape) A := λ '(st, t),
  match st with
  | None => (Ok nil, (None, t))
  | Some st => let '(r, (st, t)) := m (st, t) in (r, (Some st, t))
  end.

(** [Runtime.Settings], [SetSettings], [SaveState], [LoadState]. *)
Definition rt_Settings (st : option S) : bytes :=
  JSON (match st with
        | Some st => match st_LoadSettings st with Ok s => s | Err _ => Default end
        | None => Default
        end).

Definition SetSettings (json : bytes) : M (option S * tape) unit :=
  with_store tt (let* s := liftM (as_result (FromJSON json)) in st_SaveSettings s).

Definition SaveState (json : bytes) : M (option S * tape) unit :=
  with_store tt (st_SaveBlob stateNamespace stateKey json).

Definition LoadState (st : option S) : bytes :=
  match st with
  | None => []
  | Some st => match st_LoadBlob st stateNamespace stateKey with Ok b => b | Err _ => [] end
  end.

(** Whatever keeps the contract of a store. *)
Context `{!StoreLaws S}.

(** What is saved is loaded, until something else is saved. *)
Lemma state_kept json s t s1 t1 : SaveState json (Some s, t) = (Ok tt, (s1, t1)) → LoadState s1 = json.
Proof.
  unfold SaveState, with_store. destruct (st_SaveBlob _ _ _ _) as [r [s' t']] eqn:E.
  intros [-> [<- <-]%pair_equal_spec]%pair_equal_spec. unfold LoadState.
  destruct (law_mutate (MSaveBlob stateNamespace stateKey json) _ _ _ _ _ E) as [Hc|[? _]]; [|done].
  replace (st_LoadBlob s' stateNamespace stateKey) with (Ok json); [done|]. symmetry. apply law_LoadBlob.
  rewrite Hc. cbn [effect d_Blobs set_Blobs]. rewrite lookup_insert_eq. by destruct json.
Qed.

(** The settings, too: what [SetSettings] was given is what [Settings] shows. *)
Lemma settings_kept json s t s1 t1 :
  SetSettings json (Some s, t) = (Ok tt, (s1, t1)) → ∃ st, FromJSON json = (st, None) ∧ rt_Settings s1 = JSON st.
Proof.
  unfold SetSettings, with_store, bindM, liftM. destruct (FromJSON json) as [st [e|]]; cbn [as_result]; [done|].
  destruct (st_SaveSettings st _) as [r [s' t']] eqn:E.
  intros [-> [<- <-]%pair_equal_spec]%pair_equal_spec. exists st. split; [done|]. unfold rt_Settings.
  destruct (law_mutate (MSaveSettings st) _ _ _ _ _ E) as [Hc|[? _]]; [|done].
  by rewrite law_LoadSettings, Hc.
Qed.
End store.

(** ** What is kept *)

Lemma loadOrCreateKey_created dir os t k k' t' :
  loadOrCreateKey dir os t = (Ok (k, Some k'), t') → dir ≠ [] ∧ k = k' ∧ length k' = KeySize.
Proof.
  unfold loadOrCreateKey. case_decide; [done|]. destruct (ko_mkdir os); [done|]. run_M. cbv beta iota zeta.
  assert (∀ r s', rand_read KeySize t = (r, s') → match r with Ok a => length a = KeySize | Err _ => True end) as Hr.
  { intros [b|e] s' Er; [|done]. apply rand_read_Ok in Er as (? & -> & _). rewrite length_take. lia. }
  destruct (ko_read os) as [b|]; [case_decide; [done|]|];
    (destruct (rand_read KeySize t) as [[b'|] t1] eqn:Er; [|done]); destruct (ko_write os); try done;
    intros [= <- <- _]; split_and!; [done|done|by apply (Hr _ _ eq_refl)|done|done|by apply (Hr _ _ eq_refl)].
Qed.

Section properties.
Context `{CurveLaws}.

(** The key file.  [loadOrCreateKey] uses a file of exactly 32 octets as
    it is and writes nothing; but whatever else it meets - a file of another
    length, or one it could not read, for any reason - it writes a new random
    key over it and reports success. *)
Theorem key_file_behaviour dir os t :
  dir ≠ [] → ko_mkdir os = None → (KeySize ≤ length t)%nat →
  loadOrCreateKey dir os t =
    match ko_read os with
    | Ok b => if decide (length b = KeySize) then (Ok (b, None), t) else
              match ko_write os with
              | Some e => (Err e, drop KeySize t)
              | None => (Ok (take KeySize t, Some (take KeySize t)), drop KeySize t)
              end
    | Err _ => match ko_write os with
               | Some e => (Err e, drop KeySize t)
               | None => (Ok (take KeySize t, Some (take KeySize t)), drop KeySize t)
               end
    end.
Proof.
  intros Hd Hm Ht. unfold loadOrCreateKey. rewrite decide_False, Hm by done. run_M. cbv beta iota zeta.
  destruct (ko_read os) as [b|e]; [case_decide; [done|]|]; rewrite rand_read_enough by done;
    by destruct (ko_write os).
Qed.

(** C24: the engine resumes where it was.  When the first [Start] created the
    key and the account, a later [Start] that finds the files it wrote, and a
    store, succeeds, writes neither file again, shows the same fingerprint and
    contact URI, runs on that store's document, and its node can be
    connected to. *)
Theorem restart_resumes dir handle os clock t st key idfile t1 os' clock' t' disk store :
  Start dir handle os clock t = (Ok (st, Some key, Some idfile), t1) →
  ko_mkdir (so_key os') = None → ko_read (so_key os') = Ok key →
  os_mkdir (so_account os') = None → os_read (so_account os') = Ok (Some idfile) →
  so_store_mkdir os' = None → so_store_read os' = Ok disk →
  openFileStore (Join dir (bs "store.bin")) key None (Ok disk) (so_store_faults os') = Ok store →
  (∀ ice, so_transport os' ice = None) →
  so_dht os' = None → (64 ≤ length t')%nat →
  ∃ st', Start dir handle os' clock' t' = (Ok (st', None, None), drop 32 (drop 32 t')) ∧
    sta_fp st' = sta_fp st ∧ sta_uri st' = sta_uri st ∧ sta_filesDir st' = sta_filesDir st ∧
    n_Store (sta_node st') = Some store ∧ node_ok (sta_node st').
Proof.
  unfold Start. run_M. intros E Hkm Hkr Ham Har Hsm Hsr Hop Htr Hdht Ht.
  destruct (loadOrCreateKey dir (so_key os) t) as [[[k kf]|e] t2] eqn:Ek; [|done]. cbn [fst snd] in E.
  destruct (LoadOrCreate k (so_account os) t2) as [[[a af]|e] t3] eqn:Ea; [|done]. cbn [fst snd] in E.
  destruct (openFileStore _ k _ _ _) as [store0|e]; [|done].
  destruct (so_transport os _); [done|]. destruct (so_dht os); [done|].
  apply pair_equal_spec in E as [[[<- [= ->]]%pair_equal_spec [= ->]]%Ok_inj%pair_equal_spec <-].
  assert (dir ≠ [] ∧ k = key ∧ length key = KeySize) as (Hd & -> & Hlen).
  { by eapply loadOrCreateKey_created. }
  unfold loadOrCreateKey. rewrite decide_False, Hkm, Hkr, decide_True by done. unfold retM. cbn [fst snd].
  destruct (LoadOrCreate_again key _ t2 a idfile _ (so_account os') t' Ea Ham Har Ht) as (a' & -> & Hid & Hwf & Hpk).
  cbn [fst snd]. rewrite Hsm, Hsr, Hop.
  rewrite Htr, Hdht. eexists. split; [reflexivity|]. unfold acc_Fingerprint, ContactURI. cbn.
  rewrite Hid. by split_and!.
Qed.

(** C25: the application's state survives.  After [SaveState], [LoadState]
    returns exactly what was saved, even if the write failed; and if it did
    not, so does [LoadState] on the store opened again from its file. *)
Theorem app_state_survives json s t path fl :
  length (fs_key s) = KeySize → path ≠ [] →
  ∃ r s' t', SaveState json (Some s, t) = (r, (Some s', t')) ∧
    LoadState (Some s') = json ∧
    (r = Ok tt → wf_db (fs_data s') → ∃ s2,
       openFileStore path (fs_key s) None (Ok (fs_disk s')) fl = Ok s2 ∧ LoadState (Some s2) = json).
Proof.
  intros Hk Hp. unfold SaveState, with_store. cbn [st_SaveBlob file_Store].
  destruct (SaveBlob stateNamespace stateKey json (s, t)) as [r [s' t']] eqn:E. exists r, s', t'.
  assert (LoadState (Some s') = json) as Hl.
  { pose proof (change_memory (λ d, set_Blobs (<[blob_key stateNamespace stateKey := copy_slice json]> (d_Blobs d)) d) s t) as Hm.
    unfold SaveBlob in E. rewrite E in Hm. cbn [snd fst] in Hm. unfold LoadState. cbn [st_LoadBlob file_Store].
    unfold LoadBlob. rewrite Hm.
    cbn [d_Blobs set_Blobs]. rewrite lookup_insert_eq. by destruct json. }
  split_and!; [done..|]. intros -> Hw.
  pose proof (change_memory (λ d, set_Blobs (<[blob_key stateNamespace stateKey := copy_slice json]> (d_Blobs d)) d) s t) as Hm.
  unfold SaveBlob in E. rewrite E in Hm. cbn [snd fst] in Hm. rewrite Hm in Hw.
  destruct (change_reopen _ s t s' t' path fl Hk Hp Hw E) as [_ Ho]. eexists. split; [exact Ho|].
  exact Hl.
Qed.
End properties.

(** ** Instances *)

Import ToyCurves.

Definition toy_start_os : start_os :=
  MkStartOS (MkKeyOS None (Err (bs "no such file")) None) toy_os None (Ok None) [] (λ _, None) None.

Definition toy_started : started * option bytes * option bytes :=
  match (Start (bs "/d") (bs "me") toy_start_os [] (zeros 400)).1 with
  | Ok x => x
  | Err _ => (MkStarted (Node.New toy_acc.1 None [] []) [] [] [] [], None, None)
  end.

Lemma key_file_behaviour_witness :
  loadOrCreateKey (bs "/d") (MkKeyOS None (Ok (bs "short")) None) (zeros 40) = (Ok (zeros 32, Some (zeros 32)), zeros 8).
Proof. rewrite (key_file_behaviour (bs "/d") (MkKeyOS None (Ok (bs "short")) None) (zeros 40)); [reflexivity|discriminate|reflexivity|vm_compute; lia]. Defined.

Lemma restart_resumes_witness :
  let os' := MkStartOS (MkKeyOS None (Ok (zeros 32)) None) (MkOS None (Ok toy_started.2) None) None
               (Ok (fs_disk toy_saved)) [] (λ _, None) None in
  ∃ st', Start (bs "/d") (bs "me") os' [] (zeros 100) = (Ok (st', None, None), drop 32 (drop 32 (zeros 100))) ∧
    sta_fp st' = sta_fp toy_started.1.1 ∧ sta_uri st' = sta_uri toy_started.1.1 ∧
    sta_filesDir st' = sta_filesDir toy_started.1.1 ∧
    n_Store (sta_node st') = Some (MkFS (zeros 32) (fs_data toy_saved) (fs_disk toy_saved) []) ∧
    node_ok (sta_node st').
Proof.
  intros os'. subst os'.
  eapply (restart_resumes (bs "/d") (bs "me") toy_start_os [] (zeros 400) toy_started.1.1 (zeros 32) (default [] toy_started.2)).
  - vm_compute. reflexivity.
  - reflexivity.
  - reflexivity.
  - reflexivity.
  - vm_compute. reflexivity.
  - reflexivity.
  - reflexivity.
  - vm_compute. reflexivity.
  - reflexivity.
  - reflexivity.
  - vm_compute. lia.
Defined.

Lemma app_state_survives_witness :
  ∃ r s' t', SaveState (bs "{}") (Some toy_store, zeros 12) = (r, (Some s', t')) ∧
    LoadState (Some s') = bs "{}" ∧
    (r = Ok tt → wf_db (fs_data s') → ∃ s2,
       openFileStore (bs "p") (zeros 32) None (Ok (fs_disk s')) [] = Ok s2 ∧ LoadState (Some s2) = bs "{}").
Proof. apply (app_state_survives (bs "{}") toy_store (zeros 12) (bs "p") []); [reflexivity|discriminate]. Defined.
