(* ===== verification/Engines.v ===== *)
(** * Engines over links ([pkg/runtime] on [pkg/node])

    [Runtime] leaves what a link answers to the environment.  Here the link an
    engine has is a [Node] link over the in-process pipe: a handler interprets
    each operation, the programs of [Runtime] run on the node, and each run is
    one of the runs of [Runtime]'s pool.  Two such engines give the path of a
    message end to end. *)

From S2P Require Import Prelude Bytes Json Codec GoTime Curve Identity X3dh Ratchet Conversation Session Filetransfer Messaging Contact Storage Account Transport Proc Node NodeLink NodeFile NodeHop Demo Prog Runtime.
Open Scope Z_scope.

(** ** The handler *)

(** A node, the engine on it, and how often the engine asked the system. *)
Record host := MkHost { h_node : node; h_rt : runtime; h_tick : nat }.

Definition set_node n h := MkHost n (h_rt h) (h_tick h).
Definition set_rt r h := MkHost (h_node h) r (h_tick h).
Definition tick h := MkHost (h_node h) (h_rt h) (S (h_tick h)).

(** A host that shares a connection; [None]: it waits for ever. *)
Definition H (A : Type) : Type := host → pipe → option (A * host * pipe).

(** [l] is the engine's name of the link [L], which is on end [e] of the pipe;
    [os] is what the system, the network and other links answer, call by
    call. *)
Record env := MkEnv { en_side : Transport.side; en_link : link; en_Link : Link; en_os : nat → ∀ o, res o }.

Definition void {A} (r : result A) : result unit := match r with Ok _ => Ok tt | Err e => Err e end.

Section handler.
Context `{Curves} (E : env).

(** A critical section. *)
Definition on_rt {A} (f : runtime → A * runtime) : H A := λ h p, Some ((f (h_rt h)).1, set_rt (f (h_rt h)).2 h, p).

(** What the system, the network or another link answers. *)
Definition on_os (o : op) : H (res o) := λ h p, Some (en_os E (h_tick h) o, tick h, p).

(** A method of the link. *)
Definition on_link {A B} (m : proc node A) (f : result A → B) : H B := λ h p,
  x ← drive (en_side E) (m (h_node h)) p; Some (f x.1.1, set_node x.1.2 h, x.2).

Definition if_ours (l : link) {A} (m other : H A) : H A := if decide (l = en_link E) then m else other.

(** The link [put_link] closes. *)
Definition replaced (l : link) (r : runtime) : option link :=
  match links r !! lk_fp l with
  | Some old => if decide (old = l) then None else Some old
  | None => None
  end.

Definition perform_op (o : op) : H (res o) :=
  match o return H (res o) with
  | OGetLink fp => on_rt (λ r, (links r !! fp, r))
  | OSetLink l => λ h p,
      on_rt (λ r, (tt, put_link l r)) h (if decide (replaced l (h_rt h) = Some (en_link E)) then pipe_Close p else p)
  | ODelLink fp l => on_rt (λ r, (tt, del_link fp l r))
  | OPush e => on_rt (λ r, (tt, set_events (events r ++ [e]) r))
  | OPoll => on_rt (λ r, (events r, set_events [] r))
  | OStop => on_rt (λ r, if closed r then (None, r)
                         else (Some (map_to_list (links r)).*2, set_links ∅ (set_closed true r)))
  | OSetLast fp id => on_rt (λ r, (tt, set_lastIn (<[fp := id]> (lastIn r)) r))
  | OLast fp => on_rt (λ r, (default [] (lastIn r !! fp), r))
  | OEnqueue req => λ h p,
      if decide (length (outbox (h_rt h)) < outbox_cap)%nat
      then on_rt (λ r, (tt, set_outbox (outbox r ++ [req]) r)) h p
      else if closed (h_rt h) then on_rt (λ r, (tt, r)) h p else None
  | ODequeue => λ h p,
      match outbox (h_rt h) with
      | req :: q => on_rt (λ r, (Some req, set_outbox q r)) h p
      | [] => if closed (h_rt h) then on_rt (λ r, (None, r)) h p else None
      end
  | OIsClosed => on_rt (λ r, (closed r, r))
  | OWait => λ h p, x ← on_os OWait h p; Some (closed (h_rt h) && x.1.1, x.1.2, x.2)
  | OGo _ => on_rt (λ r, (tt, r))
  | OClose l =>
    let close := on_rt (λ r, (tt, set_dead (l :: dead r) r)) in
    if_ours l (λ h p, close h (pipe_Close p)) close
  | OReceive l => if_ours l (on_link (Receive (en_Link E)) id) (on_os (OReceive l))
  | OFileBody l offer => if_ours l (on_link (ReceiveFileBody (en_Link E) offer) id) (on_os (OFileBody l offer))
  | OSendEnvelope l env => if_ours l (on_link (SendEnvelope (en_Link E) env) id) (on_os (OSendEnvelope l env))
  | OSendFile l fp name mime data =>
    if_ours l (on_link (SendFile (en_Link E) fp name mime data) void) (on_os (OSendFile l fp name mime data))
  | OSendReceipt l fp ref state =>
    if_ours l (on_link (SendReceipt (en_Link E) fp ref state) id) (on_os (OSendReceipt l fp ref state))
  | OSendTyping l fp => if_ours l (on_link (SendTyping (en_Link E) fp) id) (on_os (OSendTyping l fp))
  | OClock => λ h p, Some (List.hd zero_time (n_clock (h_node h)), set_node (now_utc (h_node h)).2 h, p)
  | ORand => λ h p, Some (n_tape (h_node h), set_node (set_tape (drop 16 (n_tape (h_node h))) (h_node h)) h, p)
  | o => on_os o
  end.

(** A program of the engine on its host. *)
Fixpoint runs {A} (p : prog A) : H A := λ h q,
  match p with
  | Ret a => Some (a, h, q)
  | Op o k => x ← perform_op o h q; runs (k x.1.1) x.1.2 x.2
  end.
End handler.

(** ** Every run is one of [Runtime]'s *)

Section refinement.
Context `{Curves} (E : env).

Lemma on_link_rt {A B} (m : proc node A) (f : result A → B) h p a h' p' :
  on_link E m f h p = Some (a, h', p') → h_rt h' = h_rt h.
Proof. unfold on_link. intros (x & _ & [= _ <- _])%bind_Some. done. Qed.

Lemma perform_op_step o h p a h' p' :
  perform_op E o h p = Some (a, h', p') → op_step o a (h_rt h) (h_rt h').
Proof.
  destruct o; cbn [perform_op op_step]; unfold if_ours;
    try (case_decide; [intros ?%on_link_rt|intros [= _ <- _]]; done);
    try (intros [= <- <- _]; done).
  - intros [= <- <- _]. cbn [h_rt set_rt]. destruct (closed (h_rt h)); [done|]. by eexists.
  - case_decide; [intros [= _ <- _]; by left|]. destruct (closed (h_rt h)) eqn:Ec; [|done].
    intros [= _ <- _]. by right.
  - destruct (outbox (h_rt h)) as [|req q] eqn:Eq.
    + destruct (closed (h_rt h)) eqn:Ec; [|done]. intros [= <- <- _]. by right.
    + intros [= <- <- _]. left. by eexists _, _.
  - cbn. intros [= <- <- _]. split; [by intros [? _]%andb_true_iff|done].
  - case_decide; intros [= _ <- _]; done.
Qed.

(** The engine over a real link is an instance of [Runtime].  What a
    goroutine of an engine does on its node, operation by operation, it can do
    in the pool, at any place among any other goroutines: so what holds of every
    run of the pool holds of an engine whose links are the node's. *)
Theorem runs_in_pool salt dir (p : prog unit) h q a h' q' ts1 ts2 :
  runs E p h q = Some (a, h', q') →
  ∃ new, rtc (rt_step salt dir) (MkPool (h_rt h) (ts1 ++ p :: ts2)) (MkPool (h_rt h') (ts1 ++ Ret a :: ts2 ++ new)).
Proof.
  revert h q ts2. induction p as [b|o k IH]; intros h q ts2; cbn [runs].
  - intros [= <- <- <-]. exists []. rewrite app_nil_r. apply rtc_refl.
  - intros ([[b h1] q1] & Eo & Ek)%bind_Some. cbn [fst snd] in Ek. apply perform_op_step in Eo.
    assert (∃ new, spawned dir o new) as (new & Hn).
    { destruct o; try (eexists; apply spawn_none; intros ?; discriminate).
      eexists. apply (spawn_recv _ l 0). }
    destruct (IH b h1 q1 (ts2 ++ new) Ek) as (new' & Hr). exists (new ++ new').
    eapply rtc_l; [by apply step_thread|]. rewrite <-app_assoc in Hr. exact Hr.
Qed.
End refinement.

(** ** The engine's side *)

Section engine.
Context `{CurveLaws} (sd : Transport.side) (a : link) (l : Link) (os : nat → ∀ o, res o).
Abbreviation E := (MkEnv sd a l os).

Lemma runs_bind {A B} (m : prog A) (k : A → prog B) h q :
  runs E (bindG m k) h q = (x ← runs E m h q; runs E (k x.1.1) x.1.2 x.2).
Proof.
  revert h q. induction m as [x|o f IH]; intros h q; cbn [bindG runs]; [done|].
  destruct (perform_op E o h q) as [x|]; [apply IH|done].
Qed.

Lemma runs_Op {A} o (k : res o → prog A) h q b h' q' :
  perform_op E o h q = Some (b, h', q') → runs E (Op o k) h q = runs E (k b) h' q'.
Proof. intros E1. cbn [runs]. by rewrite E1. Qed.

(** [e], pushed at the time the system shows. *)
Definition after_push (e : Event) (h : host) : host :=
  set_rt (set_events (events (h_rt h) ++ [set_time (os (h_tick h) OUnix) e]) (h_rt h)) (tick h).

Lemma runs_push {A} e (k : unit → prog A) h q :
  runs E (bindG (push e) k) h q = runs E (k tt) (after_push e h) q.
Proof. reflexivity. Qed.

Lemma our_link {A B} (m : proc node A) (f : result A → B) (other : H B) h q r n q' :
  drive sd (m (h_node h)) q = Some (r, n, q') →
  if_ours E a (on_link E m f) other h q = Some (f r, set_node n h, q').
Proof. intros E1. unfold if_ours, on_link. cbn [en_link en_side]. rewrite decide_True by done. by rewrite E1. Qed.

(** The connection is open, and this side's channel is empty. *)
Definition clear (q : pipe) : Prop := p_done q = false ∧ out sd q = [].

Lemma drive_hops n (m : proc node unit) ct r j n' q :
  hops n l (m n) ct r j n' → clear q → drive sd (m n) q = Some (Ok tt, n', set_out sd [payload_frame ct] q).
Proof.
  intros [Hs _ _ _ _] [Hd Ho]. rewrite (drive_sent sd (m n) _ _ _ q Hs Hd); [by rewrite Ho|].
  rewrite Ho. cbn. unfold capacity. lia.
Qed.

(** What [deliver] does with a text for the peer of an open link. *)
Lemma deliver_text_runs {A} (k : unit → prog A) uri text id h q s :
  session_of (h_node h) l = Some s → Forall wf_time (n_clock (h_node h)) → clear q →
  valid_utf8 (lk_fp a) = true → valid_utf8 text = true → valid_utf8 id = true → id ≠ [] →
  ∃ env pt ct r j n',
    encodes env pt ∧ e_Type env = TypeText ∧ e_MsgID env = id ∧ tb_Text (Text env).1 = text ∧
    encrypt pt (s_r s) = (Ok ct, r) ∧ ct ≠ [] ∧
    runs E (bindG (deliver_text (lk_fp a) a (MkReq uri text id [])) k) h q
    = runs E (k tt) (after_push (ev_sent (lk_fp a) id) (set_node n' h)) (set_out sd [payload_frame ct] q) ∧
    s_r <$> session_of n' l = Some r ∧ (j ≤ 28)%nat ∧ n_tape n' = drop j (n_tape (h_node h)) ∧
    ∃ i, n_clock n' = drop i (n_clock (h_node h)).
Proof.
  intros Hs Hc Hq Hfp Hx Hid Hne. unfold deliver_text, perform. cbn [bindG rq_text rq_msgID].
  set (now := List.hd zero_time (n_clock (h_node h))).
  assert (wf_time now) as Hnow by (unfold now; destruct Hc; [apply wf_zero_time|done]).
  set (body := Some (marshal (enc_TextBody (MkTextBody text None)))).
  destruct (NewEnvelope_Ok now TypeText (lk_fp a) body (n_tape (h_node h))) as (mid & En & Hmid); [done..|].
  set (env := MkEnvelope ProtocolVersion TypeText id (lk_fp a) now body).
  assert (wf_Envelope env) as Hw by by split.
  destruct (Encode_DecodeEnvelope env Hw) as (pt & Hpt & _).
  pose proof (encrypt_spec pt (s_r s)) as He. set (ct := message _ _ _ _ _ _) in He.
  set (n0 := set_tape (drop 16 (n_tape (h_node h))) (set_clock (List.tl (n_clock (h_node h))) (h_node h))).
  destruct (SendEnvelope_hops l env n0 s pt ct _ Hs Hpt He) as (j & n' & Hj & Hh).
  exists env, pt, ct. eexists _, (16 + j)%nat, n'. split_and!; [by split|done|done| |exact He|apply Hh| |apply Hh|lia| |].
  - by rewrite (Text_body env text).
  - erewrite runs_Op by reflexivity. erewrite runs_Op by reflexivity. cbn [h_node set_node n_tape].
    change (n_tape (now_utc (h_node h)).2) with (n_tape (h_node h)). fold now.
    unfold NewText. fold body. rewrite En. cbn [fst]. unfold with_msgID. rewrite bool_decide_eq_false_2 by done.
    cbn [bindG]. erewrite runs_Op.
    2:{ cbn [perform_op]. apply our_link. by eapply (drive_hops n0). }
    unfold Datatypes.id. apply runs_push.
  - rewrite (ho_tape _ _ _ _ _ _ _ Hh). cbn [n_tape n0 set_tape]. by rewrite drop_drop.
  - destruct (ho_clock _ _ _ _ _ _ _ Hh) as [i ->]. exists (1 + i)%nat. cbn [n_clock n0 set_tape set_clock].
    destruct (n_clock (h_node h)); [apply drop_nil|done].
Qed.
End engine.

Section loops.
Context `{CurveLaws} (sd : Transport.side) (a : link) (l : Link) (os : nat → ∀ o, res o) (dir : bytes).
Abbreviation E := (MkEnv sd a l os).

Lemma runs_parse_uri handle key h q :
  length key = PublicKeySize →
  runs E (parse_uri (URI handle key)) h q
  = Some (Ok (Contact.New (List.hd zero_time (n_clock (h_node h))) handle key), set_node (now_utc (h_node h)).2 h, q).
Proof.
  intros Hk. unfold parse_uri, perform. cbn [bindG]. erewrite runs_Op by reflexivity. by rewrite ParseURI_URI.
Qed.

(** [Send], then a turn of [sendWorker], when the peer's link is open. *)
Lemma send_runs handle key text id h q s :
  lk_fp a = Fingerprint key → length key = PublicKeySize →
  links (h_rt h) !! lk_fp a = Some a → outbox (h_rt h) = [] →
  session_of (h_node h) l = Some s → Forall wf_time (n_clock (h_node h)) → clear sd q →
  valid_utf8 text = true → valid_utf8 id = true → id ≠ [] →
  ∃ env pt ct r j n' t,
    encodes env pt ∧ e_Type env = TypeText ∧ e_MsgID env = id ∧ tb_Text (Text env).1 = text ∧
    encrypt pt (s_r s) = (Ok ct, r) ∧ ct ≠ [] ∧
    runs E (let^ _ := Send (URI handle key) text id in sendWorker 1) h q
    = Some (tt, MkHost n' (set_events (events (h_rt h) ++ [set_time t (ev_sent (lk_fp a) id)]) (h_rt h)) (S (h_tick h)),
            set_out sd [payload_frame ct] q) ∧
    s_r <$> session_of n' l = Some r ∧ (j ≤ 28)%nat ∧ n_tape n' = drop j (n_tape (h_node h)) ∧
    ∃ i, n_clock n' = drop i (n_clock (h_node h)).
Proof.
  intros Hfp Hk Hl Ho Hs Hc Hq Hx Hid Hne. unfold Send, perform. cbn [bindG].
  set (req := MkReq (URI handle key) text id []).
  set (h1 := set_node (now_utc (h_node h)).2 h).
  assert (session_of (h_node h1) l = Some s) as Hs1 by exact Hs.
  assert (Forall wf_time (n_clock (h_node h1))) as Hc1.
  { cbn [h1 h_node set_node now_utc snd n_clock set_clock]. destruct Hc; [constructor|done]. }
  destruct (deliver_text_runs sd a l os (λ _, sendWorker 0) (URI handle key) text id h1 q s Hs1 Hc1 Hq)
    as (env & pt & ct & r & j & n' & A1 & A2 & A3 & A4 & A5 & A6 & Hrun & A8 & A9 & A10 & i & A11); [|done..|].
  { rewrite Hfp. apply valid_utf8_Fingerprint. }
  exists env, pt, ct, r, j, n', (os (h_tick h) OUnix). split_and!; [done..| |done|done|done|].
  - erewrite runs_Op.
    2:{ cbn [perform_op]. rewrite decide_True by (rewrite Ho; cbn; unfold outbox_cap; lia). reflexivity. }
    cbn [fst snd h_rt]. rewrite Ho. cbn [app sendWorker]. unfold perform. cbn [bindG]. erewrite runs_Op by reflexivity.
    cbn [fst snd h_rt]. unfold deliver. change (rq_peerURI req) with (URI handle key).
    match goal with |- runs _ _ ?h0 _ = _ => assert (h0 = h) as -> end.
    { destruct h as [n [? ? ? ? ob ?] ?]. cbn [h_rt outbox] in Ho. subst ob. reflexivity. }
    rewrite runs_bind, runs_bind, runs_parse_uri by done. cbn [mbind option_bind fst snd Contact.New c_IdentityKey].
    rewrite <-Hfp. fold h1. unfold perform. cbn [bindG].
    erewrite runs_Op by reflexivity. cbn [fst snd h1 h_rt set_node]. rewrite Hl.
    unfold deliver_over. change (rq_filePath req) with (@nil byte). rewrite bool_decide_eq_true_2 by done.
    rewrite <-(runs_bind sd a l os _ (λ _, Ret tt)). etransitivity; [exact Hrun|]. reflexivity.
  - exists (1 + i)%nat. rewrite A11. cbn [h1 h_node set_node now_utc snd n_clock set_clock].
    destruct (n_clock (h_node h)); [apply drop_nil|done].
Qed.

(** What is on the wire to this side, as far as [recvLoop] is concerned. *)
Lemma drive_reads (n m : node) w env q :
  eats (Receive l n) [w] (Ok env) m → in_ sd q = [w] → drive sd (Receive l n) q = Some (Ok env, m, set_out (other sd) [] q).
Proof. intros He Hi. apply (drive_eats _ _ _ _ _ _ _ He). by rewrite Hi. Qed.

Lemma clear_other q v : clear sd q → clear sd (set_out (other sd) v q).
Proof. intros [Hd Ho]. destruct sd, q as [qa qb d]; cbn in *; by split. Qed.

(** The event and the note of a text that arrived. *)
Definition ev_message (env : Envelope) : Event :=
  MkEvent (bs "message") (lk_fp a) (peerURI a) (tb_Text (Text env).1) [] [] (e_MsgID env) false [] 0.
Definition noted (id : bytes) (h : host) : host := set_rt (set_lastIn (<[lk_fp a := id]> (lastIn (h_rt h))) (h_rt h)) h.

Lemma on_text_runs env h q s :
  e_Type env = TypeText → valid_utf8 (e_MsgID env) = true → valid_utf8 (lk_fp a) = true →
  session_of (h_node h) l = Some s → Forall wf_time (n_clock (h_node h)) → clear sd q →
  ∃ renv rpt rct r n',
    encodes renv rpt ∧ e_Type renv = TypeReceipt ∧
    Receipt renv = (MkReceiptBody (e_MsgID env) StateDelivered, None) ∧
    encrypt rpt (s_r s) = (Ok rct, r) ∧ hops (h_node h) l (SendReceipt l (lk_fp a) (e_MsgID env) StateDelivered (h_node h)) rct r 16 n' ∧
    runs E (on_envelope dir a env) h q
    = Some (tt, set_node n' (after_push os (ev_message env) (noted (e_MsgID env) h)), set_out sd [payload_frame rct] q).
Proof.
  intros Hty Hid Hfp Hs Hc Hq.
  destruct (SendReceipt_hops l (lk_fp a) (e_MsgID env) StateDelivered (h_node h) s)
    as (renv & rpt & rct & r & n' & A1 & A2 & A3 & A4 & Hh); [done..|].
  exists renv, rpt, rct, r, n'. split_and!; [done..|].
  unfold on_envelope. rewrite bool_decide_eq_true_2 by done. unfold perform. cbn [bindG].
  erewrite runs_Op by reflexivity. rewrite runs_push. erewrite runs_Op.
  2:{ cbn [perform_op]. apply our_link. eapply drive_hops; [exact Hh|exact Hq]. }
  reflexivity.
Qed.

(** The peer's ratchet [X] has sealed [env] as [ct], which is all there is to
    read. *)
Record arrives (h : host) (q : pipe) (X X' : ratchet) (ct : bytes) (env : Envelope) : Prop := {
  ar_session : ∃ s, session_of (h_node h) l = Some s ∧ readable (s_r s) X (n_tape (h_node h)) [] [];
  ar_ns : ns X < counter_limit;
  ar_sealed : ∃ pt, encrypt pt X = (Ok ct, X') ∧ encodes env pt;
  ar_wire : ct ≠ [] ∧ in_ sd q = [payload_frame ct];
}.

Lemma arrives_read h q X X' ct env :
  arrives h q X X' ct env →
  ∃ m s', drive sd (Receive l (h_node h)) q = Some (Ok env, m, set_out (other sd) [] q) ∧ session_of m l = Some s' ∧
    Lead (s_r s') X' [] [] [] [] ∧
    (∀ s, session_of (h_node h) l = Some s → ns (s_r s') = ns (s_r s) ∨ ns (s_r s') = 0) ∧
    n_clock m = n_clock (h_node h).
Proof.
  intros [(s & Hs & Hr) Hn (pt & He & Hen) [Hct Hi]].
  destruct (hop_read _ _ _ _ _ _ _ _ Hs Hr Hn He Hen Hct) as (m & s' & Hm & Hs' & HL & Hns & Hc).
  exists m, s'. split_and!; [by eapply drive_reads|done|done|congruence|done].
Qed.

(** A turn of [recvLoop] on a text. *)
Lemma recv_text_runs env h q X X' ct :
  arrives h q X X' ct env → clear sd q → e_Type env = TypeText → valid_utf8 (e_MsgID env) = true →
  valid_utf8 (lk_fp a) = true → Forall wf_time (n_clock (h_node h)) →
  (∀ s, session_of (h_node h) l = Some s → ns (s_r s) = 0) →
  ∃ s renv rpt rct s' n' t i,
    encodes renv rpt ∧ e_Type renv = TypeReceipt ∧
    Receipt renv = (MkReceiptBody (e_MsgID env) StateDelivered, None) ∧
    encrypt rpt (s_r s) = (Ok rct, s_r s') ∧ rct ≠ [] ∧ Lead (s_r s) X' [] [] [] [] ∧ ns (s_r s) = 0 ∧
    session_of n' l = Some s' ∧ n_clock n' = drop i (n_clock (h_node h)) ∧
    runs E (recvLoop dir 1 a) h q
    = Some (tt, MkHost n' (set_events (events (h_rt h) ++ [set_time t (ev_message env)])
                             (set_lastIn (<[lk_fp a := e_MsgID env]> (lastIn (h_rt h))) (h_rt h))) (S (h_tick h)),
            set_out sd [payload_frame rct] (set_out (other sd) [] q)).
Proof.
  intros Ha Hq Hty Hid Hfp Hc Hz. destruct (arrives_read _ _ _ _ _ _ Ha) as (m & s & Hd & Hs & HL & Hns & Hcm).
  assert (ns (s_r s) = 0) as Hn0.
  { destruct Ha as [(s0 & Hs0 & _) _ _ _]. destruct (Hns s0 Hs0) as [->|]; auto. }
  destruct (on_text_runs env (set_node m h) (set_out (other sd) [] q) s)
    as (renv & rpt & rct & r & n' & A1 & A2 & A3 & A4 & [_ A5 A6 _ [i A7]] & Hr);
    [done..|cbn; by rewrite Hcm|by apply clear_other|].
  apply fmap_Some in A6 as (s' & Hs' & ->). cbn [h_node set_node] in A7. rewrite Hcm in A7.
  exists s, renv, rpt, rct, s', n', (os (h_tick h) OUnix), i. split_and!; [done..|].
  cbn [recvLoop]. unfold perform. cbn [bindG]. erewrite runs_Op by (cbn [perform_op]; by apply our_link).
  unfold Datatypes.id. cbn iota. rewrite runs_bind, Hr. reflexivity.
Qed.

(** A turn of [recvLoop] on a receipt. *)
Lemma recv_receipt_runs env ref state h q X X' ct :
  arrives h q X X' ct env → e_Type env = TypeReceipt → Receipt env = (MkReceiptBody ref state, None) →
  ∃ m s t, session_of m l = Some s ∧ Lead (s_r s) X' [] [] [] [] ∧
    runs E (recvLoop dir 1 a) h q
    = Some (tt, MkHost m (set_events (events (h_rt h) ++
                            [set_time t (MkEvent (bs "receipt") (lk_fp a) [] [] [] [] ref false state 0)]) (h_rt h))
                         (S (h_tick h)), set_out (other sd) [] q).
Proof.
  intros Ha Hty Hr. destruct (arrives_read _ _ _ _ _ _ Ha) as (m & s & Hd & Hs & HL & _ & _).
  exists m, s, (os (h_tick h) OUnix). split_and!; [done..|].
  cbn [recvLoop]. unfold perform. cbn [bindG]. erewrite runs_Op by (cbn [perform_op]; by apply our_link).
  unfold Datatypes.id. cbn iota. rewrite runs_bind. unfold on_envelope. rewrite Hty, Hr.
  rewrite !bool_decide_eq_false_2 by done. rewrite bool_decide_eq_true_2 by done. reflexivity.
Qed.

(** [MarkRead], for the peer of an open link that sent something. *)
Lemma mark_read_runs handle key id h q s :
  lk_fp a = Fingerprint key → length key = PublicKeySize →
  links (h_rt h) !! lk_fp a = Some a → lastIn (h_rt h) !! lk_fp a = Some id →
  session_of (h_node h) l = Some s → Forall wf_time (n_clock (h_node h)) → clear sd q →
  valid_utf8 id = true → id ≠ [] →
  ∃ renv rpt rct r n',
    encodes renv rpt ∧ e_Type renv = TypeReceipt ∧ Receipt renv = (MkReceiptBody id StateRead, None) ∧
    encrypt rpt (s_r s) = (Ok rct, r) ∧ rct ≠ [] ∧
    runs E (MarkRead (URI handle key)) h q = Some (tt, MkHost n' (h_rt h) (h_tick h), set_out sd [payload_frame rct] q).
Proof.
  intros Hfp Hk Hl Hla Hs Hc Hq Hid Hne.
  set (n1 := (now_utc (h_node h)).2).
  assert (Forall wf_time (n_clock n1)) as Hc1.
  { cbn [n1 now_utc snd n_clock set_clock]. destruct Hc; [constructor|done]. }
  destruct (SendReceipt_hops l (lk_fp a) id StateRead n1 s)
    as (renv & rpt & rct & r & n' & A1 & A2 & A3 & A4 & Hh);
    [done|done|rewrite Hfp; apply valid_utf8_Fingerprint|done|done|].
  exists renv, rpt, rct, r, n'. split_and!; [done..|apply Hh|].
  unfold MarkRead. rewrite runs_bind, runs_parse_uri by done. cbn [mbind option_bind fst snd Contact.New c_IdentityKey].
  rewrite <-Hfp. unfold perform. cbn [bindG]. erewrite runs_Op by reflexivity. cbn [fst snd h_rt set_node].
  erewrite runs_Op by reflexivity. cbn [fst snd h_rt set_node set_rt]. rewrite Hl, Hla. cbn [default].
  rewrite bool_decide_eq_false_2 by done. cbn [bindG]. erewrite runs_Op.
  2:{ cbn [perform_op]. apply our_link. eapply drive_hops; [exact Hh|exact Hq]. }
  destruct h. reflexivity.
Qed.
End loops.

(** ** From one application to the other, and back *)

Section properties.
Context `{CurveLaws}.

(** An engine with a link in its table. *)
Record has_link (a : link) (fp : bytes) (r : runtime) : Prop := {
  hl_fp : lk_fp a = fp;
  hl_link : links r !! lk_fp a = Some a;
}.

Definition ev_receipt (fp id state : bytes) : Event := MkEvent (bs "receipt") fp [] [] [] [] id false state 0.

(** The events, without their times. *)
Definition shown (r : runtime) : list Event := map (set_time 0) (events r).

Lemma exchange nA lA sA nB lB sB a b rA rB keyA keyB handleA handleB osA osB dirA dirB text id :
  fresh_links nA lA sA nB lB sB →
  has_link a (Fingerprint keyB) rA → has_link b (Fingerprint keyA) rB → outbox rA = [] →
  length keyA = PublicKeySize → length keyB = PublicKeySize →
  valid_utf8 text = true → valid_utf8 id = true → id ≠ [] →
  let A := MkEnv Transport.A a lA osA in
  let B := MkEnv Transport.B b lB osB in
  ∃ hA hA' hA'' hB hB' p1 p2 p3,
    runs A (let^ _ := Send (URI handleB keyB) text id in sendWorker 1) (MkHost nA rA 0) Pipe = Some (tt, hA, p1) ∧
    runs B (recvLoop dirB 1 b) (MkHost nB rB 0) p1 = Some (tt, hB, p2) ∧
    runs A (recvLoop dirA 1 a) hA p2 = Some (tt, hA', Pipe) ∧
    runs B (MarkRead (URI handleA keyA)) hB Pipe = Some (tt, hB', p3) ∧
    runs A (recvLoop dirA 1 a) hA' p3 = Some (tt, hA'', Pipe) ∧
    shown (h_rt hB') = shown rB ++ [MkEvent (bs "message") (lk_fp b) (peerURI b) text [] [] id false [] 0] ∧
    shown (h_rt hA'') = shown rA ++ [ev_sent (lk_fp a) id; ev_receipt (lk_fp a) id StateDelivered;
                                     ev_receipt (lk_fp a) id StateRead].
Proof.
  intros [HsA HsB HL [HnA HnB] HfA HfB [HcA HcB]] [Efa Hla] [Efb Hlb] Ho HkA HkB Hx Hid Hne A B.
  destruct (send_runs Transport.A a lA osA handleB keyB text id (MkHost nA rA 0) Pipe sA)
    as (env & pt & ct & X1 & j & n1 & t1 & Hen & Hty & Hmid & Htx & He1 & Hct & Hrun1 & Hs1 & Hj & Ht1 & i & Hc1); [done..|].
  apply fmap_Some in Hs1 as (s1 & Hs1 & ->).
  destruct (encrypt_keeps _ _ _ _ He1) as [Hd1 _].
  destruct (recv_text_runs Transport.B b lB osB dirB env (MkHost nB rB 0) (MkPipe [payload_frame ct] [] false) (s_r sA) (s_r s1) ct)
    as (sB1 & re & rpt & rct & s2 & n2 & t2 & i2 & Hen2 & Hty2 & Hre & He2 & Hct2 & HL2 & Hn2 & Hs2 & Hc2 & Hrun2);
    [|done|done|by rewrite Hmid|rewrite Efb; apply valid_utf8_Fingerprint|done|cbn; congruence|].
  { split; [exists sB; split; [done|by left]|rewrite HnA; vm_compute; reflexivity|by exists pt|done]. }
  rewrite Hmid in Hre, Hrun2. destruct (encrypt_keeps _ _ _ _ He2) as [_ Hn3]. rewrite Hn2 in Hn3.
  destruct (recv_receipt_runs Transport.A a lA osA dirA re id StateDelivered
    (MkHost n1 (set_events (events rA ++ [set_time t1 (ev_sent (lk_fp a) id)]) rA) 1) (MkPipe [] [payload_frame rct] false)
    (s_r sB1) (s_r s2) rct) as (mA & sA1 & t3 & HsA1 & HL3 & Hrun3); [|done..|].
  { split; [|by rewrite Hn2|by exists rpt|done]. exists s1. split; [done|]. left. split; [done|].
    cbn [h_node]. rewrite Ht1. unfold fresh. rewrite Hd1. by apply HfA. }
  destruct (mark_read_runs Transport.B b lB osB handleA keyA id
     (MkHost n2 (set_events (events rB ++ [set_time t2 (ev_message b env)])
       (set_lastIn (<[lk_fp b := id]> (lastIn rB)) rB)) 1) Pipe s2)
    as (re4 & rpt4 & rct4 & X4 & n4 & Hen4 & Hty4 & Hre4 & He4 & Hct4 & Hrun4);
    [done|done|done|cbn; by rewrite lookup_insert_eq|done|cbn; rewrite Hc2; by apply Forall_drop|done..|].
  destruct (recv_receipt_runs Transport.A a lA osA dirA re4 id StateRead
    (MkHost mA (set_events ((events rA ++ [set_time t1 (ev_sent (lk_fp a) id)]) ++ [set_time t3 (ev_receipt (lk_fp a) id StateDelivered)])
       (set_events (events rA ++ [set_time t1 (ev_sent (lk_fp a) id)]) rA)) 2) (MkPipe [] [payload_frame rct4] false)
    (s_r s2) X4 rct4) as (m5 & s5 & t5 & _ & _ & Hrun5); [|done..|].
  { split; [exists sA1; split; [done|by right]|by rewrite Hn3|by exists rpt4|done]. }
  do 8 eexists. split; [exact Hrun1|]. split; [exact Hrun2|]. split; [exact Hrun3|]. split; [exact Hrun4|].
  split; [exact Hrun5|]. unfold shown. cbn [h_rt events set_events].
  rewrite !map_app, <-!app_assoc. cbn [map app]. unfold ev_message. rewrite Htx, Hmid. by split.
Qed.
(** A text reaches the other application, and its sender learns it did.
    Two nodes make a link; each has an engine with that link in its table.
    When the first application sends a text, a turn of [sendWorker] writes it,
    a turn of the other engine's [recvLoop] shows a [message] event with that
    text and id and answers with a receipt, and a turn of the first one's
    [recvLoop] shows it as [DELIVERED]; when the second application then marks
    the conversation read, the first is shown [READ], for the same id.  None of
    these waits, and no other event is shown. *)
Theorem message_confirmed nA nB text id :
  let keyA := SigningPub (ms_local (n_sessions nA)) in
  let keyB := SigningPub (acc_Identity (n_Account nB)) in
  node_ok nB → fresh_start nA nB → length keyA = PublicKeySize →
  valid_utf8 text = true → valid_utf8 id = true → id ≠ [] →
  ∃ lA lB mA mB,
    rtc duo_step (Duo (handshakeInitiator keyB nA) (handshakeResponder nB) [] [])
                 (Duo (Halt (Ok lA) mA) (Halt (Ok lB) mB) [] []) ∧
    ∀ a b rA rB osA osB dirA dirB handleA handleB,
      has_link a (l_peerFP lA) rA → has_link b (l_peerFP lB) rB → outbox rA = [] →
      let A := MkEnv Transport.A a lA osA in
      let B := MkEnv Transport.B b lB osB in
      ∃ hA hA' hA'' hB hB' p1 p2 p3,
        runs A (let^ _ := Send (URI handleB keyB) text id in sendWorker 1) (MkHost mA rA 0) Pipe = Some (tt, hA, p1) ∧
        runs B (recvLoop dirB 1 b) (MkHost mB rB 0) p1 = Some (tt, hB, p2) ∧
        runs A (recvLoop dirA 1 a) hA p2 = Some (tt, hA', Pipe) ∧
        runs B (MarkRead (URI handleA keyA)) hB Pipe = Some (tt, hB', p3) ∧
        runs A (recvLoop dirA 1 a) hA' p3 = Some (tt, hA'', Pipe) ∧
        shown (h_rt hB') = shown rB ++ [MkEvent (bs "message") (lk_fp b) (peerURI b) text [] [] id false [] 0] ∧
        shown (h_rt hA'') = shown rA ++ [ev_sent (lk_fp a) id; ev_receipt (lk_fp a) id StateDelivered;
                                         ev_receipt (lk_fp a) id StateRead].
Proof.
  intros keyA keyB Hok Hst HkA Hx Hid Hne.
  destruct (handshake_fresh_links nA nB Hok Hst)
    as (lA & lB & mA & mB & sA & sB & Hr & HA & HB & Hf).
  exists lA, lB, mA, mB. split; [exact Hr|]. intros a b rA rB osA osB dirA dirB handleA handleB Ha Hb Ho A B.
  rewrite HA in Ha. rewrite HB in Hb.
  pose proof (node_ok_key _ Hok). by apply (exchange mA lA sA mB lB sB a b rA rB keyA keyB).
Qed.
End properties.

(** ** Instances *)

Import ToyCurves.

Lemma message_confirmed_witness :
  let keyA := SigningPub ToyNodes.alice_id in
  let keyB := SigningPub Toy.bob in
  ∃ lA lB mA mB,
    rtc duo_step (Duo (handshakeInitiator keyB ToyHops.alice) (handshakeResponder ToyNodes.bob) [] [])
                 (Duo (Halt (Ok lA) mA) (Halt (Ok lB) mB) [] []) ∧
    ∀ a b rA rB osA osB dirA dirB handleA handleB,
      has_link a (l_peerFP lA) rA → has_link b (l_peerFP lB) rB → outbox rA = [] →
      let A := MkEnv Transport.A a lA osA in
      let B := MkEnv Transport.B b lB osB in
      ∃ hA hA' hA'' hB hB' p1 p2 p3,
        runs A (let^ _ := Send (URI handleB keyB) (bs "hi") (bs "m1") in sendWorker 1) (MkHost mA rA 0) Pipe = Some (tt, hA, p1) ∧
        runs B (recvLoop dirB 1 b) (MkHost mB rB 0) p1 = Some (tt, hB, p2) ∧
        runs A (recvLoop dirA 1 a) hA p2 = Some (tt, hA', Pipe) ∧
        runs B (MarkRead (URI handleA keyA)) hB Pipe = Some (tt, hB', p3) ∧
        runs A (recvLoop dirA 1 a) hA' p3 = Some (tt, hA'', Pipe) ∧
        shown (h_rt hB') = shown rB ++ [MkEvent (bs "message") (lk_fp b) (peerURI b) (bs "hi") [] [] (bs "m1") false [] 0] ∧
        shown (h_rt hA'') = shown rA ++ [ev_sent (lk_fp a) (bs "m1"); ev_receipt (lk_fp a) (bs "m1") StateDelivered;
                                         ev_receipt (lk_fp a) (bs "m1") StateRead].
Proof.
  apply (message_confirmed ToyHops.alice ToyNodes.bob (bs "hi") (bs "m1") ToyNodes.bob_ok ToyHops.alice_bob);
    [reflexivity|reflexivity|reflexivity|discriminate].
Defined.

(** A system that answers every call with an error, or nothing. *)
Definition silent (i : nat) (o : op) : res o :=
  match o return res o with
  | OGetLink _ => None
  | OPoll => []
  | OStop => None
  | OLast _ => []
  | ODequeue => None
  | OIsClosed | OWait => false
  | OReceive _ => Err []
  | OFileBody _ _ | OReadFile _ => Err []
  | OConnect _ | OListen => Err []
  | OSendEnvelope _ _ | OSendFile _ _ _ _ _ | OSendReceipt _ _ _ _ | OSendTyping _ _
  | OFind _ | OAdvertise _ | OMkdirAll _ | OWriteFile _ _ => Err []
  | OClock => zero_time
  | OUnix | OUnixNano => Z.of_nat i
  | ORand => []
  | OTypeByExtension _ => []
  | OSetLink _ | ODelLink _ _ | OPush _ | OSetLast _ _ | OEnqueue _ | OGo _ | OClose _ | OSigClose | OTrClose => tt
  end.

Lemma runs_in_pool_witness :
  let E := MkEnv Transport.A (toy_link 1) (MkLink 0%nat [] []) silent in
  let h := MkHost ToyHops.alice (put_link (toy_link 1) new_runtime) 0 in
  ∃ a h' q' new, runs E (dropLink (bs "fp") (toy_link 1)) h Pipe = Some (a, h', q') ∧
    rtc (rt_step [] (bs "/d")) (MkPool (h_rt h) ([] ++ dropLink (bs "fp") (toy_link 1) :: []))
                               (MkPool (h_rt h') ([] ++ Ret a :: [] ++ new)).
Proof.
  intros E h. do 3 eexists.
  edestruct (runs_in_pool E [] (bs "/d") (dropLink (bs "fp") (toy_link 1)) h Pipe) as (new & Hr); [reflexivity|].
  exists new. split; [reflexivity|exact Hr].
Defined.
